(** * Trip detection engine of the Google Timeline analyzer

    A shallow embedding of [src/analysis/trip_detector.py] (class
    [TripDetector]) together with the part of [src/core/database.py] it
    relies on: the ORM rows, the session (add / flush / commit) and the
    primary and foreign keys of the three trip tables.

    Conventions of the embedding:
    - a [datetime] is a number of seconds ([Z]) on the time line of the
      database session; [date_of] and [hour_of] are [.date()] and
      [extract('hour', ...)];
    - a Python [float] is a double: a rational ([Q]), with the results of
      float arithmetic rounded to double precision ([round64], [fadd],
      [fdiv]); [None] is [option];
    - PostGIS' [ST_Distance] is a parameter of the development
      ([Section Engine]); so is the iteration order of a Python [set];
    - the session is threaded through a state-and-exception monad [M]. *)

From Stdlib Require Import ZArith QArith Qabs Lia Lqa.
From Stdlib Require Floats.
From stdpp Require Import base list strings gmap sorting.

Close Scope Q_scope.
Open Scope Z_scope.

(** ** Python values *)

(** Truthiness of an optional string ([None] and the empty string are falsy). *)
Definition truthy_str (o : option string) : bool :=
  match o with
  | Some s => negb (String.eqb s "")
  | None => false
  end.

(** Truthiness of an optional float ([None] and [0.0] are falsy). *)
Definition truthy_float (o : option Q) : bool :=
  match o with
  | Some q => negb (Qeq_bool q 0)
  | None => false
  end.

(** [x or 0] on an optional number. *)
Definition or_0 (o : option Q) : Q :=
  match o with
  | Some q => if Qeq_bool q 0 then 0%Q else q
  | None => 0%Q
  end.

Definition or_0_int (o : option Z) : Z :=
  match o with
  | Some z => z
  | None => 0
  end.

(** [x or []] on an optional list. *)
Definition or_nil {A} (o : option (list A)) : list A :=
  match o with
  | Some l => l
  | None => []
  end.

(** [a >= b], [a > b] and [a < b] on floats. *)
Definition Qgeb (a b : Q) : bool := Qle_bool b a.
Definition Qgtb (a b : Q) : bool := negb (Qle_bool a b).
Definition Qltb (a b : Q) : bool := negb (Qle_bool b a).

(** ** Double precision *)

(** A Python [float] and a PostgreSQL [double precision] are IEEE 754
    binary64 numbers.  A finite double is a rational, so the carrier is [Q];
    [round64 x] is the double nearest to [x], the one with the even
    significand of two at the same distance: 53 significant bits.  The
    exponent is not bounded: infinities, NaN and magnitudes beyond the range
    of the normal doubles (below 2^-1022 or from 2^1024 on) are outside the
    model. *)

(** An integer [k] with [2^(k-1) < n / d < 2^(k+1)], and [2^k <= n / d]:
    the exponent of [n / d]. *)
Definition floor_log2 (n d : positive) : Z :=
  let k := Z.log2 (Zpos n) - Z.log2 (Zpos d) in
  if (if 0 <=? k then Zpos d * 2 ^ k <=? Zpos n else Zpos d <=? Zpos n * 2 ^ (- k))
  then k else k - 1.

(** The integer nearest to [num / den], the even one of two at the same
    distance. *)
Definition round_half_even (num den : Z) : Z :=
  let m := num / den in
  match 2 * (num mod den) ?= den with
  | Lt => m
  | Gt => m + 1
  | Eq => if Z.even m then m else m + 1
  end.

Definition round64_pos (n d : positive) : Q :=
  let e := floor_log2 n d - 52 in
  if 0 <=? e
  then inject_Z (round_half_even (Zpos n) (Zpos d * 2 ^ e) * 2 ^ e)
  else Qmake (round_half_even (Zpos n * 2 ^ (- e)) (Zpos d)) (Z.to_pos (2 ^ (- e))).

Definition round64 (x : Q) : Q :=
  Qred match Qnum x with
       | Z0 => 0%Q
       | Zpos n => round64_pos n (Qden x)
       | Zneg n => Qopp (round64_pos n (Qden x))
       end.

(** [a + b], [a - b], [a * b] and [a / b] on floats: the double nearest to
    the exact result.  An operand that is not a double stands for the double
    nearest to it, as a literal does. *)
Definition fadd (a b : Q) : Q := round64 (round64 a + round64 b).
Definition fsub (a b : Q) : Q := round64 (round64 a - round64 b).
Definition fmul (a b : Q) : Q := round64 (round64 a * round64 b).
Definition fdiv (a b : Q) : Q := round64 (round64 a / round64 b).

(** [a <= b], [a >= b], [a < b] and [a > b] on floats. *)
Definition fle (a b : Q) : bool := Qle_bool (round64 a) (round64 b).
Definition fge (a b : Q) : bool := fle b a.
Definition flt (a b : Q) : bool := negb (fle b a).
Definition fgt (a b : Q) : bool := negb (fle a b).

(** Python's [sum] of floats before version 3.12, and SQL's [SUM] over the
    rows in table order: from 0, left to right. *)
Definition sum_floats (l : list Q) : Q := fold_left fadd l 0%Q.

(** The rational a double of the machine stands for ([None] for an infinity
    or NaN): the arithmetic of the processor, to compare [round64] and the
    operations above with on concrete values. *)
Module Hardware.
Import Floats.

Definition double_value (f : float) : option Q :=
  match Prim2SF f with
  | S754_zero _ => Some 0%Q
  | S754_finite sign m e =>
      let v := if 0 <=? e then inject_Z (Zpos m * 2 ^ e)
               else Qmake (Zpos m) (Z.to_pos (2 ^ (- e))) in
      Some (Qred (if sign then Qopp v else v))
  | _ => None
  end.

End Hardware.

(** [enumerate(l)]. *)
Fixpoint enumerate_from {A} (i : Z) (l : list A) : list (Z * A) :=
  match l with
  | [] => []
  | x :: l' => (i, x) :: enumerate_from (i + 1) l'
  end.
Definition enumerate {A} (l : list A) : list (Z * A) := enumerate_from 0 l.

(** ** Dates and times *)

Definition datetime := Z.

Definition date_of (t : datetime) : Z := t / 86400.
Definition hour_of (t : datetime) : Z := (t mod 86400) / 3600.
(** [(a - b).total_seconds()]. *)
Definition total_seconds (a b : datetime) : Z := a - b.

(** ** ORM rows ([src/core/database.py]) *)

Record Point := { lon : Q; lat : Q }.

Module VisitModel.
Record t := {
  place_id : option string;
  semantic_type : option string;
  location : option Point
}.
End VisitModel.

Module ActivityModel.
Record t := {
  start_location : option Point;
  distance_meters : option Q;
  activity_type : option string
}.
End ActivityModel.

Module TimelineMemoryModel.
Record t := {
  distance_from_origin_kms : option Z;
  destination_place_ids : option (list string)
}.
End TimelineMemoryModel.

Module TimelineSegment.
Record t := {
  id : Z;
  segment_type : string;
  start_time : datetime;
  end_time : datetime;
  visit : option VisitModel.t;
  activity : option ActivityModel.t;
  timeline_memory : option TimelineMemoryModel.t
}.
End TimelineSegment.

Module UserProfileModel.
Record t := {
  home_place_id : option string;
  home_location : option Point
}.
End UserProfileModel.

Module TripModel.
Record t := {
  id : Z;
  start_time : datetime;
  end_time : datetime;
  is_multi_day : bool;
  total_distance_meters : Q;
  primary_transport_mode : option string;
  detection_algorithm : string
}.
(** The row as inserted: the primary key comes from the table's sequence. *)
Definition with_id (i : Z) (r : t) : t :=
  {| id := i; start_time := start_time r; end_time := end_time r;
     is_multi_day := is_multi_day r;
     total_distance_meters := total_distance_meters r;
     primary_transport_mode := primary_transport_mode r;
     detection_algorithm := detection_algorithm r |}.
End TripModel.

Module TripDestinationModel.
Record t := { trip_id : Z; place_id : string; visit_order : Z }.
End TripDestinationModel.

Module TripSegmentModel.
Record t := { trip_id : Z; segment_id : Z; segment_order : Z }.
End TripSegmentModel.

(** ** The session *)

(** Objects handed to [db.add] and not yet flushed. *)
Inductive Pending :=
| PTrip (r : TripModel.t)
| PDest (r : TripDestinationModel.t)
| PSeg (r : TripSegmentModel.t).

Record Session := {
  timeline_segments : list TimelineSegment.t;
  user_profile : list UserProfileModel.t;
  places : list string;
  trips : list TripModel.t;
  trips_id_seq : Z;
  trip_destinations : list TripDestinationModel.t;
  trip_segments : list TripSegmentModel.t;
  pending : list Pending
}.

Definition set_pending (p : list Pending) (s : Session) : Session :=
  {| timeline_segments := timeline_segments s; user_profile := user_profile s;
     places := places s; trips := trips s; trips_id_seq := trips_id_seq s;
     trip_destinations := trip_destinations s;
     trip_segments := trip_segments s; pending := p |}.

Definition insert_trip (r : TripModel.t) (s : Session) : Session :=
  {| timeline_segments := timeline_segments s; user_profile := user_profile s;
     places := places s; trips := trips s ++ [r];
     trips_id_seq := TripModel.id r;
     trip_destinations := trip_destinations s;
     trip_segments := trip_segments s; pending := pending s |}.

Definition insert_destination (r : TripDestinationModel.t) (s : Session) : Session :=
  {| timeline_segments := timeline_segments s; user_profile := user_profile s;
     places := places s; trips := trips s; trips_id_seq := trips_id_seq s;
     trip_destinations := trip_destinations s ++ [r];
     trip_segments := trip_segments s; pending := pending s |}.

Definition insert_segment_link (r : TripSegmentModel.t) (s : Session) : Session :=
  {| timeline_segments := timeline_segments s; user_profile := user_profile s;
     places := places s; trips := trips s; trips_id_seq := trips_id_seq s;
     trip_destinations := trip_destinations s;
     trip_segments := trip_segments s ++ [r]; pending := pending s |}.

(** One INSERT, with the primary-key and foreign-key checks of the table:
    [trips.id]; [trip_destinations (trip_id, place_id)] with [trip_id] in
    [trips] and [place_id] in [places]; [trip_segments (trip_id,
    segment_id)] with [trip_id] in [trips] and [segment_id] in
    [timeline_segments].  [None] is an integrity error. *)
Definition insert_row (o : Pending) (s : Session) : option Session :=
  match o with
  | PTrip r =>
      let i := trips_id_seq s + 1 in
      if existsb (fun r' => TripModel.id r' =? i) (trips s) then None
      else Some (insert_trip (TripModel.with_id i r) s)
  | PDest r =>
      if existsb (fun r' =>
                    (TripDestinationModel.trip_id r' =? TripDestinationModel.trip_id r)
                    && String.eqb (TripDestinationModel.place_id r')
                                  (TripDestinationModel.place_id r))
                 (trip_destinations s) then None
      else if negb (existsb (fun r' => TripModel.id r' =? TripDestinationModel.trip_id r)
                            (trips s)) then None
      else if negb (existsb (String.eqb (TripDestinationModel.place_id r)) (places s))
      then None
      else Some (insert_destination r s)
  | PSeg r =>
      if existsb (fun r' =>
                    (TripSegmentModel.trip_id r' =? TripSegmentModel.trip_id r)
                    && (TripSegmentModel.segment_id r' =? TripSegmentModel.segment_id r))
                 (trip_segments s) then None
      else if negb (existsb (fun r' => TripModel.id r' =? TripSegmentModel.trip_id r)
                            (trips s)) then None
      else if negb (existsb (fun g => TimelineSegment.id g =? TripSegmentModel.segment_id r)
                            (timeline_segments s)) then None
      else Some (insert_segment_link r s)
  end.

Fixpoint insert_rows (os : list Pending) (s : Session) : option Session :=
  match os with
  | [] => Some s
  | o :: os' =>
      match insert_row o s with
      | Some s' => insert_rows os' s'
      | None => None
      end
  end.

(** ** The monad of session operations *)

Inductive Exn := IntegrityError.

Inductive Res (A : Type) :=
| Ok (a : A) (s : Session)
| Raise (e : Exn).
Arguments Ok {A} a s.
Arguments Raise {A} e.

Definition M (A : Type) := Session -> Res A.

Definition ret {A} (a : A) : M A := fun s => Ok a s.
Definition bind {A B} (m : M A) (k : A -> M B) : M B :=
  fun s => match m s with
           | Ok a s' => k a s'
           | Raise e => Raise e
           end.
Definition gets {A} (f : Session -> A) : M A := fun s => Ok (f s) s.

Declare Scope session_scope.
Delimit Scope session_scope with session.
Notation "x <- m ;; k" := (bind m (fun x => k))
  (at level 100, m at next level, right associativity) : session_scope.
Notation "m ;;; k" := (bind m (fun _ => k))
  (at level 100, right associativity) : session_scope.
Open Scope session_scope.

(** [db.add(obj)]. *)
Definition add (o : Pending) : M unit :=
  fun s => Ok tt (set_pending (pending s ++ [o]) s).

(** [db.flush()]: the pending objects are inserted, in the order they were
    added; the session factory has [autoflush=False], so nothing else
    flushes. *)
Definition flush : M unit :=
  fun s => match insert_rows (pending s) (set_pending [] s) with
           | Some s' => Ok tt s'
           | None => Raise IntegrityError
           end.

(** [db.commit()]. *)
Definition commit : M unit := flush.

(** [for x in l: body x]. *)
Fixpoint for_each {A} (l : list A) (body : A -> M unit) : M unit :=
  match l with
  | [] => ret tt
  | x :: l' => body x ;;; for_each l' body
  end.

(** ** Queries *)

(** [start_date] / [end_date] filters shared by the four detectors. *)
Definition in_range (start_date end_date : option datetime)
    (g : TimelineSegment.t) : bool :=
  match start_date with
  | Some d => TimelineSegment.start_time g >=? d
  | None => true
  end &&
  match end_date with
  | Some d => TimelineSegment.end_time g <=? d
  | None => true
  end.

(** [ORDER BY timeline_segments.start_time]: a stable insertion sort. *)
Fixpoint insert_by_start (g : TimelineSegment.t) (l : list TimelineSegment.t)
    : list TimelineSegment.t :=
  match l with
  | [] => [g]
  | h :: l' =>
      if TimelineSegment.start_time h <=? TimelineSegment.start_time g
      then h :: insert_by_start g l'
      else g :: h :: l'
  end.

Definition order_by_start_time (l : list TimelineSegment.t) : list TimelineSegment.t :=
  fold_left (fun acc g => insert_by_start g acc) l [].

(** [db.query(UserProfileModel).first()]. *)
Definition query_profile : M (option UserProfileModel.t) :=
  gets (fun s => head (user_profile s)).

(** The duplicate check: [db.query(TripModel).filter(start_time == ..,
    end_time == .., detection_algorithm == ..).first()]. *)
Definition same_key (start_time end_time : datetime) (algorithm : string)
    (r : TripModel.t) : bool :=
  (TripModel.start_time r =? start_time)
  && (TripModel.end_time r =? end_time)
  && String.eqb (TripModel.detection_algorithm r) algorithm.

Definition query_existing (start_time end_time : datetime) (algorithm : string)
    : M (option TripModel.t) :=
  gets (fun s => head (List.filter (same_key start_time end_time algorithm) (trips s))).

(** [db.query(TimelineMemoryModel).join(TimelineSegment)] with the date filters. *)
Definition query_memories (start_date end_date : option datetime)
    : M (list (TimelineMemoryModel.t * TimelineSegment.t)) :=
  gets (fun s =>
    flat_map (fun g => match TimelineSegment.timeline_memory g with
                       | Some m => if in_range start_date end_date g then [(m, g)] else []
                       | None => []
                       end)
             (timeline_segments s)).

(** [db.query(TimelineSegment).order_by(start_time)] with the date filters. *)
Definition query_segments (start_date end_date : option datetime)
    : M (list TimelineSegment.t) :=
  gets (fun s =>
    order_by_start_time (List.filter (in_range start_date end_date) (timeline_segments s))).

(** The same restricted to [segment_type IN ('visit', 'activity')]. *)
Definition is_visit_or_activity (g : TimelineSegment.t) : bool :=
  String.eqb (TimelineSegment.segment_type g) "visit"
  || String.eqb (TimelineSegment.segment_type g) "activity".

Definition query_visits_and_activities (start_date end_date : option datetime)
    : M (list TimelineSegment.t) :=
  gets (fun s =>
    order_by_start_time
      (List.filter (fun g => is_visit_or_activity g && in_range start_date end_date g)
                   (timeline_segments s))).

(** SQL [column != :param] as SQLAlchemy renders it: a NULL column never
    satisfies it; a [None] parameter renders [IS NOT NULL]. *)
Definition sql_ne (column param : option string) : bool :=
  match param, column with
  | None, Some _ => true
  | None, None => false
  | Some h, Some p => negb (String.eqb p h)
  | Some _, None => false
  end.

(** The night-window filter of the overnight query: the three criteria of
    one [filter(...)] call are joined by AND. *)
Definition overnight_window (g : TimelineSegment.t) : bool :=
  (hour_of (TimelineSegment.start_time g) >=? 20)
  && (hour_of (TimelineSegment.end_time g) <=? 8)
  && (total_seconds (TimelineSegment.end_time g) (TimelineSegment.start_time g)
      >=? 6 * 3600).

(** [db.query(VisitModel, TimelineSegment).join(...).filter(...)
    .order_by(TimelineSegment.start_time)] of the overnight detector. *)
Definition query_overnight_visits (use_distance_based : bool)
    (home_place_id : option string) (start_date end_date : option datetime)
    : M (list (VisitModel.t * TimelineSegment.t)) :=
  gets (fun s =>
    flat_map (fun g => match TimelineSegment.visit g with
                       | Some v => [(v, g)]
                       | None => []
                       end)
      (order_by_start_time
         (List.filter
            (fun g =>
               match TimelineSegment.visit g with
               | Some v =>
                   (if use_distance_based then true
                    else sql_ne (VisitModel.place_id v) home_place_id)
                   && overnight_window g
                   && in_range start_date end_date g
               | None => false
               end)
            (timeline_segments s)))).

(** ** The detectors ([TripDetector]) *)

(** [mode_distances = defaultdict(float)]: a dict keeps its keys in
    insertion order, so it is an association list; the key is the
    activity's [activity_type] column, which is nullable. *)
Definition mode_dict := list (option string * Q).

(** [mode_distances[mode] += dist]. *)
Fixpoint dict_add (mode : option string) (dist : Q) (d : mode_dict) : mode_dict :=
  match d with
  | [] => [(mode, fadd 0 dist)]
  | (k, v) :: d' =>
      if decide (k = mode) then (k, fadd v dist) :: d'
      else (k, v) :: dict_add mode dist d'
  end.

(** The loop filling [mode_distances] in [_create_trip]. *)
Fixpoint mode_distances_from (segments : list TimelineSegment.t) (d : mode_dict)
    : mode_dict :=
  match segments with
  | [] => d
  | segment :: rest =>
      match TimelineSegment.activity segment with
      | Some a =>
          mode_distances_from rest
            (dict_add (ActivityModel.activity_type a)
                      (or_0 (ActivityModel.distance_meters a)) d)
      | None => mode_distances_from rest d
      end
  end.

Definition mode_distances (segments : list TimelineSegment.t) : mode_dict :=
  mode_distances_from segments [].

(** [max(items, key=lambda x: x[1])]: the first item whose value no later
    item exceeds strictly. *)
Fixpoint max_by_value (best : option string * Q) (items : mode_dict)
    : option string * Q :=
  match items with
  | [] => best
  | item :: rest =>
      max_by_value (if Qgtb (snd item) (snd best) then item else best) rest
  end.

(** [max(mode_distances.items(), key=...)[0] if mode_distances else None]. *)
Definition primary_mode (segments : list TimelineSegment.t) : option string :=
  match mode_distances segments with
  | [] => None
  | item :: rest => fst (max_by_value item rest)
  end.

Section Engine.

(** [db.query(ST_Distance(a, b)).scalar()], in meters. *)
Variable ST_Distance : Point -> Point -> option Q.

(** [list(s)] for a Python [set] of strings [s]: some enumeration of the
    elements, in an order the language does not fix. *)
Variable set_iter : gset string -> list string.

(** *** [_create_trip] *)

Definition _create_trip (start_time end_time : datetime)
    (segments : list TimelineSegment.t) (distance_meters : Q)
    (destinations : list string) (algorithm : string) : M unit :=
  existing <- query_existing start_time end_time algorithm ;;
  match existing with
  | Some _ => ret tt
  | None =>
      let trip :=
        {| TripModel.id := 0;
           TripModel.start_time := start_time;
           TripModel.end_time := end_time;
           TripModel.is_multi_day := date_of end_time >? date_of start_time;
           TripModel.total_distance_meters := distance_meters;
           TripModel.primary_transport_mode := primary_mode segments;
           TripModel.detection_algorithm := algorithm |} in
      add (PTrip trip) ;;;
      flush ;;;
      trip_id <- gets trips_id_seq ;;
      for_each (enumerate destinations) (fun '(idx, place_id) =>
        add (PDest {| TripDestinationModel.trip_id := trip_id;
                      TripDestinationModel.place_id := place_id;
                      TripDestinationModel.visit_order := idx |})) ;;;
      for_each (enumerate segments) (fun '(idx, segment) =>
        add (PSeg {| TripSegmentModel.trip_id := trip_id;
                     TripSegmentModel.segment_id := TimelineSegment.id segment;
                     TripSegmentModel.segment_order := idx |}))
  end.

(** *** [detect_timeline_memory_trips] *)

Fixpoint memory_loop (memories : list (TimelineMemoryModel.t * TimelineSegment.t))
    (trip_count : Z) : M Z :=
  match memories with
  | [] => ret trip_count
  | (memory, segment) :: rest =>
      existing <- query_existing (TimelineSegment.start_time segment)
                                 (TimelineSegment.end_time segment)
                                 "timeline_memory" ;;
      match existing with
      | Some _ => memory_loop rest trip_count
      | None =>
          let trip :=
            {| TripModel.id := 0;
               TripModel.start_time := TimelineSegment.start_time segment;
               TripModel.end_time := TimelineSegment.end_time segment;
               TripModel.is_multi_day :=
                 date_of (TimelineSegment.end_time segment)
                 >? date_of (TimelineSegment.start_time segment);
               TripModel.total_distance_meters :=
                 inject_Z
                   (or_0_int (TimelineMemoryModel.distance_from_origin_kms memory)
                    * 1000);
               TripModel.primary_transport_mode := None;
               TripModel.detection_algorithm := "timeline_memory" |} in
          add (PTrip trip) ;;;
          flush ;;;
          trip_id <- gets trips_id_seq ;;
          for_each (enumerate (or_nil (TimelineMemoryModel.destination_place_ids memory)))
            (fun '(idx, place_id) =>
               add (PDest {| TripDestinationModel.trip_id := trip_id;
                             TripDestinationModel.place_id := place_id;
                             TripDestinationModel.visit_order := idx |})) ;;;
          add (PSeg {| TripSegmentModel.trip_id := trip_id;
                       TripSegmentModel.segment_id := TimelineSegment.id segment;
                       TripSegmentModel.segment_order := 0 |}) ;;;
          memory_loop rest (trip_count + 1)
      end
  end.

Definition detect_timeline_memory_trips (start_date end_date : option datetime)
    : M Z :=
  memories <- query_memories start_date end_date ;;
  trip_count <- memory_loop memories 0 ;;
  commit ;;;
  ret trip_count.

(** *** [detect_home_based_trips] *)

(** The home test of the loop body (lines 216-226). *)
Definition is_home (home_place_id : option string) (home_location : option Point)
    (use_distance_based : bool) (segment : TimelineSegment.t) : bool :=
  match TimelineSegment.visit segment with
  | Some v =>
      match use_distance_based, VisitModel.location v, home_location with
      | true, Some loc, Some home =>
          let distance := ST_Distance home loc in
          truthy_float distance
          && match distance with
             | Some d => Qltb (d / 1000) 1
             | None => false
             end
      | _, _, _ =>
          if truthy_str home_place_id
          then bool_decide (VisitModel.place_id v = home_place_id)
          else false
      end
  | None => false
  end.

(** The three accumulators of the loop. *)
Record HomeAcc := {
  current_trip_segments : list TimelineSegment.t;
  current_trip_distance : Q;
  current_trip_destinations : gset string
}.

Definition home_acc_reset : HomeAcc :=
  {| current_trip_segments := []; current_trip_distance := 0%Q;
     current_trip_destinations := ∅ |}.

(** The [else] branch: the segment joins the current trip. *)
Definition home_acc_push (segment : TimelineSegment.t) (acc : HomeAcc) : HomeAcc :=
  {| current_trip_segments := current_trip_segments acc ++ [segment];
     current_trip_distance :=
       match TimelineSegment.activity segment with
       | Some a => fadd (current_trip_distance acc)
                        (or_0 (ActivityModel.distance_meters a))
       | None => current_trip_distance acc
       end;
     current_trip_destinations :=
       match TimelineSegment.visit segment with
       | Some v =>
           match VisitModel.place_id v with
           | Some p => if truthy_str (Some p)
                       then current_trip_destinations acc ∪ {[ p ]}
                       else current_trip_destinations acc
           | None => current_trip_destinations acc
           end
       | None => current_trip_destinations acc
       end |}.

Section HomeLoop.
Variables (home_place_id : option string) (home_location : option Point)
          (use_distance_based : bool)
          (min_distance_km min_duration_hours : Q).

Fixpoint home_loop (segments : list TimelineSegment.t) (acc : HomeAcc)
    (trip_count : Z) : M Z :=
  match segments with
  | [] => ret trip_count
  | segment :: rest =>
      if is_home home_place_id home_location use_distance_based segment then
        match current_trip_segments acc with
        | [] => home_loop rest acc trip_count
        | first :: _ =>
            let trip_start := TimelineSegment.start_time first in
            let trip_end := TimelineSegment.start_time segment in
            let duration_hours :=
              fdiv (inject_Z (total_seconds trip_end trip_start)) 3600 in
            if fge (fdiv (current_trip_distance acc) 1000) min_distance_km
               && fge duration_hours min_duration_hours
            then
              _create_trip trip_start trip_end (current_trip_segments acc)
                (current_trip_distance acc)
                (set_iter (current_trip_destinations acc)) "home_based" ;;;
              home_loop rest home_acc_reset (trip_count + 1)
            else home_loop rest home_acc_reset trip_count
        end
      else home_loop rest (home_acc_push segment acc) trip_count
  end.
End HomeLoop.

(** [not profile or (not profile.home_place_id and not profile.home_location)]. *)
Definition no_home (profile : option UserProfileModel.t) : bool :=
  match profile with
  | None => true
  | Some p => negb (truthy_str (UserProfileModel.home_place_id p))
              && negb (bool_decide (is_Some (UserProfileModel.home_location p)))
  end.

(** [home_place_id is None and home_location is not None]. *)
Definition uses_distance (p : UserProfileModel.t) : bool :=
  bool_decide (UserProfileModel.home_place_id p = None)
  && bool_decide (is_Some (UserProfileModel.home_location p)).

Definition detect_home_based_trips (start_date end_date : option datetime)
    (min_distance_km min_duration_hours : Q) : M Z :=
  profile <- query_profile ;;
  match profile with
  | None => ret 0
  | Some p =>
      if no_home profile then ret 0
      else
        segments <- query_segments start_date end_date ;;
        trip_count <- home_loop (UserProfileModel.home_place_id p)
                        (UserProfileModel.home_location p) (uses_distance p)
                        min_distance_km min_duration_hours
                        segments home_acc_reset 0 ;;
        commit ;;;
        ret trip_count
  end.

(** *** [_create_overnight_trip] and [detect_overnight_trips] *)

Definition _create_overnight_trip (visits : list (VisitModel.t * TimelineSegment.t))
    : M unit :=
  match visits, last visits with
  | (first_visit, first_segment) :: _, Some (last_visit, last_segment) =>
      let segments := map snd visits in
      let destinations :=
        omap (fun '(v, _) => if truthy_str (VisitModel.place_id v)
                             then VisitModel.place_id v else None) visits in
      _create_trip (TimelineSegment.start_time first_segment)
                   (TimelineSegment.end_time last_segment)
                   segments 0%Q destinations "overnight"
  | _, _ => ret tt
  end.

(** The distance filter applied to the query's rows when the home is a
    coordinate (lines 327-337). *)
Definition far_from_home (home_location : option Point) (v : VisitModel.t) : bool :=
  match VisitModel.location v, home_location with
  | Some loc, Some home =>
      let distance := ST_Distance home loc in
      truthy_float distance
      && match distance with
         | Some d => Qgeb (d / 1000) 1
         | None => false
         end
  | _, _ => false
  end.

Fixpoint overnight_loop (min_nights : Z)
    (overnight_visits : list (VisitModel.t * TimelineSegment.t))
    (current_trip_visits : list (VisitModel.t * TimelineSegment.t))
    (trip_count : Z) : M Z :=
  match overnight_visits with
  | [] =>
      if Z.of_nat (length current_trip_visits) >=? min_nights then
        _create_overnight_trip current_trip_visits ;;;
        ret (trip_count + 1)
      else ret trip_count
  | (visit, segment) :: rest =>
      match last current_trip_visits with
      | None => overnight_loop min_nights rest [(visit, segment)] trip_count
      | Some (_, last_segment) =>
          let time_gap :=
            total_seconds (TimelineSegment.start_time segment)
                          (TimelineSegment.end_time last_segment) in
          if time_gap >? 48 * 3600 then
            if Z.of_nat (length current_trip_visits) >=? min_nights then
              _create_overnight_trip current_trip_visits ;;;
              overnight_loop min_nights rest [(visit, segment)] (trip_count + 1)
            else overnight_loop min_nights rest [(visit, segment)] trip_count
          else
            overnight_loop min_nights rest
              (current_trip_visits ++ [(visit, segment)]) trip_count
      end
  end.

Definition detect_overnight_trips (start_date end_date : option datetime)
    (min_nights : Z) : M Z :=
  profile <- query_profile ;;
  match profile with
  | None => ret 0
  | Some p =>
      if no_home profile then ret 0
      else
        let home_place_id := UserProfileModel.home_place_id p in
        let home_location := UserProfileModel.home_location p in
        let use_distance_based := uses_distance p in
        rows <- query_overnight_visits use_distance_based home_place_id
                  start_date end_date ;;
        let overnight_visits :=
          if use_distance_based
          then List.filter (fun '(visit, _) => far_from_home home_location visit) rows
          else rows in
        trip_count <- overnight_loop min_nights overnight_visits [] 0 ;;
        commit ;;;
        ret trip_count
  end.

(** *** [_create_clustered_trip] and [detect_distance_based_trips] *)

(** The loop of [_create_clustered_trip] over the cluster. *)
Fixpoint cluster_totals (segments : list TimelineSegment.t)
    (total_distance : Q) (destinations : list string) : Q * list string :=
  match segments with
  | [] => (total_distance, destinations)
  | segment :: rest =>
      let total_distance' :=
        match TimelineSegment.activity segment with
        | Some a => fadd total_distance (or_0 (ActivityModel.distance_meters a))
        | None => total_distance
        end in
      let destinations' :=
        match TimelineSegment.visit segment with
        | Some v =>
            match VisitModel.place_id v with
            | Some p => if truthy_str (Some p) then destinations ++ [p]
                        else destinations
            | None => destinations
            end
        | None => destinations
        end in
      cluster_totals rest total_distance' destinations'
  end.

Definition _create_clustered_trip (segments : list TimelineSegment.t) : M unit :=
  match segments, last segments with
  | first :: _, Some last_segment =>
      let '(total_distance, destinations) := cluster_totals segments 0%Q [] in
      _create_trip (TimelineSegment.start_time first)
                   (TimelineSegment.end_time last_segment)
                   segments total_distance
                   (set_iter (list_to_set destinations)) "distance_based"
  | _, _ => ret tt
  end.

(** The selection of the segments far from home (lines 409-425). *)
Definition is_far (home : Point) (distance_threshold_km : Q)
    (segment : TimelineSegment.t) : bool :=
  let location :=
    match TimelineSegment.visit segment with
    | Some v =>
        match VisitModel.location v with
        | Some loc => Some loc
        | None =>
            match TimelineSegment.activity segment with
            | Some a => ActivityModel.start_location a
            | None => None
            end
        end
    | None =>
        match TimelineSegment.activity segment with
        | Some a => ActivityModel.start_location a
        | None => None
        end
    end in
  match location with
  | Some loc =>
      let distance := ST_Distance home loc in
      truthy_float distance
      && match distance with
         | Some d => fge (fdiv d 1000) distance_threshold_km
         | None => false
         end
  | None => false
  end.

Fixpoint distance_loop (time_gap_hours : Q) (far_segments : list TimelineSegment.t)
    (current_cluster : list TimelineSegment.t) (trip_count : Z) : M Z :=
  match far_segments with
  | [] =>
      if Z.of_nat (length current_cluster) >=? 2 then
        _create_clustered_trip current_cluster ;;;
        ret (trip_count + 1)
      else ret trip_count
  | segment :: rest =>
      match last current_cluster with
      | None => distance_loop time_gap_hours rest [segment] trip_count
      | Some last_segment =>
          let time_gap :=
            fdiv (inject_Z (total_seconds (TimelineSegment.start_time segment)
                                          (TimelineSegment.end_time last_segment)))
                 3600 in
          if fle time_gap time_gap_hours then
            distance_loop time_gap_hours rest (current_cluster ++ [segment]) trip_count
          else if Z.of_nat (length current_cluster) >=? 2 then
            _create_clustered_trip current_cluster ;;;
            distance_loop time_gap_hours rest [segment] (trip_count + 1)
          else distance_loop time_gap_hours rest [segment] trip_count
      end
  end.

Definition detect_distance_based_trips (start_date end_date : option datetime)
    (distance_threshold_km time_gap_hours : Q) : M Z :=
  profile <- query_profile ;;
  match profile with
  | None => ret 0
  | Some p =>
      match UserProfileModel.home_location p with
      | None => ret 0
      | Some home =>
          segments <- query_visits_and_activities start_date end_date ;;
          let far_segments := List.filter (is_far home distance_threshold_km) segments in
          trip_count <- distance_loop time_gap_hours far_segments [] 0 ;;
          commit ;;;
          ret trip_count
      end
  end.

(** *** [detect_all_trips] *)

(** The [stats] dictionary, one count per algorithm. *)
Record Stats := {
  stat_timeline_memory : Z;
  stat_home_based : Z;
  stat_overnight : Z;
  stat_distance_based : Z
}.

Definition detect_all_trips (start_date end_date : option datetime)
    (min_distance_km min_duration_hours distance_threshold_km : Q) : M Stats :=
  c1 <- detect_timeline_memory_trips start_date end_date ;;
  c2 <- detect_home_based_trips start_date end_date min_distance_km min_duration_hours ;;
  c3 <- detect_overnight_trips start_date end_date 1 ;;
  c4 <- detect_distance_based_trips start_date end_date distance_threshold_km 6%Q ;;
  ret {| stat_timeline_memory := c1; stat_home_based := c2;
         stat_overnight := c3; stat_distance_based := c4 |}.

End Engine.

(** * The vocabulary of the properties *)

(** ** Rows, dedup keys and calls to [_create_trip] *)

Definition is_trip_row (o : Pending) : bool :=
  match o with
  | PTrip _ => true
  | _ => false
  end.

(** Between two trips the session holds destination and segment links only. *)
Definition no_pending_trip (s : Session) : Prop :=
  Forall (fun o => is_trip_row o = false) (pending s).

(** The repository proper: segments, profile and places. *)
Definition same_repo (s s' : Session) : Prop :=
  timeline_segments s' = timeline_segments s
  /\ user_profile s' = user_profile s
  /\ places s' = places s.

(** The trip row [_create_trip] builds, with the key [i] it receives. *)
Definition trip_row (i : Z) (start_time end_time : datetime)
    (segments : list TimelineSegment.t) (distance_meters : Q) (algorithm : string)
    : TripModel.t :=
  {| TripModel.id := i;
     TripModel.start_time := start_time;
     TripModel.end_time := end_time;
     TripModel.is_multi_day := date_of end_time >? date_of start_time;
     TripModel.total_distance_meters := distance_meters;
     TripModel.primary_transport_mode := primary_mode segments;
     TripModel.detection_algorithm := algorithm |}.

Definition destination_rows (trip_id : Z) (destinations : list string) : list Pending :=
  map (fun '(idx, place_id) =>
         PDest {| TripDestinationModel.trip_id := trip_id;
                  TripDestinationModel.place_id := place_id;
                  TripDestinationModel.visit_order := idx |})
      (enumerate destinations).

Definition segment_rows (trip_id : Z) (segments : list TimelineSegment.t) : list Pending :=
  map (fun '(idx, segment) =>
         PSeg {| TripSegmentModel.trip_id := trip_id;
                 TripSegmentModel.segment_id := TimelineSegment.id segment;
                 TripSegmentModel.segment_order := idx |})
      (enumerate segments).

Definition key_exists (start_time end_time : datetime) (algorithm : string)
    (s : Session) : bool :=
  existsb (same_key start_time end_time algorithm) (trips s).

Definition trip_key (r : TripModel.t) : datetime * datetime * string :=
  (TripModel.start_time r, TripModel.end_time r, TripModel.detection_algorithm r).

(** At most one trip row per (start_time, end_time, detection_algorithm). *)
Definition unique_keys (l : list TripModel.t) : Prop := NoDup (map trip_key l).

(** One trip row [t] with a key not yet in the table, appended to it. *)
Record appended (t : TripModel.t) (s s' : Session) : Prop := {
  appended_repo : same_repo s s';
  appended_pending : no_pending_trip s';
  appended_fresh : trip_key t ∉ map trip_key (trips s);
  appended_trips : trips s' = trips s ++ [t]
}.

(** The arguments of one call. *)
Record Request := {
  req_start : datetime;
  req_end : datetime;
  req_segments : list TimelineSegment.t;
  req_distance : Q;
  req_destinations : list string;
  req_algorithm : string
}.

Definition materialize (r : Request) : M unit :=
  _create_trip (req_start r) (req_end r) (req_segments r) (req_distance r)
               (req_destinations r) (req_algorithm r).

Definition materialize_all (rs : list Request) : M unit := for_each rs materialize.

Definition materialize_opt (o : option Request) : M unit :=
  match o with
  | Some r => materialize r
  | None => ret tt
  end.

Definition req_key (r : Request) : datetime * datetime * string :=
  (req_start r, req_end r, req_algorithm r).

Definition req_row (i : Z) (r : Request) : TripModel.t :=
  trip_row i (req_start r) (req_end r) (req_segments r) (req_distance r)
           (req_algorithm r).

(** All calls of one detector run, then the commit and the count returned. *)
Definition run_plan (plan : list Request * Z) : M Z :=
  materialize_all plan.1 ;;; commit ;;; ret plan.2.

Definition run_plan_opt (plan : option (list Request * Z)) : M Z :=
  match plan with
  | Some p => run_plan p
  | None => ret 0
  end.

(** The session after some trips were appended, each satisfying [P]. *)
Record grown (P : TripModel.t -> Prop) (s s' : Session) : Prop := {
  grown_repo : same_repo s s';
  grown_pending : no_pending_trip s';
  grown_trips : exists new, trips s' = trips s ++ new /\ Forall P new;
  grown_unique : unique_keys (trips s) -> unique_keys (trips s')
}.

(** A trip row comes from request [r]. *)
Definition row_of (rs : list Request) (t : TripModel.t) : Prop :=
  exists r i, r ∈ rs /\ t = req_row i r.

Definition memory_key (mg : TimelineMemoryModel.t * TimelineSegment.t)
    : datetime * datetime * string :=
  (TimelineSegment.start_time mg.2, TimelineSegment.end_time mg.2, "timeline_memory").

(** A trip row replays memory segment [mg]. *)
Definition replays (mg : TimelineMemoryModel.t * TimelineSegment.t) (t : TripModel.t)
    : Prop :=
  TripModel.start_time t = TimelineSegment.start_time mg.2
  /\ TripModel.end_time t = TimelineSegment.end_time mg.2
  /\ TripModel.detection_algorithm t = "timeline_memory".

Definition memory_row_of (ms : list (TimelineMemoryModel.t * TimelineSegment.t))
    (t : TripModel.t) : Prop :=
  exists mg, mg ∈ ms /\ replays mg t.

(** The memory rows of a run. *)
Definition memories_of (start_date end_date : option datetime) (s : Session)
    : list (TimelineMemoryModel.t * TimelineSegment.t) :=
  flat_map (fun g => match TimelineSegment.timeline_memory g with
                     | Some m => if in_range start_date end_date g then [(m, g)] else []
                     | None => []
                     end)
           (timeline_segments s).

Definition by_start (a b : TimelineSegment.t) : Prop :=
  TimelineSegment.start_time a <= TimelineSegment.start_time b.

(** The data model's condition on a segment: it does not end before it starts. *)
Definition well_timed (g : TimelineSegment.t) : Prop :=
  TimelineSegment.start_time g <= TimelineSegment.end_time g.

(** The stream of the home-based detector. *)
Definition home_stream (start_date end_date : option datetime) (s : Session)
    : list TimelineSegment.t :=
  order_by_start_time (List.filter (in_range start_date end_date) (timeline_segments s)).

Definition overnight_request (visits : list (VisitModel.t * TimelineSegment.t))
    : option Request :=
  match visits, last visits with
  | (_, first_segment) :: _, Some (_, last_segment) =>
      Some {| req_start := TimelineSegment.start_time first_segment;
              req_end := TimelineSegment.end_time last_segment;
              req_segments := map snd visits;
              req_distance := 0%Q;
              req_destinations :=
                omap (fun '(v, _) => if truthy_str (VisitModel.place_id v)
                                     then VisitModel.place_id v else None) visits;
              req_algorithm := "overnight" |}
  | _, _ => None
  end.

(** The groups handed to [_create_overnight_trip], in order. *)
Fixpoint overnight_groups (min_nights : Z)
    (overnight_visits current_trip_visits : list (VisitModel.t * TimelineSegment.t))
    : list (list (VisitModel.t * TimelineSegment.t)) :=
  match overnight_visits with
  | [] =>
      if Z.of_nat (length current_trip_visits) >=? min_nights
      then [current_trip_visits] else []
  | (visit, segment) :: rest =>
      match last current_trip_visits with
      | None => overnight_groups min_nights rest [(visit, segment)]
      | Some (_, last_segment) =>
          if total_seconds (TimelineSegment.start_time segment)
                           (TimelineSegment.end_time last_segment) >? 48 * 3600
          then
            if Z.of_nat (length current_trip_visits) >=? min_nights
            then current_trip_visits
                 :: overnight_groups min_nights rest [(visit, segment)]
            else overnight_groups min_nights rest [(visit, segment)]
          else overnight_groups min_nights rest
                 (current_trip_visits ++ [(visit, segment)])
      end
  end.

(** The clusters handed to [_create_clustered_trip], in order. *)
Fixpoint distance_clusters (time_gap_hours : Q)
    (far_segments current_cluster : list TimelineSegment.t)
    : list (list TimelineSegment.t) :=
  match far_segments with
  | [] => if Z.of_nat (length current_cluster) >=? 2 then [current_cluster] else []
  | segment :: rest =>
      match last current_cluster with
      | None => distance_clusters time_gap_hours rest [segment]
      | Some last_segment =>
          if fle
               (fdiv (inject_Z (total_seconds (TimelineSegment.start_time segment)
                                              (TimelineSegment.end_time last_segment)))
                     3600) time_gap_hours
          then distance_clusters time_gap_hours rest (current_cluster ++ [segment])
          else if Z.of_nat (length current_cluster) >=? 2
               then current_cluster :: distance_clusters time_gap_hours rest [segment]
               else distance_clusters time_gap_hours rest [segment]
      end
  end.

(** ** The calls each detector makes *)

Section HomePlan.
Variable ST_Distance : Point -> Point -> option Q.
Variable set_iter : gset string -> list string.
Variables (home_place_id : option string) (home_location : option Point)
          (use_distance_based : bool)
          (min_distance_km min_duration_hours : Q).

Let home := is_home ST_Distance home_place_id home_location use_distance_based.

(** The acceptance test of a closed run (lines 237-238). *)
Definition home_accepts (acc : HomeAcc) (first segment : TimelineSegment.t) : bool :=
  fge (fdiv (current_trip_distance acc) 1000) min_distance_km
  && fge (fdiv (inject_Z (total_seconds (TimelineSegment.start_time segment)
                                        (TimelineSegment.start_time first))) 3600)
         min_duration_hours.

Definition home_request (acc : HomeAcc) (first segment : TimelineSegment.t)
    : Request :=
  {| req_start := TimelineSegment.start_time first;
     req_end := TimelineSegment.start_time segment;
     req_segments := current_trip_segments acc;
     req_distance := current_trip_distance acc;
     req_destinations := set_iter (current_trip_destinations acc);
     req_algorithm := "home_based" |}.

Fixpoint home_requests (segments : list TimelineSegment.t) (acc : HomeAcc)
    : list Request :=
  match segments with
  | [] => []
  | segment :: rest =>
      if home segment then
        match current_trip_segments acc with
        | [] => home_requests rest acc
        | first :: _ =>
            if home_accepts acc first segment
            then home_request acc first segment :: home_requests rest home_acc_reset
            else home_requests rest home_acc_reset
        end
      else home_requests rest (home_acc_push segment acc)
  end.

(** Request [r] closes a run of the stream: the run [first :: mid] holds no
    home visit, starts the stream or follows a home visit, and is followed
    by the home visit [h]; the bounds are [first]'s start and [h]'s start. *)
Definition closed_run (stream : list TimelineSegment.t) (r : Request) : Prop :=
  exists l1 first mid h l2,
    stream = l1 ++ first :: mid ++ h :: l2
    /\ home h = true
    /\ Forall (fun g => home g = false) (first :: mid)
    /\ (l1 = [] \/ exists l1' h0, l1 = l1' ++ [h0] /\ home h0 = true)
    /\ req_start r = TimelineSegment.start_time first
    /\ req_end r = TimelineSegment.start_time h
    /\ req_segments r = first :: mid.

End HomePlan.

Section ClusterPlan.
Variable set_iter : gset string -> list string.

Definition cluster_request (segments : list TimelineSegment.t) : option Request :=
  match segments, last segments with
  | first :: _, Some last_segment =>
      Some {| req_start := TimelineSegment.start_time first;
              req_end := TimelineSegment.end_time last_segment;
              req_segments := segments;
              req_distance := fst (cluster_totals segments 0%Q []);
              req_destinations :=
                set_iter (list_to_set (snd (cluster_totals segments 0%Q [])));
              req_algorithm := "distance_based" |}
  | _, _ => None
  end.

(** The plan of a detector: [None] when it returns 0 at once (no home). *)

End ClusterPlan.

Section Plans.
Variable ST_Distance : Point -> Point -> option Q.
Variable set_iter : gset string -> list string.

Definition home_plan (start_date end_date : option datetime)
    (min_distance_km min_duration_hours : Q) (s : Session)
    : option (list Request * Z) :=
  match head (user_profile s) with
  | None => None
  | Some p =>
      if no_home (Some p) then None
      else
        let rs :=
          home_requests ST_Distance set_iter (UserProfileModel.home_place_id p)
            (UserProfileModel.home_location p) (uses_distance p)
            min_distance_km min_duration_hours
            (order_by_start_time
               (List.filter (in_range start_date end_date) (timeline_segments s)))
            home_acc_reset in
        Some (rs, Z.of_nat (length rs))
  end.

(** The rows the overnight detector groups: the query, then the distance
    filter when the home is a coordinate. *)
Definition overnight_candidates (start_date end_date : option datetime)
    (p : UserProfileModel.t) (s : Session)
    : list (VisitModel.t * TimelineSegment.t) :=
  match query_overnight_visits (uses_distance p) (UserProfileModel.home_place_id p)
          start_date end_date s with
  | Ok rows _ =>
      if uses_distance p
      then List.filter
             (fun '(visit, _) =>
                far_from_home ST_Distance (UserProfileModel.home_location p) visit)
             rows
      else rows
  | Raise _ => []
  end.

Definition overnight_plan (start_date end_date : option datetime)
    (min_nights : Z) (s : Session) : option (list Request * Z) :=
  match head (user_profile s) with
  | None => None
  | Some p =>
      if no_home (Some p) then None
      else
        let groups :=
          overnight_groups min_nights
            (overnight_candidates start_date end_date p s) [] in
        Some (omap overnight_request groups, Z.of_nat (length groups))
  end.

Definition far_segments_of (start_date end_date : option datetime)
    (home : Point) (distance_threshold_km : Q) (s : Session)
    : list TimelineSegment.t :=
  List.filter (is_far ST_Distance home distance_threshold_km)
    (order_by_start_time
       (List.filter (fun g => is_visit_or_activity g && in_range start_date end_date g)
                    (timeline_segments s))).

Definition distance_plan (start_date end_date : option datetime)
    (distance_threshold_km time_gap_hours : Q) (s : Session)
    : option (list Request * Z) :=
  match head (user_profile s) with
  | None => None
  | Some p =>
      match UserProfileModel.home_location p with
      | None => None
      | Some home =>
          let clusters :=
            distance_clusters time_gap_hours
              (far_segments_of start_date end_date home distance_threshold_km s) [] in
          Some (omap (cluster_request set_iter) clusters, Z.of_nat (length clusters))
      end
  end.

End Plans.

(** ** Detector invocations *)

Inductive Invocation :=
| Memory (start_date end_date : option datetime)
| HomeBased (start_date end_date : option datetime)
            (min_distance_km min_duration_hours : Q)
| Overnight (start_date end_date : option datetime) (min_nights : Z)
| DistanceBased (start_date end_date : option datetime)
                (distance_threshold_km time_gap_hours : Q).

Definition is_memory (i : Invocation) : bool :=
  match i with
  | Memory _ _ => true
  | _ => false
  end.

(** The count a call returned, if it returned. *)
Definition count_of (r : Res Z) : option Z :=
  match r with
  | Ok n _ => Some n
  | Raise _ => None
  end.

(** The store a call leaves: on an exception nothing was committed, and
    the caller closes the session, which rolls back. *)
Definition store_after (s : Session) (r : Res Z) : Session :=
  match r with
  | Ok _ s' => s'
  | Raise _ => s
  end.

Section Invocations.
Variable ST_Distance : Point -> Point -> option Q.
Variable set_iter : gset string -> list string.

Definition detect (i : Invocation) : M Z :=
  match i with
  | Memory sd ed => detect_timeline_memory_trips sd ed
  | HomeBased sd ed mind mindur =>
      detect_home_based_trips ST_Distance set_iter sd ed mind mindur
  | Overnight sd ed min_nights => detect_overnight_trips ST_Distance sd ed min_nights
  | DistanceBased sd ed thr gap =>
      detect_distance_based_trips ST_Distance set_iter sd ed thr gap
  end.

Definition run (i : Invocation) (s : Session) : Session :=
  store_after s (detect i s).

Definition run_all (invocations : list Invocation) (s : Session) : Session :=
  fold_left (fun s i => run i s) invocations s.

(** The plan of the three detectors that go through [_create_trip]. *)
Definition plan_of (i : Invocation) (s : Session) : option (list Request * Z) :=
  match i with
  | Memory _ _ => None
  | HomeBased sd ed mind mindur =>
      home_plan ST_Distance set_iter sd ed mind mindur s
  | Overnight sd ed min_nights => overnight_plan ST_Distance sd ed min_nights s
  | DistanceBased sd ed thr gap => distance_plan ST_Distance set_iter sd ed thr gap s
  end.

End Invocations.

(** ** The claims' side: what the specification speaks of *)

(** Away from home, as the overnight detector decides it: by distance
    (at least 1.0 km, for a visit that has a location) when the home is a
    coordinate, else by a place identifier that is set and differs. *)
Definition away_from_home (ST_Distance : Point -> Point -> option Q)
    (p : UserProfileModel.t) (v : VisitModel.t) : bool :=
  if uses_distance p
  then far_from_home ST_Distance (UserProfileModel.home_location p) v
  else sql_ne (VisitModel.place_id v) (UserProfileModel.home_place_id p).

(** The candidate test in the words of the claim: the night window is a
    disjunction. *)
Definition claimed_overnight_candidate (ST_Distance : Point -> Point -> option Q)
    (p : UserProfileModel.t) (v : VisitModel.t) (g : TimelineSegment.t) : bool :=
  (6 * 3600 <=? TimelineSegment.end_time g - TimelineSegment.start_time g)
  && away_from_home ST_Distance p v
  && ((20 <=? hour_of (TimelineSegment.start_time g))
      || (hour_of (TimelineSegment.end_time g) <=? 8)).

(** The distance of an activity: the column, and 0 where it is NULL. *)
Definition distance_of (a : ActivityModel.t) : Q :=
  match ActivityModel.distance_meters a with
  | Some d => d
  | None => 0%Q
  end.

(** The activity payloads of the member segments, in segment order: the
    movement-mode label and the distance. *)
Fixpoint activity_distances (segments : list TimelineSegment.t)
    : list (option string * Q) :=
  match segments with
  | [] => []
  | g :: rest =>
      match TimelineSegment.activity g with
      | Some a => (ActivityModel.activity_type a, distance_of a)
                  :: activity_distances rest
      | None => activity_distances rest
      end
  end.

(** The summed distance of label [k], in the words of the spec: the
    distances of the activities with that label, added up as floats in
    segment order. *)
Definition label_total (k : option string) (acts : list (option string * Q)) : Q :=
  sum_floats (map snd (List.filter (fun act => bool_decide (act.1 = k)) acts)).

(** Label [k] is encountered no later than label [k'] in [labels]: at the
    first occurrence of [k], [k'] has not occurred yet. *)
Definition first_seen_before (k k' : option string) (labels : list (option string)) : Prop :=
  exists pre post, labels = pre ++ k :: post /\ (k ∉ pre) /\ (k' ∉ pre).

(** What the dictionary holds once the activities [acts] went through it. *)
Record dict_of (acts : list (option string * Q)) (d : mode_dict) : Prop := {
  dict_nodup : NoDup (map fst d);
  dict_keys : forall k, k ∈ map fst d <-> k ∈ map fst acts;
  dict_values : forall k v, (k, v) ∈ d -> v = label_total k acts;
  dict_order : forall ks1 k ks2 k',
    map fst d = ks1 ++ k :: ks2 -> k' ∈ ks2 -> first_seen_before k k' (map fst acts)
}.

(** The place identifiers of the visits among [segments], in encounter
    order, repetitions included. *)
Fixpoint visited_place_ids (segments : list TimelineSegment.t) : list string :=
  match segments with
  | [] => []
  | g :: rest =>
      match TimelineSegment.visit g with
      | Some v =>
          match VisitModel.place_id v with
          | Some p => if truthy_str (Some p) then p :: visited_place_ids rest
                      else visited_place_ids rest
          | None => visited_place_ids rest
          end
      | None => visited_place_ids rest
      end
  end.

(** The destination list in the words of the claim: the visited place
    identifiers, each kept at its first encounter. *)
Fixpoint first_encounters (ids : list string) : list string :=
  match ids with
  | [] => []
  | p :: rest => p :: List.filter (fun q => negb (String.eqb q p)) (first_encounters rest)
  end.

(** The destination set is the set of the pending segments' place ids. *)
Definition destinations_tracked (acc : HomeAcc) : Prop :=
  current_trip_destinations acc
  = list_to_set (visited_place_ids (current_trip_segments acc)).

(** The bounds of a trip of invocation [i]: the end is not before the
    start; an overnight trip lasts at least 6 hours; a home-based trip
    accepted under a positive minimum duration ends after it starts. *)
Definition bounds_of (i : Invocation) (start_time end_time : datetime) : Prop :=
  start_time <= end_time
  /\ match i with
     | Overnight _ _ _ => start_time + 6 * 3600 <= end_time
     | HomeBased _ _ _ min_duration_hours =>
         (0 < min_duration_hours)%Q -> start_time < end_time
     | _ => True
     end.

Definition req_bounds (i : Invocation) (r : Request) : Prop :=
  bounds_of i (req_start r) (req_end r).

Definition trip_bounds (i : Invocation) (t : TripModel.t) : Prop :=
  bounds_of i (TripModel.start_time t) (TripModel.end_time t).

(** Rows sorted by start time, each within the night window. *)
Definition nightly (rows : list (VisitModel.t * TimelineSegment.t)) : Prop :=
  StronglySorted (fun a b => TimelineSegment.start_time a.2
                             <= TimelineSegment.start_time b.2) rows
  /\ Forall (fun a => overnight_window a.2 = true) rows.

(** Segments sorted by start time, none ending before it starts. *)
Definition timed (l : list TimelineSegment.t) : Prop :=
  StronglySorted by_start l /\ Forall well_timed l.

(** ** Example repositories *)

Definition at_hour (day hour : Z) : datetime := day * 86400 + hour * 3600.

(** A distance oracle to run the detectors on examples: taxicab distance on
    the degree grid, 111320 m per degree. *)
Definition grid_distance (a b : Point) : option Q :=
  Some (111320 * (Qabs (lon a - lon b) + Qabs (lat a - lat b)))%Q.

(** One admissible iteration order of a set of strings: alphabetical. *)
Definition alphabetical (s : gset string) : list string :=
  merge_sort (fun a b => String.leb a b) (elements s).

Definition visit_segment (id : Z) (start_time end_time : datetime)
    (place_id : option string) (location : option Point) : TimelineSegment.t :=
  {| TimelineSegment.id := id; TimelineSegment.segment_type := "visit";
     TimelineSegment.start_time := start_time;
     TimelineSegment.end_time := end_time;
     TimelineSegment.visit :=
       Some {| VisitModel.place_id := place_id;
               VisitModel.semantic_type := Some "UNKNOWN";
               VisitModel.location := location |};
     TimelineSegment.activity := None;
     TimelineSegment.timeline_memory := None |}.

Definition activity_segment (id : Z) (start_time end_time : datetime)
    (activity_type : option string) (distance_meters : option Q)
    (start_location : option Point) : TimelineSegment.t :=
  {| TimelineSegment.id := id; TimelineSegment.segment_type := "activity";
     TimelineSegment.start_time := start_time;
     TimelineSegment.end_time := end_time;
     TimelineSegment.visit := None;
     TimelineSegment.activity :=
       Some {| ActivityModel.start_location := start_location;
               ActivityModel.distance_meters := distance_meters;
               ActivityModel.activity_type := activity_type |};
     TimelineSegment.timeline_memory := None |}.

Definition memory_segment (id : Z) (start_time end_time : datetime)
    (distance_from_origin_kms : option Z) (destination_place_ids : list string)
    : TimelineSegment.t :=
  {| TimelineSegment.id := id; TimelineSegment.segment_type := "memory";
     TimelineSegment.start_time := start_time;
     TimelineSegment.end_time := end_time;
     TimelineSegment.visit := None;
     TimelineSegment.activity := None;
     TimelineSegment.timeline_memory :=
       Some {| TimelineMemoryModel.distance_from_origin_kms := distance_from_origin_kms;
               TimelineMemoryModel.destination_place_ids := Some destination_place_ids |} |}.

(** A freshly imported repository: no trip yet, nothing pending. *)
Definition repository (profile : UserProfileModel.t)
    (segments : list TimelineSegment.t) (known_places : list string) : Session :=
  {| timeline_segments := segments; user_profile := [profile];
     places := known_places; trips := []; trips_id_seq := 0;
     trip_destinations := []; trip_segments := []; pending := [] |}.

Definition home_by_id : UserProfileModel.t :=
  {| UserProfileModel.home_place_id := Some "home";
     UserProfileModel.home_location := None |}.

Definition home_by_coordinate : UserProfileModel.t :=
  {| UserProfileModel.home_place_id := None;
     UserProfileModel.home_location := Some {| lon := 0; lat := 0 |} |}.

(** Two provider memories: a three-day trip, and one whose end time equals
    its start time. *)
Definition memory_repo : Session :=
  repository home_by_id
    [ memory_segment 1 (at_hour 3 8) (at_hour 5 20) (Some 340) ["louvre"; "orsay"];
      memory_segment 2 (at_hour 9 12) (at_hour 9 12) None [] ]
    ["home"; "louvre"; "orsay"].

(** A visit from 21:00 to 10:00 the next morning at a hotel, home known by
    its place identifier. *)
Definition late_checkout : TimelineSegment.t :=
  visit_segment 1 (at_hour 3 21) (at_hour 4 10) (Some "hotel") None.

Definition late_checkout_repo : Session :=
  repository home_by_id [late_checkout] ["home"; "hotel"].

Definition walking_then_driving : list TimelineSegment.t :=
  [ activity_segment 1 (at_hour 1 9) (at_hour 1 10) (Some "walking") (Some 500%Q) None;
    visit_segment 2 (at_hour 1 10) (at_hour 1 11) (Some "cafe") None;
    activity_segment 3 (at_hour 1 11) (at_hour 1 12) (Some "driving") (Some 500%Q) None ].

(** Distances whose sum as floats is not their exact sum: 0.1 + 0.2 is the
    double 0.30000000000000004, above the double 0.3. *)
Definition three_short_legs : list TimelineSegment.t :=
  [ activity_segment 1 (at_hour 1 9) (at_hour 1 10) (Some "driving") (Some (3 # 10)%Q) None;
    activity_segment 2 (at_hour 1 10) (at_hour 1 11) (Some "walking") (Some (1 # 10)%Q) None;
    activity_segment 3 (at_hour 1 11) (at_hour 1 12) (Some "walking") (Some (2 # 10)%Q) None ].

(** Twenty minutes out of the home: two walks of [d1] and [d2] meters. *)
Definition stroll (d1 d2 : Q) : Session :=
  repository home_by_id
    [ visit_segment 1 (at_hour 1 0) (at_hour 1 9) (Some "home") None;
      activity_segment 2 (at_hour 1 9) (at_hour 1 9 + 600) (Some "walking") (Some d1) None;
      activity_segment 3 (at_hour 1 9 + 600) (at_hour 1 9 + 1200) (Some "walking")
        (Some d2) None;
      visit_segment 4 (at_hour 1 9 + 1200) (at_hour 1 23) (Some "home") None ]
    ["home"].

(** Two visits 100 m east of the home at (0, 0), the second starting 1200 s
    after the first ended. *)
Definition two_stops : Session :=
  repository home_by_coordinate
    [ visit_segment 1 (at_hour 1 9) (at_hour 1 10) (Some "bakery")
        (Some {| lon := 100 / 111320; lat := 0 |});
      visit_segment 2 (at_hour 1 10 + 1200) (at_hour 1 11) (Some "kiosk")
        (Some {| lon := 100 / 111320; lat := 0 |}) ]
    ["bakery"; "kiosk"].

(** A day out and back, the home known by its coordinate (0, 0): the two
    home visits are located [offset] degrees east of it. *)
Definition day_out (offset : Q) : Session :=
  repository home_by_coordinate
    [ visit_segment 1 (at_hour 1 7) (at_hour 1 9) None
        (Some {| lon := offset; lat := 0 |});
      activity_segment 2 (at_hour 1 9) (at_hour 1 10) (Some "driving") (Some 60000%Q)
        (Some {| lon := offset; lat := 0 |});
      visit_segment 3 (at_hour 1 10) (at_hour 1 16) (Some "beach")
        (Some {| lon := 1 # 2; lat := 0 |});
      activity_segment 4 (at_hour 1 16) (at_hour 1 17) (Some "driving") (Some 60000%Q)
        (Some {| lon := 1 # 2; lat := 0 |});
      visit_segment 5 (at_hour 1 17) (at_hour 1 23) None
        (Some {| lon := offset; lat := 0 |}) ]
    ["beach"].

(** The spec's example: home, then a drive and a visit away, and no return. *)
Definition no_return_run : list TimelineSegment.t :=
  [ activity_segment 2 (at_hour 1 8) (at_hour 1 12) (Some "driving") (Some 300000%Q) None;
    visit_segment 3 (at_hour 1 12) (at_hour 1 20) (Some "lake") None ].

Definition no_return_repo : Session :=
  repository home_by_id
    (visit_segment 1 (at_hour 1 0) (at_hour 1 8) (Some "home") None :: no_return_run)
    ["home"; "lake"].

(** Two nights away, 15 hours apart, at [first_place] then [second_place]. *)
Definition two_nights (first_place second_place : string) : Session :=
  repository home_by_id
    [ visit_segment 1 (at_hour 1 21) (at_hour 2 7) (Some first_place) None;
      visit_segment 2 (at_hour 2 22) (at_hour 3 8) (Some second_place) None ]
    ["home"; "hotel"; "inn"].

(** Home, the zoo, a drive, the aquarium, home again. *)
Definition zoo_day : Session :=
  repository home_by_id
    [ visit_segment 1 (at_hour 1 0) (at_hour 1 8) (Some "home") None;
      visit_segment 2 (at_hour 1 9) (at_hour 1 12) (Some "zoo") None;
      activity_segment 3 (at_hour 1 12) (at_hour 1 13) (Some "driving") (Some 60000%Q) None;
      visit_segment 4 (at_hour 1 13) (at_hour 1 17) (Some "aquarium") None;
      visit_segment 5 (at_hour 1 18) (at_hour 1 23) (Some "home") None ]
    ["home"; "zoo"; "aquarium"].


(** ** Groups, clusters and accumulators *)

(** Segment [b] starts at most [gap] seconds after [a] ends. *)
Definition follows_within (gap : Z) (a b : TimelineSegment.t) : Prop :=
  TimelineSegment.start_time b - TimelineSegment.end_time a <= gap.

(** Segment [b] starts at most [gap_hours] hours after [a] ends. *)
Definition follows_within_hours (gap_hours : Q) (a b : TimelineSegment.t) : Prop :=
  fle (fdiv (inject_Z (TimelineSegment.start_time b - TimelineSegment.end_time a)) 3600)
      gap_hours = true.

(** Every two neighbours of the list are related by [R]. *)
Definition chained {A} (R : A -> A -> Prop) (l : list A) : Prop :=
  forall l1 a b l2, l = l1 ++ a :: b :: l2 -> R a b.

(** More than 48 hours lie between the end of the last visit of [G1] and the
    start of the first visit of [G2]. *)
Definition nights_apart (G1 G2 : list (VisitModel.t * TimelineSegment.t)) : Prop :=
  forall a b, last G1 = Some a -> head G2 = Some b ->
    48 * 3600 < TimelineSegment.start_time b.2 - TimelineSegment.end_time a.2.

(** The summed distance of the activities among [segments] (0 for a NULL
    distance), added up as floats in the order of the list. *)
Definition activity_total (segments : list TimelineSegment.t) : Q :=
  sum_floats (map distance_of (omap TimelineSegment.activity segments)).

(** The distance accumulator is the summed activity distance of the pending
    segments. *)
Definition distance_tracked (acc : HomeAcc) : Prop :=
  current_trip_distance acc = activity_total (current_trip_segments acc).

(** ** The rows a detector writes *)

(** The [detection_algorithm] an invocation stamps on its trips. *)
Definition algorithm_of (i : Invocation) : string :=
  match i with
  | Memory _ _ => "timeline_memory"
  | HomeBased _ _ _ _ => "home_based"
  | Overnight _ _ _ => "overnight"
  | DistanceBased _ _ _ _ => "distance_based"
  end.

(** The trip row the memory detector builds for memory [mg] (lines 141-147),
    with the key [i] it receives. *)
Definition memory_trip (i : Z) (mg : TimelineMemoryModel.t * TimelineSegment.t)
    : TripModel.t :=
  {| TripModel.id := i;
     TripModel.start_time := TimelineSegment.start_time mg.2;
     TripModel.end_time := TimelineSegment.end_time mg.2;
     TripModel.is_multi_day :=
       date_of (TimelineSegment.end_time mg.2)
       >? date_of (TimelineSegment.start_time mg.2);
     TripModel.total_distance_meters :=
       inject_Z (or_0_int (TimelineMemoryModel.distance_from_origin_kms mg.1) * 1000);
     TripModel.primary_transport_mode := None;
     TripModel.detection_algorithm := "timeline_memory" |}.

Definition memory_trip_of (ms : list (TimelineMemoryModel.t * TimelineSegment.t))
    (t : TripModel.t) : Prop :=
  exists mg i, mg ∈ ms /\ t = memory_trip i mg.

(** A midnight lies after the start of the trip and not after its end. *)
Definition crosses_midnight (t : TripModel.t) : Prop :=
  exists day, TripModel.start_time t < day * 86400 <= TripModel.end_time t.

(** The duration of a trip in hours. *)
Definition duration_hours (t : TripModel.t) : Q :=
  (inject_Z (total_seconds (TripModel.end_time t) (TripModel.start_time t)) / 3600)%Q.

(** The flag [is_multi_day] of a row compares the dates of its bounds. *)
Definition dated (t : TripModel.t) : Prop :=
  TripModel.is_multi_day t
  = (date_of (TripModel.end_time t) >? date_of (TripModel.start_time t)).

(** * Summaries and statistics of the trips table *)

(** Python's [sum] of integers: from 0, left to right. *)
Definition sum_Z (l : list Z) : Z := fold_left Z.add l 0.

(** SQL [SUM(column)] of a double precision column: NULL over no row, and
    otherwise the values added up as doubles, in table order. *)
Definition sql_sum (l : list Q) : option Q :=
  match l with
  | [] => None
  | _ => Some (sum_floats l)
  end.

(** SQL [COUNT(id)] of the rows that pass [f]. *)
Definition sql_count {A} (f : A -> bool) (l : list A) : Z :=
  Z.of_nat (length (List.filter f l)).

(** SQL [SELECT key, COUNT(id) ... GROUP BY key]: one row per distinct key. *)
Definition group_count (keys : list string) : list (string * Z) :=
  map (fun k => (k, sql_count (String.eqb k) keys)) (remove_dups keys).

(** ** [TripDetector.get_trip_summary] (trip_detector.py, lines 558-580) *)

Module TripSummary.
Record t := {
  total_trips : Z;
  by_algorithm : gmap string Z;
  multi_day_trips : Z;
  total_distance_km : Q
}.
End TripSummary.

Definition get_trip_summary (s : Session) : TripSummary.t :=
  let total := sql_count (fun _ => true) (trips s) in
  let by_algorithm := group_count (map TripModel.detection_algorithm (trips s)) in
  let multi_day := sql_count TripModel.is_multi_day (trips s) in
  let total_distance := or_0 (sql_sum (map TripModel.total_distance_meters (trips s))) in
  {| TripSummary.total_trips := total;
     TripSummary.by_algorithm := list_to_map by_algorithm;
     TripSummary.multi_day_trips := multi_day;
     TripSummary.total_distance_km := fdiv total_distance 1000 |}.

(** ** [TripStatistics.get_overview] (statistics.py, lines 36-83) *)

Module Overview.
Record t := {
  total_trips : Z;
  total_distance_km : Q;
  total_duration_hours : Q;
  avg_distance_km : Q;
  avg_duration_hours : Q;
  multi_day_trips : Z;
  single_day_trips : Z
}.
End Overview.

(** The date filters of the statistics queries, on trips. *)
Definition trip_in_range (start_date end_date : option datetime)
    (t : TripModel.t) : bool :=
  match start_date with
  | Some d => TripModel.start_time t >=? d
  | None => true
  end &&
  match end_date with
  | Some d => TripModel.end_time t <=? d
  | None => true
  end.

(** Python's [sum] of floats from version 3.12 on: the first value, then
    each further one added with Neumaier's compensation, which is added to
    the result at the end when it is not 0. *)
Definition sum_floats_compensated (l : list Q) : Q :=
  match l with
  | [] => 0%Q
  | x0 :: rest =>
      let '(f_result, c) :=
        fold_left
          (fun '(f_result, c) x =>
             let t := fadd f_result x in
             let c := if Qle_bool (Qabs (round64 x)) (Qabs f_result)
                      then fadd c (fadd (fsub f_result t) x)
                      else fadd c (fadd (fsub x t) f_result) in
             (t, c))
          rest (fadd 0 x0, 0%Q) in
      if Qeq_bool c 0 then f_result else fadd f_result c
  end.

Section Sums.
(** Python's [sum] on floats: [sum_floats] before version 3.12,
    [sum_floats_compensated] from then on. *)
Variable float_sum : list Q -> Q.

Definition get_overview (start_date end_date : option datetime) (s : Session)
    : Overview.t :=
  let trips := List.filter (trip_in_range start_date end_date) (trips s) in
  match trips with
  | [] =>
      {| Overview.total_trips := 0;
         Overview.total_distance_km := 0;
         Overview.total_duration_hours := 0;
         Overview.avg_distance_km := 0;
         Overview.avg_duration_hours := 0;
         Overview.multi_day_trips := 0;
         Overview.single_day_trips := 0 |}
  | _ =>
      let total_distance := float_sum (map TripModel.total_distance_meters trips) in
      let total_duration :=
        float_sum (map (fun t => inject_Z (total_seconds (TripModel.end_time t)
                                                         (TripModel.start_time t)))
                       trips) in
      let multi_day :=
        sum_Z (map (fun _ => 1) (List.filter TripModel.is_multi_day trips)) in
      let len := Z.of_nat (length trips) in
      {| Overview.total_trips := len;
         Overview.total_distance_km := fdiv total_distance 1000;
         Overview.total_duration_hours := fdiv total_duration 3600;
         Overview.avg_distance_km := fdiv (fdiv total_distance 1000) (inject_Z len);
         Overview.avg_duration_hours :=
           fdiv (fdiv total_duration 3600) (inject_Z len);
         Overview.multi_day_trips := multi_day;
         Overview.single_day_trips := len - multi_day |}
  end.

End Sums.

(** ** The distributions (statistics.py, lines 274-350) *)

(** [distribution[key] += 1] on a dictionary that holds the key: the entry is
    updated in place. *)
Definition dict_incr (key : string) (distribution : list (string * Z))
    : list (string * Z) :=
  map (fun '(k, v) => if String.eqb k key then (k, v + 1) else (k, v)) distribution.

(** The dictionary literal with every count at 0. *)
Definition zero_counts (labels : list string) : list (string * Z) :=
  map (fun k => (k, 0)) labels.

Definition duration_labels : list string :=
  ["< 4 hours"; "4-8 hours"; "8-24 hours"; "1-3 days"; "3-7 days"; "1-2 weeks";
   "2+ weeks"].

(** The [if]/[elif] chain on [duration_hours]. *)
Definition duration_bucket (duration_hours : Q) : string :=
  if Qltb duration_hours 4 then "< 4 hours"
  else if Qltb duration_hours 8 then "4-8 hours"
  else if Qltb duration_hours 24 then "8-24 hours"
  else if Qltb duration_hours 72 then "1-3 days"
  else if Qltb duration_hours 168 then "3-7 days"
  else if Qltb duration_hours 336 then "1-2 weeks"
  else "2+ weeks".

Definition get_trip_duration_distribution (s : Session) : list (string * Z) :=
  fold_left
    (fun distribution trip =>
       let duration_hours :=
         (inject_Z (total_seconds (TripModel.end_time trip)
                                  (TripModel.start_time trip)) / 3600)%Q in
       dict_incr (duration_bucket duration_hours) distribution)
    (trips s) (zero_counts duration_labels).

Definition distance_labels : list string :=
  ["< 50 km"; "50-100 km"; "100-250 km"; "250-500 km"; "500-1000 km";
   "1000-2500 km"; "2500+ km"].

(** The [if]/[elif] chain on [distance_km]. *)
Definition distance_bucket (distance_km : Q) : string :=
  if Qltb distance_km 50 then "< 50 km"
  else if Qltb distance_km 100 then "50-100 km"
  else if Qltb distance_km 250 then "100-250 km"
  else if Qltb distance_km 500 then "250-500 km"
  else if Qltb distance_km 1000 then "500-1000 km"
  else if Qltb distance_km 2500 then "1000-2500 km"
  else "2500+ km".

Definition get_distance_distribution (s : Session) : list (string * Z) :=
  fold_left
    (fun distribution trip =>
       let distance_km := (TripModel.total_distance_meters trip / 1000)%Q in
       dict_incr (distance_bucket distance_km) distribution)
    (trips s) (zero_counts distance_labels).

(** The sum of the counts of a dictionary. *)
Definition total_count (distribution : list (string * Z)) : Z :=
  sum_Z (map snd distribution).

(** The rows counted under [label] by a bucket function. *)
Definition bucket_count {A} (bucket : A -> string) (label : string) (l : list A) : Z :=
  sql_count (fun x => String.eqb (bucket x) label) l.

(** The duration of a trip in seconds falls within [lo, hi); a bound that is
    [None] is absent. *)
Definition seconds_within (lo hi : option Z) (t : TripModel.t) : Prop :=
  match lo with
  | Some l => l <= TripModel.end_time t - TripModel.start_time t
  | None => True
  end
  /\ match hi with
     | Some h => TripModel.end_time t - TripModel.start_time t < h
     | None => True
     end.

(** * The place identifiers to enrich *)

(** [sorted(l)] on strings: ascending, compared character by character. *)
Definition sorted_strings (l : list string) : list string :=
  merge_sort (fun a b => String.leb a b) l.

(** ** [TimelineParser.extract_unique_place_ids] (timeline_parser.py, lines
    351-404) *)

Section Places.
Variable set_iter : gset string -> list string.

Definition extract_unique_place_ids (start_date end_date : option datetime)
    (s : Session) : list string :=
  let visit_place_ids :=
    remove_dups
      (omap (fun g => match TimelineSegment.visit g with
                      | Some v => if in_range start_date end_date g
                                  then VisitModel.place_id v else None
                      | None => None
                      end)
            (timeline_segments s)) in
  let memory_place_ids :=
    omap (fun g => match TimelineSegment.timeline_memory g with
                   | Some m => if in_range start_date end_date g
                               then Some (TimelineMemoryModel.destination_place_ids m)
                               else None
                   | None => None
                   end)
         (timeline_segments s) in
  let place_ids : gset string :=
    fold_left (fun place_ids pid => place_ids ∪ {[pid]}) visit_place_ids ∅ in
  let place_ids : gset string :=
    fold_left (fun place_ids dest_ids =>
                 match dest_ids with
                 | Some (pid :: rest) => place_ids ∪ list_to_set (pid :: rest)
                 | _ => place_ids
                 end)
              memory_place_ids place_ids in
  sorted_strings (set_iter place_ids).

End Places.

(** Place [pid] is named by a visit or by a memory of the date range. *)
Definition named_in_range (start_date end_date : option datetime) (s : Session)
    (pid : string) : Prop :=
  (exists g v,
     g ∈ timeline_segments s /\ in_range start_date end_date g = true
     /\ TimelineSegment.visit g = Some v /\ VisitModel.place_id v = Some pid)
  \/ (exists g m ids,
        g ∈ timeline_segments s /\ in_range start_date end_date g = true
        /\ TimelineSegment.timeline_memory g = Some m
        /\ TimelineMemoryModel.destination_place_ids m = Some ids /\ pid ∈ ids).

(** The date range an invocation is run with. *)
Definition range_of (i : Invocation) : option datetime * option datetime :=
  match i with
  | Memory sd ed => (sd, ed)
  | HomeBased sd ed _ _ => (sd, ed)
  | Overnight sd ed _ => (sd, ed)
  | DistanceBased sd ed _ _ => (sd, ed)
  end.

(** The destinations an invocation hands over or, for the memory detector,
    writes: those of its plan, or those of the memories of the range. *)
Definition destinations_of (ST_Distance : Point -> Point -> option Q)
    (set_iter : gset string -> list string) (i : Invocation) (s : Session)
    : list string :=
  match i with
  | Memory sd ed =>
      flat_map (fun mg => or_nil (TimelineMemoryModel.destination_place_ids mg.1))
               (memories_of sd ed s)
  | _ =>
      match plan_of ST_Distance set_iter i s with
      | Some plan => flat_map req_destinations plan.1
      | None => []
      end
  end.

(** * What a run stores *)

(** The sequence of trip keys is ahead of every key in use. *)
Definition healthy (s : Session) : Prop :=
  Forall (fun t => TripModel.id t <= trips_id_seq s) (trips s)
  /\ Forall (fun d => TripDestinationModel.trip_id d <= trips_id_seq s)
       (trip_destinations s)
  /\ Forall (fun l => TripSegmentModel.trip_id l <= trips_id_seq s)
       (trip_segments s).

(** The destination rows [_create_trip] adds for trip [trip_id], numbered
    from [k]. *)
Definition destination_links_from (trip_id k : Z) (destinations : list string)
    : list TripDestinationModel.t :=
  map (fun '(idx, place_id) =>
         {| TripDestinationModel.trip_id := trip_id;
            TripDestinationModel.place_id := place_id;
            TripDestinationModel.visit_order := idx |})
      (enumerate_from k destinations).

Definition destination_links (trip_id : Z) (destinations : list string)
    : list TripDestinationModel.t :=
  destination_links_from trip_id 0 destinations.

(** The segment links [_create_trip] adds for trip [trip_id], numbered from
    [k]. *)
Definition segment_links_from (trip_id k : Z) (segments : list TimelineSegment.t)
    : list TripSegmentModel.t :=
  map (fun '(idx, segment) =>
         {| TripSegmentModel.trip_id := trip_id;
            TripSegmentModel.segment_id := TimelineSegment.id segment;
            TripSegmentModel.segment_order := idx |})
      (enumerate_from k segments).

Definition segment_links (trip_id : Z) (segments : list TimelineSegment.t)
    : list TripSegmentModel.t :=
  segment_links_from trip_id 0 segments.

(** The store with some destination rows, or segment links, inserted. *)
Definition add_destinations (rows : list TripDestinationModel.t) (s : Session)
    : Session :=
  fold_left (fun s r => insert_destination r s) rows s.

Definition add_segment_links (rows : list TripSegmentModel.t) (s : Session)
    : Session :=
  fold_left (fun s r => insert_segment_link r s) rows s.

(** The foreign keys of a link row resolve. *)
Definition trip_known (trip_id : Z) (s : Session) : Prop :=
  existsb (fun r => TripModel.id r =? trip_id) (trips s) = true.

Definition place_known (place_id : string) (s : Session) : Prop :=
  existsb (String.eqb place_id) (places s) = true.

Definition segment_known (segment_id : Z) (s : Session) : Prop :=
  existsb (fun g => TimelineSegment.id g =? segment_id) (timeline_segments s) = true.

(** The arguments of a call can be stored: the destinations are distinct
    known places and the segments distinct rows of the segments table. *)
Definition storable (s : Session) (destinations : list string)
    (segments : list TimelineSegment.t) : Prop :=
  NoDup destinations
  /\ Forall (fun p => place_known p s) destinations
  /\ NoDup (map TimelineSegment.id segments)
  /\ Forall (fun g => segment_known (TimelineSegment.id g) s) segments.

(** The store after a trip with its links was committed to [s]. *)
Definition committed (t : TripModel.t) (destinations : list string)
    (segments : list TimelineSegment.t) (s : Session) : Session :=
  add_segment_links (segment_links (TripModel.id t) segments)
    (add_destinations (destination_links (TripModel.id t) destinations)
       (insert_trip t s)).

(** What a flush would leave: the pending rows inserted, if they can be. *)
Definition settled (s : Session) : option Session :=
  insert_rows (pending s) (set_pending [] s).

(** The detectors that collect the destinations of a trip in a [set]. *)
Definition hands_over_a_set (i : Invocation) : bool :=
  match i with
  | HomeBased _ _ _ _ | DistanceBased _ _ _ _ => true
  | _ => false
  end.

(** The store after the requests [created] were committed one after the
    other, each under the next key of the sequence. *)
Definition stored_all (created : list Request) (s : Session) : Session :=
  fold_left
    (fun u r => committed (req_row (trips_id_seq u + 1) r)
                          (req_destinations r) (req_segments r) u)
    created s.

(** * Travel streaks *)

(** [ORDER BY trips.start_time]: a stable insertion sort. *)
Fixpoint insert_trip_by_start (t : TripModel.t) (l : list TripModel.t)
    : list TripModel.t :=
  match l with
  | [] => [t]
  | h :: l' =>
      if TripModel.start_time h <=? TripModel.start_time t
      then h :: insert_trip_by_start t l'
      else t :: h :: l'
  end.

Definition trips_by_start_time (l : list TripModel.t) : list TripModel.t :=
  fold_left (fun acc t => insert_trip_by_start t acc) l [].

(** [sorted(days)] on dates: ascending. *)
Definition sorted_dates (l : list Z) : list Z := merge_sort Z.le l.

Module TravelStreaks.
Record t := {
  longest_streak : Z;
  current_streak : Z;
  total_travel_days : Z
}.
End TravelStreaks.

(** The [for] loop over [sorted_days] from index 1, where [prev] is
    [sorted_days[i-1]]; it returns [longest_streak]. *)
Fixpoint streak_loop (prev : Z) (days : list Z) (current_streak longest_streak : Z)
    : Z :=
  match days with
  | [] => longest_streak
  | day :: rest =>
      if day - prev =? 1
      then let current_streak := current_streak + 1 in
           streak_loop day rest current_streak (Z.max longest_streak current_streak)
      else streak_loop day rest 1 longest_streak
  end.

(** The [while] loop that counts back from [today], one iteration per unit of
    fuel; [None] when the fuel runs out before the loop ends. *)
Fixpoint count_back (fuel : nat) (travel_days : gset Z)
    (check_date current_active_streak : Z) : option Z :=
  match fuel with
  | O => None
  | S fuel =>
      if decide (check_date ∈ travel_days)
      then count_back fuel travel_days (check_date - 1) (current_active_streak + 1)
      else Some current_active_streak
  end.

(** ** [PatternDetector.find_travel_streaks] (patterns.py, lines 274-325) *)

Section Streaks.
(** The iteration order of a set of dates, and [date.today()]. *)
Variable set_iter : gset Z -> list Z.
Variable today : Z.

Definition find_travel_streaks (fuel : nat) (s : Session) : option TravelStreaks.t :=
  let trips := trips_by_start_time (trips s) in
  match trips with
  | [] =>
      Some {| TravelStreaks.longest_streak := 0;
              TravelStreaks.current_streak := 0;
              TravelStreaks.total_travel_days := 0 |}
  | _ =>
      let travel_days : gset Z :=
        fold_left (fun travel_days trip =>
                     travel_days ∪ {[date_of (TripModel.start_time trip)]})
                  trips ∅ in
      let sorted_days := sorted_dates (set_iter travel_days) in
      let longest_streak :=
        match sorted_days with
        | [] => 1
        | first :: rest => streak_loop first rest 1 1
        end in
      let current_active_streak :=
        if negb (bool_decide (sorted_days = [])) && bool_decide (today ∈ travel_days)
        then count_back fuel travel_days today 0
        else Some 0 in
      match current_active_streak with
      | Some current_active_streak =>
          Some {| TravelStreaks.longest_streak := longest_streak;
                  TravelStreaks.current_streak := current_active_streak;
                  TravelStreaks.total_travel_days := Z.of_nat (size travel_days) |}
      | None => None
      end
  end.

End Streaks.

(** Some trip starts on day [d]. *)
Definition travel_day (s : Session) (d : Z) : Prop :=
  exists t, t ∈ trips s /\ date_of (TripModel.start_time t) = d.

(** The [n] days from [first] on are all travel days. *)
Definition consecutive_days (s : Session) (first n : Z) : Prop :=
  forall k, 0 <= k < n -> travel_day s (first + k).

(** A store that holds the given trips and nothing else. *)
Definition trips_table (rows : list TripModel.t) : Session :=
  {| timeline_segments := []; user_profile := []; places := []; trips := rows;
     trips_id_seq := Z.of_nat (length rows);
     trip_destinations := []; trip_segments := []; pending := [] |}.

(** A trip from 9:00 to 17:00 on day [day]. *)
Definition day_trip (i day : Z) (mode : option string) (distance_meters : Q)
    : TripModel.t :=
  {| TripModel.id := i;
     TripModel.start_time := at_hour day 9;
     TripModel.end_time := at_hour day 17;
     TripModel.is_multi_day := false;
     TripModel.total_distance_meters := distance_meters;
     TripModel.primary_transport_mode := mode;
     TripModel.detection_algorithm := "home_based" |}.

(** Trips on days 5, 1, 2 and 3. *)
Definition four_day_trips : Session :=
  trips_table [day_trip 1 5 (Some "WALKING") 2000;
               day_trip 2 1 (Some "IN_PASSENGER_VEHICLE") 60000;
               day_trip 3 2 None 12000;
               day_trip 4 3 (Some "WALKING") 700000].

(** * Transport modes *)

(** [Counter(iterable)]: every element counted under its own key. *)
Definition Counter (l : list string) : gmap string Z :=
  fold_left (fun counts k => <[k := default 0 (counts !! k) + 1]> counts) l ∅.

(** [primary_transport_mode IS NOT NULL]. *)
Definition has_primary_mode (t : TripModel.t) : bool :=
  match TripModel.primary_transport_mode t with
  | Some _ => true
  | None => false
  end.

(** [primary_transport_mode = mode]. *)
Definition has_mode (mode : string) (t : TripModel.t) : bool :=
  match TripModel.primary_transport_mode t with
  | Some m => String.eqb m mode
  | None => false
  end.

(** ** [PatternDetector.find_transport_mode_preferences_by_distance]
    (patterns.py, lines 149-179) *)

(** The ranges in km; an upper bound of [None] is [float('inf')]. *)
Definition distance_ranges : list (string * Q * option Q) :=
  [("< 10 km", 0%Q, Some 10%Q);
   ("10-50 km", 10%Q, Some 50%Q);
   ("50-100 km", 50%Q, Some 100%Q);
   ("100-250 km", 100%Q, Some 250%Q);
   ("250-500 km", 250%Q, Some 500%Q);
   ("500+ km", 500%Q, None)].

(** The filter of the query for one range. *)
Definition in_distance_range (min_km : Q) (max_km : option Q) (t : TripModel.t)
    : bool :=
  Qgeb (TripModel.total_distance_meters t) (min_km * 1000)
  && match max_km with
     | Some max_km => Qltb (TripModel.total_distance_meters t) (max_km * 1000)
     | None => true
     end
  && has_primary_mode t.

Definition find_transport_mode_preferences_by_distance (s : Session)
    : list (string * gmap string Z) :=
  map (fun '(range_name, min_km, max_km) =>
         let trips := List.filter (in_distance_range min_km max_km) (trips s) in
         let mode_counts := Counter (omap TripModel.primary_transport_mode trips) in
         (range_name, mode_counts))
      distance_ranges.

(** ** [TripStatistics.get_transport_mode_breakdown] (statistics.py, lines
    131-166) *)

(** SQL [AVG(column)] of a double precision column: NULL over no row, and
    otherwise the sum of the values divided by their number, in doubles. *)
Definition sql_avg (l : list Q) : option Q :=
  match l with
  | [] => None
  | _ => Some (fdiv (sum_floats l) (inject_Z (Z.of_nat (length l))))
  end.

Module ModeStats.
Record t := {
  count : Z;
  total_distance_km : Q;
  avg_distance_km : Q
}.
End ModeStats.

(** The rows of the query: one per mode, with the aggregates of its group. *)
Definition mode_rows (start_date end_date : option datetime) (s : Session)
    : list (string * Z * option Q * option Q) :=
  let rows :=
    List.filter (fun t => has_primary_mode t && trip_in_range start_date end_date t)
                (trips s) in
  map (fun mode =>
         let group := List.filter (has_mode mode) rows in
         (mode,
          sql_count (fun _ => true) group,
          sql_sum (map TripModel.total_distance_meters group),
          sql_avg (map TripModel.total_distance_meters group)))
      (remove_dups (omap TripModel.primary_transport_mode rows)).

Definition get_transport_mode_breakdown (start_date end_date : option datetime)
    (s : Session) : gmap string ModeStats.t :=
  let results := mode_rows start_date end_date s in
  fold_left
    (fun breakdown '(primary_transport_mode, count, total_distance, avg_distance) =>
       <[primary_transport_mode :=
           {| ModeStats.count := count;
              ModeStats.total_distance_km := fdiv (or_0 total_distance) 1000;
              ModeStats.avg_distance_km := fdiv (or_0 avg_distance) 1000 |}]>
         breakdown)
    results ∅.

(** The trips of a date range that have mode [mode]. *)
Definition trips_by_mode (start_date end_date : option datetime) (mode : string)
    (s : Session) : list TripModel.t :=
  List.filter (fun t => has_mode mode t && trip_in_range start_date end_date t)
              (trips s).

(** The figures of one mode in the breakdown. *)
Definition mode_stats_of (group : list TripModel.t) : ModeStats.t :=
  {| ModeStats.count := sql_count (fun _ => true) group;
     ModeStats.total_distance_km :=
       fdiv (or_0 (sql_sum (map TripModel.total_distance_meters group))) 1000;
     ModeStats.avg_distance_km :=
       fdiv (or_0 (sql_avg (map TripModel.total_distance_meters group))) 1000 |}.

(** * The persona: preferred travel modes (models.py, lines 239-258) *)

Module TravelModeAffinity.
Record t := { mode : string; affinity : Q }.
End TravelModeAffinity.

Module Persona.
Record t := { travel_mode_affinities : list TravelModeAffinity.t }.
End Persona.

(** [sorted(l, key=lambda x: x.affinity, reverse=True)]: a stable insertion
    sort, largest affinity first, equal affinities in the order of [l]. *)
Fixpoint insert_by_affinity (x : TravelModeAffinity.t) (l : list TravelModeAffinity.t)
    : list TravelModeAffinity.t :=
  match l with
  | [] => [x]
  | h :: l' =>
      if Qle_bool (TravelModeAffinity.affinity x) (TravelModeAffinity.affinity h)
      then h :: insert_by_affinity x l'
      else x :: h :: l'
  end.

Definition sorted_by_affinity (l : list TravelModeAffinity.t)
    : list TravelModeAffinity.t :=
  fold_left (fun acc x => insert_by_affinity x acc) l [].

(** The slice [l[:n]]: a negative [n] counts from the end. *)
Definition slice_to {A} (n : Z) (l : list A) : list A :=
  if n <? 0 then take (Z.to_nat (Z.of_nat (length l) + n)) l
  else take (Z.to_nat n) l.

Definition get_preferred_modes (top_n : Z) (self : Persona.t) : list (string * Q) :=
  let sorted_modes := sorted_by_affinity (Persona.travel_mode_affinities self) in
  map (fun m => (TravelModeAffinity.mode m, TravelModeAffinity.affinity m))
      (slice_to top_n sorted_modes).

(** The affinities left out by [get_preferred_modes]. *)
Definition other_modes (top_n : Z) (self : Persona.t) : list (string * Q) :=
  let sorted_modes := sorted_by_affinity (Persona.travel_mode_affinities self) in
  map (fun m => (TravelModeAffinity.mode m, TravelModeAffinity.affinity m))
      (drop (length (slice_to top_n sorted_modes)) sorted_modes).

(** The pairs of a given affinity, in order. *)
Definition with_affinity (q : Q) (l : list (string * Q)) : list (string * Q) :=
  List.filter (fun p => Qeq_bool p.2 q) l.

(** * Properties *)

(** ** Double precision *)

Lemma round_half_even_lower num den :
  0 < den -> num / den <= round_half_even num den.
Proof.
  intros Hden. unfold round_half_even.
  destruct (2 * (num mod den) ?= den); [destruct (Z.even _)|..]; lia.
Qed.

Lemma floor_log2_upper (n d : positive) :
  floor_log2 n d <= Z.log2 (Zpos n) - Z.log2 (Zpos d).
Proof. unfold floor_log2. cbv zeta. repeat case_match; lia. Qed.

(** The significand of a rounded positive number is positive. *)
Lemma round64_pos_positive (n d : positive) : (0 < round64_pos n d)%Q.
Proof.
  unfold round64_pos. cbv zeta.
  pose proof (floor_log2_upper n d) as Hk.
  pose proof (Z.log2_spec (Zpos n) ltac:(lia)) as [Hn _].
  pose proof (Z.log2_spec (Zpos d) ltac:(lia)) as [_ Hd].
  pose proof (Z.log2_nonneg (Zpos n)) as Ha.
  pose proof (Z.log2_nonneg (Zpos d)) as Hb.
  set (a := Z.log2 (Zpos n)) in *. set (b := Z.log2 (Zpos d)) in *.
  set (e := floor_log2 n d - 52) in *.
  destruct (0 <=? e) eqn:Ee.
  - apply Z.leb_le in Ee.
    assert (Hden : 0 < Zpos d * 2 ^ e) by (apply Z.mul_pos_pos; [lia|by apply Z.pow_pos_nonneg]).
    assert (Hq : 1 <= Zpos n / (Zpos d * 2 ^ e)).
    { apply Z.div_le_lower_bound; [done|]. rewrite Z.mul_1_r.
      assert (Zpos d * 2 ^ e < 2 ^ (b + 1) * 2 ^ e).
      { apply Z.mul_lt_mono_pos_r; [by apply Z.pow_pos_nonneg|done]. }
      rewrite <- Z.pow_add_r in H by lia.
      assert (2 ^ (b + 1 + e) <= 2 ^ a) by (apply Z.pow_le_mono_r; lia).
      lia. }
    pose proof (round_half_even_lower (Zpos n) (Zpos d * 2 ^ e) Hden) as Hm.
    unfold Qlt, inject_Z. cbn [Qnum Qden]. rewrite Z.mul_1_r.
    assert (0 < 2 ^ e) by (by apply Z.pow_pos_nonneg). nia.
  - apply Z.leb_gt in Ee.
    assert (Hq : 1 <= Zpos n * 2 ^ (- e) / Zpos d).
    { apply Z.div_le_lower_bound; [done|]. rewrite Z.mul_1_r.
      assert (2 ^ a * 2 ^ (- e) <= Zpos n * 2 ^ (- e)).
      { apply Z.mul_le_mono_nonneg_r; [apply Z.pow_nonneg; lia|done]. }
      rewrite <- Z.pow_add_r in H by lia.
      assert (2 ^ (b + 1) <= 2 ^ (a + - e)) by (apply Z.pow_le_mono_r; lia).
      lia. }
    pose proof (round_half_even_lower (Zpos n * 2 ^ (- e)) (Zpos d) ltac:(done)) as Hm.
    unfold Qlt. cbn [Qnum Qden]. lia.
Qed.

(** Rounding keeps the sign. *)
Lemma round64_sign (x : Q) :
  ((0 < x -> 0 < round64 x) /\ (x <= 0 -> round64 x <= 0)
   /\ (0 <= x -> 0 <= round64 x))%Q.
Proof.
  unfold round64. rewrite Qred_correct.
  pose proof (round64_pos_positive) as Hp.
  destruct x as [[|n|n] d]; cbn [Qnum Qden].
  - split; [|split]; intros H; try done; by apply Qlt_irrefl in H.
  - specialize (Hp n d). split; [done|]. split; [|intros _; by apply Qlt_le_weak].
    intros H. unfold Qle in H. cbn in H. lia.
  - specialize (Hp n d). split; [|split].
    + intros H. unfold Qlt in H. cbn in H. lia.
    + intros _. apply Qlt_le_weak. rewrite <- (Qopp_involutive 0).
      apply Qopp_lt_compat. exact Hp.
    + intros H. unfold Qle in H. cbn in H. lia.
Qed.

Lemma round64_zero (x : Q) : (x == 0)%Q -> round64 x = 0%Q.
Proof.
  intros H. unfold Qeq in H. cbn in H. rewrite Z.mul_1_r in H.
  unfold round64. by rewrite H.
Qed.

(** A quotient by a positive number has the sign of its numerator. *)
Lemma fdiv_sign (a b : Q) :
  (0 < b)%Q ->
  ((0 < fdiv a b -> 0 < a) /\ (0 <= a -> 0 <= fdiv a b))%Q.
Proof.
  intros Hb. apply round64_sign in Hb.
  destruct (round64_sign a) as (_ & Ha0 & Ha1).
  destruct (round64_sign (round64 a / round64 b)) as (_ & Hq0 & Hq1).
  unfold fdiv. split.
  - intros H. apply Qnot_le_lt. intros Hle.
    apply Ha0 in Hle.
    assert (Hq : (round64 a / round64 b <= 0)%Q).
    { unfold Qdiv. rewrite <- (Qmult_0_l (/ round64 b)).
      apply Qmult_le_compat_r; [done|]. apply Qlt_le_weak. by apply Qinv_lt_0_compat. }
    apply Hq0 in Hq. by apply Qle_not_lt in Hq.
  - intros H. apply Hq1. apply Ha1 in H. unfold Qdiv.
    apply Qmult_le_0_compat; [done|]. apply Qlt_le_weak. by apply Qinv_lt_0_compat.
Qed.

Lemma fadd_nonneg (a b : Q) : (0 <= a -> 0 <= b -> 0 <= fadd a b)%Q.
Proof.
  intros Ha Hb. unfold fadd. apply round64_sign.
  apply round64_sign in Ha, Hb.
  rewrite <- (Qplus_0_l 0). by apply Qplus_le_compat.
Qed.

Lemma sum_floats_snoc l x : sum_floats (l ++ [x]) = fadd (sum_floats l) x.
Proof. unfold sum_floats. by rewrite fold_left_app. Qed.

Lemma sum_floats_nonneg l :
  Forall (fun x => (0 <= x)%Q) l -> (0 <= sum_floats l)%Q.
Proof.
  induction l as [|x l IH] using rev_ind; intros H; [done|].
  apply Forall_app in H as [Hl Hx]. rewrite Forall_singleton in Hx.
  rewrite sum_floats_snoc. apply fadd_nonneg; [by apply IH|exact Hx].
Qed.

(** ** Agreement with the doubles of the machine *)

Module HardwareAgreement.
Import Floats Hardware.
#[local] Set Warnings "-inexact-float".

(** A literal is the double nearest to it. *)
Example literals_agree :
  double_value 0.1 = Some (round64 (1 # 10))
  /\ double_value 0.3 = Some (round64 (3 # 10))
  /\ double_value 0.3333333333333333
     = Some (round64 (3333333333333333 # 10000000000000000))
  /\ double_value 64229.8 = Some (round64 (642298 # 10)).
Proof. vm_compute. repeat split. Qed.

(** 0.1 + 0.2 is 0.30000000000000004, above 0.3; 0.1 + 0.7 is
    0.7999999999999999, below 0.8. *)
Example sums_agree :
  double_value (0.1 + 0.2) = Some (fadd (1 # 10) (2 # 10))
  /\ fgt (fadd (1 # 10) (2 # 10)) (3 # 10) = true
  /\ double_value (0 + 0.1 + 0.7) = Some (sum_floats [(1 # 10); (7 # 10)]%Q)
  /\ flt (sum_floats [(1 # 10); (7 # 10)]%Q) (8 # 10) = true.
Proof. vm_compute. repeat split. Qed.

(** 100 / 1000 is the double 0.1, and 1200 / 3600 the double
    0.3333333333333333; 64229.8 / 1000 is the double 64.2298 and 1 / 49 * 49
    is 0.9999999999999999. *)
Example quotients_agree :
  double_value (100 / 1000) = Some (fdiv 100 1000)
  /\ fge (fdiv 100 1000) (1 # 10) = true
  /\ double_value (1200 / 3600) = Some (fdiv 1200 3600)
  /\ fle (fdiv 1200 3600) (3333333333333333 # 10000000000000000) = true
  /\ double_value (64229.8 / 1000) = Some (fdiv (642298 # 10) 1000)
  /\ double_value (1000 / 1000 / 49 * 49)
     = Some (fmul (fdiv (fdiv 1000 1000) 49) 49)
  /\ flt (fmul (fdiv (fdiv 1000 1000) 49) 49) 1 = true.
Proof. vm_compute. repeat split. Qed.

End HardwareAgreement.


(** ** The session: what a flush does to the tables *)

Lemma same_repo_refl s : same_repo s s.
Proof. by repeat split. Qed.

Lemma same_repo_trans s1 s2 s3 : same_repo s1 s2 -> same_repo s2 s3 -> same_repo s1 s3.
Proof. intros (?&?&?) (?&?&?); repeat split; congruence. Qed.

Lemma insert_row_link o s s' :
  is_trip_row o = false -> insert_row o s = Some s' ->
  trips s' = trips s /\ trips_id_seq s' = trips_id_seq s
  /\ pending s' = pending s /\ same_repo s s'.
Proof.
  destruct o as [r|r|r]; [done| |]; intros _; cbn [insert_row];
    repeat case_match; try done; intros [= <-]; by repeat split.
Qed.

Lemma insert_rows_links os : forall s s',
  Forall (fun o => is_trip_row o = false) os -> insert_rows os s = Some s' ->
  trips s' = trips s /\ trips_id_seq s' = trips_id_seq s
  /\ pending s' = pending s /\ same_repo s s'.
Proof.
  induction os as [|o os IH]; intros s s' Hos; cbn [insert_rows].
  - intros [= <-]. repeat split; done.
  - apply Forall_cons in Hos as [Ho Hos].
    destruct (insert_row o s) as [s1|] eqn:E1; [|done].
    intros E2. destruct (insert_row_link _ _ _ Ho E1) as (T1 & Q1 & P1 & R1).
    destruct (IH _ _ Hos E2) as (T2 & Q2 & P2 & R2).
    split; [congruence|]. split; [congruence|]. split; [congruence|].
    eapply same_repo_trans; eauto.
Qed.

Lemma insert_rows_app os1 os2 s :
  insert_rows (os1 ++ os2) s
  = match insert_rows os1 s with
    | Some s' => insert_rows os2 s'
    | None => None
    end.
Proof.
  revert s; induction os1 as [|o os1 IH]; intros s; cbn [insert_rows app]; [done|].
  destruct (insert_row o s); [apply IH|done].
Qed.

Lemma flush_links s s' :
  no_pending_trip s -> flush s = Ok tt s' ->
  trips s' = trips s /\ trips_id_seq s' = trips_id_seq s
  /\ pending s' = [] /\ same_repo s s'.
Proof.
  unfold flush, no_pending_trip. intros Hp.
  destruct (insert_rows _ _) as [s1|] eqn:E; [|done]. intros [= <-].
  apply insert_rows_links in E; [|done]. cbn in E. apply E.
Qed.

Lemma flush_nothing s : pending s = [] -> flush s = Ok tt s.
Proof.
  unfold flush. intros E. rewrite E. cbn. f_equal.
  destruct s; cbn in *; by subst.
Qed.

Lemma for_each_add {A} (body : A -> M unit) (f : A -> Pending) (l : list A) :
  (forall x, body x = add (f x)) ->
  forall s, for_each l body s = Ok tt (set_pending (pending s ++ map f l) s).
Proof.
  intros Hb. induction l as [|x l IH]; intros s; cbn [for_each map].
  - unfold ret. f_equal. rewrite app_nil_r. by destruct s.
  - unfold bind. rewrite Hb. unfold add. rewrite IH. cbn. by rewrite <- app_assoc.
Qed.

(** ** [_create_trip]: the duplicate check and the rows it adds *)

Lemma head_filter_existsb {A} (f : A -> bool) (l : list A) :
  head (List.filter f l) = None <-> existsb f l = false.
Proof.
  induction l as [|x l IH]; cbn; [done|].
  destruct (f x); cbn; [split; done|apply IH].
Qed.

Lemma _create_trip_existing st en segs dist dests algo s :
  key_exists st en algo s = true ->
  _create_trip st en segs dist dests algo s = Ok tt s.
Proof.
  unfold key_exists, _create_trip, bind, query_existing, gets. intros E.
  destruct (head _) eqn:H; [done|].
  apply head_filter_existsb in H. congruence.
Qed.

Lemma _create_trip_fresh st en segs dist dests algo s :
  key_exists st en algo s = false ->
  no_pending_trip s ->
  _create_trip st en segs dist dests algo s
  = match insert_rows (pending s) (set_pending [] s) with
    | None => Raise IntegrityError
    | Some s1 =>
        let i := trips_id_seq s + 1 in
        if existsb (fun r' => TripModel.id r' =? i) (trips s) then Raise IntegrityError
        else Ok tt (set_pending (destination_rows i dests ++ segment_rows i segs)
                      (insert_trip (trip_row i st en segs dist algo) s1))
    end.
Proof.
  unfold key_exists, _create_trip, bind, query_existing, gets. intros E Hp.
  apply head_filter_existsb in E. rewrite E.
  unfold add, flush. cbn [pending set_pending].
  rewrite insert_rows_app.
  destruct (insert_rows (pending s) _) as [s1|] eqn:E1; [|done].
  apply insert_rows_links in E1 as (T1 & Q1 & P1 & R1); [|done].
  cbn [insert_rows insert_row]. cbn in T1, Q1, P1. rewrite T1, Q1.
  destruct (existsb _ (trips s)); [done|].
  cbn [TripModel.with_id TripModel.id insert_trip trips_id_seq].
  unfold bind.
  rewrite (for_each_add _ (fun '(idx, place_id) =>
             PDest {| TripDestinationModel.trip_id := trips_id_seq s + 1;
                      TripDestinationModel.place_id := place_id;
                      TripDestinationModel.visit_order := idx |}))
    by (by intros [? ?]).
  rewrite (for_each_add _ (fun '(idx, segment) =>
             PSeg {| TripSegmentModel.trip_id := trips_id_seq s + 1;
                     TripSegmentModel.segment_id := TimelineSegment.id segment;
                     TripSegmentModel.segment_order := idx |}))
    by (by intros [? ?]).
  cbn. f_equal.
  unfold set_pending, insert_trip, trip_row, destination_rows, segment_rows; cbn.
  by rewrite P1.
Qed.

(** ** The dedup key *)

Lemma same_key_spec st en algo r :
  same_key st en algo r = true <-> trip_key r = (st, en, algo).
Proof.
  unfold same_key, trip_key.
  rewrite !andb_true_iff, !Z.eqb_eq, String.eqb_eq.
  split; [intros [[-> ->] ->]; done|intros [= -> -> ->]; done].
Qed.

Lemma key_exists_spec st en algo s :
  key_exists st en algo s = true <-> (st, en, algo) ∈ map trip_key (trips s).
Proof.
  unfold key_exists. rewrite existsb_exists, list_elem_of_fmap.
  split.
  - intros (r & Hin & Hk). exists r. apply same_key_spec in Hk.
    split; [done|by apply list_elem_of_In].
  - intros (r & Hk & Hin). exists r. split; [by apply list_elem_of_In|].
    by apply same_key_spec.
Qed.

Lemma key_exists_false st en algo s :
  key_exists st en algo s = false <-> (st, en, algo) ∉ map trip_key (trips s).
Proof.
  rewrite <- key_exists_spec. destruct (key_exists st en algo s); naive_solver.
Qed.

Lemma appended_unique t s s' :
  appended t s s' -> unique_keys (trips s) -> unique_keys (trips s').
Proof.
  intros [_ _ Hf Ht] Hu. unfold unique_keys in *.
  rewrite Ht, map_app. apply NoDup_app. split; [done|]. split.
  - intros k Hk Hk'. cbn in Hk'. apply list_elem_of_singleton in Hk'. by subst.
  - cbn. apply NoDup_singleton.
Qed.

Lemma no_pending_trip_rows i dests segs :
  Forall (fun o => is_trip_row o = false) (destination_rows i dests ++ segment_rows i segs).
Proof.
  apply Forall_app. split; apply Forall_forall; intros o Ho;
    apply list_elem_of_fmap in Ho as ([? ?] & -> & _); done.
Qed.

(** What a successful [_create_trip] does to the trips table. *)
Lemma _create_trip_ok st en segs dist dests algo s s' :
  no_pending_trip s ->
  _create_trip st en segs dist dests algo s = Ok tt s' ->
  (key_exists st en algo s = true /\ s' = s)
  \/ (key_exists st en algo s = false
      /\ appended (trip_row (trips_id_seq s + 1) st en segs dist algo) s s'
      /\ pending s'
         = destination_rows (trips_id_seq s + 1) dests
           ++ segment_rows (trips_id_seq s + 1) segs).
Proof.
  intros Hp. destruct (key_exists st en algo s) eqn:E.
  - rewrite _create_trip_existing by done. intros [= <-]. by left.
  - rewrite _create_trip_fresh by done.
    destruct (insert_rows _ _) as [s1|] eqn:E1; [|done].
    cbn zeta. case_match; [done|]. intros [= <-]. right. split; [done|].
    apply insert_rows_links in E1 as (T1 & Q1 & P1 & R1); [|done].
    split; [|done]. split.
    + destruct R1 as (?&?&?). by repeat split.
    + unfold no_pending_trip. cbn. apply no_pending_trip_rows.
    + by apply key_exists_false.
    + cbn. by rewrite T1.
Qed.

(** ** The calls a detector makes to [_create_trip] *)

Lemma bind_assoc {A B C} (m : M A) (k : A -> M B) (h : B -> M C) s :
  bind (bind m k) h s = bind m (fun a => bind (k a) h) s.
Proof. unfold bind. by destruct (m s). Qed.

Lemma bind_ret_l {A B} (a : A) (k : A -> M B) s : bind (ret a) k s = k a s.
Proof. done. Qed.

Lemma bind_ext {A B} (m : M A) (k k' : A -> M B) s :
  (forall a s', k a s' = k' a s') -> bind m k s = bind m k' s.
Proof. intros H. unfold bind. destruct (m s); [apply H|done]. Qed.

Lemma for_each_cons_bind {A B} (x : A) (l : list A) (f : A -> M unit) (k : M B) s :
  bind (for_each (x :: l) f) (fun _ => k) s
  = bind (f x) (fun _ => bind (for_each l f) (fun _ => k)) s.
Proof. cbn [for_each]. apply bind_assoc. Qed.

Section PlansFacts.
Variable ST_Distance : Point -> Point -> option Q.
Variable set_iter : gset string -> list string.

(** *** Home-based *)

Section HomePlanFacts.
Variables (home_place_id : option string) (home_location : option Point)
          (use_distance_based : bool)
          (min_distance_km min_duration_hours : Q).

Let home := is_home ST_Distance home_place_id home_location use_distance_based.

Lemma home_loop_plan segments : forall acc trip_count s,
  home_loop ST_Distance set_iter home_place_id home_location use_distance_based
            min_distance_km min_duration_hours segments acc trip_count s
  = bind (materialize_all (home_requests ST_Distance set_iter home_place_id home_location use_distance_based min_distance_km min_duration_hours segments acc))
         (fun _ => ret (trip_count + Z.of_nat (length (home_requests ST_Distance set_iter home_place_id home_location use_distance_based min_distance_km min_duration_hours segments acc)))) s.
Proof.
  induction segments as [|segment rest IH]; intros acc n s;
    cbn [home_loop home_requests].
  - cbn. unfold ret. f_equal. lia.
  - fold home. destruct (home segment); [|apply IH].
    destruct (current_trip_segments acc) as [|first tl] eqn:Ecur; [apply IH|].
    fold (home_accepts min_distance_km min_duration_hours acc first segment).
    destruct (home_accepts min_distance_km min_duration_hours acc first segment); [|apply IH].
    rewrite <- Ecur.
    unfold materialize_all. rewrite for_each_cons_bind.
    apply bind_ext. intros _ s'. rewrite IH. unfold materialize_all.
    apply bind_ext. intros _ s''. unfold ret. f_equal. cbn [length]. lia.
Qed.

End HomePlanFacts.

(** *** Overnight *)

Lemma _create_overnight_trip_request visits :
  _create_overnight_trip visits = materialize_opt (overnight_request visits).
Proof.
  unfold _create_overnight_trip, overnight_request.
  destruct visits as [|[v g] tl]; [done|].
  destruct (last _) as [[lv lg]|]; done.
Qed.

Lemma overnight_loop_plan min_nights visits : forall current trip_count s,
  overnight_loop min_nights visits current trip_count s
  = bind (for_each (overnight_groups min_nights visits current)
                   _create_overnight_trip)
         (fun _ => ret (trip_count
                        + Z.of_nat (length (overnight_groups min_nights visits current)))) s.
Proof.
  induction visits as [|[visit segment] rest IH]; intros current n s;
    cbn [overnight_loop overnight_groups].
  - case_match; cbn [for_each length].
    + unfold bind. destruct (_create_overnight_trip current s); [|done].
      reflexivity.
    + cbn. unfold ret. f_equal. lia.
  - destruct (last current) as [[lv last_segment]|]; [|apply IH].
    case_match; [|apply IH]. case_match; [|apply IH].
    rewrite for_each_cons_bind. apply bind_ext. intros _ s'. rewrite IH.
    apply bind_ext. intros _ s''. unfold ret. f_equal. cbn [length]. lia.
Qed.

(** *** Distance-based *)

Lemma _create_clustered_trip_request segments :
  _create_clustered_trip set_iter segments
  = materialize_opt (cluster_request set_iter segments).
Proof.
  unfold _create_clustered_trip, cluster_request.
  destruct segments as [|g tl]; [done|].
  destruct (last _) as [lg|]; [|done].
  by destruct (cluster_totals _ _ _).
Qed.

Lemma distance_loop_plan time_gap_hours far : forall current trip_count s,
  distance_loop set_iter time_gap_hours far current trip_count s
  = bind (for_each (distance_clusters time_gap_hours far current)
                   (_create_clustered_trip set_iter))
         (fun _ => ret (trip_count
                        + Z.of_nat (length (distance_clusters time_gap_hours far current)))) s.
Proof.
  induction far as [|segment rest IH]; intros current n s;
    cbn [distance_loop distance_clusters].
  - case_match; cbn [for_each length].
    + unfold bind. destruct (_create_clustered_trip set_iter current s); [|done].
      reflexivity.
    + cbn. unfold ret. f_equal. lia.
  - destruct (last current) as [last_segment|]; [|apply IH].
    case_match; [apply IH|]. case_match; [|apply IH].
    rewrite for_each_cons_bind. apply bind_ext. intros _ s'. rewrite IH.
    apply bind_ext. intros _ s''. unfold ret. f_equal. cbn [length]. lia.
Qed.

(** A loop over groups is a loop over the requests of the non-empty ones. *)
Lemma for_each_requests {A} (f : A -> M unit) (request : A -> option Request)
    (groups : list A) :
  (forall g, f g = materialize_opt (request g)) ->
  forall s, for_each groups f s = materialize_all (omap request groups) s.
Proof.
  intros Hf. induction groups as [|g groups IH]; intros s; [done|].
  cbn [for_each]. unfold bind. rewrite Hf. unfold materialize_all. simpl omap.
  destruct (request g) as [r|]; cbn [materialize_opt for_each].
  - unfold bind. destruct (materialize r s); [apply IH|done].
  - cbn. apply IH.
Qed.

End PlansFacts.

(** ** What a sequence of calls does to the trips table *)

Lemma grown_refl P s : no_pending_trip s -> grown P s s.
Proof.
  intros Hp. split; [apply same_repo_refl|done| |done].
  exists []. by rewrite app_nil_r.
Qed.

Lemma grown_trans P s1 s2 s3 : grown P s1 s2 -> grown P s2 s3 -> grown P s1 s3.
Proof.
  intros [R1 P1 (n1 & T1 & F1) U1] [R2 P2 (n2 & T2 & F2) U2].
  split; [by eapply same_repo_trans|done| |auto].
  exists (n1 ++ n2). rewrite T2, T1, <- app_assoc. split; [done|].
  by apply Forall_app.
Qed.

Lemma grown_appended (P : TripModel.t -> Prop) t s s' :
  appended t s s' -> P t -> grown P s s'.
Proof.
  intros Ha Ht. split; [apply Ha|apply Ha| |by eapply appended_unique].
  exists [t]. split; [apply Ha|by apply Forall_singleton].
Qed.

Lemma grown_weaken (P P' : TripModel.t -> Prop) s s' :
  (forall t, P t -> P' t) -> grown P s s' -> grown P' s s'.
Proof.
  intros HP [R1 P1 (n1 & T1 & F1) U1]. split; try done.
  exists n1. split; [done|]. eapply Forall_impl; eauto.
Qed.

Lemma grown_keys P s s' k :
  grown P s s' -> k ∈ map trip_key (trips s) -> k ∈ map trip_key (trips s').
Proof.
  intros [_ _ (new & -> & _) _] Hk. rewrite map_app. apply elem_of_app. by left.
Qed.

Lemma materialize_ok r s s' :
  no_pending_trip s -> materialize r s = Ok tt s' ->
  grown (row_of [r]) s s' /\ req_key r ∈ map trip_key (trips s').
Proof.
  intros Hp E. apply _create_trip_ok in E as [[Ek ->]|(Ek & Ha & _)]; [| |done].
  - split; [by apply grown_refl|]. by apply key_exists_spec.
  - split.
    + eapply grown_appended; [exact Ha|]. exists r, (trips_id_seq s + 1).
      split; [apply list_elem_of_singleton; done|done].
    + rewrite (appended_trips _ _ _ Ha), map_app. apply elem_of_app. right.
      apply list_elem_of_singleton. done.
Qed.

Lemma materialize_all_ok rs : forall s s',
  no_pending_trip s -> materialize_all rs s = Ok tt s' ->
  grown (row_of rs) s s'
  /\ Forall (fun r => req_key r ∈ map trip_key (trips s')) rs.
Proof.
  induction rs as [|r rs IH]; intros s s' Hp; unfold materialize_all; cbn [for_each].
  - intros [= <-]. split; [by apply grown_refl|done].
  - unfold bind. destruct (materialize r s) as [[] s1|] eqn:E1; [|done].
    intros E2. apply materialize_ok in E1 as [G1 K1]; [|done].
    apply IH in E2 as [G2 K2]; [|apply G1].
    split.
    + eapply grown_trans; eapply grown_weaken; try eassumption.
      * intros t (r' & i & Hr' & ->). exists r', i. split; [|done].
        apply list_elem_of_singleton in Hr' as ->. by left.
      * intros t (r' & i & Hr' & ->). exists r', i. split; [|done]. by right.
    + apply Forall_cons. split; [|done]. eapply grown_keys; eauto.
Qed.

(** When every key is already in the table, nothing is written. *)
Lemma materialize_all_skip rs : forall s,
  Forall (fun r => req_key r ∈ map trip_key (trips s)) rs ->
  materialize_all rs s = Ok tt s.
Proof.
  induction rs as [|r rs IH]; intros s Hk; [done|].
  apply Forall_cons in Hk as [Hr Hrs].
  unfold materialize_all. cbn [for_each]. unfold bind, materialize at 1.
  rewrite _create_trip_existing by (by apply key_exists_spec).
  by apply IH.
Qed.

(** ** The memory detector *)

Lemma memory_loop_ok ms : forall n s n' s',
  no_pending_trip s -> memory_loop ms n s = Ok n' s' ->
  grown (memory_row_of ms) s s'
  /\ Forall (fun mg => memory_key mg ∈ map trip_key (trips s')) ms
  /\ n' = n + Z.of_nat (length (trips s')) - Z.of_nat (length (trips s)).
Proof.
  induction ms as [|[m g] ms IH]; intros n s n' s' Hp; cbn [memory_loop].
  - intros [= <- <-]. split; [by apply grown_refl|]. split; [done|lia].
  - unfold bind at 1. unfold query_existing, gets.
    destruct (head _) as [r|] eqn:Eh.
    + intros E. apply IH in E as (G & K & N); [|done].
      split; [|split; [|done]].
      * eapply grown_weaken; [|exact G].
        intros t (mg & Hmg & Ht). exists mg. split; [by right|done].
      * apply Forall_cons. split; [|done]. eapply grown_keys; [exact G|].
        apply key_exists_spec. unfold key_exists.
        destruct (existsb _ _) eqn:Ex; [done|].
        apply head_filter_existsb in Ex. cbn in Ex. congruence.
    + apply head_filter_existsb in Eh.
      unfold bind, add, flush. cbn [pending set_pending].
      rewrite insert_rows_app.
      destruct (insert_rows (pending s) _) as [s1|] eqn:E1; [|done].
      apply insert_rows_links in E1 as (T1 & Q1 & P1 & R1); [|done].
      cbn [insert_rows insert_row]. cbn in T1, Q1, P1. rewrite T1, Q1.
      destruct (existsb (fun r' => TripModel.id r' =? trips_id_seq s + 1) (trips s));
        [done|].
      cbn [gets TripModel.with_id TripModel.id insert_trip trips_id_seq].
      rewrite (for_each_add _ (fun '(idx, place_id) =>
                 PDest {| TripDestinationModel.trip_id := trips_id_seq s + 1;
                          TripDestinationModel.place_id := place_id;
                          TripDestinationModel.visit_order := idx |}))
        by (by intros [? ?]).
      cbn -[memory_loop Z.add Z.mul enumerate date_of]. rewrite P1. cbn [app].
      match goal with |- memory_loop _ _ ?s2 = _ -> _ => set (s_mid := s2) end.
      intros E.
      assert (Ha : appended
                     {| TripModel.id := trips_id_seq s + 1;
                        TripModel.start_time := TimelineSegment.start_time g;
                        TripModel.end_time := TimelineSegment.end_time g;
                        TripModel.is_multi_day :=
                          date_of (TimelineSegment.end_time g)
                          >? date_of (TimelineSegment.start_time g);
                        TripModel.total_distance_meters :=
                          inject_Z
                            (or_0_int (TimelineMemoryModel.distance_from_origin_kms m)
                             * 1000);
                        TripModel.primary_transport_mode := None;
                        TripModel.detection_algorithm := "timeline_memory" |}
                     s s_mid).
      { split.
        - destruct R1 as (?&?&?). by repeat split.
        - unfold no_pending_trip, s_mid. cbn. apply Forall_app. split.
          + apply Forall_forall. intros o Ho.
            apply list_elem_of_fmap in Ho as ([? ?] & -> & _). done.
          + by apply Forall_singleton.
        - apply key_exists_false. exact Eh.
        - unfold s_mid. cbn. by rewrite T1. }
      apply IH in E as (G & K & N); [|apply Ha].
      split; [|split].
      * eapply grown_trans.
        -- eapply grown_appended; [exact Ha|]. exists (m, g).
           split; [by left|done].
        -- eapply grown_weaken; [|exact G].
           intros t (mg & Hmg & Ht). exists mg. split; [by right|done].
      * apply Forall_cons. split; [|done]. eapply grown_keys; [exact G|].
        rewrite (appended_trips _ _ _ Ha), map_app. apply elem_of_app. right.
        by apply list_elem_of_singleton.
      * rewrite N, (appended_trips _ _ _ Ha), length_app. cbn [length]. lia.
Qed.

Lemma memory_loop_skip ms : forall n s,
  Forall (fun mg => memory_key mg ∈ map trip_key (trips s)) ms ->
  memory_loop ms n s = Ok n s.
Proof.
  induction ms as [|[m g] ms IH]; intros n s Hk; [done|].
  apply Forall_cons in Hk as [Hg Hms]. cbn [memory_loop].
  unfold bind at 1. unfold query_existing, gets.
  destruct (head _) as [r|] eqn:Eh; [by apply IH|].
  apply head_filter_existsb in Eh. apply key_exists_spec in Hg.
  unfold key_exists in Hg. cbn in Hg. congruence.
Qed.

(** ** The detectors as plans *)

Lemma run_plan_ok plan s n s' :
  pending s = [] -> run_plan plan s = Ok n s' ->
  n = plan.2 /\ pending s' = [] /\ grown (row_of plan.1) s s'
  /\ Forall (fun r => req_key r ∈ map trip_key (trips s')) plan.1.
Proof.
  intros Hp. unfold run_plan, bind.
  destruct (materialize_all plan.1 s) as [[] s1|] eqn:E1; [|done].
  apply materialize_all_ok in E1 as [G1 K1];
    [|unfold no_pending_trip; by rewrite Hp].
  unfold commit. destruct (flush s1) as [[] s2|] eqn:E2; [|done].
  apply flush_links in E2 as (T2 & Q2 & P2 & R2); [|apply G1].
  unfold ret. intros [= <- <-]. split; [done|]. split; [done|]. split.
  - destruct G1 as [R1 P1 (new & T1 & F1) U1]. split.
    + by eapply same_repo_trans.
    + unfold no_pending_trip. by rewrite P2.
    + exists new. by rewrite T2.
    + by rewrite T2.
  - by rewrite T2.
Qed.

Lemma run_plan_skip plan s :
  pending s = [] ->
  Forall (fun r => req_key r ∈ map trip_key (trips s)) plan.1 ->
  run_plan plan s = Ok plan.2 s.
Proof.
  intros Hp Hk. unfold run_plan, bind. rewrite materialize_all_skip by done.
  unfold commit. by rewrite flush_nothing.
Qed.

Section DetectorsFacts.
Variable ST_Distance : Point -> Point -> option Q.
Variable set_iter : gset string -> list string.

Lemma loop_then_commit (rs : list Request) (m : M unit) (n : Z) s :
  (forall s, m s = materialize_all rs s) ->
  bind (bind m (fun _ => ret n)) (fun trip_count => bind commit (fun _ => ret trip_count)) s
  = run_plan (rs, n) s.
Proof.
  intros Hm. unfold run_plan, bind. cbn [fst snd]. rewrite Hm.
  by destruct (materialize_all rs s).
Qed.

Lemma detect_home_based_trips_plan start_date end_date mind mindur s :
  detect_home_based_trips ST_Distance set_iter start_date end_date mind mindur s
  = run_plan_opt (home_plan ST_Distance set_iter start_date end_date mind mindur s) s.
Proof.
  unfold detect_home_based_trips, home_plan, query_profile.
  unfold bind at 1. cbn [gets].
  destruct (head (user_profile s)) as [p|]; [|done].
  destruct (no_home (Some p)); [done|].
  unfold bind at 1. cbn [query_segments gets run_plan_opt].
  unfold bind at 1. rewrite home_loop_plan. rewrite Z.add_0_l.
  by apply loop_then_commit.
Qed.

Lemma detect_overnight_trips_plan start_date end_date min_nights s :
  detect_overnight_trips ST_Distance start_date end_date min_nights s
  = run_plan_opt (overnight_plan ST_Distance start_date end_date min_nights s) s.
Proof.
  unfold detect_overnight_trips, overnight_plan, query_profile.
  unfold bind at 1. cbn [gets].
  destruct (head (user_profile s)) as [p|]; [|done].
  destruct (no_home (Some p)); [done|].
  unfold bind at 1. unfold overnight_candidates.
  cbn [query_overnight_visits gets run_plan_opt].
  unfold bind at 1. rewrite overnight_loop_plan. rewrite Z.add_0_l.
  apply loop_then_commit. intros s'. apply for_each_requests.
  apply _create_overnight_trip_request.
Qed.

Lemma detect_distance_based_trips_plan start_date end_date thr gap s :
  detect_distance_based_trips ST_Distance set_iter start_date end_date thr gap s
  = run_plan_opt (distance_plan ST_Distance set_iter start_date end_date thr gap s) s.
Proof.
  unfold detect_distance_based_trips, distance_plan, query_profile.
  unfold bind at 1. cbn [gets].
  destruct (head (user_profile s)) as [p|]; [|done].
  destruct (UserProfileModel.home_location p) as [home|]; [|done].
  unfold bind at 1. unfold far_segments_of.
  cbn [query_visits_and_activities gets run_plan_opt].
  unfold bind at 1. rewrite distance_loop_plan. rewrite Z.add_0_l.
  apply loop_then_commit. intros s'. apply for_each_requests.
  apply _create_clustered_trip_request.
Qed.

End DetectorsFacts.

(** ** Detector invocations *)

Section InvocationsFacts.
Variable ST_Distance : Point -> Point -> option Q.
Variable set_iter : gset string -> list string.

Lemma detect_plan i s :
  is_memory i = false -> detect ST_Distance set_iter i s = run_plan_opt (plan_of ST_Distance set_iter i s) s.
Proof.
  destruct i; [done| | |]; intros _; cbn [detect plan_of].
  - apply detect_home_based_trips_plan.
  - apply detect_overnight_trips_plan.
  - apply detect_distance_based_trips_plan.
Qed.

Lemma detect_memory_ok sd ed s n s' :
  pending s = [] -> detect_timeline_memory_trips sd ed s = Ok n s' ->
  pending s' = []
  /\ grown (memory_row_of (memories_of sd ed s)) s s'
  /\ Forall (fun mg => memory_key mg ∈ map trip_key (trips s')) (memories_of sd ed s)
  /\ n = Z.of_nat (length (trips s')) - Z.of_nat (length (trips s)).
Proof.
  intros Hp. unfold detect_timeline_memory_trips.
  unfold bind at 1. cbn [query_memories gets]. fold (memories_of sd ed s).
  unfold bind at 1.
  destruct (memory_loop _ 0 s) as [n1 s1|] eqn:E1; [|done].
  apply memory_loop_ok in E1 as (G1 & K1 & N1);
    [|unfold no_pending_trip; by rewrite Hp].
  unfold bind, commit. destruct (flush s1) as [[] s2|] eqn:E2; [|done].
  apply flush_links in E2 as (T2 & Q2 & P2 & R2); [|apply G1].
  unfold ret. intros [= <- <-]. split; [done|]. split; [|split].
  - destruct G1 as [R1 P1 (new & T1 & F1) U1]. split.
    + by eapply same_repo_trans.
    + unfold no_pending_trip. by rewrite P2.
    + exists new. by rewrite T2.
    + by rewrite T2.
  - by rewrite T2.
  - rewrite T2. lia.
Qed.

Lemma run_plan_opt_ok plan s n s' :
  pending s = [] -> run_plan_opt plan s = Ok n s' ->
  pending s' = [] /\ grown (fun _ => True) s s'.
Proof.
  intros Hp. destruct plan as [p|]; cbn [run_plan_opt].
  - intros E. apply run_plan_ok in E as (_ & P & G & _); [|done].
    split; [done|]. eapply grown_weaken; [|exact G]. done.
  - intros [= <- <-]. split; [done|]. apply grown_refl.
    unfold no_pending_trip. by rewrite Hp.
Qed.

(** Every detector leaves a clean session and only appends trips. *)
Lemma detect_ok i s n s' :
  pending s = [] -> detect ST_Distance set_iter i s = Ok n s' ->
  pending s' = [] /\ grown (fun _ => True) s s'.
Proof.
  intros Hp E. destruct (is_memory i) eqn:Ei.
  - destruct i; try done. cbn [detect] in E.
    apply detect_memory_ok in E as (P & G & _); [|done].
    split; [done|]. eapply grown_weaken; [|exact G]. done.
  - rewrite detect_plan in E by done. by eapply run_plan_opt_ok.
Qed.

Lemma run_invariant i s :
  pending s = [] -> unique_keys (trips s) ->
  pending (run ST_Distance set_iter i s) = [] /\ unique_keys (trips (run ST_Distance set_iter i s))
  /\ same_repo s (run ST_Distance set_iter i s).
Proof.
  intros Hp Hu. unfold run. destruct (detect ST_Distance set_iter i s) as [n s'|] eqn:E; cbn.
  - apply detect_ok in E as (P & G); [|done].
    split; [done|]. split; [by apply G|apply G].
  - split; [done|]. split; [done|apply same_repo_refl].
Qed.

Lemma run_all_invariant invocations : forall s,
  pending s = [] -> unique_keys (trips s) ->
  pending (run_all ST_Distance set_iter invocations s) = []
  /\ unique_keys (trips (run_all ST_Distance set_iter invocations s)).
Proof.
  induction invocations as [|i rest IH]; intros s Hp Hu; [done|].
  cbn [run_all fold_left]. destruct (run_invariant i s Hp Hu) as (P & U & _).
  by apply IH.
Qed.

End InvocationsFacts.

(** ** C1: one trip per dedup key *)

(** C1. Whatever detectors are invoked, in whatever order and however often,
    on a store that holds at most one trip per (start_time, end_time,
    detection_algorithm), the store still holds at most one trip per such
    triple afterwards; and each materialization looks the triple up first
    and writes nothing when it finds it: [_create_trip] returns the session
    unchanged, and the memory loop moves on to the next memory. *)
Theorem C1_one_trip_per_key (ST_Distance : Point -> Point -> option Q)
    (set_iter : gset string -> list string)
    (invocations : list Invocation) (s : Session) :
  pending s = [] ->
  unique_keys (trips s) ->
  unique_keys (trips (run_all ST_Distance set_iter invocations s))
  /\ (forall st en segs dist dests algo s0,
        key_exists st en algo s0 = true ->
        _create_trip st en segs dist dests algo s0 = Ok tt s0)
  /\ (forall m g ms n s0,
        key_exists (TimelineSegment.start_time g) (TimelineSegment.end_time g)
                   "timeline_memory" s0 = true ->
        memory_loop ((m, g) :: ms) n s0 = memory_loop ms n s0).
Proof.
  intros Hp Hu. split; [|split].
  - by apply run_all_invariant.
  - intros. by apply _create_trip_existing.
  - intros m g ms n s0 Hk. cbn [memory_loop].
    unfold bind, query_existing, gets.
    destruct (head _) eqn:Eh; [done|].
    apply head_filter_existsb in Eh. unfold key_exists in Hk. congruence.
Qed.

Lemma C1_one_trip_per_key_witness :
  pending memory_repo = []
  /\ unique_keys (trips memory_repo)
  /\ unique_keys
       (trips (run_all grid_distance alphabetical
                 [Memory None None; Memory None None;
                  HomeBased None None 50 4; Memory (Some 0) None]
                 memory_repo)).
Proof.
  split; [reflexivity|]. split; [constructor|].
  apply (C1_one_trip_per_key grid_distance alphabetical
           [Memory None None; Memory None None;
            HomeBased None None 50 4; Memory (Some 0) None] memory_repo);
    [reflexivity|constructor].
Defined.

(** ** C2: running a detector twice *)

Section TwiceFacts.
Variable ST_Distance : Point -> Point -> option Q.
Variable set_iter : gset string -> list string.

Lemma plan_of_same_repo i s s' :
  same_repo s s' -> plan_of ST_Distance set_iter i s' = plan_of ST_Distance set_iter i s.
Proof.
  intros (Hseg & Hprof & _). destruct i; cbn [plan_of]; [done| | |].
  - unfold home_plan. by rewrite Hseg, Hprof.
  - unfold overnight_plan, overnight_candidates, query_overnight_visits, gets.
    by rewrite Hseg, Hprof.
  - unfold distance_plan, far_segments_of. by rewrite Hseg, Hprof.
Qed.

Lemma memories_of_same_repo sd ed s s' :
  same_repo s s' -> memories_of sd ed s' = memories_of sd ed s.
Proof. intros (Hseg & _). unfold memories_of. by rewrite Hseg. Qed.

(** A second run of a [_create_trip] detector finds every key and returns
    the same count. *)
Lemma detect_twice_plan i s n s1 :
  is_memory i = false -> pending s = [] ->
  detect ST_Distance set_iter i s = Ok n s1 ->
  detect ST_Distance set_iter i s1 = Ok n s1.
Proof.
  intros Hi Hp E. rewrite detect_plan in * by done.
  destruct (plan_of ST_Distance set_iter i s) as [p|] eqn:Eplan;
    cbn [run_plan_opt] in E.
  - apply run_plan_ok in E as (-> & P1 & G1 & K1); [|done].
    rewrite (plan_of_same_repo i s s1) by apply G1. rewrite Eplan.
    cbn [run_plan_opt]. by apply run_plan_skip.
  - injection E as <- <-. by rewrite Eplan.
Qed.

(** A second run of the memory detector finds every key and returns 0. *)
Lemma detect_twice_memory sd ed s n s1 :
  pending s = [] ->
  detect_timeline_memory_trips sd ed s = Ok n s1 ->
  detect_timeline_memory_trips sd ed s1 = Ok 0 s1.
Proof.
  intros Hp E. apply detect_memory_ok in E as (P1 & G1 & K1 & _); [|done].
  unfold detect_timeline_memory_trips.
  unfold bind at 1. cbn [query_memories gets]. fold (memories_of sd ed s1).
  rewrite (memories_of_same_repo sd ed s s1) by apply G1.
  unfold bind at 1. rewrite memory_loop_skip by done.
  unfold bind, commit. by rewrite flush_nothing.
Qed.

End TwiceFacts.

(** What a second run does.  Run any detector on a freshly opened session,
    then run it again with the same arguments on the store the first run
    left.  The second run writes nothing, so no duplicate trip row appears
    (a store with one trip per key keeps that property through both runs).
    The home-based, overnight and distance-based detectors return the same
    count both times.  The memory detector skips an existing key before it
    counts: its first call returns the number of rows it added and its
    second call returns 0. *)
Lemma detect_second_run (ST_Distance : Point -> Point -> option Q)
    (set_iter : gset string -> list string) (i : Invocation) (s : Session) :
  pending s = [] ->
  let r1 := detect ST_Distance set_iter i s in
  let s1 := store_after s r1 in
  let r2 := detect ST_Distance set_iter i s1 in
  store_after s1 r2 = s1
  /\ (unique_keys (trips s) -> unique_keys (trips s1))
  /\ (is_memory i = false -> count_of r2 = count_of r1)
  /\ (is_memory i = true ->
      forall n, count_of r1 = Some n ->
                count_of r2 = Some 0
                /\ n = Z.of_nat (length (trips s1)) - Z.of_nat (length (trips s))).
Proof.
  intros Hp r1 s1 r2. subst r2 s1 r1.
  destruct (detect ST_Distance set_iter i s) as [n s1|e] eqn:E1; cbn [store_after].
  - assert (E2 : detect ST_Distance set_iter i s1
                 = Ok (if is_memory i then 0 else n) s1).
    { destruct (is_memory i) eqn:Ei.
      - destruct i; try done. cbn [detect] in *. by eapply detect_twice_memory.
      - exact (detect_twice_plan _ _ i s n s1 Ei Hp E1). }
    rewrite E2. cbn [store_after count_of]. split; [done|]. split; [|split].
    + apply detect_ok in E1 as [_ G]; [apply G|done].
    + by intros ->.
    + intros Hm k [= <-]. rewrite Hm. split; [done|].
      destruct i; try done. cbn [detect] in E1.
      apply detect_memory_ok in E1 as (_ & _ & _ & Hn); done.
  - rewrite E1. cbn. split; [done|]. split; [done|]. split; [done|]. by intros _ k.
Qed.

(** C2. The memory detector does not return the same count from two calls
    over an unchanged repository.  On [memory_repo], a store with two
    provider memories and no trip, the first call inserts two trips and
    returns 2; the second call, with the same arguments on the store the
    first one left, finds both keys, writes nothing (so there is no
    duplicate row) and returns 0.  The home-based detector, which counts a
    trip whether or not [_create_trip] wrote it, returns 1 from both calls
    on [zoo_day]. *)
Theorem C2_memory_detector_recount :
  let r1 := detect grid_distance alphabetical (Memory None None) memory_repo in
  let s1 := store_after memory_repo r1 in
  let r2 := detect grid_distance alphabetical (Memory None None) s1 in
  let h1 := detect grid_distance alphabetical (HomeBased None None 50 4) zoo_day in
  let h2 := detect grid_distance alphabetical (HomeBased None None 50 4)
              (store_after zoo_day h1) in
  count_of r1 = Some 2
  /\ length (trips s1) = 2%nat
  /\ count_of r2 = Some 0
  /\ store_after s1 r2 = s1
  /\ count_of r2 <> count_of r1
  /\ count_of h1 = Some 1
  /\ count_of h2 = Some 1.
Proof. vm_compute. repeat split; congruence. Qed.

(** ** The ordered query *)

Lemma insert_by_start_perm g l : insert_by_start g l ≡ₚ g :: l.
Proof.
  induction l as [|h l IH]; cbn; [done|].
  case_match; [|done]. rewrite IH. apply perm_swap.
Qed.

Lemma order_by_start_time_perm l : order_by_start_time l ≡ₚ l.
Proof.
  unfold order_by_start_time.
  assert (H : forall acc, fold_left (fun acc g => insert_by_start g acc) l acc ≡ₚ acc ++ l).
  { induction l as [|g l IH]; intros acc; cbn [fold_left].
    - by rewrite app_nil_r.
    - rewrite IH, insert_by_start_perm. cbn. apply Permutation_middle. }
  by rewrite H.
Qed.

Lemma elem_of_order_by_start_time g l : g ∈ order_by_start_time l <-> g ∈ l.
Proof. by rewrite order_by_start_time_perm. Qed.

Lemma insert_by_start_sorted g l :
  StronglySorted by_start l -> StronglySorted by_start (insert_by_start g l).
Proof.
  induction 1 as [|h l Hl IH Hh]; cbn.
  - by repeat constructor.
  - destruct (Z.leb_spec (TimelineSegment.start_time h) (TimelineSegment.start_time g)).
    + constructor; [done|]. rewrite insert_by_start_perm. by constructor.
    + constructor; [by constructor|]. constructor; [unfold by_start; lia|].
      eapply Forall_impl; [exact Hh|]. unfold by_start. intros; cbn in *; lia.
Qed.

Lemma order_by_start_time_sorted l : StronglySorted by_start (order_by_start_time l).
Proof.
  unfold order_by_start_time.
  assert (H : forall acc, StronglySorted by_start acc ->
              StronglySorted by_start (fold_left (fun acc g => insert_by_start g acc) l acc)).
  { induction l as [|g l IH]; intros acc Hacc; cbn [fold_left]; [done|].
    apply IH. by apply insert_by_start_sorted. }
  apply H. constructor.
Qed.

(** ** C3: the overnight candidates *)

(** The rows of the overnight query. *)
Lemma elem_of_query_overnight_visits (use_distance_based : bool)
    (home_place_id : option string) (start_date end_date : option datetime)
    (s : Session) (v : VisitModel.t) (g : TimelineSegment.t) :
  (v, g) ∈ flat_map (fun g => match TimelineSegment.visit g with
                              | Some v => [(v, g)]
                              | None => []
                              end)
             (order_by_start_time
                (List.filter
                   (fun g =>
                      match TimelineSegment.visit g with
                      | Some v =>
                          (if use_distance_based then true
                           else sql_ne (VisitModel.place_id v) home_place_id)
                          && overnight_window g
                          && in_range start_date end_date g
                      | None => false
                      end)
                   (timeline_segments s)))
  <-> g ∈ timeline_segments s /\ TimelineSegment.visit g = Some v
      /\ (if use_distance_based then true
          else sql_ne (VisitModel.place_id v) home_place_id) = true
      /\ overnight_window g = true /\ in_range start_date end_date g = true.
Proof.
  rewrite list_elem_of_In, in_flat_map. split.
  - intros (g0 & Hin & Hv).
    rewrite <- list_elem_of_In, elem_of_order_by_start_time, list_elem_of_In,
      filter_In in Hin.
    destruct Hin as [Hin Hf].
    destruct (TimelineSegment.visit g0) as [v0|] eqn:Ev; [|done].
    destruct Hv as [[= <- <-]|[]].
    apply andb_true_iff in Hf as [Hf Hr]. apply andb_true_iff in Hf as [Hne Hw].
    by rewrite list_elem_of_In.
  - intros (Hin & Ev & Hne & Hw & Hr). exists g. split.
    + rewrite <- list_elem_of_In, elem_of_order_by_start_time, list_elem_of_In,
        filter_In.
      split; [by apply list_elem_of_In|]. by rewrite Ev, Hne, Hw, Hr.
    + rewrite Ev. by left.
Qed.

Lemma overnight_window_spec g :
  overnight_window g = true
  <-> 6 * 3600 <= TimelineSegment.end_time g - TimelineSegment.start_time g
      /\ 20 <= hour_of (TimelineSegment.start_time g)
      /\ hour_of (TimelineSegment.end_time g) <= 8.
Proof.
  unfold overnight_window, total_seconds.
  rewrite !andb_true_iff, !Z.geb_le, Z.leb_le. tauto.
Qed.

(** C3 (as the code has it). A visit of the repository, within the date
    range, is an overnight candidate if and only if it lasts at least 6
    hours, it is away from home under the resolved mode, and it starts at
    hour 20 or later AND ends at hour 8 or earlier. *)
Theorem C3_overnight_candidates (ST_Distance : Point -> Point -> option Q)
    (start_date end_date : option datetime) (p : UserProfileModel.t)
    (s : Session) (v : VisitModel.t) (g : TimelineSegment.t) :
  (v, g) ∈ overnight_candidates ST_Distance start_date end_date p s
  <-> g ∈ timeline_segments s
      /\ TimelineSegment.visit g = Some v
      /\ in_range start_date end_date g = true
      /\ 6 * 3600 <= TimelineSegment.end_time g - TimelineSegment.start_time g
      /\ away_from_home ST_Distance p v = true
      /\ 20 <= hour_of (TimelineSegment.start_time g)
      /\ hour_of (TimelineSegment.end_time g) <= 8.
Proof.
  unfold overnight_candidates, away_from_home, query_overnight_visits, gets.
  destruct (uses_distance p).
  - rewrite list_elem_of_In, filter_In, <- list_elem_of_In.
    rewrite (elem_of_query_overnight_visits true (UserProfileModel.home_place_id p)),
      overnight_window_spec.
    tauto.
  - rewrite (elem_of_query_overnight_visits false), overnight_window_spec. tauto.
Qed.

(** C3 as stated fails: the visit lasts 13 hours, is away from home and
    starts after 20:00, so it passes the disjunctive test; it ends at hour
    10, so the query drops it and no trip is detected. *)
Lemma C3_counterexample :
  exists v,
    TimelineSegment.visit late_checkout = Some v
    /\ claimed_overnight_candidate grid_distance home_by_id v late_checkout = true
    /\ ~ ((v, late_checkout)
          ∈ overnight_candidates grid_distance None None home_by_id late_checkout_repo)
    /\ detect_overnight_trips grid_distance None None 1 late_checkout_repo
       = Ok 0 late_checkout_repo.
Proof.
  eexists. split; [reflexivity|]. split; [by vm_compute|]. split.
  - vm_compute. apply not_elem_of_nil.
  - by vm_compute.
Qed.

(** ** C4: the primary transport mode *)

Lemma round64_or_0 (o : option Q) :
  round64 (or_0 o) = round64 match o with Some d => d | None => 0%Q end.
Proof.
  destruct o as [q|]; [|done]. unfold or_0.
  destruct (Qeq_bool q 0) eqn:E; [|done].
  apply Qeq_bool_iff in E. by rewrite (round64_zero q E).
Qed.

(** In a sum a NULL distance, and 0.0, count as 0. *)
Lemma fadd_or_0 (v : Q) (a : ActivityModel.t) :
  fadd v (or_0 (ActivityModel.distance_meters a)) = fadd v (distance_of a).
Proof. unfold fadd, distance_of. by rewrite round64_or_0. Qed.

Lemma dict_add_or_0 (a : ActivityModel.t) k d :
  dict_add k (or_0 (ActivityModel.distance_meters a)) d = dict_add k (distance_of a) d.
Proof.
  induction d as [|[k' v] d IH]; cbn [dict_add].
  - by rewrite fadd_or_0.
  - case_decide; [by rewrite fadd_or_0|by rewrite IH].
Qed.

Lemma mode_distances_from_fold segments : forall d,
  mode_distances_from segments d
  = fold_left (fun d '(k, q) => dict_add k q d) (activity_distances segments) d.
Proof.
  induction segments as [|g segments IH]; intros d; [done|].
  cbn [mode_distances_from activity_distances].
  destruct (TimelineSegment.activity g) as [a|]; cbn [fold_left]; [|apply IH].
  rewrite dict_add_or_0. apply IH.
Qed.

Lemma dict_add_notin k q d :
  k ∉ map fst d -> dict_add k q d = d ++ [(k, fadd 0 q)].
Proof.
  induction d as [|[k' v] d IH]; cbn; [done|]. intros Hk.
  apply not_elem_of_cons in Hk as [Hne Hk]. case_decide; [congruence|].
  by rewrite IH.
Qed.

Lemma dict_add_in k q d :
  k ∈ map fst d ->
  exists d1 v d2, d = d1 ++ (k, v) :: d2
                  /\ dict_add k q d = d1 ++ (k, fadd v q) :: d2.
Proof.
  induction d as [|[k' v] d IH]; cbn; [by intros ?%elem_of_nil|]. intros Hk.
  case_decide as Hd.
  - subst k'. by exists [], v, d.
  - apply elem_of_cons in Hk as [->|Hk]; [done|].
    destruct (IH Hk) as (d1 & v' & d2 & -> & ->).
    by exists ((k', v) :: d1), v', d2.
Qed.

(** One more activity adds its distance to the total of its label. *)
Lemma label_total_snoc k acts k' q :
  label_total k (acts ++ [(k', q)])
  = if decide (k' = k) then fadd (label_total k acts) q else label_total k acts.
Proof.
  unfold label_total. rewrite List.filter_app. cbn [List.filter fst].
  case_decide as Hd.
  - rewrite bool_decide_eq_true_2 by done. rewrite map_app. cbn [map snd].
    apply sum_floats_snoc.
  - rewrite bool_decide_eq_false_2 by done. by rewrite app_nil_r.
Qed.

Lemma label_total_absent k acts : k ∉ map fst acts -> label_total k acts = 0%Q.
Proof.
  intros Hk. unfold label_total.
  assert (E : List.filter (fun act : option string * Q => bool_decide (act.1 = k)) acts
              = []).
  { induction acts as [|[k1 d1] acts IH]; [done|]. cbn [map fst] in Hk.
    apply not_elem_of_cons in Hk as [Hne Hk]. cbn [List.filter fst].
    rewrite bool_decide_eq_false_2 by congruence. by apply IH. }
  by rewrite E.
Qed.

Lemma first_seen_before_snoc k k' labels x :
  first_seen_before k k' labels -> first_seen_before k k' (labels ++ [x]).
Proof.
  intros (pre & post & -> & H1 & H2). exists pre, (post ++ [x]).
  by rewrite <- app_assoc.
Qed.

Lemma first_seen_before_new k k' labels :
  k ∈ labels -> k' ∉ labels -> first_seen_before k k' (labels ++ [k']).
Proof.
  intros Hk Hk'. apply list_elem_of_split_l in Hk as (pre & post & -> & Hpre).
  exists pre, (post ++ [k']). rewrite <- app_assoc. split; [done|]. split; [done|].
  intros Hin. apply Hk'. apply elem_of_app. by left.
Qed.

Lemma dict_of_nil : dict_of [] [].
Proof.
  split.
  - constructor.
  - done.
  - intros k v H. by apply elem_of_nil in H.
  - intros ks1 k ks2 k' H. by destruct ks1.
Qed.

Lemma dict_of_snoc acts d k q :
  dict_of acts d -> dict_of (acts ++ [(k, q)]) (dict_add k q d).
Proof.
  intros [Hnd Hkeys Hvals Hord].
  destruct (decide (k ∈ map fst d)) as [Hin|Hnotin].
  - destruct (dict_add_in k q d Hin) as (d1 & v & d2 & Ed & ->).
    assert (Ekeys : map fst (d1 ++ (k, fadd v q) :: d2) = map fst d).
    { rewrite Ed, !map_app. done. }
    rewrite Ed, map_app in Hnd. cbn in Hnd.
    apply NoDup_app in Hnd as (Hnd1 & Hnd12 & Hnd2).
    apply NoDup_cons in Hnd2 as [Hk2 Hnd2].
    split.
    + rewrite Ekeys, Ed, map_app. cbn. apply NoDup_app. split; [done|].
      split; [done|]. by apply NoDup_cons.
    + intros k0. rewrite Ekeys, Hkeys, map_app, elem_of_app. cbn.
      split; [by left|]. intros [H|H]; [done|].
      apply list_elem_of_singleton in H as ->. by apply Hkeys.
    + intros k0 v0 Hk0. rewrite label_total_snoc.
      apply elem_of_app in Hk0 as [Hk0|Hk0].
      * rewrite <- (Hvals k0 v0) by (rewrite Ed; apply elem_of_app; by left).
        case_decide as Hd; [|done]. subst k0. exfalso. apply (Hnd12 k).
        -- apply list_elem_of_fmap. by exists (k, v0).
        -- by left.
      * apply elem_of_cons in Hk0 as [[= -> ->]|Hk0].
        -- rewrite <- (Hvals k v) by (rewrite Ed; apply elem_of_app; right; by left).
           by rewrite decide_True.
        -- rewrite <- (Hvals k0 v0)
             by (rewrite Ed; apply elem_of_app; right; by right).
           case_decide as Hd; [|done]. subst k0. exfalso. apply Hk2.
           apply list_elem_of_fmap. by exists (k, v0).
    + intros ks1 k0 ks2 k' E Hk'. rewrite Ekeys in E. rewrite map_app.
      apply first_seen_before_snoc. by eapply Hord.
  - rewrite dict_add_notin by done. split.
    + rewrite map_app. apply NoDup_app. split; [done|]. split.
      * intros k0 H1 H2. cbn in H2. apply list_elem_of_singleton in H2 as ->. done.
      * apply NoDup_singleton.
    + intros k0. rewrite !map_app, !elem_of_app, Hkeys. done.
    + intros k0 v0 Hk0. rewrite label_total_snoc.
      apply elem_of_app in Hk0 as [Hk0|Hk0].
      * rewrite <- (Hvals k0 v0) by done. case_decide as Hd; [|done].
        subst k0. exfalso. apply Hnotin. apply list_elem_of_fmap. by exists (k, v0).
      * apply list_elem_of_singleton in Hk0 as [= -> ->].
        rewrite decide_True by done.
        rewrite label_total_absent; [done|]. by rewrite <- Hkeys.
    + intros ks1 k0 ks2 k' E Hk'. rewrite !map_app in *. cbn in E.
      destruct (decide (ks2 = [])) as [->|Hne]; [by apply elem_of_nil in Hk'|].
      destruct (exists_last Hne) as (ks2' & x & ->).
      rewrite app_comm_cons, app_assoc in E. apply app_inj_tail in E as [E <-].
      apply elem_of_app in Hk' as [Hk'|Hk'].
      * apply first_seen_before_snoc. by eapply Hord.
      * apply list_elem_of_singleton in Hk' as ->. cbn.
        apply first_seen_before_new; [|by rewrite <- Hkeys].
        rewrite <- Hkeys, E. apply elem_of_app. right. by left.
Qed.

Lemma dict_of_mode_distances segments :
  dict_of (activity_distances segments) (mode_distances segments).
Proof.
  unfold mode_distances. rewrite mode_distances_from_fold.
  induction (activity_distances segments) as [|[k q] acts IH] using rev_ind.
  - apply dict_of_nil.
  - rewrite fold_left_app. cbn. by apply dict_of_snoc.
Qed.

Lemma max_by_value_spec rest : forall b1 best b2,
  Forall (fun x => (snd x < snd best)%Q) b1 ->
  Forall (fun x => (snd x <= snd best)%Q) b2 ->
  exists d1 d2,
    b1 ++ best :: b2 ++ rest = d1 ++ max_by_value best rest :: d2
    /\ Forall (fun x => (snd x < snd (max_by_value best rest))%Q) d1
    /\ Forall (fun x => (snd x <= snd (max_by_value best rest))%Q) d2.
Proof.
  induction rest as [|item rest IH]; intros b1 best b2 H1 H2; cbn [max_by_value].
  - exists b1, b2. by rewrite app_nil_r.
  - unfold Qgtb. destruct (Qle_bool (snd item) (snd best)) eqn:E; cbn [negb].
    + apply Qle_bool_iff in E.
      destruct (IH b1 best (b2 ++ [item])) as (d1 & d2 & Ed & F1 & F2); [done| |].
      * apply Forall_app. split; [done|]. by apply Forall_singleton.
      * exists d1, d2. rewrite <- Ed, <- app_assoc. done.
    + assert (Hlt : (snd best < snd item)%Q).
      { apply Qnot_le_lt. intros Hle. apply Qle_bool_iff in Hle. congruence. }
      destruct (IH (b1 ++ best :: b2) item []) as (d1 & d2 & Ed & F1 & F2); [|done|].
      * apply Forall_app. split; [|apply Forall_cons; split].
        -- eapply Forall_impl; [exact H1|]. intros x Hx. cbn in *. lra.
        -- done.
        -- eapply Forall_impl; [exact H2|]. intros x Hx. cbn in *. lra.
      * exists d1, d2. rewrite <- Ed, <- app_assoc. done.
Qed.

Lemma primary_mode_spec segments :
  let acts := activity_distances segments in
  let labels := map fst acts in
  acts <> [] ->
  primary_mode segments ∈ labels
  /\ (forall k, k ∈ labels ->
        (label_total k acts <= label_total (primary_mode segments) acts)%Q)
  /\ (forall k, k ∈ labels ->
        (label_total k acts == label_total (primary_mode segments) acts)%Q ->
        first_seen_before (primary_mode segments) k labels).
Proof.
  intros acts labels Hne. subst labels acts.
  destruct (dict_of_mode_distances segments) as [Hnd Hkeys Hvals Hord].
  unfold primary_mode.
  destruct (mode_distances segments) as [|item rest] eqn:Ed.
  { destruct (activity_distances segments) as [|[k q] acts]; [done|].
    exfalso. eapply elem_of_nil. apply (Hkeys k). cbn. by left. }
  destruct (max_by_value_spec rest [] item []) as (d1 & d2 & E & F1 & F2); [done..|].
  cbn [app] in E. set (w := max_by_value item rest) in *.
  assert (Hw : w ∈ item :: rest) by (rewrite E; apply elem_of_app; right; by left).
  assert (Hwv : (snd w == label_total (fst w) (activity_distances segments))%Q).
  { rewrite (Hvals (fst w) (snd w)) at 1; [reflexivity|by destruct w]. }
  assert (Hcase : forall k, k ∈ map fst (activity_distances segments) ->
            exists v, (v == label_total k (activity_distances segments))%Q
                      /\ ((v < snd w)%Q \/ k = fst w \/ ((v <= snd w)%Q /\ k ∈ map fst d2))).
  { intros k Hk. apply Hkeys, list_elem_of_fmap in Hk as ([k0 v] & -> & Hin).
    exists v. split; [by rewrite (Hvals _ _ Hin)|]. rewrite E in Hin.
    apply elem_of_app in Hin as [Hin|Hin].
    - left. rewrite Forall_forall in F1. apply (F1 _ Hin).
    - apply elem_of_cons in Hin as [<-|Hin]; [right; by left|].
      right. right. rewrite Forall_forall in F2. split; [apply (F2 _ Hin)|].
      apply list_elem_of_fmap. by exists (k0, v). }
  split; [|split].
  - apply Hkeys, list_elem_of_fmap. by exists w.
  - intros k Hk. destruct (Hcase k Hk) as (v & Ev & [Hlt|[->|[Hle _]]]); lra.
  - intros k Hk Etie. destruct (Hcase k Hk) as (v & Ev & [Hlt|[->|[_ Hin]]]).
    + lra.
    + assert (Hin : fst w ∈ map fst (activity_distances segments)).
      { apply Hkeys, list_elem_of_fmap. by exists w. }
      apply list_elem_of_split_l in Hin as (pre & post & -> & Hpre).
      by exists pre, post.
    + eapply Hord; [|exact Hin]. rewrite E, map_app. done.
Qed.

Lemma activity_distances_nil segments :
  Forall (fun g => TimelineSegment.activity g = None) segments ->
  activity_distances segments = [].
Proof.
  induction 1 as [|g segments Hg _ IH]; [done|].
  cbn [activity_distances]. by rewrite Hg.
Qed.

Lemma activity_distances_cons segments :
  Exists (fun g => is_Some (TimelineSegment.activity g)) segments ->
  activity_distances segments <> [].
Proof.
  induction 1 as [g segments [a Ha]|g segments _ IH]; cbn [activity_distances].
  - by rewrite Ha.
  - by destruct (TimelineSegment.activity g).
Qed.

(** C4. A trip [_create_trip] materializes carries [primary_mode] of its
    member segments.  When no member segment has an activity payload the
    primary mode is absent.  When some have one, it is a movement-mode label
    of these activities whose summed distance no other label exceeds, and
    any label with the same sum is first encountered no earlier than it (on
    an exact tie the first-seen label wins); segments walking 500 then
    driving 500 give "walking".  The summed distance of a label is the sum
    the code accumulates: its distances (a missing one as 0) added up in
    double precision in segment order; driving 0.3 then walking 0.1 and 0.2
    give "walking", the float sum of 0.1 and 0.2 being above 0.3. *)
Theorem C4_primary_mode (segments : list TimelineSegment.t) :
  let acts := activity_distances segments in
  let labels := map fst acts in
  (forall st en dist dests algo s s',
      no_pending_trip s -> key_exists st en algo s = false ->
      _create_trip st en segments dist dests algo s = Ok tt s' ->
      exists t, trips s' = trips s ++ [t]
                /\ TripModel.primary_transport_mode t = primary_mode segments)
  /\ (Forall (fun g => TimelineSegment.activity g = None) segments ->
      primary_mode segments = None)
  /\ (Exists (fun g => is_Some (TimelineSegment.activity g)) segments ->
      primary_mode segments ∈ labels
      /\ (forall k, k ∈ labels ->
            (label_total k acts <= label_total (primary_mode segments) acts)%Q)
      /\ (forall k, k ∈ labels ->
            (label_total k acts == label_total (primary_mode segments) acts)%Q ->
            first_seen_before (primary_mode segments) k labels))
  /\ primary_mode walking_then_driving = Some "walking"
  /\ primary_mode three_short_legs = Some "walking".
Proof.
  intros acts labels. split; [|split; [|split; [|split]]].
  - intros st en dist dests algo s s' Hp Hk E.
    apply _create_trip_ok in E as [[Hk' _]|(_ & Ha & _)]; [congruence| |done].
    eexists. split; [apply Ha|done].
  - intros Hnone. unfold primary_mode, mode_distances.
    rewrite mode_distances_from_fold, activity_distances_nil by done. done.
  - intros Hsome. apply primary_mode_spec. by apply activity_distances_cons.
  - vm_compute. reflexivity.
  - vm_compute. reflexivity.
Qed.

(** ** C5: the home test by distance *)

(** With a coordinate home, a located visit is a home visit exactly when its
    distance is known, is not 0.0, and is below 1 km: the test is
    [distance and (distance / 1000) < 1.0], and 0.0 is falsy. *)
Lemma is_home_by_distance (ST_Distance : Point -> Point -> option Q)
    (home loc : Point) (g : TimelineSegment.t) (v : VisitModel.t) :
  TimelineSegment.visit g = Some v ->
  VisitModel.location v = Some loc ->
  is_home ST_Distance None (Some home) true g = true
  <-> exists d, ST_Distance home loc = Some d /\ ~ (d == 0)%Q /\ (d / 1000 < 1)%Q.
Proof.
  intros Hv Hloc. unfold is_home. rewrite Hv, Hloc.
  destruct (ST_Distance home loc) as [d|]; cbn [truthy_float].
  - rewrite andb_true_iff, negb_true_iff. unfold Qltb.
    rewrite negb_true_iff, <- not_true_iff_false, <- (not_true_iff_false (Qle_bool _ _)).
    rewrite Qeq_bool_iff, Qle_bool_iff. split.
    + intros [H0 H1]. exists d. split; [done|]. split; [done|]. by apply Qnot_le_lt.
    + intros (d' & [= <-] & H0 & H1). split; [done|]. by apply Qlt_not_le.
  - split; [done|]. by intros (d & ? & _).
Qed.

(** C5, the code at the failing input.  A visit located exactly on the home
    coordinate is at distance 0 and is not classified as home; the day out
    whose home visits are on the coordinate yields no trip, while the same
    day with the home visits 11 m away (0.0001 degree) yields one. *)
Theorem C5_visit_on_home_coordinate :
  let home := {| lon := 0; lat := 0 |} in
  let at_home := visit_segment 1 (at_hour 1 7) (at_hour 1 9) None (Some home) in
  grid_distance home home = Some 0%Q
  /\ is_home grid_distance None (Some home) true at_home = false
  /\ count_of (detect_home_based_trips grid_distance alphabetical None None 50 4
                 (day_out 0))
     = Some 0
  /\ count_of (detect_home_based_trips grid_distance alphabetical None None 50 4
                 (day_out (1 # 10000)))
     = Some 1.
Proof. by vm_compute. Qed.
(** ** C6: the trailing run of the home-based detector *)

Section HomeRunsFacts.
Variable ST_Distance : Point -> Point -> option Q.
Variable set_iter : gset string -> list string.
Variables (home_place_id : option string) (home_location : option Point)
          (use_distance_based : bool) (min_distance_km min_duration_hours : Q).

Let home := is_home ST_Distance home_place_id home_location use_distance_based.
Let requests :=
  home_requests ST_Distance set_iter home_place_id home_location use_distance_based
                min_distance_km min_duration_hours.

Lemma home_requests_open run : forall acc,
  Forall (fun g => home g = false) run -> requests run acc = [].
Proof.
  induction run as [|g run IH]; intros acc Hrun; [done|].
  apply Forall_cons in Hrun as [Hg Hrun]. unfold requests. cbn [home_requests].
  fold home. rewrite Hg. by apply IH.
Qed.

Lemma home_requests_trailing pre run : forall acc,
  Forall (fun g => home g = false) run ->
  requests (pre ++ run) acc = requests pre acc.
Proof.
  induction pre as [|g pre IH]; intros acc Hrun.
  - cbn [app]. rewrite home_requests_open by done. done.
  - unfold requests in *. cbn [app home_requests]. fold home.
    destruct (home g); [|by apply IH].
    destruct (current_trip_segments acc); [by apply IH|].
    destruct (home_accepts _ _ _ _ _); [f_equal|]; by apply IH.
Qed.

Lemma home_requests_closed segments : forall l1 acc,
  Forall (fun g => home g = false) (current_trip_segments acc) ->
  (l1 = [] \/ exists l1' h0, l1 = l1' ++ [h0] /\ home h0 = true) ->
  forall r, r ∈ requests segments acc ->
            closed_run ST_Distance home_place_id home_location use_distance_based (l1 ++ current_trip_segments acc ++ segments) r.
Proof.
  induction segments as [|g rest IH]; intros l1 acc Hpend Hl1 r Hr;
    [by apply elem_of_nil in Hr|].
  unfold requests in Hr. cbn [home_requests] in Hr. fold home in Hr.
  destruct (home g) eqn:Hg.
  - destruct (current_trip_segments acc) as [|first tl] eqn:Ecur.
    + cbn [app].
      replace (l1 ++ g :: rest)
        with ((l1 ++ [g]) ++ current_trip_segments acc ++ rest)
        by (rewrite Ecur, <- app_assoc; done).
      apply IH; [by rewrite Ecur| |done]. right. by exists l1, g.
    + assert (Hrest : forall r, r ∈ requests rest home_acc_reset ->
                closed_run ST_Distance home_place_id home_location use_distance_based (l1 ++ (first :: tl) ++ g :: rest) r).
      { intros r' Hr'.
        replace (l1 ++ (first :: tl) ++ g :: rest)
          with ((l1 ++ (first :: tl) ++ [g])
                ++ current_trip_segments home_acc_reset ++ rest)
          by (cbn; rewrite <- ?app_assoc; cbn; rewrite <- ?app_assoc; done).
        apply IH; [done| |done]. right. exists (l1 ++ first :: tl), g.
        by rewrite <- !app_assoc. }
      destruct (home_accepts _ _ _ _ _); [|by apply Hrest].
      apply elem_of_cons in Hr as [->|Hr]; [|by apply Hrest].
      exists l1, first, tl, g, rest. cbn. by rewrite Ecur.
  - replace (l1 ++ current_trip_segments acc ++ g :: rest)
      with (l1 ++ current_trip_segments (home_acc_push g acc) ++ rest)
      by (cbn; rewrite <- ?app_assoc; done).
    apply IH; [|done|done]. cbn. apply Forall_app. split; [done|].
    by apply Forall_singleton.
Qed.

End HomeRunsFacts.

(** C6. When the stream of the home-based detector ends with a run of
    non-home segments, the detector does exactly what it does on the stream
    without that run: the open run yields no trip, whatever the thresholds
    and whatever distance and duration it accumulated.  Every call to
    [_create_trip] closes a run on an observed home visit, with bounds
    [first segment's start, closing home segment's start). *)
Theorem C6_trailing_run (ST_Distance : Point -> Point -> option Q)
    (set_iter : gset string -> list string)
    (start_date end_date : option datetime) (min_distance_km min_duration_hours : Q)
    (s : Session) (p : UserProfileModel.t) (pre run : list TimelineSegment.t) :
  pending s = [] ->
  let home := is_home ST_Distance (UserProfileModel.home_place_id p)
                (UserProfileModel.home_location p) (uses_distance p) in
  let requests :=
    home_requests ST_Distance set_iter (UserProfileModel.home_place_id p)
      (UserProfileModel.home_location p) (uses_distance p)
      min_distance_km min_duration_hours in
  head (user_profile s) = Some p ->
  no_home (Some p) = false ->
  home_stream start_date end_date s = pre ++ run ->
  Forall (fun g => home g = false) run ->
  detect_home_based_trips ST_Distance set_iter start_date end_date
    min_distance_km min_duration_hours s
  = run_plan (requests pre home_acc_reset,
              Z.of_nat (length (requests pre home_acc_reset))) s
  /\ (pre = [] ->
      detect_home_based_trips ST_Distance set_iter start_date end_date
        min_distance_km min_duration_hours s = Ok 0 s)
  /\ forall r, r ∈ requests pre home_acc_reset ->
               closed_run ST_Distance (UserProfileModel.home_place_id p)
                 (UserProfileModel.home_location p) (uses_distance p)
                 (home_stream start_date end_date s) r.
Proof.
  intros Hp home requests Hprof Hhome Hstream Hrun.
  assert (Hplan : detect_home_based_trips ST_Distance set_iter start_date end_date
                    min_distance_km min_duration_hours s
                  = run_plan (requests pre home_acc_reset,
                              Z.of_nat (length (requests pre home_acc_reset))) s).
  { rewrite detect_home_based_trips_plan. unfold home_plan.
    rewrite Hprof, Hhome. cbn [run_plan_opt].
    fold (home_stream start_date end_date s). rewrite Hstream.
    unfold requests. by rewrite !home_requests_trailing. }
  split; [done|]. split.
  - intros ->. rewrite Hplan. unfold requests. cbn [home_requests length].
    by apply (run_plan_skip ([], 0)).
  - intros r Hr. rewrite Hstream.
    replace (pre ++ run)
      with ([] ++ current_trip_segments home_acc_reset ++ (pre ++ run)) by done.
    apply (home_requests_closed ST_Distance set_iter _ _ _
             min_distance_km min_duration_hours); [done|by left|].
    by rewrite home_requests_trailing.
Qed.

Lemma C6_trailing_run_witness :
  pending no_return_repo = []
  /\ head (user_profile no_return_repo) = Some home_by_id
  /\ no_home (Some home_by_id) = false
  /\ home_stream None None no_return_repo
     = [visit_segment 1 (at_hour 1 0) (at_hour 1 8) (Some "home") None] ++ no_return_run
  /\ Forall (fun g => is_home grid_distance (Some "home") None false g = false)
            no_return_run
  /\ detect_home_based_trips grid_distance alphabetical None None 0 0 no_return_repo
     = Ok 0 no_return_repo.
Proof.
  assert (H1 : pending no_return_repo = []) by reflexivity.
  assert (H2 : head (user_profile no_return_repo) = Some home_by_id) by reflexivity.
  assert (H3 : no_home (Some home_by_id) = false) by reflexivity.
  assert (H4 : home_stream None None no_return_repo
               = [visit_segment 1 (at_hour 1 0) (at_hour 1 8) (Some "home") None]
                 ++ no_return_run) by reflexivity.
  assert (H5 : Forall (fun g => is_home grid_distance (Some "home") None false g = false)
                      no_return_run) by (repeat constructor).
  destruct (C6_trailing_run grid_distance alphabetical None None 0 0 no_return_repo
              home_by_id _ _ H1 H2 H3 H4 H5) as (E & _ & _).
  repeat (split; [assumption|]). rewrite E. reflexivity.
Defined.

(** ** C7: the destinations of an overnight trip *)

Lemma insert_row_destinations o s s' :
  insert_row o s = Some s' ->
  forall d, d ∈ trip_destinations s -> d ∈ trip_destinations s'.
Proof.
  destruct o as [r|r|r]; cbn [insert_row]; repeat case_match; try done;
    intros [= <-] d Hd; cbn; [done| |done].
  apply elem_of_app. by left.
Qed.

Lemma insert_rows_destinations os : forall s s',
  insert_rows os s = Some s' ->
  forall d, d ∈ trip_destinations s -> d ∈ trip_destinations s'.
Proof.
  induction os as [|o os IH]; intros s s'; cbn [insert_rows].
  - by intros [= <-].
  - destruct (insert_row o s) as [s1|] eqn:E1; [|done]. intros E2 d Hd.
    eapply IH; [exact E2|]. by eapply insert_row_destinations.
Qed.

(** Two pending destination rows with the same (trip_id, place_id) make
    every flush fail: the second INSERT violates the primary key. *)
Lemma insert_rows_same_destination os1 os2 os3 d1 d2 s :
  TripDestinationModel.trip_id d1 = TripDestinationModel.trip_id d2 ->
  TripDestinationModel.place_id d1 = TripDestinationModel.place_id d2 ->
  insert_rows (os1 ++ PDest d1 :: os2 ++ PDest d2 :: os3) s = None.
Proof.
  intros Hid Hplace. rewrite insert_rows_app.
  destruct (insert_rows os1 s) as [s1|]; [|done].
  cbn [insert_rows]. destruct (insert_row (PDest d1) s1) as [s2|] eqn:E2; [|done].
  assert (Hd1 : d1 ∈ trip_destinations s2).
  { cbn [insert_row] in E2. repeat case_match; try done.
    injection E2 as <-. cbn. apply elem_of_app. right. by left. }
  rewrite insert_rows_app.
  destruct (insert_rows os2 s2) as [s3|] eqn:E3; [|done].
  apply (insert_rows_destinations _ _ _ E3) in Hd1.
  cbn [insert_rows insert_row].
  destruct (existsb _ (trip_destinations s3)) eqn:Ex; [done|].
  exfalso. apply not_true_iff_false in Ex. apply Ex. apply existsb_exists.
  exists d1. split; [by apply list_elem_of_In|].
  rewrite Hid, Hplace, Z.eqb_refl, String.eqb_refl. done.
Qed.

Lemma enumerate_from_app {A} (l1 l2 : list A) : forall k,
  enumerate_from k (l1 ++ l2)
  = enumerate_from k l1 ++ enumerate_from (k + Z.of_nat (length l1)) l2.
Proof.
  induction l1 as [|x l1 IH]; intros k; cbn [enumerate_from app length].
  - by rewrite Z.add_0_r.
  - rewrite IH. do 3 f_equal. lia.
Qed.

(** A trip whose destination list repeats a place identifier cannot be
    committed: [_create_trip] adds one destination row per entry, and the
    flush rejects the second row with the same (trip_id, place_id). *)
Lemma _create_trip_repeated_destination st en segs dist dests algo s p l1 l2 l3 :
  no_pending_trip s ->
  key_exists st en algo s = false ->
  dests = l1 ++ p :: l2 ++ p :: l3 ->
  bind (_create_trip st en segs dist dests algo) (fun _ => commit) s
  = Raise IntegrityError.
Proof.
  intros Hp Hk ->. unfold bind. rewrite _create_trip_fresh by done.
  destruct (insert_rows (pending s) _) as [s1|]; [|done]. cbn zeta.
  destruct (existsb _ (trips s)); [done|].
  unfold commit, flush. cbn [pending set_pending].
  unfold destination_rows, enumerate.
  rewrite enumerate_from_app. cbn [enumerate_from].
  rewrite enumerate_from_app. cbn [enumerate_from].
  rewrite map_app. cbn [map]. rewrite map_app. cbn [map].
  rewrite <- !app_assoc. cbn [app]. rewrite <- !app_assoc. cbn [app].
  by rewrite insert_rows_same_destination.
Qed.

(** C7, the code at the failing input.  For two nights at the same hotel
    the overnight detector hands [_create_trip] the destination list
    ["hotel"; "hotel"], duplicates retained; the two rows share the primary
    key (trip_id, place_id) of [trip_destinations], so the commit raises and
    no trip is persisted.  With two different places the run succeeds and
    the destinations are persisted in encounter order. *)
Theorem C7_overnight_duplicate_destinations :
  option_map (fun plan => map req_destinations plan.1)
    (overnight_plan grid_distance None None 1 (two_nights "hotel" "hotel"))
  = Some [["hotel"; "hotel"]]
  /\ detect_overnight_trips grid_distance None None 1 (two_nights "hotel" "hotel")
     = Raise IntegrityError
  /\ exists s',
       detect_overnight_trips grid_distance None None 1 (two_nights "hotel" "inn")
       = Ok 1 s'
       /\ map (fun d => (TripDestinationModel.place_id d,
                         TripDestinationModel.visit_order d))
              (trip_destinations s')
          = [("hotel", 0); ("inn", 1)].
Proof.
  split; [by vm_compute|]. split; [by vm_compute|].
  eexists. split; [by vm_compute|]. by vm_compute.
Qed.

(** ** C8: the destinations of a home-based trip *)

Lemma visited_place_ids_app l1 l2 :
  visited_place_ids (l1 ++ l2) = visited_place_ids l1 ++ visited_place_ids l2.
Proof.
  induction l1 as [|g l1 IH]; [done|]. cbn [app visited_place_ids].
  repeat case_match; rewrite IH; done.
Qed.

Section HomeDestinationsFacts.
Variable ST_Distance : Point -> Point -> option Q.
Variable set_iter : gset string -> list string.
Variables (home_place_id : option string) (home_location : option Point)
          (use_distance_based : bool) (min_distance_km min_duration_hours : Q).

Let requests :=
  home_requests ST_Distance set_iter home_place_id home_location use_distance_based
                min_distance_km min_duration_hours.

Lemma destinations_tracked_push g acc :
  destinations_tracked acc -> destinations_tracked (home_acc_push g acc).
Proof.
  unfold destinations_tracked. intros Hacc. cbn.
  rewrite visited_place_ids_app, list_to_set_app_L, <- Hacc. cbn [visited_place_ids].
  repeat case_match;
    rewrite ?list_to_set_cons, ?list_to_set_nil, ?(right_id_L ∅ (∪)); try done;
    cbn in *; congruence.
Qed.

Lemma home_requests_destinations segments : forall acc,
  destinations_tracked acc ->
  forall r, r ∈ requests segments acc ->
    req_destinations r = set_iter (list_to_set (visited_place_ids (req_segments r)))
    /\ req_algorithm r = "home_based".
Proof.
  induction segments as [|g rest IH]; intros acc Hacc r Hr;
    [by apply elem_of_nil in Hr|].
  unfold requests in Hr. cbn [home_requests] in Hr.
  destruct (is_home _ _ _ _ g).
  - destruct (current_trip_segments acc) as [|first tl] eqn:Ecur; [by eapply IH|].
    destruct (home_accepts _ _ _ _ _); [|by eapply (IH home_acc_reset)].
    apply elem_of_cons in Hr as [->|Hr]; [|by eapply (IH home_acc_reset)].
    cbn. by rewrite Hacc.
  - eapply IH; [|exact Hr]. by apply destinations_tracked_push.
Qed.

End HomeDestinationsFacts.

Lemma cluster_totals_destinations segments : forall total destinations,
  snd (cluster_totals segments total destinations)
  = destinations ++ visited_place_ids segments.
Proof.
  induction segments as [|g rest IH]; intros total destinations;
    cbn [cluster_totals visited_place_ids].
  - by rewrite app_nil_r.
  - rewrite IH. destruct (TimelineSegment.visit g) as [v|]; [|done].
    destruct (VisitModel.place_id v) as [q|]; [|done].
    destruct (truthy_str (Some q)); [|done]. by rewrite <- app_assoc.
Qed.

Lemma cluster_request_destinations set_iter cluster r :
  cluster_request set_iter cluster = Some r ->
  req_destinations r
  = set_iter (list_to_set (snd (cluster_totals cluster 0%Q []))).
Proof.
  unfold cluster_request. destruct cluster as [|g tl]; [done|].
  destruct (last _); [|done]. intros E.
  apply (f_equal (option_map req_destinations)) in E.
  cbn [option_map req_destinations] in E. injection E as E. symmetry. exact E.
Qed.

Lemma alphabetical_perm (X : gset string) : alphabetical X ≡ₚ elements X.
Proof. unfold alphabetical. apply merge_sort_Permutation. Qed.

(** C8 (as the code has it). The home-based detector keeps the run's place
    identifiers in a [set] and hands [list(set)] to [_create_trip]: every
    request lists each place identifier visited in the run exactly once,
    in the iteration order of that set, which need not be the order of the
    visits; [_create_trip] numbers the destination rows in the order of the
    list it was given.  The distance-based detector likewise hands over
    [list(set(...))] of its cluster's place identifiers. *)
Theorem C8_home_based_destinations (ST_Distance : Point -> Point -> option Q)
    (set_iter : gset string -> list string)
    (start_date end_date : option datetime) (min_distance_km min_duration_hours : Q)
    (s : Session) (plan : list Request * Z) :
  (forall X, set_iter X ≡ₚ elements X) ->
  home_plan ST_Distance set_iter start_date end_date
            min_distance_km min_duration_hours s = Some plan ->
  detect_home_based_trips ST_Distance set_iter start_date end_date
    min_distance_km min_duration_hours s = run_plan plan s
  /\ (forall r, r ∈ plan.1 ->
       req_destinations r = set_iter (list_to_set (visited_place_ids (req_segments r)))
       /\ NoDup (req_destinations r)
       /\ (forall p, p ∈ req_destinations r <-> p ∈ visited_place_ids (req_segments r))
       /\ forall s0 s1,
            no_pending_trip s0 ->
            key_exists (req_start r) (req_end r) (req_algorithm r) s0 = false ->
            materialize r s0 = Ok tt s1 ->
            pending s1
            = destination_rows (trips_id_seq s0 + 1) (req_destinations r)
              ++ segment_rows (trips_id_seq s0 + 1) (req_segments r))
  /\ (forall cluster r,
        cluster_request set_iter cluster = Some r ->
        req_destinations r = set_iter (list_to_set (visited_place_ids cluster))).
Proof.
  intros Hperm Hplan. split; [|split].
  - by rewrite detect_home_based_trips_plan, Hplan.
  - intros r Hr. unfold home_plan in Hplan.
    destruct (head (user_profile s)) as [p|]; [|done].
    destruct (no_home (Some p)); [done|]. injection Hplan as <-. cbn [fst] in Hr.
    eapply home_requests_destinations in Hr as [Hd _]; [|done].
    split; [done|]. rewrite Hd. split; [|split].
    + rewrite Hperm. apply NoDup_elements.
    + intros q. rewrite Hperm, elem_of_elements, elem_of_list_to_set. done.
    + intros s0 s1 Hp Hk E. rewrite <- Hd.
      apply _create_trip_ok in E as [[Hk' _]|(_ & _ & E)]; [congruence|done|done].
  - intros cluster r E.
    by rewrite (cluster_request_destinations _ _ _ E), cluster_totals_destinations.
Qed.

Lemma C8_home_based_destinations_witness :
  (forall X, alphabetical X ≡ₚ elements X)
  /\ exists plan,
       home_plan grid_distance alphabetical None None 50 4 zoo_day = Some plan
       /\ detect_home_based_trips grid_distance alphabetical None None 50 4 zoo_day
          = run_plan plan zoo_day
       /\ forall r, r ∈ plan.1 -> NoDup (req_destinations r).
Proof.
  split; [exact alphabetical_perm|].
  eexists. split; [reflexivity|].
  destruct (C8_home_based_destinations grid_distance alphabetical None None 50 4
              zoo_day _ alphabetical_perm eq_refl) as (E & H & _).
  split; [exact E|]. intros r Hr. apply (H r Hr).
Defined.

(** C8 as stated fails: with a set iterated in alphabetical order the
    zoo-then-aquarium day is handed over, and persisted, as aquarium then
    zoo, while the first-encounter order of the visits is zoo, aquarium. *)
Lemma C8_counterexample :
  (forall X, alphabetical X ≡ₚ elements X)
  /\ option_map (fun plan =>
                   map (fun r => (req_destinations r,
                                  first_encounters (visited_place_ids (req_segments r))))
                       plan.1)
       (home_plan grid_distance alphabetical None None 50 4 zoo_day)
     = Some [(["aquarium"; "zoo"], ["zoo"; "aquarium"])]
  /\ exists s',
       detect_home_based_trips grid_distance alphabetical None None 50 4 zoo_day
       = Ok 1 s'
       /\ map (fun d => (TripDestinationModel.place_id d,
                         TripDestinationModel.visit_order d))
              (trip_destinations s')
          = [("aquarium", 0); ("zoo", 1)].
Proof.
  split; [exact alphabetical_perm|]. split; [by vm_compute|].
  eexists. split; by vm_compute.
Qed.

(** ** C9: the bounds of a trip *)

Lemma StronglySorted_List_filter {A} (R : relation A) (f : A -> bool) l :
  StronglySorted R l -> StronglySorted R (List.filter f l).
Proof.
  induction 1 as [|x l Hl IH Hx]; cbn; [constructor|].
  destruct (f x); [|done]. constructor; [done|].
  apply Forall_forall. intros y Hy.
  apply list_elem_of_In, filter_In in Hy as [Hy _].
  rewrite Forall_forall in Hx. apply Hx. by apply list_elem_of_In.
Qed.

Lemma Forall_List_filter {A} (P : A -> Prop) (f : A -> bool) l :
  Forall P l -> Forall P (List.filter f l).
Proof.
  rewrite !Forall_forall. intros H x Hx.
  apply list_elem_of_In, filter_In in Hx as [Hx _]. apply H. by apply list_elem_of_In.
Qed.

(** In a list sorted by start time the first element starts no later than
    the last. *)
Lemma sorted_first_last {A} (start : A -> Z) (first : A) (tl : list A) (lst : A) :
  StronglySorted (fun a b => start a <= start b) (first :: tl) ->
  last (first :: tl) = Some lst ->
  start first <= start lst.
Proof.
  intros Hs Hl. apply StronglySorted_inv in Hs as [_ Hf].
  destruct tl as [|x tl]; [injection Hl as <-; lia|].
  rewrite last_cons_cons in Hl. rewrite Forall_forall in Hf. apply Hf.
  apply last_Some in Hl as (l' & ->). apply elem_of_app. right. by left.
Qed.

(** *** The groups of the overnight and distance-based detectors are
    stretches of the rows they walk *)

Lemma last_None_nil {A} (l : list A) : last l = None -> l = [].
Proof. destruct l as [|x l]; [done|]. rewrite last_cons. by destruct (last l). Qed.

Lemma overnight_groups_stretch
    (Q : list (VisitModel.t * TimelineSegment.t) -> Prop) min_nights visits :
  (forall l1 l2, Q (l1 ++ l2) -> Q l1 /\ Q l2) ->
  forall current, Q (current ++ visits) ->
  forall G, G ∈ overnight_groups min_nights visits current -> Q G.
Proof.
  intros Q_app. induction visits as [|[v g] rest IH]; intros current HQ G HG;
    cbn [overnight_groups] in HG.
  - rewrite app_nil_r in HQ.
    destruct (_ >=? _); [|by apply elem_of_nil in HG].
    by apply list_elem_of_singleton in HG as ->.
  - destruct (last current) as [[lv lg]|] eqn:El.
    + assert (Hnew : forall G, G ∈ overnight_groups min_nights rest [(v, g)] -> Q G).
      { apply IH. by apply Q_app in HQ as [_ HQ]. }
      destruct (_ >? _).
      * destruct (_ >=? _); [|by apply Hnew].
        apply elem_of_cons in HG as [->|HG]; [|by apply Hnew].
        by apply Q_app in HQ as [HQ _].
      * eapply IH; [|exact HG]. by rewrite <- app_assoc.
    + apply last_None_nil in El as ->. apply (IH [(v, g)]); [exact HQ|exact HG].
Qed.

Lemma distance_clusters_stretch
    (Q : list TimelineSegment.t -> Prop) time_gap_hours far :
  (forall l1 l2, Q (l1 ++ l2) -> Q l1 /\ Q l2) ->
  forall current, Q (current ++ far) ->
  forall G, G ∈ distance_clusters time_gap_hours far current -> Q G.
Proof.
  intros Q_app. induction far as [|g rest IH]; intros current HQ G HG;
    cbn [distance_clusters] in HG.
  - rewrite app_nil_r in HQ.
    destruct (_ >=? _); [|by apply elem_of_nil in HG].
    by apply list_elem_of_singleton in HG as ->.
  - destruct (last current) as [lg|] eqn:El.
    + assert (Hnew : forall G, G ∈ distance_clusters time_gap_hours rest [g] -> Q G).
      { apply IH. by apply Q_app in HQ as [_ HQ]. }
      destruct (fle _ _).
      * eapply IH; [|exact HG]. by rewrite <- app_assoc.
      * destruct (_ >=? _); [|by apply Hnew].
        apply elem_of_cons in HG as [->|HG]; [|by apply Hnew].
        by apply Q_app in HQ as [HQ _].
    + apply last_None_nil in El as ->. apply (IH [g]); [exact HQ|exact HG].
Qed.

(** *** The bounds each detector asks for *)

Lemma home_requests_accepted ST_Distance set_iter hp hl udb mind mindur segments :
  forall acc r,
    r ∈ home_requests ST_Distance set_iter hp hl udb mind mindur segments acc ->
    fge (fdiv (inject_Z (req_end r - req_start r)) 3600) mindur = true.
Proof.
  induction segments as [|g rest IH]; intros acc r Hr; [by apply elem_of_nil in Hr|].
  cbn [home_requests] in Hr. destruct (is_home _ _ _ _ g); [|by eapply IH].
  destruct (current_trip_segments acc) as [|first tl]; [by eapply IH|].
  destruct (home_accepts _ _ _ _ _) eqn:Ea; [|by eapply IH].
  apply elem_of_cons in Hr as [->|Hr]; [|by eapply IH].
  unfold home_accepts in Ea. apply andb_true_iff in Ea as [_ Ea].
  exact Ea.
Qed.

(** A number of hours that reaches a positive minimum, as floats, comes from
    a positive number of seconds. *)
Lemma positive_hours (z : Z) (q : Q) :
  (0 < q)%Q -> fge (fdiv (inject_Z z) 3600) q = true -> 0 < z.
Proof.
  intros Hq Hge. unfold fge, fle in Hge. apply Qle_bool_iff in Hge.
  apply round64_sign in Hq.
  assert (Hpos : (0 < fdiv (inject_Z z) 3600)%Q).
  { apply Qnot_le_lt. intros Hle. apply round64_sign in Hle.
    apply (Qlt_irrefl 0). eapply Qlt_le_trans; [exact Hq|].
    by eapply Qle_trans. }
  apply (fdiv_sign (inject_Z z) 3600) in Hpos; [|reflexivity].
  unfold Qlt, inject_Z in Hpos. cbn in Hpos. lia.
Qed.

Lemma home_plan_bounds ST_Distance set_iter sd ed mind mindur s plan :
  home_plan ST_Distance set_iter sd ed mind mindur s = Some plan ->
  Forall (req_bounds (HomeBased sd ed mind mindur)) plan.1.
Proof.
  unfold home_plan. destruct (head (user_profile s)) as [p|]; [|done].
  destruct (no_home (Some p)); [done|]. intros [= <-]. cbn [fst].
  apply Forall_forall. intros r Hr.
  assert (Hle : req_start r <= req_end r).
  { eapply (home_requests_closed _ _ _ _ _ _ _ _ [] home_acc_reset) in Hr;
      [|done|by left].
    destruct Hr as (l1 & first & mid & h & l2 & E & _ & _ & _ & -> & -> & _).
    cbn [app current_trip_segments home_acc_reset] in E.
    pose proof (order_by_start_time_sorted
                  (List.filter (in_range sd ed) (timeline_segments s))) as Hs.
    rewrite E in Hs. apply StronglySorted_app_1_r in Hs.
    apply StronglySorted_inv in Hs as [_ Hf]. rewrite Forall_forall in Hf.
    apply Hf. apply elem_of_app. right. by left. }
  split; [done|]. intros Hpos.
  apply home_requests_accepted in Hr.
  assert (0 < req_end r - req_start r) by (by eapply positive_hours). lia.
Qed.

Lemma nightly_app l1 l2 : nightly (l1 ++ l2) -> nightly l1 /\ nightly l2.
Proof.
  intros [Hs Hw]. apply Forall_app in Hw as [Hw1 Hw2]. split; split; try done.
  - by eapply StronglySorted_app_1_l.
  - by eapply StronglySorted_app_1_r.
Qed.

Lemma visit_rows_sorted l :
  StronglySorted by_start l ->
  StronglySorted (fun a b => TimelineSegment.start_time a.2
                             <= TimelineSegment.start_time b.2)
    (flat_map (fun g => match TimelineSegment.visit g with
                        | Some v => [(v, g)]
                        | None => []
                        end) l).
Proof.
  induction 1 as [|g l Hl IH Hg]; cbn [flat_map]; [constructor|].
  destruct (TimelineSegment.visit g) as [v|]; [|done]. cbn [app].
  constructor; [done|]. apply Forall_forall. intros [v' g'] Hin.
  apply list_elem_of_In, in_flat_map in Hin as (g0 & Hg0 & Hin).
  destruct (TimelineSegment.visit g0); [|done]. destruct Hin as [[= <- <-]|[]].
  rewrite Forall_forall in Hg. apply Hg. by apply list_elem_of_In.
Qed.

Lemma overnight_candidates_nightly ST_Distance sd ed p s :
  nightly (overnight_candidates ST_Distance sd ed p s).
Proof.
  unfold overnight_candidates, query_overnight_visits, gets.
  match goal with |- context [flat_map ?f ?l] => set (rows := flat_map f l) end.
  assert (Hrows : nightly rows).
  { split.
    - apply visit_rows_sorted, order_by_start_time_sorted.
    - apply Forall_forall. intros [v g] Hin.
      by apply elem_of_query_overnight_visits in Hin as (_ & _ & _ & Hw & _). }
  destruct (uses_distance p); [|done]. destruct Hrows as [Hs Hw]. split.
  - by apply StronglySorted_List_filter.
  - by apply Forall_List_filter.
Qed.

Lemma overnight_request_bounds G r :
  nightly G -> overnight_request G = Some r ->
  req_start r + 6 * 3600 <= req_end r.
Proof.
  intros [Hs Hw]. unfold overnight_request.
  destruct G as [|[fv fg] tl]; [done|].
  destruct (last _) as [[lv lg]|] eqn:El; [|done]. intros [= <-]. cbn.
  pose proof (sorted_first_last (fun a : VisitModel.t * TimelineSegment.t =>
                                   TimelineSegment.start_time a.2)
                _ _ _ Hs El) as Hle. cbn in Hle.
  rewrite Forall_forall in Hw. specialize (Hw (lv, lg)).
  apply last_Some in El as (l' & El). rewrite El in Hw.
  assert (Hlw : overnight_window lg = true).
  { apply Hw. apply elem_of_app. right. by left. }
  apply overnight_window_spec in Hlw. lia.
Qed.

Lemma overnight_plan_bounds ST_Distance sd ed min_nights s plan :
  overnight_plan ST_Distance sd ed min_nights s = Some plan ->
  Forall (req_bounds (Overnight sd ed min_nights)) plan.1.
Proof.
  unfold overnight_plan. destruct (head (user_profile s)) as [p|]; [|done].
  destruct (no_home (Some p)); [done|]. intros [= <-]. cbn [fst].
  apply Forall_forall. intros r Hr.
  apply list_elem_of_omap in Hr as (G & HG & Hr).
  eapply (overnight_groups_stretch nightly) in HG;
    [|apply nightly_app|apply overnight_candidates_nightly].
  pose proof (overnight_request_bounds G r HG Hr). split; [lia|done].
Qed.

Lemma timed_app l1 l2 : timed (l1 ++ l2) -> timed l1 /\ timed l2.
Proof.
  intros [Hs Hw]. apply Forall_app in Hw as [Hw1 Hw2]. split; split; try done.
  - by eapply StronglySorted_app_1_l.
  - by eapply StronglySorted_app_1_r.
Qed.

Lemma cluster_request_bounds set_iter G r :
  timed G -> cluster_request set_iter G = Some r -> req_start r <= req_end r.
Proof.
  intros [Hs Hw]. unfold cluster_request.
  destruct G as [|fg tl]; [done|].
  destruct (last _) as [lg|] eqn:El; [|done]. intros [= <-]. cbn.
  pose proof (sorted_first_last TimelineSegment.start_time _ _ _ Hs El) as Hle.
  rewrite Forall_forall in Hw. specialize (Hw lg).
  apply last_Some in El as (l' & El). rewrite El in Hw.
  assert (Hlw : well_timed lg).
  { apply Hw. apply elem_of_app. right. by left. }
  unfold well_timed in Hlw. lia.
Qed.

Lemma distance_plan_bounds ST_Distance set_iter sd ed thr gap s plan :
  Forall well_timed (timeline_segments s) ->
  distance_plan ST_Distance set_iter sd ed thr gap s = Some plan ->
  Forall (req_bounds (DistanceBased sd ed thr gap)) plan.1.
Proof.
  intros Hwt. unfold distance_plan. destruct (head (user_profile s)) as [p|]; [|done].
  destruct (UserProfileModel.home_location p) as [home|]; [|done].
  intros [= <-]. cbn [fst]. apply Forall_forall. intros r Hr.
  apply list_elem_of_omap in Hr as (G & HG & Hr).
  eapply (distance_clusters_stretch timed) in HG; [|apply timed_app|].
  - pose proof (cluster_request_bounds set_iter G r HG Hr). done.
  - unfold far_segments_of. cbn [app]. split.
    + apply StronglySorted_List_filter, order_by_start_time_sorted.
    + apply Forall_List_filter. apply Forall_forall. intros g Hg.
      apply elem_of_order_by_start_time, list_elem_of_In, filter_In in Hg as [Hg _].
      rewrite Forall_forall in Hwt. apply Hwt. by apply list_elem_of_In.
Qed.

Lemma plan_of_bounds ST_Distance set_iter i s plan :
  Forall well_timed (timeline_segments s) ->
  plan_of ST_Distance set_iter i s = Some plan ->
  Forall (req_bounds i) plan.1.
Proof.
  intros Hwt. destruct i; cbn [plan_of]; [done| | |].
  - apply home_plan_bounds.
  - apply overnight_plan_bounds.
  - by apply distance_plan_bounds.
Qed.

Lemma memories_of_bounds sd ed s mg :
  Forall well_timed (timeline_segments s) ->
  mg ∈ memories_of sd ed s -> well_timed mg.2.
Proof.
  intros Hwt Hin. unfold memories_of in Hin.
  apply list_elem_of_In, in_flat_map in Hin as (g & Hg & Hin).
  destruct (TimelineSegment.timeline_memory g); [|done].
  destruct (in_range sd ed g); [|done]. destruct Hin as [<-|[]]. cbn.
  rewrite Forall_forall in Hwt. apply Hwt. by apply list_elem_of_In.
Qed.

(** C9 (as the code has it). No detector checks that a trip ends after it
    starts.  In a repository whose segments all satisfy end >= start, every
    trip a detector creates satisfies end_time >= start_time; an overnight
    trip lasts at least 6 hours, and a home-based trip accepted under a
    positive minimum duration has end_time > start_time.  A memory segment
    whose end time equals its start time yields a trip with end_time equal
    to start_time. *)
Theorem C9_trip_bounds (ST_Distance : Point -> Point -> option Q)
    (set_iter : gset string -> list string) (i : Invocation)
    (s : Session) (n : Z) (s' : Session) :
  pending s = [] ->
  Forall well_timed (timeline_segments s) ->
  detect ST_Distance set_iter i s = Ok n s' ->
  exists new, trips s' = trips s ++ new /\ Forall (trip_bounds i) new.
Proof.
  intros Hp Hwt E. destruct (is_memory i) eqn:Ei.
  - destruct i; try done. cbn [detect] in E.
    apply detect_memory_ok in E as (_ & [_ _ (new & Hnew & Hrows) _] & _); [|done].
    exists new. split; [done|]. eapply Forall_impl; [exact Hrows|].
    intros t (mg & Hmg & Hs & He & _).
    apply (memories_of_bounds _ _ _ _ Hwt) in Hmg. unfold well_timed in Hmg.
    split; [|done]. unfold bounds_of. lia.
  - rewrite detect_plan in E by done.
    destruct (plan_of ST_Distance set_iter i s) as [plan|] eqn:Eplan;
      cbn [run_plan_opt] in E.
    + apply run_plan_ok in E as (_ & _ & [_ _ (new & Hnew & Hrows) _] & _); [|done].
      exists new. split; [done|]. eapply Forall_impl; [exact Hrows|].
      intros t (r & k & Hr & ->).
      pose proof (plan_of_bounds _ _ _ _ _ Hwt Eplan) as Hb.
      rewrite Forall_forall in Hb. apply (Hb r Hr).
    + injection E as <- <-. exists []. by rewrite app_nil_r.
Qed.

Lemma C9_trip_bounds_witness :
  pending memory_repo = []
  /\ Forall well_timed (timeline_segments memory_repo)
  /\ exists s',
       detect grid_distance alphabetical (Memory None None) memory_repo = Ok 2 s'
       /\ exists new, trips s' = trips memory_repo ++ new
                      /\ Forall (trip_bounds (Memory None None)) new.
Proof.
  assert (H1 : pending memory_repo = []) by reflexivity.
  assert (H2 : Forall well_timed (timeline_segments memory_repo)).
  { cbn. repeat (constructor; [by apply Z.leb_le|]). constructor. }
  split; [exact H1|]. split; [exact H2|].
  eexists. split; [vm_compute; reflexivity|].
  eapply (C9_trip_bounds grid_distance alphabetical (Memory None None)
            memory_repo 2 _ H1 H2).
  vm_compute. reflexivity.
Defined.

(** C9 as stated fails: the second memory of [memory_repo] ends when it
    starts (which the segment data model permits), and the memory detector
    creates a trip whose end_time equals its start_time. *)
Lemma C9_counterexample :
  Forall well_timed (timeline_segments memory_repo)
  /\ exists s' t,
       detect grid_distance alphabetical (Memory None None) memory_repo = Ok 2 s'
       /\ t ∈ trips s'
       /\ TripModel.end_time t = TripModel.start_time t
       /\ ~ TripModel.start_time t < TripModel.end_time t.
Proof.
  split; [cbn; repeat (constructor; [by apply Z.leb_le|]); constructor|].
  eexists. eexists. split; [vm_compute; reflexivity|].
  split; [right; left|]. split; [reflexivity|]. cbn. lia.
Qed.

(** ** C10: the count of the overnight detector *)



(** * Further properties of the engine *)

(** ** Chains *)

Lemma chained_nil {A} (R : A -> A -> Prop) : chained R [].
Proof. intros l1 a b l2 E. by destruct l1. Qed.

Lemma chained_singleton {A} (R : A -> A -> Prop) x : chained R [x].
Proof. intros l1 a b l2 E. destruct l1 as [|? [|? ?]]; done. Qed.

Lemma chained_snoc {A} (R : A -> A -> Prop) l x y :
  chained R l -> last l = Some x -> R x y -> chained R (l ++ [y]).
Proof.
  intros Hl Hx Hxy l1 a b l2 E.
  destruct l2 as [|c l2 _] using rev_ind.
  - replace (l1 ++ [a; b]) with ((l1 ++ [a]) ++ [b]) in E
      by (by rewrite <- app_assoc).
    apply app_inj_tail in E as [-> ->].
    rewrite last_snoc in Hx. by injection Hx as ->.
  - replace (l1 ++ a :: b :: l2 ++ [c]) with ((l1 ++ a :: b :: l2) ++ [c]) in E
      by (by rewrite <- app_assoc).
    apply app_inj_tail in E as [-> _]. by eapply Hl.
Qed.

Lemma chained_cons {A} (R : A -> A -> Prop) x y l :
  R x y -> chained R (y :: l) -> chained R (x :: y :: l).
Proof.
  intros Hxy Hl l1 a b l2 E. destruct l1 as [|c l1].
  - cbn in E. by injection E as <- <- _.
  - cbn in E. injection E as _ E. by eapply Hl.
Qed.

Lemma chained_fmap {A B} (f : A -> B) (R : B -> B -> Prop) l :
  chained (fun a b => R (f a) (f b)) l -> chained R (map f l).
Proof.
  intros Hl l1 a b l2 E.
  apply fmap_app_inv in E as (k1 & k2 & -> & E & ->).
  destruct k2 as [|a' [|b' k2]]; try done. cbn in E.
  injection E as -> -> _. by eapply Hl.
Qed.

(** ** The groups of the overnight detector *)

Lemma overnight_groups_shape min_nights visits : forall current,
  chained (fun a b => follows_within (48 * 3600) a.2 b.2) current ->
  forall G, G ∈ overnight_groups min_nights visits current ->
    min_nights <= Z.of_nat (length G)
    /\ chained (fun a b => follows_within (48 * 3600) a.2 b.2) G.
Proof.
  induction visits as [|[v g] rest IH]; intros current Hc G HG;
    cbn [overnight_groups] in HG.
  - destruct (Z.geb_spec (Z.of_nat (length current)) min_nights) as [Hle|];
      [|by apply elem_of_nil in HG].
    apply list_elem_of_singleton in HG as ->. split; [lia|done].
  - destruct (last current) as [[lv lg]|] eqn:El.
    + destruct (Z.gtb_spec (total_seconds (TimelineSegment.start_time g)
                                          (TimelineSegment.end_time lg)) (48 * 3600))
        as [Hgap|Hgap].
      * assert (Hnew : forall G, G ∈ overnight_groups min_nights rest [(v, g)] ->
                  min_nights <= Z.of_nat (length G)
                  /\ chained (fun a b => follows_within (48 * 3600) a.2 b.2) G).
        { apply IH. apply chained_singleton. }
        destruct (Z.geb_spec (Z.of_nat (length current)) min_nights) as [Hle|];
          [|by apply Hnew].
        apply elem_of_cons in HG as [->|HG]; [|by apply Hnew]. split; [lia|done].
      * eapply IH; [|exact HG]. eapply chained_snoc; [exact Hc|exact El|].
        unfold follows_within, total_seconds in *. cbn. lia.
    + eapply IH; [|exact HG]. apply chained_singleton.
Qed.

(** With [min_nights <= 1] no candidate is dropped: the groups, one after
    the other, are the candidates already grouped followed by those still
    to walk. *)
Lemma overnight_groups_concat min_nights visits : forall current,
  min_nights <= 1 ->
  concat (overnight_groups min_nights visits current) = current ++ visits.
Proof.
  intros current Hmin. revert current.
  induction visits as [|[v g] rest IH]; intros current; cbn [overnight_groups].
  - rewrite app_nil_r.
    destruct (Z.geb_spec (Z.of_nat (length current)) min_nights) as [Hle|Hlt].
    + cbn. by rewrite app_nil_r.
    + destruct current; [done|]. cbn [length] in Hlt. lia.
  - destruct (last current) as [[lv lg]|] eqn:El.
    + destruct (_ >? _).
      * destruct (Z.geb_spec (Z.of_nat (length current)) min_nights) as [Hle|Hlt].
        -- cbn [concat]. by rewrite IH.
        -- apply last_Some in El as (l' & ->). rewrite length_app in Hlt.
           cbn [length] in Hlt. lia.
      * rewrite IH. by rewrite <- app_assoc.
    + apply last_None_nil in El as ->. by rewrite IH.
Qed.

(** With [min_nights <= 1] a group is closed only by a gap of more than 48
    hours: the first group extends the pending one, and neighbouring groups
    are nights apart. *)
Lemma overnight_groups_apart min_nights visits : forall current x,
  min_nights <= 1 -> last current = Some x ->
  exists ext rest,
    overnight_groups min_nights visits current = (current ++ ext) :: rest
    /\ chained nights_apart ((current ++ ext) :: rest).
Proof.
  induction visits as [|[v g] visits IH]; intros current x Hmin El;
    cbn [overnight_groups].
  - exists [], []. rewrite app_nil_r. split; [|apply chained_singleton].
    destruct (Z.geb_spec (Z.of_nat (length current)) min_nights) as [|Hlt]; [done|].
    apply last_Some in El as (l' & ->). rewrite length_app in Hlt.
    cbn [length] in Hlt. lia.
  - rewrite El. destruct x as [lv lg].
    destruct (Z.gtb_spec (total_seconds (TimelineSegment.start_time g)
                                        (TimelineSegment.end_time lg)) (48 * 3600))
      as [Hgap|Hgap].
    + destruct (Z.geb_spec (Z.of_nat (length current)) min_nights) as [_|Hlt].
      * destruct (IH [(v, g)] (v, g) Hmin eq_refl) as (ext & rest & -> & Hch).
        exists [], (([(v, g)] ++ ext) :: rest). rewrite app_nil_r.
        split; [done|]. apply chained_cons; [|done].
        intros a b Ha Hb. rewrite El in Ha. injection Ha as <-.
        cbn in Hb. injection Hb as <-. cbn. unfold total_seconds in Hgap. lia.
      * apply last_Some in El as (l' & ->). rewrite length_app in Hlt.
        cbn [length] in Hlt. lia.
    + destruct (IH (current ++ [(v, g)]) (v, g) Hmin) as (ext & rest & -> & Hch);
        [by rewrite last_snoc|].
      exists ((v, g) :: ext), rest.
      replace (current ++ (v, g) :: ext) with ((current ++ [(v, g)]) ++ ext)
        by (by rewrite <- app_assoc).
      done.
Qed.

Lemma overnight_groups_chained_apart min_nights visits :
  min_nights <= 1 -> chained nights_apart (overnight_groups min_nights visits []).
Proof.
  intros Hmin. destruct visits as [|[v g] visits]; cbn [overnight_groups last].
  - destruct (_ >=? _); [apply chained_singleton|apply chained_nil].
  - destruct (overnight_groups_apart min_nights visits [(v, g)] (v, g) Hmin eq_refl)
      as (ext & rest & -> & Hch). done.
Qed.

(** X1. The overnight detector walks its candidates in start order and
    calls [_create_overnight_trip] once per group: every group holds at
    least [min_nights] visits, and each of its visits starts at most 48
    hours after the one before it ended.  With [min_nights <= 1] (the value
    [detect_all_trips] runs with) no candidate is dropped: the groups, one
    after the other, are the candidates, and between two neighbouring groups
    lie more than 48 hours. *)
Theorem X1_overnight_groups ST_Distance sd ed min_nights s p :
  head (user_profile s) = Some p -> no_home (Some p) = false ->
  let candidates := overnight_candidates ST_Distance sd ed p s in
  let groups := overnight_groups min_nights candidates [] in
  detect_overnight_trips ST_Distance sd ed min_nights s
  = run_plan (omap overnight_request groups, Z.of_nat (length groups)) s
  /\ Forall (fun G => min_nights <= Z.of_nat (length G)
                      /\ chained (follows_within (48 * 3600)) (map snd G)) groups
  /\ (min_nights <= 1 ->
      concat groups = candidates /\ chained nights_apart groups).
Proof.
  intros Hp Hh candidates groups. split; [|split].
  - rewrite detect_overnight_trips_plan. unfold overnight_plan.
    by rewrite Hp, Hh.
  - apply Forall_forall. intros G HG.
    apply overnight_groups_shape in HG as [Hn Hc]; [|apply chained_nil].
    split; [done|]. by apply chained_fmap.
  - intros Hmin. split.
    + unfold groups. by rewrite overnight_groups_concat.
    + by apply overnight_groups_chained_apart.
Qed.

Lemma X1_overnight_groups_witness :
  let s := two_nights "hotel" "inn" in
  head (user_profile s) = Some home_by_id /\ no_home (Some home_by_id) = false
  /\ Forall (fun G => 1 <= Z.of_nat (length G)
                      /\ chained (follows_within (48 * 3600)) (map snd G))
       (overnight_groups 1 (overnight_candidates grid_distance None None home_by_id s) []).
Proof.
  intros s. split; [reflexivity|]. split; [reflexivity|].
  apply (X1_overnight_groups grid_distance None None 1 s home_by_id);
    reflexivity.
Defined.

(** ** The clusters of the distance-based detector *)

Lemma distance_clusters_shape gap far : forall current,
  chained (follows_within_hours gap) current ->
  forall G, G ∈ distance_clusters gap far current ->
    (2 <= length G)%nat /\ chained (follows_within_hours gap) G.
Proof.
  induction far as [|g rest IH]; intros current Hc G HG;
    cbn [distance_clusters] in HG.
  - destruct (Z.geb_spec (Z.of_nat (length current)) 2) as [Hle|];
      [|by apply elem_of_nil in HG].
    apply list_elem_of_singleton in HG as ->. split; [lia|done].
  - destruct (last current) as [lg|] eqn:El.
    + destruct (fle _ _) eqn:Hgap.
      * eapply IH; [|exact HG]. eapply chained_snoc; [exact Hc|exact El|].
        exact Hgap.
      * assert (Hnew : forall G, G ∈ distance_clusters gap rest [g] ->
                  (2 <= length G)%nat /\ chained (follows_within_hours gap) G).
        { apply IH. apply chained_singleton. }
        destruct (Z.geb_spec (Z.of_nat (length current)) 2) as [Hle|];
          [|by apply Hnew].
        apply elem_of_cons in HG as [->|HG]; [|by apply Hnew]. split; [lia|done].
    + eapply IH; [|exact HG]. apply chained_singleton.
Qed.

Lemma cluster_totals_distance segments : forall total destinations,
  fst (cluster_totals segments total destinations)
  = fold_left fadd (map distance_of (omap TimelineSegment.activity segments)) total.
Proof.
  induction segments as [|g rest IH]; intros total destinations;
    cbn [cluster_totals omap list_omap]; [done|].
  rewrite IH. destruct (TimelineSegment.activity g) as [a|]; [|done].
  cbn [map fold_left]. by rewrite fadd_or_0.
Qed.

Lemma cluster_request_some set_iter G :
  G <> [] -> exists r, cluster_request set_iter G = Some r
                       /\ req_segments r = G
                       /\ req_distance r = activity_total G.
Proof.
  intros HG. destruct G as [|first tl]; [done|].
  destruct (last (first :: tl)) as [lst|] eqn:El;
    [|by apply last_None_nil in El].
  unfold cluster_request. rewrite El. eexists. split; [done|]. split; [done|].
  cbn [req_distance]. by rewrite cluster_totals_distance.
Qed.

Lemma omap_cluster_requests set_iter clusters :
  Forall (fun G => (2 <= length G)%nat) clusters ->
  length (omap (cluster_request set_iter) clusters) = length clusters
  /\ Forall (fun r => req_segments r ∈ clusters
                      /\ req_distance r = activity_total (req_segments r))
       (omap (cluster_request set_iter) clusters).
Proof.
  induction 1 as [|G clusters HG _ [IHl IHf]]; [done|].
  destruct (cluster_request_some set_iter G) as (r & E & Hs & Hd).
  { intros ->. cbn in HG. lia. }
  cbn [omap list_omap]. rewrite E. cbn [length]. split; [by rewrite IHl|].
  apply Forall_cons. split.
  - rewrite Hs. split; [by left|done].
  - eapply Forall_impl; [exact IHf|]. intros r' [? ?]. split; [by right|done].
Qed.

(** The thresholds of the distance-based detector are tested on doubles:
    two visits 100 m from the home, the second starting 1200 s after the
    first ended, are far under the threshold 0.1 km and make one cluster
    under the gap 0.3333333333333333 h; under the gap 0.33 h they do not. *)
Example distance_based_on_the_threshold :
  count_of (detect grid_distance alphabetical
              (DistanceBased None None (1 # 10) (3333333333333333 # 10000000000000000))
              two_stops) = Some 1
  /\ count_of (detect grid_distance alphabetical
                 (DistanceBased None None (1 # 10) (33 # 100)) two_stops)
     = Some 0
  /\ count_of (detect grid_distance alphabetical
                 (DistanceBased None None (11 # 100) 1) two_stops)
     = Some 0.
Proof. vm_compute. repeat split. Qed.

(** X2. The distance-based detector keeps the visit and activity segments
    of the range that lie beyond the threshold, in start order, and calls
    [_create_trip] exactly once per cluster: a cluster is a list of at least
    two such segments, each starting at most [time_gap_hours] after the one
    before it ended, and the distance handed over is the distance of its
    activities (a missing one as 0) added up in segment order.  The
    thresholds are tested, and the distances added, in double precision: a
    segment is far when its distance in meters divided by 1000 is at least
    [distance_threshold_km], and it follows when the gap in seconds divided
    by 3600 is at most [time_gap_hours].  A far segment on its own never
    becomes a trip. *)
Theorem X2_distance_clusters ST_Distance set_iter sd ed thr gap s p home :
  head (user_profile s) = Some p ->
  UserProfileModel.home_location p = Some home ->
  let clusters :=
    distance_clusters gap (far_segments_of ST_Distance sd ed home thr s) [] in
  let requests := omap (cluster_request set_iter) clusters in
  detect_distance_based_trips ST_Distance set_iter sd ed thr gap s
  = run_plan (requests, Z.of_nat (length requests)) s
  /\ Forall (fun G =>
               (2 <= length G)%nat
               /\ chained (follows_within_hours gap) G
               /\ Forall (fun g => g ∈ timeline_segments s
                                   /\ is_visit_or_activity g = true
                                   /\ in_range sd ed g = true
                                   /\ is_far ST_Distance home thr g = true) G)
       clusters
  /\ Forall (fun r => req_segments r ∈ clusters
                      /\ req_distance r = activity_total (req_segments r))
       requests.
Proof.
  intros Hp Hh clusters requests.
  assert (Hshape : Forall (fun G => (2 <= length G)%nat
                                    /\ chained (follows_within_hours gap) G) clusters).
  { apply Forall_forall. intros G HG.
    eapply distance_clusters_shape; [|exact HG]. apply chained_nil. }
  destruct (omap_cluster_requests set_iter clusters) as [Hlen Hreq].
  { eapply Forall_impl; [exact Hshape|]. by intros G [? _]. }
  split; [|split; [|exact Hreq]].
  - rewrite detect_distance_based_trips_plan. unfold distance_plan.
    rewrite Hp, Hh. cbn [run_plan_opt]. unfold requests. by rewrite Hlen.
  - apply Forall_forall. intros G HG.
    rewrite Forall_forall in Hshape. destruct (Hshape G HG) as [H2 Hc].
    split; [done|]. split; [done|].
    eapply (distance_clusters_stretch
              (Forall (fun g => g ∈ timeline_segments s
                                /\ is_visit_or_activity g = true
                                /\ in_range sd ed g = true
                                /\ is_far ST_Distance home thr g = true)));
      [| |exact HG].
    + intros l1 l2. apply Forall_app.
    + cbn [app]. apply Forall_forall. intros g Hg.
      unfold far_segments_of in Hg.
      rewrite list_elem_of_In, filter_In, <- list_elem_of_In in Hg.
      destruct Hg as [Hg Hfar]. rewrite elem_of_order_by_start_time in Hg.
      rewrite list_elem_of_In, filter_In, <- list_elem_of_In in Hg.
      destruct Hg as [Hg Hq]. apply andb_prop in Hq as [? ?]. done.
Qed.

Lemma X2_distance_clusters_witness :
  let s := day_out 0 in
  let home := {| lon := 0; lat := 0 |} in
  head (user_profile s) = Some home_by_coordinate
  /\ UserProfileModel.home_location home_by_coordinate = Some home
  /\ Forall (fun G => (2 <= length G)%nat /\ chained (follows_within_hours 6) G
                      /\ Forall (fun g => g ∈ timeline_segments s
                                          /\ is_visit_or_activity g = true
                                          /\ in_range None None g = true
                                          /\ is_far grid_distance home 5 g = true) G)
       (distance_clusters 6 (far_segments_of grid_distance None None home 5 s) []).
Proof.
  intros s home. split; [reflexivity|]. split; [reflexivity|].
  destruct (X2_distance_clusters grid_distance alphabetical None None 5 6 s
              home_by_coordinate home eq_refl eq_refl) as (_ & H & _).
  exact H.
Defined.

(** ** The thresholds of the home-based detector *)

Lemma activity_total_snoc l g :
  activity_total (l ++ [g])
  = match TimelineSegment.activity g with
    | Some a => fadd (activity_total l) (distance_of a)
    | None => activity_total l
    end.
Proof.
  unfold activity_total. rewrite omap_app. cbn [omap list_omap].
  destruct (TimelineSegment.activity g) as [a|].
  - rewrite map_app. cbn [map]. apply sum_floats_snoc.
  - by rewrite app_nil_r.
Qed.

Lemma distance_tracked_push g acc :
  distance_tracked acc -> distance_tracked (home_acc_push g acc).
Proof.
  unfold distance_tracked. intros H. cbn [home_acc_push current_trip_distance
    current_trip_segments].
  rewrite activity_total_snoc.
  destruct (TimelineSegment.activity g); rewrite H; [apply fadd_or_0|done].
Qed.

Lemma distance_tracked_reset : distance_tracked home_acc_reset.
Proof. done. Qed.

Lemma home_requests_thresholds ST_Distance set_iter hp hl udb mind mindur segments :
  forall acc r,
    distance_tracked acc ->
    r ∈ home_requests ST_Distance set_iter hp hl udb mind mindur segments acc ->
    req_distance r = activity_total (req_segments r)
    /\ fge (fdiv (req_distance r) 1000) mind = true
    /\ req_algorithm r = "home_based".
Proof.
  induction segments as [|g rest IH]; intros acc r Hacc Hr;
    [by apply elem_of_nil in Hr|].
  cbn [home_requests] in Hr. destruct (is_home _ _ _ _ g).
  - destruct (current_trip_segments acc) as [|first tl] eqn:Es; [by eapply IH|].
    destruct (home_accepts _ _ _ _ _) eqn:Ea;
      [|eapply IH; [apply distance_tracked_reset|done]].
    apply elem_of_cons in Hr as [->|Hr];
      [|eapply IH; [apply distance_tracked_reset|done]].
    unfold home_accepts in Ea. apply andb_true_iff in Ea as [Ea _].
    cbn [home_request req_distance req_segments req_algorithm]. done.
  - eapply IH; [|exact Hr]. by apply distance_tracked_push.
Qed.

(** ** The rows of a plan *)

Lemma materialize_all_length rs : forall s s',
  no_pending_trip s -> materialize_all rs s = Ok tt s' ->
  (length (trips s') <= length (trips s) + length rs)%nat.
Proof.
  induction rs as [|r rs IH]; intros s s' Hp; unfold materialize_all; cbn [for_each].
  - intros [= <-]. lia.
  - unfold bind. destruct (materialize r s) as [[] s1|] eqn:E1; [|done].
    intros E2. pose proof E1 as E1'. apply materialize_ok in E1' as [G1 _]; [|done].
    apply IH in E2; [|apply G1].
    apply _create_trip_ok in E1 as [[_ ->]|(_ & Ha & _)]; [| |done].
    + cbn [length]. lia.
    + rewrite (appended_trips _ _ _ Ha), length_app in E2. cbn [length] in *. lia.
Qed.

Lemma run_plan_rows plan s n s' :
  pending s = [] -> run_plan plan s = Ok n s' ->
  n = plan.2 /\ pending s' = [] /\ same_repo s s'
  /\ exists new, trips s' = trips s ++ new
                 /\ (length new <= length plan.1)%nat
                 /\ Forall (row_of plan.1) new.
Proof.
  intros Hp E. pose proof E as E'.
  apply run_plan_ok in E' as (Hn & Hp' & [Hr _ (new & Ht & Hf) _] & _); [|done].
  split; [done|]. split; [done|]. split; [done|].
  exists new. split; [done|]. split; [|done].
  unfold run_plan, bind in E.
  destruct (materialize_all plan.1 s) as [[] s1|] eqn:E1; [|done].
  assert (Hnp : no_pending_trip s) by (unfold no_pending_trip; by rewrite Hp).
  pose proof (materialize_all_length _ _ _ Hnp E1) as Hlen.
  apply materialize_all_ok in E1 as [G1 _]; [|done].
  unfold commit in E. destruct (flush s1) as [[] s2|] eqn:E2; [|done].
  apply flush_links in E2 as (T2 & _); [|apply G1].
  injection E as _ <-. rewrite T2 in Ht. rewrite Ht, length_app in Hlen. lia.
Qed.

(** The thresholds of the home-based detector are tested on doubles: a
    stroll of 60 m and 40 m in 1200 s meets the thresholds 0.1 km and
    0.3333333333333333 h; one of 0.1 m and 0.7 m, whose float sum is
    0.7999999999999999 m, does not meet 0.0008 km, which one of twice 0.4 m
    does. *)
Example home_based_on_the_threshold :
  count_of (detect grid_distance alphabetical
              (HomeBased None None (1 # 10) (3333333333333333 # 10000000000000000))
              (stroll 60 40)) = Some 1
  /\ count_of (detect grid_distance alphabetical
                 (HomeBased None None (8 # 10000) 0) (stroll (1 # 10) (7 # 10)))
     = Some 0
  /\ count_of (detect grid_distance alphabetical
                 (HomeBased None None (8 # 10000) 0) (stroll (4 # 10) (4 # 10)))
     = Some 1.
Proof. vm_compute. repeat split. Qed.

(** X3. Every trip the home-based detector writes meets both thresholds,
    as the detector evaluates them in double precision: its distance is the
    distance of the activities of the run it closes added up as floats in
    segment order, that distance divided by 1000 is at least
    [min_distance_km], and its duration in seconds divided by 3600 is at
    least [min_duration_hours]; the run is made of segments of the date
    range, and the transport mode is computed from the same run. *)
Theorem X3_home_based_thresholds ST_Distance set_iter sd ed mind mindur s n s' :
  pending s = [] ->
  detect_home_based_trips ST_Distance set_iter sd ed mind mindur s = Ok n s' ->
  exists new,
    trips s' = trips s ++ new
    /\ Forall (fun t =>
                 TripModel.detection_algorithm t = "home_based"
                 /\ fge (fdiv (TripModel.total_distance_meters t) 1000) mind = true
                 /\ fge (fdiv (inject_Z (TripModel.end_time t - TripModel.start_time t))
                               3600) mindur = true
                 /\ exists run,
                      Forall (fun g => g ∈ timeline_segments s
                                       /\ in_range sd ed g = true) run
                      /\ TripModel.total_distance_meters t = activity_total run
                      /\ TripModel.primary_transport_mode t = primary_mode run)
         new.
Proof.
  intros Hp E. rewrite detect_home_based_trips_plan in E.
  destruct (home_plan ST_Distance set_iter sd ed mind mindur s) as [plan|] eqn:Eplan;
    cbn [run_plan_opt] in E.
  2:{ injection E as _ <-. exists []. by rewrite app_nil_r. }
  apply run_plan_rows in E as (_ & _ & _ & new & Ht & _ & Hf); [|done].
  exists new. split; [done|]. eapply Forall_impl; [exact Hf|].
  intros t (r & i & Hr & ->).
  unfold home_plan in Eplan. destruct (head (user_profile s)) as [p|]; [|done].
  destruct (no_home (Some p)); [done|]. injection Eplan as <-. cbn [fst] in Hr.
  pose proof Hr as Hthr.
  apply home_requests_thresholds in Hthr as (Hd & Hm & Ha);
    [|apply distance_tracked_reset].
  pose proof Hr as Hdur. apply home_requests_accepted in Hdur.
  cbn [req_row trip_row TripModel.detection_algorithm
       TripModel.total_distance_meters TripModel.primary_transport_mode].
  split; [done|]. split; [done|]. split; [exact Hdur|].
  exists (req_segments r). split; [|done].
  eapply (home_requests_closed _ _ _ _ _ _ _ _ [] home_acc_reset) in Hr;
    [|done|by left].
  destruct Hr as (l1 & first & mid & h & l2 & Es & _ & _ & _ & _ & _ & ->).
  cbn [app current_trip_segments home_acc_reset] in Es.
  apply Forall_forall. intros g Hg.
  assert (Hin : g ∈ order_by_start_time
                      (List.filter (in_range sd ed) (timeline_segments s))).
  { rewrite Es. apply elem_of_app. right.
    apply elem_of_cons in Hg as [->|Hg]; [by left|]. right.
    apply elem_of_app. by left. }
  rewrite elem_of_order_by_start_time in Hin.
  rewrite list_elem_of_In, filter_In, <- list_elem_of_In in Hin. done.
Qed.

Lemma X3_home_based_thresholds_witness :
  pending zoo_day = []
  /\ exists n s',
       detect_home_based_trips grid_distance alphabetical None None 50 4 zoo_day
       = Ok n s'
       /\ exists new,
            trips s' = trips zoo_day ++ new
            /\ Forall (fun t =>
                         TripModel.detection_algorithm t = "home_based"
                         /\ fge (fdiv (TripModel.total_distance_meters t) 1000) 50 = true
                         /\ fge (fdiv (inject_Z (TripModel.end_time t
                                                 - TripModel.start_time t)) 3600) 4
                            = true) new.
Proof.
  split; [reflexivity|].
  eexists _, _. split; [vm_compute; reflexivity|].
  match goal with
  | |- exists new, trips ?s' = _ /\ _ =>
      destruct (X3_home_based_thresholds grid_distance alphabetical None None 50 4
                  zoo_day 1 s')
        as (new & Ht & Hf); [reflexivity|vm_compute; reflexivity|]
  end.
  exists new. split; [exact Ht|].
  eapply Forall_impl; [exact Hf|]. intros t (? & ? & ? & _). done.
Defined.

(** ** The rows of the memory detector *)

Lemma memory_loop_rows ms : forall n s n' s',
  no_pending_trip s -> memory_loop ms n s = Ok n' s' ->
  grown (memory_trip_of ms) s s'.
Proof.
  induction ms as [|[m g] ms IH]; intros n s n' s' Hp; cbn [memory_loop].
  - intros [= <- <-]. by apply grown_refl.
  - unfold bind at 1. unfold query_existing, gets.
    destruct (head _) as [r|] eqn:Eh.
    + intros E. apply IH in E; [|done].
      eapply grown_weaken; [|exact E].
      intros t (mg & i & Hmg & Ht). exists mg, i. split; [by right|done].
    + apply head_filter_existsb in Eh.
      unfold bind, add, flush. cbn [pending set_pending].
      rewrite insert_rows_app.
      destruct (insert_rows (pending s) _) as [s1|] eqn:E1; [|done].
      apply insert_rows_links in E1 as (T1 & Q1 & P1 & R1); [|done].
      cbn [insert_rows insert_row]. cbn in T1, Q1, P1. rewrite T1, Q1.
      destruct (existsb (fun r' => TripModel.id r' =? trips_id_seq s + 1) (trips s));
        [done|].
      cbn [gets TripModel.with_id TripModel.id insert_trip trips_id_seq].
      rewrite (for_each_add _ (fun '(idx, place_id) =>
                 PDest {| TripDestinationModel.trip_id := trips_id_seq s + 1;
                          TripDestinationModel.place_id := place_id;
                          TripDestinationModel.visit_order := idx |}))
        by (by intros [? ?]).
      cbn -[memory_loop Z.add Z.mul enumerate date_of]. rewrite P1. cbn [app].
      match goal with |- memory_loop _ _ ?s2 = _ -> _ => set (s_mid := s2) end.
      intros E.
      assert (Ha : appended (memory_trip (trips_id_seq s + 1) (m, g)) s s_mid).
      { split.
        - destruct R1 as (?&?&?). by repeat split.
        - unfold no_pending_trip, s_mid. cbn. apply Forall_app. split.
          + apply Forall_forall. intros o Ho.
            apply list_elem_of_fmap in Ho as ([? ?] & -> & _). done.
          + by apply Forall_singleton.
        - apply key_exists_false. exact Eh.
        - unfold s_mid. cbn. by rewrite T1. }
      apply IH in E; [|apply Ha].
      eapply grown_trans.
      * eapply grown_appended; [exact Ha|]. exists (m, g), (trips_id_seq s + 1).
        split; [by left|done].
      * eapply grown_weaken; [|exact E].
        intros t (mg & i & Hmg & Ht). exists mg, i. split; [by right|done].
Qed.

Lemma detect_memory_rows sd ed s n s' :
  pending s = [] -> detect_timeline_memory_trips sd ed s = Ok n s' ->
  exists new, trips s' = trips s ++ new
              /\ n = Z.of_nat (length new)
              /\ Forall (memory_trip_of (memories_of sd ed s)) new.
Proof.
  intros Hp E. pose proof E as E'.
  apply detect_memory_ok in E' as (_ & [_ _ (new & Ht & _) _] & _ & Hn); [|done].
  exists new. split; [done|]. split; [rewrite Hn, Ht, length_app; lia|].
  unfold detect_timeline_memory_trips in E.
  unfold bind at 1 in E. cbn [query_memories gets] in E.
  fold (memories_of sd ed s) in E. unfold bind at 1 in E.
  destruct (memory_loop _ 0 s) as [n1 s1|] eqn:E1; [|done].
  apply memory_loop_rows in E1 as [_ P1 (new1 & T1 & F1) _];
    [|unfold no_pending_trip; by rewrite Hp].
  unfold bind, commit in E. destruct (flush s1) as [[] s2|] eqn:E2; [|done].
  apply flush_links in E2 as (T2 & _); [|done].
  injection E as _ <-. rewrite T2, T1 in Ht. by apply app_inv_head in Ht as <-.
Qed.

(** ** The rows of any detector *)

Lemma overnight_request_fields G r :
  overnight_request G = Some r ->
  req_algorithm r = "overnight" /\ req_distance r = 0%Q
  /\ req_segments r = map snd G.
Proof.
  unfold overnight_request. destruct G as [|[v g] tl]; [done|].
  destruct (last _) as [[lv lg]|]; [|done]. by intros [= <-].
Qed.

Lemma cluster_request_algorithm set_iter G r :
  cluster_request set_iter G = Some r -> req_algorithm r = "distance_based".
Proof.
  unfold cluster_request. destruct G as [|g tl]; [done|].
  destruct (last _); [|done]. by intros [= <-].
Qed.

Lemma omap_length_le {A B} (f : A -> option B) l :
  (length (omap f l) <= length l)%nat.
Proof.
  induction l as [|x l IH]; [done|]. cbn [omap list_omap].
  destruct (f x); cbn [length]; lia.
Qed.

Lemma plan_of_algorithm ST_Distance set_iter i s plan :
  plan_of ST_Distance set_iter i s = Some plan ->
  Forall (fun r => req_algorithm r = algorithm_of i) plan.1
  /\ Z.of_nat (length plan.1) <= plan.2.
Proof.
  destruct i as [sd ed|sd ed mind mindur|sd ed min_nights|sd ed thr gap];
    cbn [plan_of algorithm_of]; [done| | |].
  - unfold home_plan. destruct (head (user_profile s)) as [p|]; [|done].
    destruct (no_home (Some p)); [done|]. intros [= <-]. cbn [fst snd].
    split; [|lia]. apply Forall_forall. intros r Hr.
    apply home_requests_thresholds in Hr as (_ & _ & Ha);
      [done|apply distance_tracked_reset].
  - unfold overnight_plan. destruct (head (user_profile s)) as [p|]; [|done].
    destruct (no_home (Some p)); [done|]. intros [= <-]. cbn [fst snd].
    split.
    + apply Forall_forall. intros r Hr.
      apply list_elem_of_omap in Hr as (G & _ & HG).
      by apply overnight_request_fields in HG as (? & _).
    + pose proof (omap_length_le overnight_request
                    (overnight_groups min_nights
                       (overnight_candidates ST_Distance sd ed p s) [])). lia.
  - unfold distance_plan. destruct (head (user_profile s)) as [p|]; [|done].
    destruct (UserProfileModel.home_location p) as [home|]; [|done].
    intros [= <-]. cbn [fst snd]. split.
    + apply Forall_forall. intros r Hr.
      apply list_elem_of_omap in Hr as (G & _ & HG).
      by apply cluster_request_algorithm in HG.
    + pose proof (omap_length_le (cluster_request set_iter)
                    (distance_clusters gap
                       (far_segments_of ST_Distance sd ed home thr s) [])). lia.
Qed.

(** What any successful detector call leaves: the repository untouched,
    nothing pending, and the trips it found appended to the table, each
    stamped with the algorithm and dated; the count it returns is at least
    the number of rows appended, and is that number for the memory detector. *)
Lemma detect_rows ST_Distance set_iter i s n s' :
  pending s = [] -> detect ST_Distance set_iter i s = Ok n s' ->
  same_repo s s' /\ pending s' = []
  /\ exists new,
       trips s' = trips s ++ new
       /\ Z.of_nat (length new) <= n
       /\ (is_memory i = true -> n = Z.of_nat (length new))
       /\ Forall (fun t => TripModel.detection_algorithm t = algorithm_of i
                           /\ dated t) new.
Proof.
  intros Hp E. pose proof E as E'.
  apply detect_ok in E' as (Hp' & [Hr _ _ _]); [|done].
  split; [done|]. split; [done|].
  destruct (is_memory i) eqn:Ei.
  - destruct i; try done. cbn [detect] in E.
    apply detect_memory_rows in E as (new & Ht & Hn & Hf); [|done].
    exists new. split; [done|]. split; [lia|]. split; [done|].
    eapply Forall_impl; [exact Hf|]. by intros t (mg & k & _ & ->).
  - rewrite detect_plan in E by done.
    destruct (plan_of ST_Distance set_iter i s) as [plan|] eqn:Eplan;
      cbn [run_plan_opt] in E.
    + apply plan_of_algorithm in Eplan as [Ha Hc].
      apply run_plan_rows in E as (-> & _ & _ & new & Ht & Hl & Hf); [|done].
      exists new. split; [done|]. split; [lia|]. split; [done|].
      eapply Forall_impl; [exact Hf|]. intros t (r & k & Hr' & ->).
      rewrite Forall_forall in Ha. split; [by apply Ha|done].
    + injection E as <- <-. exists []. rewrite app_nil_r. done.
Qed.

(** ** The multi-day flag *)

Lemma crosses_midnight_dates t :
  crosses_midnight t
  <-> date_of (TripModel.start_time t) < date_of (TripModel.end_time t).
Proof.
  unfold crosses_midnight, date_of. split.
  - intros (day & Hs & He).
    assert (TripModel.start_time t / 86400 < day)
      by (apply Z.div_lt_upper_bound; lia).
    assert (day <= TripModel.end_time t / 86400)
      by (apply Z.div_le_lower_bound; lia).
    lia.
  - intros Hlt. exists (TripModel.end_time t / 86400).
    pose proof (Z.mul_div_le (TripModel.end_time t) 86400 ltac:(lia)).
    pose proof (Z.mul_succ_div_gt (TripModel.start_time t) 86400 ltac:(lia)).
    nia.
Qed.

Lemma dated_crosses_midnight t :
  dated t -> (TripModel.is_multi_day t = true <-> crosses_midnight t).
Proof.
  unfold dated. intros ->. rewrite crosses_midnight_dates.
  rewrite Z.gtb_ltb. apply Z.ltb_lt.
Qed.

(** X4. A detector call that returns leaves segments, profile and places as
    they were and nothing pending; the trips it found are appended after the
    rows already in the table, each stamped with the algorithm of the
    detector.  The count returned is never less than the number of rows
    appended, and is exactly that number for the memory detector. *)
Theorem X4_detect_appends ST_Distance set_iter i s n s' :
  pending s = [] -> detect ST_Distance set_iter i s = Ok n s' ->
  same_repo s s' /\ pending s' = []
  /\ exists new,
       trips s' = trips s ++ new
       /\ Z.of_nat (length new) <= n
       /\ (is_memory i = true -> n = Z.of_nat (length new))
       /\ Forall (fun t => TripModel.detection_algorithm t = algorithm_of i) new.
Proof.
  intros Hp E.
  destruct (detect_rows ST_Distance set_iter i s n s' Hp E)
    as (Hr & Hp' & new & Ht & Hl & Hm & Hf).
  split; [done|]. split; [done|]. exists new. repeat (split; [done|]).
  eapply Forall_impl; [exact Hf|]. by intros t [? _].
Qed.

Lemma X4_detect_appends_witness :
  pending zoo_day = []
  /\ exists n s',
       detect grid_distance alphabetical (HomeBased None None 50 4) zoo_day = Ok n s'
       /\ same_repo zoo_day s' /\ pending s' = [].
Proof.
  split; [reflexivity|].
  eexists _, _. split; [vm_compute; reflexivity|].
  match goal with
  | |- same_repo _ ?s' /\ _ =>
      destruct (X4_detect_appends grid_distance alphabetical
                  (HomeBased None None 50 4) zoo_day 1 s')
        as (Hr & Hp & _); [reflexivity|vm_compute; reflexivity|]
  end.
  split; [exact Hr|exact Hp].
Defined.

(** X5. Whichever detector writes it, a trip is flagged multi-day exactly
    when a midnight lies after its start and not after its end: the flag
    compares calendar dates, not the duration, so a trip of a few hours
    across midnight is multi-day and one of 23 hours within a day is not. *)
Theorem X5_multi_day_flag ST_Distance set_iter i s n s' :
  pending s = [] -> detect ST_Distance set_iter i s = Ok n s' ->
  exists new,
    trips s' = trips s ++ new
    /\ Forall (fun t => TripModel.is_multi_day t = true <-> crosses_midnight t) new.
Proof.
  intros Hp E.
  destruct (detect_rows ST_Distance set_iter i s n s' Hp E)
    as (_ & _ & new & Ht & _ & _ & Hf).
  exists new. split; [done|].
  eapply Forall_impl; [exact Hf|]. intros t [_ Hd]. by apply dated_crosses_midnight.
Qed.

Lemma X5_multi_day_flag_witness :
  pending memory_repo = []
  /\ exists n s',
       detect grid_distance alphabetical (Memory None None) memory_repo = Ok n s'
       /\ exists new,
            trips s' = trips memory_repo ++ new
            /\ Forall (fun t => TripModel.is_multi_day t = true <-> crosses_midnight t)
                 new.
Proof.
  split; [reflexivity|].
  eexists _, _. split; [vm_compute; reflexivity|].
  match goal with
  | |- exists new, trips ?s' = _ /\ _ =>
      apply (X5_multi_day_flag grid_distance alphabetical (Memory None None)
               memory_repo 2 s'); [reflexivity|vm_compute; reflexivity]
  end.
Defined.

(** ** The rows of the overnight detector *)

Lemma overnight_request_evening G r :
  nightly G -> overnight_request G = Some r ->
  20 <= hour_of (req_start r).
Proof.
  intros [_ Hw]. unfold overnight_request.
  destruct G as [|[fv fg] tl]; [done|].
  destruct (last _) as [[lv lg]|]; [|done]. intros [= <-]. cbn.
  apply Forall_cons in Hw as [Hw _]. cbn in Hw.
  apply overnight_window_spec in Hw. lia.
Qed.

Lemma evening_to_morning (start_time end_time : datetime) :
  20 <= hour_of start_time -> start_time + 6 * 3600 <= end_time ->
  date_of start_time < date_of end_time.
Proof.
  unfold hour_of, date_of. intros Hh Hd.
  assert (Hm : 72000 <= start_time mod 86400).
  { destruct (Z.lt_ge_cases (start_time mod 86400) 72000) as [Hlt|]; [|done].
    assert ((start_time mod 86400) / 3600 < 20)
      by (apply Z.div_lt_upper_bound; lia). lia. }
  pose proof (Z.div_mod start_time 86400 ltac:(lia)) as Hs.
  assert (start_time / 86400 + 1 <= end_time / 86400)
    by (apply Z.div_le_lower_bound; lia).
  lia.
Qed.

(** X6. Every trip the overnight detector writes is flagged multi-day, even
    for a single night: it starts at 20:00 or later and ends at least six
    hours after, so past a midnight.  Its distance is always stored as 0,
    whatever lies between the nights. *)
Theorem X6_overnight_rows ST_Distance sd ed min_nights s n s' :
  pending s = [] ->
  detect_overnight_trips ST_Distance sd ed min_nights s = Ok n s' ->
  exists new,
    trips s' = trips s ++ new
    /\ Forall (fun t => TripModel.detection_algorithm t = "overnight"
                        /\ TripModel.is_multi_day t = true
                        /\ TripModel.total_distance_meters t = 0%Q
                        /\ 20 <= hour_of (TripModel.start_time t)
                        /\ TripModel.start_time t + 6 * 3600 <= TripModel.end_time t)
         new.
Proof.
  intros Hp E. rewrite detect_overnight_trips_plan in E.
  destruct (overnight_plan ST_Distance sd ed min_nights s) as [plan|] eqn:Eplan;
    cbn [run_plan_opt] in E.
  2:{ injection E as _ <-. exists []. by rewrite app_nil_r. }
  apply run_plan_rows in E as (_ & _ & _ & new & Ht & _ & Hf); [|done].
  exists new. split; [done|]. eapply Forall_impl; [exact Hf|].
  intros t (r & i & Hr & ->).
  unfold overnight_plan in Eplan. destruct (head (user_profile s)) as [p|]; [|done].
  destruct (no_home (Some p)); [done|]. injection Eplan as <-. cbn [fst] in Hr.
  apply list_elem_of_omap in Hr as (G & HG & Hr).
  eapply (overnight_groups_stretch nightly) in HG;
    [|apply nightly_app|apply overnight_candidates_nightly].
  pose proof (overnight_request_bounds G r HG Hr) as Hb.
  pose proof (overnight_request_evening G r HG Hr) as He.
  apply overnight_request_fields in Hr as (Ha & Hd & _).
  cbn [req_row trip_row TripModel.detection_algorithm TripModel.is_multi_day
       TripModel.total_distance_meters TripModel.start_time TripModel.end_time].
  split; [done|]. split; [|done].
  rewrite Z.gtb_ltb. apply Z.ltb_lt. by apply evening_to_morning.
Qed.

Lemma X6_overnight_rows_witness :
  pending (two_nights "hotel" "inn") = []
  /\ exists n s',
       detect_overnight_trips grid_distance None None 1
         (two_nights "hotel" "inn") = Ok n s'
       /\ exists new,
            trips s' = trips (two_nights "hotel" "inn") ++ new
            /\ Forall (fun t => TripModel.is_multi_day t = true
                                /\ TripModel.total_distance_meters t = 0%Q) new.
Proof.
  split; [reflexivity|].
  eexists _, _. split; [vm_compute; reflexivity|].
  match goal with
  | |- exists new, trips ?s' = _ /\ _ =>
      destruct (X6_overnight_rows grid_distance None None 1
                  (two_nights "hotel" "inn") 1 s')
        as (new & Ht & Hf); [reflexivity|vm_compute; reflexivity|]
  end.
  exists new. split; [exact Ht|].
  eapply Forall_impl; [exact Hf|]. intros t (_ & ? & ? & _). done.
Defined.

(** X7. The memory detector copies: every row it writes takes its bounds
    from a memory segment of the date range, its distance is the memory's
    [distance_from_origin_kms] times 1000 (0 when the column is NULL), and it
    has no transport mode; the count returned is the number of rows written.
    After the call every memory of the range has a trip with its bounds in
    the table, also a memory without any destination. *)
Theorem X7_memory_rows sd ed s n s' :
  pending s = [] ->
  detect_timeline_memory_trips sd ed s = Ok n s' ->
  (exists new,
     trips s' = trips s ++ new
     /\ n = Z.of_nat (length new)
     /\ Forall (fun t =>
                  exists m g,
                    (m, g) ∈ memories_of sd ed s
                    /\ g ∈ timeline_segments s
                    /\ in_range sd ed g = true
                    /\ TripModel.start_time t = TimelineSegment.start_time g
                    /\ TripModel.end_time t = TimelineSegment.end_time g
                    /\ TripModel.total_distance_meters t
                       = inject_Z
                           (or_0_int (TimelineMemoryModel.distance_from_origin_kms m)
                            * 1000)
                    /\ TripModel.primary_transport_mode t = None
                    /\ TripModel.detection_algorithm t = "timeline_memory") new)
  /\ forall mg, mg ∈ memories_of sd ed s ->
       exists t, t ∈ trips s' /\ trip_key t = memory_key mg.
Proof.
  intros Hp E. split.
  - apply detect_memory_rows in E as (new & Ht & Hn & Hf); [|done].
    exists new. split; [done|]. split; [done|].
    eapply Forall_impl; [exact Hf|]. intros t ([m g] & i & Hmg & ->).
    exists m, g. split; [done|].
    unfold memories_of in Hmg. rewrite list_elem_of_In, in_flat_map in Hmg.
    destruct Hmg as (g' & Hg' & Hin). rewrite <- list_elem_of_In in Hg'.
    destruct (TimelineSegment.timeline_memory g') as [m'|]; [|done].
    destruct (in_range sd ed g') eqn:Er; [|done].
    destruct Hin as [[= -> ->]|[]]. done.
  - apply detect_memory_ok in E as (_ & _ & Hk & _); [|done].
    intros mg Hmg. rewrite Forall_forall in Hk. specialize (Hk mg Hmg).
    apply list_elem_of_fmap in Hk as (t & Hk & Ht). by exists t.
Qed.

Lemma X7_memory_rows_witness :
  pending memory_repo = []
  /\ exists n s',
       detect_timeline_memory_trips None None memory_repo = Ok n s'
       /\ forall mg, mg ∈ memories_of None None memory_repo ->
            exists t, t ∈ trips s' /\ trip_key t = memory_key mg.
Proof.
  split; [reflexivity|].
  eexists _, _. split; [vm_compute; reflexivity|].
  match goal with
  | |- forall mg, _ -> exists t, t ∈ trips ?s' /\ _ =>
      apply (X7_memory_rows None None memory_repo 2 s');
        [reflexivity|vm_compute; reflexivity]
  end.
Defined.

(** ** [detect_all_trips] *)

(** The four calls of [detect_all_trips], each on the store the one before
    left. *)
Lemma detect_all_trips_steps ST_Distance set_iter sd ed mind mindur thr s stats s' :
  detect_all_trips ST_Distance set_iter sd ed mind mindur thr s = Ok stats s' ->
  exists s1 s2 s3,
    detect ST_Distance set_iter (Memory sd ed) s
    = Ok (stat_timeline_memory stats) s1
    /\ detect ST_Distance set_iter (HomeBased sd ed mind mindur) s1
       = Ok (stat_home_based stats) s2
    /\ detect ST_Distance set_iter (Overnight sd ed 1) s2
       = Ok (stat_overnight stats) s3
    /\ detect ST_Distance set_iter (DistanceBased sd ed thr 6) s3
       = Ok (stat_distance_based stats) s'.
Proof.
  unfold detect_all_trips.
  change (detect_timeline_memory_trips sd ed)
    with (detect ST_Distance set_iter (Memory sd ed)).
  change (detect_home_based_trips ST_Distance set_iter sd ed mind mindur)
    with (detect ST_Distance set_iter (HomeBased sd ed mind mindur)).
  change (detect_overnight_trips ST_Distance sd ed 1)
    with (detect ST_Distance set_iter (Overnight sd ed 1)).
  change (detect_distance_based_trips ST_Distance set_iter sd ed thr 6%Q)
    with (detect ST_Distance set_iter (DistanceBased sd ed thr 6)).
  unfold bind, ret.
  destruct (detect _ _ (Memory sd ed) s) as [c1 s1|] eqn:E1; [|done].
  destruct (detect _ _ (HomeBased sd ed mind mindur) s1) as [c2 s2|] eqn:E2; [|done].
  destruct (detect _ _ (Overnight sd ed 1) s2) as [c3 s3|] eqn:E3; [|done].
  destruct (detect _ _ (DistanceBased sd ed thr 6) s3) as [c4 s4|] eqn:E4; [|done].
  intros [= <- <-]. by exists s1, s2, s3.
Qed.

(** The four blocks of rows [detect_all_trips] appends. *)
Lemma detect_all_trips_blocks ST_Distance set_iter sd ed mind mindur thr s stats s' :
  pending s = [] ->
  detect_all_trips ST_Distance set_iter sd ed mind mindur thr s = Ok stats s' ->
  exists by_memory by_home by_night by_distance,
    trips s' = trips s ++ by_memory ++ by_home ++ by_night ++ by_distance
    /\ Forall (fun t => TripModel.detection_algorithm t = "timeline_memory") by_memory
    /\ Forall (fun t => TripModel.detection_algorithm t = "home_based") by_home
    /\ Forall (fun t => TripModel.detection_algorithm t = "overnight") by_night
    /\ Forall (fun t => TripModel.detection_algorithm t = "distance_based") by_distance
    /\ stat_timeline_memory stats = Z.of_nat (length by_memory)
    /\ Z.of_nat (length by_home) <= stat_home_based stats
    /\ Z.of_nat (length by_night) <= stat_overnight stats
    /\ Z.of_nat (length by_distance) <= stat_distance_based stats.
Proof.
  intros Hp E.
  apply detect_all_trips_steps in E as (s1 & s2 & s3 & E1 & E2 & E3 & E4).
  destruct (detect_rows _ _ _ _ _ _ Hp E1) as (_ & P1 & m & T1 & _ & N1 & F1).
  destruct (detect_rows _ _ _ _ _ _ P1 E2) as (_ & P2 & h & T2 & L2 & _ & F2).
  destruct (detect_rows _ _ _ _ _ _ P2 E3) as (_ & P3 & o & T3 & L3 & _ & F3).
  destruct (detect_rows _ _ _ _ _ _ P3 E4) as (_ & _ & d & T4 & L4 & _ & F4).
  exists m, h, o, d. split.
  { rewrite T4, T3, T2, T1. by rewrite <- !app_assoc. }
  repeat split; try lia; try (by apply N1);
    (eapply Forall_impl; [eassumption|]; by intros t [? _]).
Qed.

(** X8. [detect_all_trips] runs the memory, home-based, overnight (with
    [min_nights = 1]) and distance-based (with a gap of 6 hours) detectors
    in this order over the same date range, each committing before the next
    starts.  When it returns, the repository is unchanged, trips are at most
    once per dedup key if they were, and the rows appended come in four
    blocks, one per algorithm in that order; the statistic of the memory
    detector is the size of its block, and each other statistic is at least
    the size of its block. *)
Theorem X8_detect_all_trips ST_Distance set_iter sd ed mind mindur thr s stats s' :
  pending s = [] ->
  detect_all_trips ST_Distance set_iter sd ed mind mindur thr s = Ok stats s' ->
  s' = run_all ST_Distance set_iter
         [Memory sd ed; HomeBased sd ed mind mindur; Overnight sd ed 1;
          DistanceBased sd ed thr 6] s
  /\ same_repo s s' /\ pending s' = []
  /\ (unique_keys (trips s) -> unique_keys (trips s'))
  /\ exists by_memory by_home by_night by_distance,
       trips s' = trips s ++ by_memory ++ by_home ++ by_night ++ by_distance
       /\ Forall (fun t => TripModel.detection_algorithm t = "timeline_memory") by_memory
       /\ Forall (fun t => TripModel.detection_algorithm t = "home_based") by_home
       /\ Forall (fun t => TripModel.detection_algorithm t = "overnight") by_night
       /\ Forall (fun t => TripModel.detection_algorithm t = "distance_based") by_distance
       /\ stat_timeline_memory stats = Z.of_nat (length by_memory)
       /\ Z.of_nat (length by_home) <= stat_home_based stats
       /\ Z.of_nat (length by_night) <= stat_overnight stats
       /\ Z.of_nat (length by_distance) <= stat_distance_based stats.
Proof.
  intros Hp E.
  pose proof (detect_all_trips_blocks _ _ _ _ _ _ _ _ _ _ Hp E) as Hblocks.
  apply detect_all_trips_steps in E as (s1 & s2 & s3 & E1 & E2 & E3 & E4).
  pose proof (detect_ok _ _ _ _ _ _ Hp E1) as (P1 & G1).
  pose proof (detect_ok _ _ _ _ _ _ P1 E2) as (P2 & G2).
  pose proof (detect_ok _ _ _ _ _ _ P2 E3) as (P3 & G3).
  pose proof (detect_ok _ _ _ _ _ _ P3 E4) as (P4 & G4).
  split.
  { cbn [run_all fold_left]. unfold run. rewrite E1. cbn [store_after].
    rewrite E2. cbn [store_after]. rewrite E3. cbn [store_after]. by rewrite E4. }
  split.
  { eapply same_repo_trans; [|apply G4]. eapply same_repo_trans; [|apply G3].
    eapply same_repo_trans; [apply G1|apply G2]. }
  split; [done|]. split; [|exact Hblocks].
  intros U. by apply G4, G3, G2, G1.
Qed.

Lemma X8_detect_all_trips_witness :
  pending zoo_day = []
  /\ exists stats s',
       detect_all_trips grid_distance alphabetical None None (1 # 2) (1 # 10) 5
         zoo_day = Ok stats s'
       /\ s' = run_all grid_distance alphabetical
                 [Memory None None; HomeBased None None (1 # 2) (1 # 10);
                  Overnight None None 1; DistanceBased None None 5 6] zoo_day.
Proof.
  split; [reflexivity|].
  eexists _, _. split; [vm_compute; reflexivity|].
  match goal with
  | |- ?s' = _ =>
      apply (X8_detect_all_trips grid_distance alphabetical None None (1 # 2)
               (1 # 10) 5 zoo_day
               {| stat_timeline_memory := 0; stat_home_based := 1;
                  stat_overnight := 0; stat_distance_based := 0 |} s');
        [reflexivity|vm_compute; reflexivity]
  end.
Defined.

(** * The summaries and statistics *)

(** ** Sums and counts *)

Lemma fold_left_Zadd l : forall a, fold_left Z.add l a = a + sum_Z l.
Proof.
  unfold sum_Z. induction l as [|x l IH]; intros a; cbn [fold_left]; [lia|].
  rewrite (IH (a + x)), (IH (0 + x)). lia.
Qed.

Lemma sum_Z_cons x l : sum_Z (x :: l) = x + sum_Z l.
Proof. unfold sum_Z at 1. cbn [fold_left]. rewrite fold_left_Zadd. lia. Qed.

Lemma sum_Z_app l1 l2 : sum_Z (l1 ++ l2) = sum_Z l1 + sum_Z l2.
Proof.
  induction l1 as [|x l1 IH]; [done|].
  cbn [app]. rewrite !sum_Z_cons, IH. lia.
Qed.

Lemma sum_Z_perm l1 l2 : l1 ≡ₚ l2 -> sum_Z l1 = sum_Z l2.
Proof.
  induction 1 as [|x l1 l2 _ IH|x y l|l1 l2 l3 _ IH1 _ IH2]; [done| | |congruence].
  - by rewrite !sum_Z_cons, IH.
  - rewrite !sum_Z_cons. lia.
Qed.

Lemma sum_Z_ones {A} (l : list A) : sum_Z (map (fun _ => 1) l) = Z.of_nat (length l).
Proof.
  induction l as [|x l IH]; [done|].
  cbn [map length]. rewrite sum_Z_cons, IH. lia.
Qed.

Lemma sum_Z_plus {A} (f g : A -> Z) l :
  sum_Z (map (fun x => f x + g x) l) = sum_Z (map f l) + sum_Z (map g l).
Proof.
  induction l as [|x l IH]; [done|].
  cbn [map]. rewrite !sum_Z_cons, IH. lia.
Qed.

Lemma sql_count_cons {A} (f : A -> bool) x l :
  sql_count f (x :: l) = (if f x then 1 else 0) + sql_count f l.
Proof.
  unfold sql_count. cbn [List.filter]. destruct (f x); cbn [length]; lia.
Qed.

Lemma sql_count_app {A} (f : A -> bool) l1 l2 :
  sql_count f (l1 ++ l2) = sql_count f l1 + sql_count f l2.
Proof.
  induction l1 as [|x l1 IH]; [done|].
  cbn [app]. rewrite !sql_count_cons, IH. lia.
Qed.

Lemma sql_count_bounds {A} (f : A -> bool) l :
  0 <= sql_count f l <= Z.of_nat (length l).
Proof.
  induction l as [|x l IH]; [done|].
  rewrite sql_count_cons. cbn [length]. destruct (f x); lia.
Qed.

Lemma sql_count_pos {A} (f : A -> bool) l :
  0 < sql_count f l <-> exists x, x ∈ l /\ f x = true.
Proof.
  induction l as [|x l IH].
  - split; [done|]. intros (x & Hx & _). by apply elem_of_nil in Hx.
  - rewrite sql_count_cons. pose proof (sql_count_bounds f l). split.
    + intros Hpos. destruct (f x) eqn:Ex.
      * exists x. split; [by left|done].
      * destruct IH as [IH _]. destruct IH as (y & Hy & Hf); [lia|].
        exists y. split; [by right|done].
    + intros (y & Hy & Hf). apply elem_of_cons in Hy as [->|Hy].
      * rewrite Hf. lia.
      * assert (0 < sql_count f l) by (apply IH; eauto). destruct (f x); lia.
Qed.

Lemma sql_count_all {A} (l : list A) :
  sql_count (fun _ => true) l = Z.of_nat (length l).
Proof.
  induction l as [|x l IH]; [done|]. rewrite sql_count_cons, IH. cbn [length]. lia.
Qed.

Lemma sql_count_uniform {A} (f : A -> bool) (b : bool) l :
  Forall (fun x => f x = b) l ->
  sql_count f l = if b then Z.of_nat (length l) else 0.
Proof.
  induction 1 as [|x l Hx _ IH]; [by destruct b|].
  rewrite sql_count_cons, IH, Hx. cbn [length]. destruct b; lia.
Qed.

(** Each element falls under exactly one label. *)
Lemma sum_indicator (labels : list string) (k : string) :
  NoDup labels -> k ∈ labels ->
  sum_Z (map (fun label => if String.eqb k label then 1 else 0) labels) = 1.
Proof.
  induction 1 as [|x labels Hx Hnd IH]; intros Hk; [by apply elem_of_nil in Hk|].
  cbn [map]. rewrite sum_Z_cons.
  assert (Hzero : forall l, k ∉ l ->
            sum_Z (map (fun label => if String.eqb k label then 1 else 0) l) = 0).
  { induction l as [|y l IHl]; intros Hn; [done|].
    cbn [map]. rewrite sum_Z_cons, IHl.
    - destruct (String.eqb_spec k y) as [->|]; [|done].
      exfalso. apply Hn. by left.
    - intros ?. apply Hn. by right. }
  destruct (String.eqb_spec k x) as [->|Hne].
  - by rewrite Hzero.
  - rewrite IH; [done|]. apply elem_of_cons in Hk as [?|?]; done.
Qed.

Lemma sum_bucket_counts {A} (bucket : A -> string) (labels : list string) l :
  NoDup labels -> Forall (fun x => bucket x ∈ labels) l ->
  sum_Z (map (fun label => bucket_count bucket label l) labels) = Z.of_nat (length l).
Proof.
  intros Hnd. induction 1 as [|x l Hx _ IH].
  - unfold bucket_count, sql_count. cbn.
    induction labels as [|k labels IHl]; [done|].
    cbn [map]. rewrite sum_Z_cons, IHl; [done|]. by apply NoDup_cons in Hnd as [_ ?].
  - unfold bucket_count in *.
    rewrite (List.map_ext
               (fun label => sql_count (fun y => String.eqb (bucket y) label) (x :: l))
               (fun label =>
                  (if String.eqb (bucket x) label then 1 else 0)
                  + sql_count (fun y => String.eqb (bucket y) label) l))
      by (intros label;
          exact (sql_count_cons (fun y => String.eqb (bucket y) label) x l)).
    rewrite (sum_Z_plus (fun label => if String.eqb (bucket x) label then 1 else 0)).
    rewrite IH, sum_indicator by done. cbn [length]. lia.
Qed.

(** ** Dictionaries of counts *)

Lemma fold_dict_incr {A} (bucket : A -> string) (labels : list string) l :
  forall c : string -> Z,
    fold_left (fun distribution x => dict_incr (bucket x) distribution) l
      (map (fun k => (k, c k)) labels)
    = map (fun k => (k, c k + bucket_count bucket k l)) labels.
Proof.
  induction l as [|x l IH]; intros c; cbn [fold_left].
  - apply List.map_ext. intros k. unfold bucket_count, sql_count. cbn. f_equal. lia.
  - assert (E : dict_incr (bucket x) (map (fun k => (k, c k)) labels)
                = map (fun k => (k, c k + (if String.eqb (bucket x) k then 1 else 0)))
                      labels).
    { unfold dict_incr. rewrite map_map. apply List.map_ext. intros k.
      rewrite (String.eqb_sym k). destruct (String.eqb (bucket x) k); f_equal; lia. }
    rewrite E, IH. apply List.map_ext. intros k. unfold bucket_count.
    rewrite (sql_count_cons (fun y => String.eqb (bucket y) k) x l). f_equal. lia.
Qed.

Lemma distribution_counts {A} (bucket : A -> string) (labels : list string) l :
  fold_left (fun distribution x => dict_incr (bucket x) distribution) l
    (zero_counts labels)
  = map (fun k => (k, bucket_count bucket k l)) labels.
Proof. apply (fold_dict_incr bucket labels l (fun _ => 0)). Qed.

Lemma distribution_total {A} (bucket : A -> string) (labels : list string) l :
  NoDup labels -> Forall (fun x => bucket x ∈ labels) l ->
  total_count (map (fun k => (k, bucket_count bucket k l)) labels)
  = Z.of_nat (length l).
Proof.
  intros Hnd Hin. unfold total_count. rewrite map_map. cbn [snd].
  by apply sum_bucket_counts.
Qed.

(** ** Comparisons of rationals *)

Lemma Qltb_lt a b : Qltb a b = true <-> (a < b)%Q.
Proof.
  unfold Qltb. rewrite negb_true_iff. split.
  - intros H. apply Qnot_le_lt. intros Hle. apply Qle_bool_iff in Hle. congruence.
  - intros H. destruct (Qle_bool b a) eqn:E; [|done].
    apply Qle_bool_iff in E. apply Qlt_not_le in H. done.
Qed.

Lemma Qltb_ge a b : Qltb a b = false <-> (b <= a)%Q.
Proof.
  unfold Qltb. rewrite negb_false_iff. apply Qle_bool_iff.
Qed.

Lemma hours_lt (secs n : Z) :
  (inject_Z secs / 3600 < inject_Z n)%Q <-> secs < n * 3600.
Proof. unfold Qlt, Qdiv, Qmult, Qinv, inject_Z. cbn. lia. Qed.

Lemma hours_ge (secs n : Z) :
  (inject_Z n <= inject_Z secs / 3600)%Q <-> n * 3600 <= secs.
Proof. unfold Qle, Qdiv, Qmult, Qinv, inject_Z. cbn. lia. Qed.

(** ** [get_trip_summary] *)

Lemma sql_count_ext {A} (f g : A -> bool) l :
  (forall x, f x = g x) -> sql_count f l = sql_count g l.
Proof.
  intros H. induction l as [|x l IH]; [done|]. by rewrite !sql_count_cons, IH, H.
Qed.

Lemma sql_count_map {A B} (f : B -> bool) (g : A -> B) l :
  sql_count f (map g l) = sql_count (fun x => f (g x)) l.
Proof.
  induction l as [|x l IH]; [done|]. cbn [map]. by rewrite !sql_count_cons, IH.
Qed.

Lemma group_count_keys keys : map fst (group_count keys) = remove_dups keys.
Proof.
  unfold group_count. rewrite map_map. cbn [fst]. apply map_id.
Qed.

Lemma group_count_lookup keys a n :
  (list_to_map (group_count keys) : gmap string Z) !! a = Some n
  <-> 0 < n /\ n = sql_count (String.eqb a) keys.
Proof.
  rewrite <- elem_of_list_to_map
    by (change (NoDup (map fst (group_count keys)));
        rewrite group_count_keys; apply NoDup_remove_dups).
  unfold group_count. rewrite list_elem_of_fmap. split.
  - intros (k & [= -> ->] & Hk). rewrite elem_of_remove_dups in Hk.
    split; [|reflexivity]. apply sql_count_pos. exists k. split; [done|].
    apply String.eqb_refl.
  - intros [Hpos ->]. exists a. split; [reflexivity|]. rewrite elem_of_remove_dups.
    apply sql_count_pos in Hpos as (x & Hx & Heq).
    by apply String.eqb_eq in Heq as ->.
Qed.

Lemma group_count_total keys :
  sum_Z (map snd (group_count keys)) = Z.of_nat (length keys).
Proof.
  unfold group_count. rewrite map_map. cbn [snd].
  rewrite <- (sum_bucket_counts (fun k : string => k) (remove_dups keys) keys).
  - f_equal. apply List.map_ext. intros k. unfold bucket_count.
    apply sql_count_ext. intros x. apply String.eqb_sym.
  - apply NoDup_remove_dups.
  - apply Forall_forall. intros x Hx. by apply elem_of_remove_dups.
Qed.

(** [SUM(...) or 0] divided by a number is the sum of the column divided by
    it, on an empty table too. *)
Lemma fdiv_or_0_sql_sum l d : fdiv (or_0 (sql_sum l)) d = fdiv (sum_floats l) d.
Proof.
  unfold fdiv. rewrite round64_or_0. by destruct l.
Qed.

Lemma fdiv_nonneg (a b : Q) : (0 <= a)%Q -> (0 < b)%Q -> (0 <= fdiv a b)%Q.
Proof. intros Ha Hb. by apply fdiv_sign. Qed.

(** The entries of [by_algorithm]. *)
Lemma by_algorithm_lookup (s : Session) a n :
  TripSummary.by_algorithm (get_trip_summary s) !! a = Some n
  <-> 0 < n
      /\ n = sql_count (fun t => String.eqb a (TripModel.detection_algorithm t))
               (trips s).
Proof.
  cbn [get_trip_summary TripSummary.by_algorithm].
  rewrite group_count_lookup. by rewrite sql_count_map.
Qed.

(** X9. [get_trip_summary] counts every row of the trips table once:
    [total_trips] is the number of rows, [by_algorithm] holds exactly the
    algorithm names that occur, each with its (positive) number of rows,
    these numbers add up to [total_trips], and [multi_day_trips] lies
    between 0 and [total_trips].  [total_distance_km] is the stored
    distances added up in double precision in table order and divided by
    1000, on an empty table too, where it is 0; it is not negative when no
    stored distance is. *)
Theorem X9_trip_summary (s : Session) :
  let summary := get_trip_summary s in
  TripSummary.total_trips summary = Z.of_nat (length (trips s))
  /\ (forall a n,
        TripSummary.by_algorithm summary !! a = Some n
        <-> 0 < n
            /\ n = sql_count (fun t => String.eqb a (TripModel.detection_algorithm t))
                     (trips s))
  /\ sum_Z (map snd (map_to_list (TripSummary.by_algorithm summary)))
     = TripSummary.total_trips summary
  /\ 0 <= TripSummary.multi_day_trips summary <= TripSummary.total_trips summary
  /\ TripSummary.total_distance_km summary
     = fdiv (sum_floats (map TripModel.total_distance_meters (trips s))) 1000
  /\ (trips s = [] -> TripSummary.total_distance_km summary = 0%Q)
  /\ (Forall (fun t => (0 <= TripModel.total_distance_meters t)%Q) (trips s) ->
      (0 <= TripSummary.total_distance_km summary)%Q).
Proof.
  intros summary. split; [apply sql_count_all|].
  split; [apply by_algorithm_lookup|].
  assert (Ekm : TripSummary.total_distance_km summary
                = fdiv (sum_floats (map TripModel.total_distance_meters (trips s))) 1000)
    by apply fdiv_or_0_sql_sum.
  unfold summary.
  cbn [get_trip_summary TripSummary.total_trips TripSummary.by_algorithm
       TripSummary.multi_day_trips].
  rewrite sql_count_all. split; [|split; [|split; [|split]]].
  - rewrite (sum_Z_perm _ (map snd (group_count
                                      (map TripModel.detection_algorithm (trips s))))).
    + by rewrite group_count_total, length_map.
    + apply Permutation_map. apply map_to_list_to_map.
      change (NoDup (map fst (group_count
                                (map TripModel.detection_algorithm (trips s))))).
      rewrite group_count_keys. apply NoDup_remove_dups.
  - apply sql_count_bounds.
  - exact Ekm.
  - intros E. fold summary. rewrite Ekm, E. reflexivity.
  - intros Hpos. fold summary. rewrite Ekm. apply fdiv_nonneg; [|reflexivity].
    apply sum_floats_nonneg. by apply Forall_fmap.
Qed.

(** ** [get_overview] *)

Lemma filter_all {A} (f : A -> bool) l :
  (forall x, f x = true) -> List.filter f l = l.
Proof.
  intros H. induction l as [|x l IH]; [done|]. cbn. by rewrite H, IH.
Qed.

Lemma inject_Z_length_nonzero {A} (x : A) l :
  ~ (inject_Z (Z.of_nat (length (x :: l))) == 0)%Q.
Proof. unfold Qeq, inject_Z. cbn [length Qnum Qden]. lia. Qed.

Lemma overview_figures float_sum (start_date end_date : option datetime)
    (s : Session) :
  let overview := get_overview float_sum start_date end_date s in
  let counted := List.filter (trip_in_range start_date end_date) (trips s) in
  Overview.total_trips overview = Z.of_nat (length counted)
  /\ Overview.multi_day_trips overview = sql_count TripModel.is_multi_day counted
  /\ Overview.multi_day_trips overview + Overview.single_day_trips overview
     = Overview.total_trips overview.
Proof.
  intros overview counted. unfold overview, get_overview. fold counted.
  destruct counted as [|t rest] eqn:Ec; [done|].
  cbn [Overview.total_trips Overview.multi_day_trips Overview.single_day_trips].
  split; [done|]. split; [by rewrite sum_Z_ones|]. lia.
Qed.

(** The two summations differ: ten times 0.1 add up to 0.9999999999999999
    from left to right, and to 1.0 with the compensation. *)
Example summations_differ :
  flt (sum_floats (repeat (1 # 10)%Q 10)) 1 = true
  /\ sum_floats_compensated (repeat (1 # 10)%Q 10) = 1%Q.
Proof. vm_compute. repeat split. Qed.

(** X10. The counts of [get_overview] are consistent for any date filter,
    whatever summation Python's [sum] uses: [total_trips] is the number of
    trips that start on or after [start_date] and end on or before
    [end_date], and single-day and multi-day trips add up to it.  With no
    trip counted every figure is 0 (nothing is divided); otherwise the
    totals are the sums divided by 1000 and by 3600 and each average is its
    total divided by [total_trips], all in double precision.  Without a
    filter the overview agrees with [get_trip_summary] on the number of
    trips and of multi-day trips, and under left-to-right summation on the
    total distance as well. *)
Theorem X10_overview (float_sum : list Q -> Q)
    (start_date end_date : option datetime) (s : Session) :
  let overview := get_overview float_sum start_date end_date s in
  let counted := List.filter (trip_in_range start_date end_date) (trips s) in
  let unfiltered := get_overview float_sum None None s in
  let summary := get_trip_summary s in
  Overview.total_trips overview = Z.of_nat (length counted)
  /\ Overview.multi_day_trips overview = sql_count TripModel.is_multi_day counted
  /\ Overview.multi_day_trips overview + Overview.single_day_trips overview
     = Overview.total_trips overview
  /\ 0 <= Overview.multi_day_trips overview <= Overview.total_trips overview
  /\ (counted = [] ->
      Overview.total_distance_km overview = 0%Q
      /\ Overview.total_duration_hours overview = 0%Q
      /\ Overview.avg_distance_km overview = 0%Q
      /\ Overview.avg_duration_hours overview = 0%Q)
  /\ (counted <> [] ->
      Overview.total_distance_km overview
      = fdiv (float_sum (map TripModel.total_distance_meters counted)) 1000
      /\ Overview.total_duration_hours overview
         = fdiv (float_sum (map (fun t => inject_Z (TripModel.end_time t
                                                    - TripModel.start_time t))
                                counted)) 3600
      /\ Overview.avg_distance_km overview
         = fdiv (Overview.total_distance_km overview)
                (inject_Z (Overview.total_trips overview))
      /\ Overview.avg_duration_hours overview
         = fdiv (Overview.total_duration_hours overview)
                (inject_Z (Overview.total_trips overview)))
  /\ Overview.total_trips unfiltered = TripSummary.total_trips summary
  /\ Overview.multi_day_trips unfiltered = TripSummary.multi_day_trips summary
  /\ Overview.total_distance_km (get_overview sum_floats None None s)
     = TripSummary.total_distance_km summary.
Proof.
  intros overview counted unfiltered summary.
  destruct (overview_figures float_sum start_date end_date s) as (H1 & H2 & H3).
  destruct (overview_figures float_sum None None s) as (U1 & U2 & _).
  fold overview counted in H1, H2, H3. fold unfiltered in U1, U2.
  assert (Ec : List.filter (trip_in_range None None) (trips s) = trips s)
    by (by apply filter_all).
  rewrite Ec in U1, U2.
  split; [exact H1|]. split; [exact H2|]. split; [exact H3|].
  split. { rewrite H2, H1. apply sql_count_bounds. }
  split; [|split].
  - intros E. unfold overview, get_overview. fold counted. by rewrite E.
  - intros Hne. unfold overview, get_overview. fold counted.
    by destruct counted.
  - unfold summary. cbn [get_trip_summary TripSummary.total_trips
      TripSummary.multi_day_trips TripSummary.total_distance_km].
    split; [by rewrite U1, sql_count_all|]. split; [exact U2|].
    rewrite fdiv_or_0_sql_sum. unfold get_overview. rewrite Ec.
    by destruct (trips s).
Qed.

(** ** The distributions *)

Lemma Qltb_hours (secs n : Z) :
  Qltb (inject_Z secs / 3600) (inject_Z n) = (secs <? n * 3600).
Proof.
  destruct (Z.ltb_spec secs (n * 3600)) as [Hlt|Hge].
  - by apply Qltb_lt, hours_lt.
  - by apply Qltb_ge, hours_ge.
Qed.

Lemma duration_bucket_seconds (secs : Z) :
  duration_bucket (inject_Z secs / 3600)
  = if secs <? 4 * 3600 then "< 4 hours"
    else if secs <? 8 * 3600 then "4-8 hours"
    else if secs <? 24 * 3600 then "8-24 hours"
    else if secs <? 72 * 3600 then "1-3 days"
    else if secs <? 168 * 3600 then "3-7 days"
    else if secs <? 336 * 3600 then "1-2 weeks"
    else "2+ weeks".
Proof.
  unfold duration_bucket.
  change 4%Q with (inject_Z 4). change 8%Q with (inject_Z 8).
  change 24%Q with (inject_Z 24). change 72%Q with (inject_Z 72).
  change 168%Q with (inject_Z 168). change 336%Q with (inject_Z 336).
  by rewrite !Qltb_hours.
Qed.

Lemma duration_bucket_label (q : Q) : duration_bucket q ∈ duration_labels.
Proof.
  unfold duration_bucket, duration_labels.
  repeat (destruct (Qltb q _); [rewrite !elem_of_cons; tauto|]).
  rewrite !elem_of_cons; tauto.
Qed.

Lemma distance_bucket_label (q : Q) : distance_bucket q ∈ distance_labels.
Proof.
  unfold distance_bucket, distance_labels.
  repeat (destruct (Qltb q _); [rewrite !elem_of_cons; tauto|]).
  rewrite !elem_of_cons; tauto.
Qed.

Lemma duration_labels_NoDup : NoDup duration_labels.
Proof.
  unfold duration_labels.
  repeat (apply NoDup_cons; split;
          [rewrite ?elem_of_cons, ?elem_of_nil; intuition discriminate|]).
  apply NoDup_nil_2.
Qed.

Lemma distance_labels_NoDup : NoDup distance_labels.
Proof.
  unfold distance_labels.
  repeat (apply NoDup_cons; split;
          [rewrite ?elem_of_cons, ?elem_of_nil; intuition discriminate|]).
  apply NoDup_nil_2.
Qed.

(** X11. [get_trip_duration_distribution] keeps the seven labels in the
    order of the literal and counts every trip under exactly one of them, so
    the counts add up to the number of trips.  The label depends on the whole
    seconds between start and end only: under 4 hours (a trip whose end
    precedes its start included), then from 4, 8, 24, 72, 168 and 336 hours
    on, each lower bound included and each upper bound excluded. *)
Theorem X11_duration_distribution (s : Session) :
  let bucket := fun t => duration_bucket (duration_hours t) in
  get_trip_duration_distribution s
  = map (fun label => (label, bucket_count bucket label (trips s))) duration_labels
  /\ total_count (get_trip_duration_distribution s) = Z.of_nat (length (trips s))
  /\ forall t,
       (bucket t = "< 4 hours" <-> seconds_within None (Some (4 * 3600)) t)
       /\ (bucket t = "4-8 hours"
           <-> seconds_within (Some (4 * 3600)) (Some (8 * 3600)) t)
       /\ (bucket t = "8-24 hours"
           <-> seconds_within (Some (8 * 3600)) (Some (24 * 3600)) t)
       /\ (bucket t = "1-3 days"
           <-> seconds_within (Some (24 * 3600)) (Some (72 * 3600)) t)
       /\ (bucket t = "3-7 days"
           <-> seconds_within (Some (72 * 3600)) (Some (168 * 3600)) t)
       /\ (bucket t = "1-2 weeks"
           <-> seconds_within (Some (168 * 3600)) (Some (336 * 3600)) t)
       /\ (bucket t = "2+ weeks" <-> seconds_within (Some (336 * 3600)) None t).
Proof.
  intros bucket.
  assert (E : get_trip_duration_distribution s
              = map (fun label => (label, bucket_count bucket label (trips s)))
                    duration_labels).
  { unfold get_trip_duration_distribution.
    apply (distribution_counts bucket duration_labels (trips s)). }
  split; [exact E|]. split.
  - rewrite E. apply distribution_total; [apply duration_labels_NoDup|].
    apply Forall_forall. intros t _. apply duration_bucket_label.
  - intros t. unfold bucket, duration_hours, total_seconds, seconds_within.
    rewrite duration_bucket_seconds.
    set (secs := TripModel.end_time t - TripModel.start_time t).
    destruct (Z.ltb_spec secs (4 * 3600));
      [repeat split; intros; try discriminate; lia|].
    destruct (Z.ltb_spec secs (8 * 3600));
      [repeat split; intros; try discriminate; lia|].
    destruct (Z.ltb_spec secs (24 * 3600));
      [repeat split; intros; try discriminate; lia|].
    destruct (Z.ltb_spec secs (72 * 3600));
      [repeat split; intros; try discriminate; lia|].
    destruct (Z.ltb_spec secs (168 * 3600));
      [repeat split; intros; try discriminate; lia|].
    destruct (Z.ltb_spec secs (336 * 3600));
      repeat split; intros; try discriminate; lia.
Qed.

Lemma distance_bucket_spec (d : Q) :
  (distance_bucket d = "< 50 km" <-> (d < 50)%Q)
  /\ (distance_bucket d = "50-100 km" <-> (50 <= d < 100)%Q)
  /\ (distance_bucket d = "100-250 km" <-> (100 <= d < 250)%Q)
  /\ (distance_bucket d = "250-500 km" <-> (250 <= d < 500)%Q)
  /\ (distance_bucket d = "500-1000 km" <-> (500 <= d < 1000)%Q)
  /\ (distance_bucket d = "1000-2500 km" <-> (1000 <= d < 2500)%Q)
  /\ (distance_bucket d = "2500+ km" <-> (2500 <= d)%Q).
Proof.
  unfold distance_bucket.
  destruct (Qltb d 50) eqn:E1;
    [apply Qltb_lt in E1; repeat split; intros; try discriminate; lra
    |apply Qltb_ge in E1].
  destruct (Qltb d 100) eqn:E2;
    [apply Qltb_lt in E2; repeat split; intros; try discriminate; lra
    |apply Qltb_ge in E2].
  destruct (Qltb d 250) eqn:E3;
    [apply Qltb_lt in E3; repeat split; intros; try discriminate; lra
    |apply Qltb_ge in E3].
  destruct (Qltb d 500) eqn:E4;
    [apply Qltb_lt in E4; repeat split; intros; try discriminate; lra
    |apply Qltb_ge in E4].
  destruct (Qltb d 1000) eqn:E5;
    [apply Qltb_lt in E5; repeat split; intros; try discriminate; lra
    |apply Qltb_ge in E5].
  destruct (Qltb d 2500) eqn:E6;
    [apply Qltb_lt in E6; repeat split; intros; try discriminate; lra
    |apply Qltb_ge in E6].
  repeat split; intros; try discriminate; lra.
Qed.

(** X12. [get_distance_distribution] keeps the seven labels in the order of
    the literal and counts every trip under exactly one of them, so the
    counts add up to the number of trips; the label is decided by
    [total_distance_meters / 1000] against 50, 100, 250, 500, 1000 and 2500
    kilometres, each lower bound included and each upper bound excluded. *)
Theorem X12_distance_distribution (s : Session) :
  let bucket := fun t => distance_bucket (TripModel.total_distance_meters t / 1000) in
  get_distance_distribution s
  = map (fun label => (label, bucket_count bucket label (trips s))) distance_labels
  /\ total_count (get_distance_distribution s) = Z.of_nat (length (trips s))
  /\ forall t,
       let km := (TripModel.total_distance_meters t / 1000)%Q in
       (bucket t = "< 50 km" <-> (km < 50)%Q)
       /\ (bucket t = "50-100 km" <-> (50 <= km < 100)%Q)
       /\ (bucket t = "100-250 km" <-> (100 <= km < 250)%Q)
       /\ (bucket t = "250-500 km" <-> (250 <= km < 500)%Q)
       /\ (bucket t = "500-1000 km" <-> (500 <= km < 1000)%Q)
       /\ (bucket t = "1000-2500 km" <-> (1000 <= km < 2500)%Q)
       /\ (bucket t = "2500+ km" <-> (2500 <= km)%Q).
Proof.
  intros bucket.
  assert (E : get_distance_distribution s
              = map (fun label => (label, bucket_count bucket label (trips s)))
                    distance_labels).
  { unfold get_distance_distribution.
    apply (distribution_counts bucket distance_labels (trips s)). }
  split; [exact E|]. split.
  - rewrite E. apply distribution_total; [apply distance_labels_NoDup|].
    apply Forall_forall. intros t _. apply distance_bucket_label.
  - intros t km. apply distance_bucket_spec.
Qed.

(** ** The summary after a detection run *)

Lemma count_algorithm_block a b l :
  Forall (fun t => TripModel.detection_algorithm t = b) l ->
  sql_count (fun t => String.eqb a (TripModel.detection_algorithm t)) l
  = if String.eqb a b then Z.of_nat (length l) else 0.
Proof.
  intros H. apply sql_count_uniform. eapply Forall_impl; [exact H|].
  by intros t ->.
Qed.

(** X13. On a trips table that was empty, the summary after
    [detect_all_trips] lists no algorithm beyond the four detectors; the
    number of rows it reports for [timeline_memory] is the statistic the run
    returned (no entry when that is 0), while for the three other algorithms
    the run may report more than the summary counts, never less; the total
    of the summary is at most the sum of the four statistics. *)
Theorem X13_summary_after_detection
    ST_Distance set_iter sd ed mind mindur thr s stats s' :
  pending s = [] -> trips s = [] ->
  detect_all_trips ST_Distance set_iter sd ed mind mindur thr s = Ok stats s' ->
  let summary := get_trip_summary s' in
  TripSummary.by_algorithm summary !! "timeline_memory"
  = (if stat_timeline_memory stats =? 0 then None
     else Some (stat_timeline_memory stats))
  /\ (forall n, TripSummary.by_algorithm summary !! "home_based" = Some n ->
                n <= stat_home_based stats)
  /\ (forall n, TripSummary.by_algorithm summary !! "overnight" = Some n ->
                n <= stat_overnight stats)
  /\ (forall n, TripSummary.by_algorithm summary !! "distance_based" = Some n ->
                n <= stat_distance_based stats)
  /\ (forall a n, TripSummary.by_algorithm summary !! a = Some n ->
                  a ∈ ["timeline_memory"; "home_based"; "overnight"; "distance_based"])
  /\ TripSummary.total_trips summary
     <= stat_timeline_memory stats + stat_home_based stats
        + stat_overnight stats + stat_distance_based stats.
Proof.
  intros Hp Hempty E summary.
  destruct (detect_all_trips_blocks _ _ _ _ _ _ _ _ _ _ Hp E)
    as (m & h & o & d & Ht & Fm & Fh & Fo & Fd & Nm & Nh & No & Nd).
  rewrite Hempty in Ht. cbn [app] in Ht.
  assert (Hcount : forall a,
            sql_count (fun t => String.eqb a (TripModel.detection_algorithm t))
                      (trips s')
            = (if String.eqb a "timeline_memory" then Z.of_nat (length m) else 0)
              + (if String.eqb a "home_based" then Z.of_nat (length h) else 0)
              + (if String.eqb a "overnight" then Z.of_nat (length o) else 0)
              + (if String.eqb a "distance_based" then Z.of_nat (length d) else 0)).
  { intros a. rewrite Ht, !sql_count_app.
    rewrite (count_algorithm_block a _ m Fm), (count_algorithm_block a _ h Fh),
      (count_algorithm_block a _ o Fo), (count_algorithm_block a _ d Fd). lia. }
  assert (Htotal : TripSummary.total_trips summary = Z.of_nat (length (trips s')))
    by apply sql_count_all.
  pose proof (by_algorithm_lookup s') as Hlookup. fold summary in Hlookup.
  split; [|split; [|split; [|split; [|split]]]].
  - destruct (TripSummary.by_algorithm summary !! "timeline_memory") as [n|] eqn:En.
    + apply Hlookup in En as [Hpos ->]. rewrite Hcount in *. cbn in *.
      destruct (Z.eqb_spec (stat_timeline_memory stats) 0); [lia|].
      f_equal. lia.
    + destruct (Z.eqb_spec (stat_timeline_memory stats) 0) as [|Hne]; [done|].
      exfalso.
      assert (Hsome : TripSummary.by_algorithm summary !! "timeline_memory"
                      = Some (stat_timeline_memory stats)).
      { apply Hlookup. rewrite Hcount. cbn. lia. }
      congruence.
  - intros n En. apply Hlookup in En as [_ ->]. rewrite Hcount. cbn. lia.
  - intros n En. apply Hlookup in En as [_ ->]. rewrite Hcount. cbn. lia.
  - intros n En. apply Hlookup in En as [_ ->]. rewrite Hcount. cbn. lia.
  - intros a n En. apply Hlookup in En as [Hpos ->]. rewrite Hcount in Hpos.
    rewrite !elem_of_cons.
    destruct (String.eqb_spec a "timeline_memory"); [tauto|].
    destruct (String.eqb_spec a "home_based"); [tauto|].
    destruct (String.eqb_spec a "overnight"); [tauto|].
    destruct (String.eqb_spec a "distance_based"); [tauto|]. lia.
  - rewrite Htotal, Ht, !length_app. lia.
Qed.

Lemma X13_summary_after_detection_witness :
  pending zoo_day = [] /\ trips zoo_day = []
  /\ exists stats s',
       detect_all_trips grid_distance alphabetical None None (1 # 2) (1 # 10) 5
         zoo_day = Ok stats s'
       /\ TripSummary.total_trips (get_trip_summary s')
          <= stat_timeline_memory stats + stat_home_based stats
             + stat_overnight stats + stat_distance_based stats.
Proof.
  split; [reflexivity|]. split; [reflexivity|].
  eexists _, _. split; [vm_compute; reflexivity|].
  match goal with
  | |- TripSummary.total_trips (get_trip_summary ?s') <= _ =>
      apply (X13_summary_after_detection grid_distance alphabetical None None
               (1 # 2) (1 # 10) 5 zoo_day
               {| stat_timeline_memory := 0; stat_home_based := 1;
                  stat_overnight := 0; stat_distance_based := 0 |} s');
        [reflexivity|reflexivity|vm_compute; reflexivity]
  end.
Defined.

(** * The place identifiers to enrich *)

(** ** The order of strings *)

Lemma ascii_compare_lt a b :
  Ascii.compare a b = Lt <-> (Ascii.N_of_ascii a < Ascii.N_of_ascii b)%N.
Proof. unfold Ascii.compare. apply N.compare_lt_iff. Qed.

Lemma ascii_compare_refl a : Ascii.compare a a = Eq.
Proof. unfold Ascii.compare. apply N.compare_refl. Qed.

Lemma string_compare_refl s : String.compare s s = Eq.
Proof.
  induction s as [|a s IH]; [done|]. cbn. by rewrite ascii_compare_refl.
Qed.

Lemma string_compare_lt_trans s1 : forall s2 s3,
  String.compare s1 s2 = Lt -> String.compare s2 s3 = Lt ->
  String.compare s1 s3 = Lt.
Proof.
  induction s1 as [|a s1 IH]; intros [|b s2] [|c s3]; cbn; try done.
  destruct (Ascii.compare a b) eqn:Eab; [| |done].
  - apply Ascii.compare_eq_iff in Eab as ->.
    destruct (Ascii.compare b c) eqn:Ebc; [|done|done]. by apply IH.
  - destruct (Ascii.compare b c) eqn:Ebc; [| |done].
    + apply Ascii.compare_eq_iff in Ebc as ->. by rewrite Eab.
    + rewrite ascii_compare_lt in Eab, Ebc.
      assert (Hac : Ascii.compare a c = Lt) by (apply ascii_compare_lt; lia).
      by rewrite Hac.
Qed.

Lemma string_leb_spec s1 s2 :
  String.leb s1 s2 = true <-> String.compare s1 s2 = Lt \/ s1 = s2.
Proof.
  unfold String.leb. split.
  - destruct (String.compare s1 s2) eqn:E; [|by left|done].
    intros _. right. by apply String.compare_eq_iff.
  - intros [-> | ->]; [done|]. by rewrite string_compare_refl.
Qed.

Lemma string_leb_trans s1 s2 s3 :
  String.leb s1 s2 = true -> String.leb s2 s3 = true -> String.leb s1 s3 = true.
Proof.
  rewrite !string_leb_spec. intros [H12 | ->] [H23 | ->]; try tauto.
  left. by eapply string_compare_lt_trans.
Qed.

#[local] Instance string_leb_transitive :
  Transitive (fun a b : string => Is_true (String.leb a b)).
Proof.
  intros a b c Hab Hbc. apply Is_true_true. apply Is_true_true in Hab, Hbc.
  by eapply string_leb_trans.
Qed.

#[local] Instance string_leb_total :
  Total (fun a b : string => Is_true (String.leb a b)).
Proof.
  intros a b. destruct (String.leb_total a b) as [H|H]; [left|right];
    by apply Is_true_true.
Qed.

#[local] Instance string_leb_antisymm :
  AntiSymm eq (fun a b : string => Is_true (String.leb a b)).
Proof.
  intros a b Hab Hba. apply Is_true_true in Hab, Hba. by apply String.leb_antisym.
Qed.

Lemma sorted_strings_perm l : sorted_strings l ≡ₚ l.
Proof. apply merge_sort_Permutation. Qed.

Lemma sorted_strings_sorted l :
  StronglySorted (fun a b : string => Is_true (String.leb a b)) (sorted_strings l).
Proof. apply StronglySorted_merge_sort; apply _. Qed.

(** Sorting forgets the order it is given. *)
Lemma sorted_strings_proper l1 l2 : l1 ≡ₚ l2 -> sorted_strings l1 = sorted_strings l2.
Proof.
  intros Hp.
  apply (StronglySorted_unique (fun a b : string => Is_true (String.leb a b)));
    try apply sorted_strings_sorted.
  by rewrite !sorted_strings_perm.
Qed.

Lemma sorted_strings_strict l :
  NoDup l ->
  StronglySorted (fun a b : string => String.ltb a b = true) (sorted_strings l).
Proof.
  intros Hnd. rewrite <- sorted_strings_perm in Hnd.
  pose proof (sorted_strings_sorted l) as Hs.
  induction Hs as [|a l' Hs IH Hf]; [constructor|].
  apply NoDup_cons in Hnd as [Ha Hnd]. constructor; [by apply IH|].
  apply Forall_forall. intros b Hb. rewrite Forall_forall in Hf.
  specialize (Hf b Hb). apply Is_true_true, string_leb_spec in Hf as [Hlt | ->].
  - unfold String.ltb. by rewrite Hlt.
  - done.
Qed.

(** ** The set of identifiers *)

Lemma elem_of_fold_add (l : list string) : forall (X : gset string) x,
  x ∈ fold_left (fun place_ids pid => place_ids ∪ {[pid]}) l X <-> x ∈ X \/ x ∈ l.
Proof.
  induction l as [|y l IH]; intros X x; cbn [fold_left].
  - rewrite elem_of_nil. tauto.
  - rewrite IH, elem_of_union, elem_of_singleton, elem_of_cons. tauto.
Qed.

Lemma elem_of_fold_update (l : list (option (list string))) :
  forall (X : gset string) x,
    x ∈ fold_left (fun place_ids dest_ids =>
                     match dest_ids with
                     | Some (pid :: rest) => place_ids ∪ list_to_set (pid :: rest)
                     | _ => place_ids
                     end) l X
    <-> x ∈ X \/ exists ids, Some ids ∈ l /\ x ∈ ids.
Proof.
  induction l as [|d l IH]; intros X x; cbn [fold_left].
  - split; [by left|]. intros [?|(ids & Hin & _)]; [done|].
    by apply elem_of_nil in Hin.
  - rewrite IH. split.
    + intros [Hx|(ids & Hin & Hx)].
      * destruct d as [[|pid rest]|]; [by left| |by left].
        apply elem_of_union in Hx as [?|Hx]; [by left|]. right.
        exists (pid :: rest). split; [by left|].
        by apply elem_of_list_to_set in Hx.
      * right. exists ids. split; [by right|done].
    + intros [Hx|(ids & Hin & Hx)].
      * left. destruct d as [[|pid rest]|]; [done| |done].
        apply elem_of_union. by left.
      * apply elem_of_cons in Hin as [<-|Hin].
        -- left. destruct ids as [|pid rest]; [by apply elem_of_nil in Hx|].
           apply elem_of_union. right. by apply elem_of_list_to_set.
        -- right. by exists ids.
Qed.

Section PlacesFacts.
Variable set_iter : gset string -> list string.
Hypothesis set_iter_perm : forall X : gset string, set_iter X ≡ₚ elements X.

Lemma elem_of_extract_unique_place_ids sd ed s pid :
  pid ∈ extract_unique_place_ids set_iter sd ed s <-> named_in_range sd ed s pid.
Proof.
  unfold extract_unique_place_ids.
  rewrite sorted_strings_perm, set_iter_perm, elem_of_elements.
  rewrite elem_of_fold_update, elem_of_fold_add, elem_of_remove_dups.
  unfold named_in_range. split.
  - intros [[Hx|Hx]|(ids & Hin & Hx)].
    + by apply elem_of_empty in Hx.
    + left. apply list_elem_of_omap in Hx as (g & Hg & Ev). exists g.
      destruct (TimelineSegment.visit g) as [v|]; [|done].
      destruct (in_range sd ed g) eqn:Er; [|done]. by exists v.
    + right. apply list_elem_of_omap in Hin as (g & Hg & Em). exists g.
      destruct (TimelineSegment.timeline_memory g) as [m|]; [|done].
      destruct (in_range sd ed g) eqn:Er; [|done]. injection Em as Em.
      by exists m, ids.
  - intros [(g & v & Hg & Hr & Ev & Ep)|(g & m & ids & Hg & Hr & Em & Ei & Hx)].
    + left. right. apply list_elem_of_omap. exists g. split; [done|].
      by rewrite Ev, Hr.
    + right. exists ids. split; [|done]. apply list_elem_of_omap. exists g.
      split; [done|]. by rewrite Em, Hr, Ei.
Qed.

Lemma extract_unique_place_ids_sorted sd ed s :
  StronglySorted (fun a b : string => String.ltb a b = true)
    (extract_unique_place_ids set_iter sd ed s).
Proof.
  unfold extract_unique_place_ids. apply sorted_strings_strict.
  rewrite set_iter_perm. apply NoDup_elements.
Qed.

End PlacesFacts.

(** X14. [extract_unique_place_ids] returns, in strictly ascending order and
    so without repetition, exactly the place identifiers named by a visit of
    the date range (its [place_id], when not NULL) or listed among the
    destinations of a memory of the date range; the result does not depend
    on the order in which the set of identifiers is iterated. *)
Theorem X14_extract_unique_place_ids
    (set_iter other_iter : gset string -> list string) sd ed s :
  (forall X : gset string, set_iter X ≡ₚ elements X) ->
  (forall X : gset string, other_iter X ≡ₚ elements X) ->
  StronglySorted (fun a b : string => String.ltb a b = true)
    (extract_unique_place_ids set_iter sd ed s)
  /\ (forall pid, pid ∈ extract_unique_place_ids set_iter sd ed s
                  <-> named_in_range sd ed s pid)
  /\ extract_unique_place_ids other_iter sd ed s
     = extract_unique_place_ids set_iter sd ed s.
Proof.
  intros H1 H2. split; [by apply extract_unique_place_ids_sorted|].
  split; [intros pid; by apply elem_of_extract_unique_place_ids|].
  unfold extract_unique_place_ids. apply sorted_strings_proper.
  by rewrite H1, H2.
Qed.

Lemma X14_extract_unique_place_ids_witness :
  (forall X : gset string, alphabetical X ≡ₚ elements X)
  /\ StronglySorted (fun a b : string => String.ltb a b = true)
       (extract_unique_place_ids alphabetical None None zoo_day).
Proof.
  split; [exact alphabetical_perm|].
  apply (X14_extract_unique_place_ids alphabetical alphabetical None None zoo_day
           alphabetical_perm alphabetical_perm).
Defined.

(** ** The destinations of the detectors are among the places to enrich *)

Lemma elem_of_memories_of sd ed s m g :
  (m, g) ∈ memories_of sd ed s
  <-> g ∈ timeline_segments s /\ TimelineSegment.timeline_memory g = Some m
      /\ in_range sd ed g = true.
Proof.
  unfold memories_of. rewrite list_elem_of_In, in_flat_map. split.
  - intros (g' & Hg' & Hin). rewrite <- list_elem_of_In in Hg'.
    destruct (TimelineSegment.timeline_memory g') as [m'|] eqn:Em; [|done].
    destruct (in_range sd ed g') eqn:Er; [|done].
    destruct Hin as [[= -> ->]|[]]. done.
  - intros (Hg & Em & Er). exists g. rewrite <- list_elem_of_In.
    split; [done|]. rewrite Em, Er. by left.
Qed.

Lemma elem_of_visited_place_ids pid segments :
  pid ∈ visited_place_ids segments ->
  exists g v, g ∈ segments /\ TimelineSegment.visit g = Some v
              /\ VisitModel.place_id v = Some pid.
Proof.
  induction segments as [|g rest IH]; cbn [visited_place_ids];
    [by intros ?%elem_of_nil|].
  intros Hin.
  assert (Hrest : pid ∈ visited_place_ids rest ->
            exists g0 v, g0 ∈ g :: rest /\ TimelineSegment.visit g0 = Some v
                         /\ VisitModel.place_id v = Some pid).
  { intros H. destruct (IH H) as (g0 & v & Hg0 & Hv).
    exists g0, v. split; [by right|done]. }
  destruct (TimelineSegment.visit g) as [v|] eqn:Ev; [|by apply Hrest].
  destruct (VisitModel.place_id v) as [q|] eqn:Eq; [|by apply Hrest].
  destruct (truthy_str (Some q)); [|by apply Hrest].
  apply elem_of_cons in Hin as [->|Hin]; [|by apply Hrest].
  exists g, v. split; [by left|done].
Qed.

(** The run of a home-based request is made of segments of the range. *)
Lemma home_requests_in_range ST_Distance set_iter hp hl udb mind mindur sd ed s r :
  r ∈ home_requests ST_Distance set_iter hp hl udb mind mindur (home_stream sd ed s)
        home_acc_reset ->
  Forall (fun g => g ∈ timeline_segments s /\ in_range sd ed g = true)
    (req_segments r).
Proof.
  intros Hr.
  eapply (home_requests_closed _ _ _ _ _ _ _ _ [] home_acc_reset) in Hr;
    [|done|by left].
  destruct Hr as (l1 & first & mid & h & l2 & Es & _ & _ & _ & _ & _ & ->).
  cbn [app current_trip_segments home_acc_reset] in Es.
  apply Forall_forall. intros g Hg.
  assert (Hin : g ∈ home_stream sd ed s).
  { rewrite Es. apply elem_of_app. right.
    apply elem_of_cons in Hg as [->|Hg]; [by left|]. right.
    apply elem_of_app. by left. }
  unfold home_stream in Hin. rewrite elem_of_order_by_start_time in Hin.
  rewrite list_elem_of_In, filter_In, <- list_elem_of_In in Hin. done.
Qed.

(** The candidates of the overnight detector are visits of the range. *)
Lemma overnight_candidates_in_range ST_Distance sd ed p s :
  Forall (fun vg => vg.2 ∈ timeline_segments s
                    /\ in_range sd ed vg.2 = true
                    /\ TimelineSegment.visit vg.2 = Some vg.1)
    (overnight_candidates ST_Distance sd ed p s).
Proof.
  unfold overnight_candidates, query_overnight_visits, gets.
  match goal with |- context [flat_map ?f ?l] => set (rows := flat_map f l) end.
  assert (Hrows : Forall (fun vg => vg.2 ∈ timeline_segments s
                                    /\ in_range sd ed vg.2 = true
                                    /\ TimelineSegment.visit vg.2 = Some vg.1) rows).
  { apply Forall_forall. intros [v g] Hin.
    by apply elem_of_query_overnight_visits in Hin as (? & ? & _ & _ & ?). }
  destruct (uses_distance p); [|done]. by apply Forall_List_filter.
Qed.

(** The far segments of the distance-based detector are segments of the
    range. *)
Lemma far_segments_in_range ST_Distance sd ed home thr s :
  Forall (fun g => g ∈ timeline_segments s
                   /\ is_visit_or_activity g = true
                   /\ in_range sd ed g = true
                   /\ is_far ST_Distance home thr g = true)
    (far_segments_of ST_Distance sd ed home thr s).
Proof.
  apply Forall_forall. intros g Hg. unfold far_segments_of in Hg.
  rewrite list_elem_of_In, filter_In, <- list_elem_of_In in Hg.
  destruct Hg as [Hg Hfar]. rewrite elem_of_order_by_start_time in Hg.
  rewrite list_elem_of_In, filter_In, <- list_elem_of_In in Hg.
  destruct Hg as [Hg Hq]. apply andb_prop in Hq as [? ?]. done.
Qed.

Lemma overnight_request_destinations G r :
  overnight_request G = Some r ->
  req_destinations r
  = omap (fun '(v, _) => if truthy_str (VisitModel.place_id v)
                         then VisitModel.place_id v else None) G.
Proof.
  unfold overnight_request. destruct G as [|[v g] tl]; [done|].
  destruct (last _) as [[lv lg]|]; [|done]. intros E.
  apply (f_equal (option_map req_destinations)) in E.
  cbn [option_map req_destinations] in E. injection E as E. symmetry. exact E.
Qed.

Section CoverageFacts.
Variable ST_Distance : Point -> Point -> option Q.
Variable set_iter : gset string -> list string.
Hypothesis set_iter_perm : forall X : gset string, set_iter X ≡ₚ elements X.

Lemma elem_of_set_iter_visited pid segments :
  pid ∈ set_iter (list_to_set (visited_place_ids segments)) ->
  pid ∈ visited_place_ids segments.
Proof.
  rewrite set_iter_perm, elem_of_elements. apply elem_of_list_to_set.
Qed.

Lemma destinations_of_named i s pid :
  pid ∈ destinations_of ST_Distance set_iter i s ->
  named_in_range (range_of i).1 (range_of i).2 s pid.
Proof.
  destruct i as [sd ed|sd ed mind mindur|sd ed min_nights|sd ed thr gap];
    cbn [destinations_of range_of fst snd plan_of].
  - rewrite list_elem_of_In, in_flat_map.
    intros ([m g] & Hmg & Hd). rewrite <- list_elem_of_In in Hmg.
    rewrite <- list_elem_of_In in Hd.
    apply elem_of_memories_of in Hmg as (Hg & Em & Er). cbn [fst] in Hd.
    destruct (TimelineMemoryModel.destination_place_ids m) as [ids|] eqn:Ei;
      [|by apply elem_of_nil in Hd].
    right. by exists g, m, ids.
  - unfold home_plan. destruct (head (user_profile s)) as [p|];
      [|by intros ?%elem_of_nil].
    destruct (no_home (Some p)); [by intros ?%elem_of_nil|]. cbn [fst].
    rewrite list_elem_of_In, in_flat_map.
    intros (r & Hr & Hd). rewrite <- list_elem_of_In in Hr.
    rewrite <- list_elem_of_In in Hd.
    pose proof (home_requests_in_range _ _ _ _ _ _ _ _ _ _ _ Hr) as Hrange.
    eapply home_requests_destinations in Hr as [Hdest _]; [|done].
    rewrite Hdest in Hd. apply elem_of_set_iter_visited in Hd.
    apply elem_of_visited_place_ids in Hd as (g & v & Hg & Ev & Ep).
    rewrite Forall_forall in Hrange. destruct (Hrange g Hg) as [? ?].
    left. by exists g, v.
  - unfold overnight_plan. destruct (head (user_profile s)) as [p|];
      [|by intros ?%elem_of_nil].
    destruct (no_home (Some p)); [by intros ?%elem_of_nil|]. cbn [fst].
    rewrite list_elem_of_In, in_flat_map.
    intros (r & Hr & Hd). rewrite <- list_elem_of_In in Hr.
    rewrite <- list_elem_of_In in Hd.
    apply list_elem_of_omap in Hr as (G & HG & Hr).
    eapply (overnight_groups_stretch
              (Forall (fun vg => vg.2 ∈ timeline_segments s
                                 /\ in_range sd ed vg.2 = true
                                 /\ TimelineSegment.visit vg.2 = Some vg.1))) in HG;
      [|intros l1 l2; apply Forall_app|apply overnight_candidates_in_range].
    rewrite (overnight_request_destinations _ _ Hr) in Hd.
    apply list_elem_of_omap in Hd as ([v g] & Hvg & Hp).
    rewrite Forall_forall in HG. destruct (HG _ Hvg) as (? & ? & ?).
    destruct (truthy_str (VisitModel.place_id v)); [|done].
    left. by exists g, v.
  - unfold distance_plan. destruct (head (user_profile s)) as [p|];
      [|by intros ?%elem_of_nil].
    destruct (UserProfileModel.home_location p) as [home|];
      [|by intros ?%elem_of_nil]. cbn [fst].
    rewrite list_elem_of_In, in_flat_map.
    intros (r & Hr & Hd). rewrite <- list_elem_of_In in Hr.
    rewrite <- list_elem_of_In in Hd.
    apply list_elem_of_omap in Hr as (G & HG & Hr).
    eapply (distance_clusters_stretch
              (Forall (fun g => g ∈ timeline_segments s
                                /\ is_visit_or_activity g = true
                                /\ in_range sd ed g = true
                                /\ is_far ST_Distance home thr g = true))) in HG;
      [|intros l1 l2; apply Forall_app|apply far_segments_in_range].
    rewrite (cluster_request_destinations _ _ _ Hr), cluster_totals_destinations in Hd.
    cbn [app] in Hd. apply elem_of_set_iter_visited in Hd.
    apply elem_of_visited_place_ids in Hd as (g & v & Hg & Ev & Ep).
    rewrite Forall_forall in HG. destruct (HG g Hg) as (? & _ & ? & _).
    left. by exists g, v.
Qed.

End CoverageFacts.

(** X15. Whatever detector is run over a date range, every destination it
    hands to [_create_trip] (or, for the memory detector, writes itself) is
    among the identifiers [extract_unique_place_ids] returns for the same
    range: enriching the places of a range before detecting trips over it
    covers every destination row the detection can write. *)
Theorem X15_destinations_enriched ST_Distance
    (set_iter : gset string -> list string) i s pid :
  (forall X : gset string, set_iter X ≡ₚ elements X) ->
  pid ∈ destinations_of ST_Distance set_iter i s ->
  pid ∈ extract_unique_place_ids set_iter (range_of i).1 (range_of i).2 s.
Proof.
  intros Hperm Hd. apply elem_of_extract_unique_place_ids; [done|].
  by eapply destinations_of_named.
Qed.

Lemma X15_destinations_enriched_witness :
  (forall X : gset string, alphabetical X ≡ₚ elements X)
  /\ "zoo" ∈ destinations_of grid_distance alphabetical (HomeBased None None 50 4)
               zoo_day
  /\ "zoo" ∈ extract_unique_place_ids alphabetical None None zoo_day.
Proof.
  split; [exact alphabetical_perm|].
  assert (H : "zoo" ∈ destinations_of grid_distance alphabetical
                        (HomeBased None None 50 4) zoo_day).
  { vm_compute. apply list_elem_of_In. cbn. tauto. }
  split; [exact H|].
  apply (X15_destinations_enriched grid_distance alphabetical
           (HomeBased None None 50 4) zoo_day "zoo" alphabetical_perm H).
Defined.

(** * What a run stores *)

(** ** Inserting link rows *)

Lemma add_destinations_fields rows : forall s,
  trips (add_destinations rows s) = trips s
  /\ trips_id_seq (add_destinations rows s) = trips_id_seq s
  /\ trip_destinations (add_destinations rows s) = trip_destinations s ++ rows
  /\ trip_segments (add_destinations rows s) = trip_segments s
  /\ pending (add_destinations rows s) = pending s
  /\ same_repo s (add_destinations rows s).
Proof.
  unfold add_destinations.
  induction rows as [|r rows IH]; intros s; cbn [fold_left].
  - rewrite app_nil_r. repeat split.
  - destruct (IH (insert_destination r s)) as (H1 & H2 & H3 & H4 & H5 & H6 & H7 & H8).
    cbn in H1, H2, H3, H4, H5, H6, H7, H8.
    rewrite H1, H2, H3, H4, H5, <- app_assoc. repeat split; done.
Qed.

Lemma add_segment_links_fields rows : forall s,
  trips (add_segment_links rows s) = trips s
  /\ trips_id_seq (add_segment_links rows s) = trips_id_seq s
  /\ trip_destinations (add_segment_links rows s) = trip_destinations s
  /\ trip_segments (add_segment_links rows s) = trip_segments s ++ rows
  /\ pending (add_segment_links rows s) = pending s
  /\ same_repo s (add_segment_links rows s).
Proof.
  unfold add_segment_links.
  induction rows as [|r rows IH]; intros s; cbn [fold_left].
  - rewrite app_nil_r. repeat split.
  - destruct (IH (insert_segment_link r s)) as (H1 & H2 & H3 & H4 & H5 & H6 & H7 & H8).
    cbn in H1, H2, H3, H4, H5, H6, H7, H8.
    rewrite H1, H2, H3, H4, H5, <- app_assoc. repeat split; done.
Qed.

Lemma existsb_false_forall {A} (f : A -> bool) l :
  existsb f l = false <-> forall x, x ∈ l -> f x = false.
Proof.
  split.
  - intros H x Hx. destruct (f x) eqn:E; [|done].
    assert (existsb f l = true); [|congruence].
    apply existsb_exists. exists x. split; [by apply list_elem_of_In|done].
  - intros H. destruct (existsb f l) eqn:E; [|done].
    apply existsb_exists in E as (x & Hx & Hf). apply list_elem_of_In in Hx.
    rewrite (H x Hx) in Hf. done.
Qed.

(** The destination rows of a trip go in exactly when the destinations are
    distinct known places, none of which the trip already has. *)
Lemma insert_destination_links i dests : forall k u u',
  insert_rows (map PDest (destination_links_from i k dests)) u = Some u'
  <-> u' = add_destinations (destination_links_from i k dests) u
      /\ NoDup dests
      /\ Forall (fun p => place_known p u) dests
      /\ (dests <> [] -> trip_known i u)
      /\ (forall row, row ∈ trip_destinations u ->
                      TripDestinationModel.trip_id row = i ->
                      TripDestinationModel.place_id row ∉ dests).
Proof.
  induction dests as [|p rest IH]; intros k u u'.
  - cbn. split.
    + intros [= <-]. repeat split; try constructor; try done.
      intros row _ _. apply not_elem_of_nil.
    + by intros (-> & _).
  - unfold destination_links_from. cbn [enumerate_from map insert_rows insert_row].
    fold (destination_links_from i (k + 1) rest).
    cbn [TripDestinationModel.trip_id TripDestinationModel.place_id].
    destruct (existsb _ (trip_destinations u)) eqn:Edup.
    { split; [done|]. intros (_ & _ & _ & _ & Hfresh). exfalso.
      apply existsb_exists in Edup as (row & Hrow & Heq).
      apply andb_true_iff in Heq as [Hi Hp].
      apply Z.eqb_eq in Hi. apply String.eqb_eq in Hp.
      apply (Hfresh row); [by apply list_elem_of_In|done|]. rewrite Hp. by left. }
    destruct (existsb _ (trips u)) eqn:Etrip; cbn [negb].
    2:{ split; [done|]. intros (_ & _ & _ & Htk & _). exfalso.
        unfold trip_known in Htk. rewrite Etrip in Htk. by discriminate Htk. }
    destruct (existsb _ (places u)) eqn:Eplace; cbn [negb].
    2:{ split; [done|]. intros (_ & _ & Hpl & _). exfalso.
        apply Forall_cons in Hpl as [Hp _]. unfold place_known in Hp. congruence. }
    rewrite IH. unfold add_destinations. cbn [fold_left].
    split.
    + intros (-> & Hnd & Hpl & _ & Hfresh). split; [done|].
      assert (Hp : p ∉ rest).
      { apply (Hfresh {| TripDestinationModel.trip_id := i;
                         TripDestinationModel.place_id := p;
                         TripDestinationModel.visit_order := k |}); [|done].
        cbn. apply elem_of_app. right. by left. }
      split; [by apply NoDup_cons|]. split; [by apply Forall_cons|].
      split; [done|]. intros row Hrow Hi Hin.
      apply elem_of_cons in Hin as [Heq|Hin].
      * rewrite existsb_false_forall in Edup. specialize (Edup row Hrow).
        rewrite Hi, Heq, Z.eqb_refl, String.eqb_refl in Edup. done.
      * apply (Hfresh row); [|done|done]. cbn. apply elem_of_app. by left.
    + intros (-> & Hnd & Hpl & _ & Hfresh). split; [done|].
      apply NoDup_cons in Hnd as [Hp Hnd]. apply Forall_cons in Hpl as [_ Hpl].
      split; [done|]. split; [done|]. split; [done|].
      intros row Hrow Hi Hin. cbn in Hrow.
      apply elem_of_app in Hrow as [Hrow|Hrow].
      * apply (Hfresh row Hrow Hi). by right.
      * apply list_elem_of_singleton in Hrow as ->. done.
Qed.

(** The segment links of a trip go in exactly when the segments are distinct
    rows of the segments table, none of which the trip is already linked
    to. *)
Lemma insert_segment_links i segs : forall k u u',
  insert_rows (map PSeg (segment_links_from i k segs)) u = Some u'
  <-> u' = add_segment_links (segment_links_from i k segs) u
      /\ NoDup (map TimelineSegment.id segs)
      /\ Forall (fun g => segment_known (TimelineSegment.id g) u) segs
      /\ (segs <> [] -> trip_known i u)
      /\ (forall row, row ∈ trip_segments u ->
                      TripSegmentModel.trip_id row = i ->
                      TripSegmentModel.segment_id row ∉ map TimelineSegment.id segs).
Proof.
  induction segs as [|g rest IH]; intros k u u'.
  - cbn. split.
    + intros [= <-]. repeat split; try constructor; try done.
      intros row _ _. apply not_elem_of_nil.
    + by intros (-> & _).
  - unfold segment_links_from. cbn [enumerate_from map insert_rows insert_row].
    fold (segment_links_from i (k + 1) rest).
    cbn [TripSegmentModel.trip_id TripSegmentModel.segment_id].
    destruct (existsb _ (trip_segments u)) eqn:Edup.
    { split; [done|]. intros (_ & _ & _ & _ & Hfresh). exfalso.
      apply existsb_exists in Edup as (row & Hrow & Heq).
      apply andb_true_iff in Heq as [Hi Hp].
      apply Z.eqb_eq in Hi. apply Z.eqb_eq in Hp.
      apply (Hfresh row); [by apply list_elem_of_In|done|]. rewrite Hp. by left. }
    destruct (existsb _ (trips u)) eqn:Etrip; cbn [negb].
    2:{ split; [done|]. intros (_ & _ & _ & Htk & _). exfalso.
        unfold trip_known in Htk. rewrite Etrip in Htk. by discriminate Htk. }
    destruct (existsb _ (timeline_segments u)) eqn:Eseg; cbn [negb].
    2:{ split; [done|]. intros (_ & _ & Hpl & _). exfalso.
        apply Forall_cons in Hpl as [Hp _]. unfold segment_known in Hp. congruence. }
    rewrite IH. unfold add_segment_links. cbn [fold_left].
    split.
    + intros (-> & Hnd & Hpl & _ & Hfresh). split; [done|].
      assert (Hp : TimelineSegment.id g ∉ map TimelineSegment.id rest).
      { apply (Hfresh {| TripSegmentModel.trip_id := i;
                         TripSegmentModel.segment_id := TimelineSegment.id g;
                         TripSegmentModel.segment_order := k |}); [|done].
        cbn. apply elem_of_app. right. by left. }
      split; [by apply NoDup_cons|]. split; [by apply Forall_cons|].
      split; [done|]. intros row Hrow Hi Hin.
      apply elem_of_cons in Hin as [Heq|Hin].
      * rewrite existsb_false_forall in Edup. specialize (Edup row Hrow).
        rewrite Hi, Heq, !Z.eqb_refl in Edup. done.
      * apply (Hfresh row); [|done|done]. cbn. apply elem_of_app. by left.
    + intros (-> & Hnd & Hpl & _ & Hfresh). split; [done|].
      cbn [map] in Hnd. apply NoDup_cons in Hnd as [Hp Hnd].
      apply Forall_cons in Hpl as [_ Hpl].
      split; [done|]. split; [done|]. split; [done|].
      intros row Hrow Hi Hin. cbn in Hrow.
      apply elem_of_app in Hrow as [Hrow|Hrow].
      * apply (Hfresh row Hrow Hi). by right.
      * apply list_elem_of_singleton in Hrow as ->. done.
Qed.

Lemma destination_rows_links i dests :
  destination_rows i dests = map PDest (destination_links i dests).
Proof.
  unfold destination_rows, destination_links, destination_links_from.
  rewrite map_map. apply List.map_ext. by intros [idx p].
Qed.

Lemma segment_rows_links i segs :
  segment_rows i segs = map PSeg (segment_links i segs).
Proof.
  unfold segment_rows, segment_links, segment_links_from.
  rewrite map_map. apply List.map_ext. by intros [idx g].
Qed.

(** ** One trip, committed *)

Lemma insert_trip_settled t rows s :
  pending s = [] ->
  set_pending [] (set_pending rows (insert_trip t (set_pending [] s)))
  = insert_trip t s.
Proof. destruct s. cbn. by intros ->. Qed.

Lemma healthy_fresh_id s :
  healthy s ->
  existsb (fun r' => TripModel.id r' =? trips_id_seq s + 1) (trips s) = false.
Proof.
  intros (Ht & _). apply existsb_false_forall. intros t Hin.
  rewrite Forall_forall in Ht. specialize (Ht t Hin). apply Z.eqb_neq. lia.
Qed.

Lemma trip_known_inserted t s : trip_known (TripModel.id t) (insert_trip t s).
Proof.
  unfold trip_known. cbn [insert_trip trips]. rewrite existsb_app. cbn.
  rewrite Z.eqb_refl. by rewrite orb_true_r.
Qed.

(** The links of a new trip go into a healthy store exactly when the
    arguments of the call are storable. *)
Lemma insert_links_fresh t dests segs s u' :
  healthy s -> TripModel.id t = trips_id_seq s + 1 ->
  insert_rows (destination_rows (TripModel.id t) dests
               ++ segment_rows (TripModel.id t) segs) (insert_trip t s) = Some u'
  <-> storable s dests segs /\ u' = committed t dests segs s.
Proof.
  intros (Ht & Hd & Hl) Hid.
  rewrite insert_rows_app, destination_rows_links, segment_rows_links.
  set (u := insert_trip t s).
  set (u1 := add_destinations (destination_links (TripModel.id t) dests) u).
  destruct (add_destinations_fields (destination_links (TripModel.id t) dests) u)
    as (F1 & F2 & F3 & F4 & F5 & F6 & F7 & F8). fold u1 in F1, F2, F3, F4, F5, F6, F7, F8.
  assert (Hfresh_d : forall row, row ∈ trip_destinations u ->
            TripDestinationModel.trip_id row = TripModel.id t ->
            TripDestinationModel.place_id row ∉ dests).
  { intros row Hrow Hi. exfalso. rewrite Forall_forall in Hd.
    specialize (Hd row Hrow). lia. }
  assert (Hfresh_l : forall row, row ∈ trip_segments u1 ->
            TripSegmentModel.trip_id row = TripModel.id t ->
            TripSegmentModel.segment_id row ∉ map TimelineSegment.id segs).
  { intros row Hrow Hi. exfalso. rewrite F4 in Hrow. rewrite Forall_forall in Hl.
    specialize (Hl row Hrow). lia. }
  assert (Hknown : trip_known (TripModel.id t) u) by apply trip_known_inserted.
  assert (Hknown1 : trip_known (TripModel.id t) u1)
    by (unfold trip_known; by rewrite F1).
  assert (Hts : forall rows,
            timeline_segments (add_destinations rows (insert_trip t s))
            = timeline_segments s).
  { intros rows.
    by destruct (add_destinations_fields rows (insert_trip t s))
      as (_ & _ & _ & _ & _ & H & _). }
  unfold storable, committed. subst u1 u. split.
  - destruct (insert_rows (map PDest _) (insert_trip t s)) as [u1'|] eqn:E1; [|done].
    intros E2.
    apply insert_destination_links in E1 as (-> & Hnd & Hpl & _ & _).
    apply insert_segment_links in E2 as (-> & Hnl & Hsl & _ & _).
    repeat split; try done.
    eapply Forall_impl; [exact Hsl|]. intros g Hg.
    unfold segment_known in *. by rewrite Hts in Hg.
  - intros ((Hnd & Hpl & Hnl & Hsl) & ->).
    assert (E1 : insert_rows (map PDest (destination_links (TripModel.id t) dests))
                   (insert_trip t s)
                 = Some (add_destinations (destination_links (TripModel.id t) dests)
                           (insert_trip t s))).
    { apply insert_destination_links. repeat split; done. }
    rewrite E1. apply insert_segment_links. repeat split; try done.
    eapply Forall_impl; [exact Hsl|]. intros g Hg.
    unfold segment_known in *. by rewrite Hts.
Qed.

Lemma committed_fields t dests segs s :
  trips (committed t dests segs s) = trips s ++ [t]
  /\ trips_id_seq (committed t dests segs s) = TripModel.id t
  /\ trip_destinations (committed t dests segs s)
     = trip_destinations s ++ destination_links (TripModel.id t) dests
  /\ trip_segments (committed t dests segs s)
     = trip_segments s ++ segment_links (TripModel.id t) segs
  /\ pending (committed t dests segs s) = pending s
  /\ same_repo s (committed t dests segs s).
Proof.
  unfold committed.
  destruct (add_destinations_fields (destination_links (TripModel.id t) dests)
              (insert_trip t s)) as (F1 & F2 & F3 & F4 & F5 & F6 & F7 & F8).
  destruct (add_segment_links_fields (segment_links (TripModel.id t) segs)
              (add_destinations (destination_links (TripModel.id t) dests)
                 (insert_trip t s))) as (G1 & G2 & G3 & G4 & G5 & G6 & G7 & G8).
  rewrite G1, G2, G3, G4, G5, F1, F2, F3, F4, F5. repeat split; try done.
  - by rewrite G6, F6.
  - by rewrite G7, F7.
  - by rewrite G8, F8.
Qed.

Lemma committed_healthy t dests segs s :
  healthy s -> TripModel.id t = trips_id_seq s + 1 ->
  healthy (committed t dests segs s).
Proof.
  intros (Ht & Hd & Hl) Hid.
  destruct (committed_fields t dests segs s) as (F1 & F2 & F3 & F4 & _).
  unfold healthy. rewrite F1, F2, F3, F4. split; [|split].
  - apply Forall_app. split.
    + eapply Forall_impl; [exact Ht|]. cbn. lia.
    + apply Forall_singleton. lia.
  - apply Forall_app. split.
    + eapply Forall_impl; [exact Hd|]. cbn. lia.
    + apply Forall_forall. intros row Hrow.
      apply list_elem_of_fmap in Hrow as ([idx p] & -> & _). cbn. lia.
  - apply Forall_app. split.
    + eapply Forall_impl; [exact Hl|]. cbn. lia.
    + apply Forall_forall. intros row Hrow.
      apply list_elem_of_fmap in Hrow as ([idx g] & -> & _). cbn. lia.
Qed.

(** X16. On a store whose key sequence is ahead of the keys in use, a call
    of [_create_trip] with a new dedup key followed by the commit succeeds
    exactly when the destinations are distinct known places and the segments
    distinct rows of the segments table; it then leaves the trip with the
    next key at the end of the trips table, one destination row per
    destination numbered from 0 in the order of the list, and one segment
    link per segment numbered likewise, and nothing else changes.  Otherwise
    the commit raises an integrity error. *)
Theorem X16_create_trip_commit st en segs dist dests algo s :
  pending s = [] -> healthy s -> key_exists st en algo s = false ->
  let t := trip_row (trips_id_seq s + 1) st en segs dist algo in
  let call := bind (_create_trip st en segs dist dests algo) (fun _ => commit) in
  (storable s dests segs -> call s = Ok tt (committed t dests segs s))
  /\ (forall s', call s = Ok tt s' ->
                 storable s dests segs /\ s' = committed t dests segs s)
  /\ (~ storable s dests segs -> call s = Raise IntegrityError)
  /\ trips (committed t dests segs s) = trips s ++ [t]
  /\ trip_destinations (committed t dests segs s)
     = trip_destinations s ++ destination_links (trips_id_seq s + 1) dests
  /\ trip_segments (committed t dests segs s)
     = trip_segments s ++ segment_links (trips_id_seq s + 1) segs
  /\ same_repo s (committed t dests segs s)
  /\ healthy (committed t dests segs s).
Proof.
  intros Hp Hh Hk t call.
  assert (Hcall : call s
                  = match insert_rows
                          (destination_rows (TripModel.id t) dests
                           ++ segment_rows (TripModel.id t) segs) (insert_trip t s) with
                    | Some s' => Ok tt s'
                    | None => Raise IntegrityError
                    end).
  { unfold call, bind. rewrite _create_trip_fresh;
      [|done|unfold no_pending_trip; by rewrite Hp].
    rewrite Hp. cbn [insert_rows]. cbn [trips set_pending].
    rewrite healthy_fresh_id by done.
    unfold commit, flush. cbn [pending set_pending].
    fold t. change (trips_id_seq s + 1) with (TripModel.id t).
    by rewrite insert_trip_settled. }
  assert (Hiff := fun u' => insert_links_fresh t dests segs s u' Hh eq_refl).
  destruct (committed_fields t dests segs s) as (F1 & _ & F3 & F4 & _ & F6).
  split; [|split; [|split]].
  - intros Hs. rewrite Hcall.
    by rewrite (proj2 (Hiff (committed t dests segs s)) (conj Hs eq_refl)).
  - intros s' E. rewrite Hcall in E.
    destruct (insert_rows _ (insert_trip t s)) as [u'|] eqn:Eu; [|done].
    injection E as <-. by apply Hiff.
  - intros Hn. rewrite Hcall.
    destruct (insert_rows _ (insert_trip t s)) as [u'|] eqn:Eu; [|done].
    exfalso. apply Hn. by apply (Hiff u').
  - repeat (split; [done|]). by apply committed_healthy.
Qed.

Lemma X16_create_trip_commit_witness :
  let s := repository home_by_id
             [visit_segment 7 (at_hour 1 9) (at_hour 1 12) (Some "zoo") None]
             ["home"; "zoo"] in
  let segs := [visit_segment 7 (at_hour 1 9) (at_hour 1 12) (Some "zoo") None] in
  pending s = [] /\ healthy s
  /\ key_exists (at_hour 1 9) (at_hour 1 12) "home_based" s = false
  /\ storable s ["zoo"] segs
  /\ bind (_create_trip (at_hour 1 9) (at_hour 1 12) segs 0 ["zoo"] "home_based")
          (fun _ => commit) s
     = Ok tt (committed (trip_row 1 (at_hour 1 9) (at_hour 1 12) segs 0 "home_based")
                ["zoo"] segs s).
Proof.
  intros s segs.
  assert (Hh : healthy s) by (repeat split; constructor).
  assert (Hs : storable s ["zoo"] segs).
  { repeat split.
    - apply NoDup_singleton.
    - by apply Forall_singleton.
    - apply NoDup_singleton.
    - by apply Forall_singleton. }
  split; [reflexivity|]. split; [exact Hh|]. split; [reflexivity|].
  split; [exact Hs|].
  apply (X16_create_trip_commit (at_hour 1 9) (at_hour 1 12) segs 0 ["zoo"]
           "home_based" s eq_refl Hh eq_refl).
  exact Hs.
Defined.

(** ** Runs that cannot fail *)

Lemma settled_links s s0 :
  no_pending_trip s -> settled s = Some s0 ->
  trips s0 = trips s /\ trips_id_seq s0 = trips_id_seq s
  /\ pending s0 = [] /\ same_repo s s0.
Proof.
  intros Hp E. unfold settled in E.
  apply insert_rows_links in E as (H1 & H2 & H3 & H4); done.
Qed.

Lemma settled_clean s : pending s = [] -> settled s = Some s.
Proof. unfold settled. destruct s. cbn. by intros ->. Qed.

Lemma storable_same_repo s s' dests segs :
  same_repo s s' -> storable s dests segs -> storable s' dests segs.
Proof.
  intros (Hs & _ & Hpl) (H1 & H2 & H3 & H4). repeat split; try done.
  - eapply Forall_impl; [exact H2|]. intros p. unfold place_known. by rewrite Hpl.
  - eapply Forall_impl; [exact H4|]. intros g. unfold segment_known. by rewrite Hs.
Qed.

Lemma same_repo_sym s s' : same_repo s s' -> same_repo s' s.
Proof. intros (?&?&?). repeat split; congruence. Qed.

Lemma insert_trip_pending t rows s0 :
  pending s0 = [] ->
  set_pending [] (set_pending rows (insert_trip t s0)) = insert_trip t s0.
Proof. destruct s0. cbn. by intros ->. Qed.

(** A storable request goes through, and what it leaves pending can be
    flushed. *)
Lemma materialize_storable r s s0 :
  no_pending_trip s -> settled s = Some s0 -> healthy s0 ->
  storable s (req_destinations r) (req_segments r) ->
  exists s1 s2,
    materialize r s = Ok tt s1 /\ no_pending_trip s1
    /\ settled s1 = Some s2 /\ healthy s2 /\ same_repo s s1.
Proof.
  intros Hp Hs Hh Hst.
  destruct (settled_links s s0 Hp Hs) as (T0 & Q0 & P0 & R0).
  unfold materialize.
  destruct (key_exists (req_start r) (req_end r) (req_algorithm r) s) eqn:Ek.
  - rewrite _create_trip_existing by done. exists s, s0.
    split; [done|]. split; [done|]. split; [done|]. split; [done|].
    apply same_repo_refl.
  - rewrite _create_trip_fresh by done. fold (settled s). rewrite Hs.
    cbn zeta. rewrite <- T0, <- Q0, healthy_fresh_id by done.
    set (t := trip_row (trips_id_seq s0 + 1) (req_start r) (req_end r)
                (req_segments r) (req_distance r) (req_algorithm r)).
    eexists _, (committed t (req_destinations r) (req_segments r) s0).
    split; [reflexivity|]. split; [|split; [|split]].
    + unfold no_pending_trip. cbn [pending set_pending]. apply no_pending_trip_rows.
    + unfold settled. cbn [pending set_pending]. rewrite insert_trip_pending by done.
      change (trips_id_seq s0 + 1) with (TripModel.id t).
      apply insert_links_fresh; [done|done|]. split; [|done].
      by eapply storable_same_repo.
    + by apply committed_healthy.
    + destruct R0 as (?&?&?). repeat split; cbn; congruence.
Qed.

Lemma materialize_all_storable rs : forall s s0,
  no_pending_trip s -> settled s = Some s0 -> healthy s0 ->
  Forall (fun r => storable s (req_destinations r) (req_segments r)) rs ->
  exists s1 s2,
    materialize_all rs s = Ok tt s1 /\ no_pending_trip s1
    /\ settled s1 = Some s2 /\ healthy s2 /\ same_repo s s1.
Proof.
  induction rs as [|r rs IH]; intros s s0 Hp Hs Hh Hst.
  - exists s, s0. split; [done|]. split; [done|]. split; [done|].
    split; [done|]. apply same_repo_refl.
  - apply Forall_cons in Hst as [Hr Hrs].
    destruct (materialize_storable r s s0 Hp Hs Hh Hr)
      as (s1 & s2 & E1 & P1 & S1 & H1 & R1).
    destruct (IH s1 s2 P1 S1 H1) as (s3 & s4 & E3 & P3 & S3 & H3 & R3).
    { eapply Forall_impl; [exact Hrs|]. intros r'. by apply storable_same_repo. }
    exists s3, s4. unfold materialize_all. cbn [for_each]. unfold bind.
    rewrite E1. split; [exact E3|]. split; [done|]. split; [done|].
    split; [done|]. by eapply same_repo_trans.
Qed.

(** A plan of storable requests runs to its commit. *)
Lemma run_plan_storable plan s :
  pending s = [] -> healthy s ->
  Forall (fun r => storable s (req_destinations r) (req_segments r)) plan.1 ->
  exists s', run_plan plan s = Ok plan.2 s' /\ healthy s' /\ pending s' = [].
Proof.
  intros Hp Hh Hst.
  destruct (materialize_all_storable plan.1 s s) as (s1 & s2 & E1 & P1 & S1 & H1 & _);
    [unfold no_pending_trip; by rewrite Hp|by apply settled_clean|done|done|].
  exists s2. unfold run_plan, bind. rewrite E1. unfold commit, flush.
  fold (settled s1). rewrite S1. split; [done|]. split; [done|].
  by destruct (settled_links s1 s2 P1 S1) as (_ & _ & ? & _).
Qed.

Lemma segment_known_elem g s :
  g ∈ timeline_segments s -> segment_known (TimelineSegment.id g) s.
Proof.
  intros Hg. unfold segment_known. apply existsb_exists. exists g.
  split; [by apply list_elem_of_In|apply Z.eqb_refl].
Qed.

Lemma place_known_elem p s : place_known p s <-> p ∈ places s.
Proof.
  unfold place_known. rewrite existsb_exists. split.
  - intros (q & Hq & Heq). apply String.eqb_eq in Heq as ->.
    by apply list_elem_of_In.
  - intros Hp. exists p. split; [by apply list_elem_of_In|apply String.eqb_refl].
Qed.

Lemma NoDup_ids_filter (f : TimelineSegment.t -> bool) l :
  NoDup (map TimelineSegment.id l) -> NoDup (map TimelineSegment.id (List.filter f l)).
Proof.
  induction l as [|g l IH]; [done|]. cbn [map List.filter].
  intros Hnd. apply NoDup_cons in Hnd as [Hg Hnd].
  destruct (f g); [|by apply IH]. cbn [map]. apply NoDup_cons. split; [|by apply IH].
  intros Hin. apply Hg. apply list_elem_of_fmap in Hin as (g' & Hid & Hg').
  apply list_elem_of_fmap. exists g'. split; [done|].
  by apply list_elem_of_In, filter_In in Hg' as [?%list_elem_of_In _].
Qed.

Lemma NoDup_ids_order_by_start_time l :
  NoDup (map TimelineSegment.id l) ->
  NoDup (map TimelineSegment.id (order_by_start_time l)).
Proof.
  intros Hnd.
  by rewrite (Permutation_map TimelineSegment.id (order_by_start_time_perm l)).
Qed.

Section EnrichedFacts.
Variable ST_Distance : Point -> Point -> option Q.
Variable set_iter : gset string -> list string.
Hypothesis set_iter_perm : forall X : gset string, set_iter X ≡ₚ elements X.

(** The destinations and segments of a run or cluster of the range are
    storable once the places of the range are known. *)
Lemma storable_visited sd ed s segs :
  (forall pid, pid ∈ extract_unique_place_ids set_iter sd ed s -> pid ∈ places s) ->
  NoDup (map TimelineSegment.id segs) ->
  Forall (fun g => g ∈ timeline_segments s /\ in_range sd ed g = true) segs ->
  storable s (set_iter (list_to_set (visited_place_ids segs))) segs.
Proof.
  intros Hcover Hnd Hin. repeat split.
  - rewrite set_iter_perm. apply NoDup_elements.
  - apply Forall_forall. intros p Hp. apply place_known_elem, Hcover.
    apply elem_of_extract_unique_place_ids; [done|].
    apply elem_of_set_iter_visited in Hp; [|done].
    apply elem_of_visited_place_ids in Hp as (g & v & Hg & Ev & Ep).
    rewrite Forall_forall in Hin. destruct (Hin g Hg) as [? ?].
    left. by exists g, v.
  - done.
  - eapply Forall_impl; [exact Hin|]. intros g [Hg _]. by apply segment_known_elem.
Qed.

Lemma home_plan_storable sd ed mind mindur s plan :
  (forall pid, pid ∈ extract_unique_place_ids set_iter sd ed s -> pid ∈ places s) ->
  NoDup (map TimelineSegment.id (timeline_segments s)) ->
  home_plan ST_Distance set_iter sd ed mind mindur s = Some plan ->
  Forall (fun r => storable s (req_destinations r) (req_segments r)) plan.1.
Proof.
  intros Hcover Hnd. unfold home_plan.
  destruct (head (user_profile s)) as [p|]; [|done].
  destruct (no_home (Some p)); [done|]. intros [= <-]. cbn [fst].
  apply Forall_forall. intros r Hr.
  pose proof (home_requests_in_range _ _ _ _ _ _ _ _ _ _ _ Hr) as Hrange.
  pose proof Hr as Hdest.
  eapply home_requests_destinations in Hdest as [Hdest _]; [|done].
  rewrite Hdest. apply (storable_visited sd ed); [done| |done].
  eapply (home_requests_closed _ _ _ _ _ _ _ _ [] home_acc_reset) in Hr;
    [|done|by left].
  destruct Hr as (l1 & first & mid & h & l2 & Es & _ & _ & _ & _ & _ & ->).
  cbn [app current_trip_segments home_acc_reset] in Es.
  assert (Hs : NoDup (map TimelineSegment.id
                        (order_by_start_time
                           (List.filter (in_range sd ed) (timeline_segments s)))))
    by (by apply NoDup_ids_order_by_start_time, NoDup_ids_filter).
  rewrite Es in Hs. rewrite map_app in Hs. apply NoDup_app in Hs as (_ & _ & Hs).
  change (first :: mid ++ h :: l2) with ((first :: mid) ++ h :: l2) in Hs.
  rewrite map_app in Hs. by apply NoDup_app in Hs as (Hs & _).
Qed.

Lemma distance_plan_storable sd ed thr gap s plan :
  (forall pid, pid ∈ extract_unique_place_ids set_iter sd ed s -> pid ∈ places s) ->
  NoDup (map TimelineSegment.id (timeline_segments s)) ->
  distance_plan ST_Distance set_iter sd ed thr gap s = Some plan ->
  Forall (fun r => storable s (req_destinations r) (req_segments r)) plan.1.
Proof.
  intros Hcover Hnd. unfold distance_plan.
  destruct (head (user_profile s)) as [p|]; [|done].
  destruct (UserProfileModel.home_location p) as [home|]; [|done].
  intros [= <-]. cbn [fst].
  apply Forall_forall. intros r Hr.
  apply list_elem_of_omap in Hr as (G & HG & Hr).
  eapply (distance_clusters_stretch
            (fun l => NoDup (map TimelineSegment.id l)
                      /\ Forall (fun g => g ∈ timeline_segments s
                                          /\ in_range sd ed g = true) l)) in HG.
  - destruct HG as [HGn HGr].
    rewrite (cluster_request_destinations _ _ _ Hr), cluster_totals_destinations.
    cbn [app].
    assert (Hsegs : req_segments r = G).
    { unfold cluster_request in Hr. destruct G as [|g tl]; [done|].
      destruct (last _); [|done].
      apply (f_equal (option_map req_segments)) in Hr.
      cbn [option_map req_segments] in Hr. by injection Hr as <-. }
    rewrite Hsegs. by apply (storable_visited sd ed).
  - intros l1 l2 [Hn Hf]. rewrite map_app in Hn.
    apply NoDup_app in Hn as (? & _ & ?). apply Forall_app in Hf as [? ?]. done.
  - cbn [app]. split.
    + unfold far_segments_of.
      by apply NoDup_ids_filter, NoDup_ids_order_by_start_time, NoDup_ids_filter.
    + eapply Forall_impl; [apply far_segments_in_range|].
      by intros g (? & _ & ? & _).
Qed.

End EnrichedFacts.

(** X17. Once the place identifiers of a date range are in the places table
    (all those [extract_unique_place_ids] returns for the range), the
    home-based and the distance-based detector cannot fail over that range:
    on a store whose key sequence is ahead of the keys in use and whose
    segments have distinct keys, the call returns, with the count of its
    plan, and leaves such a store again. *)
Theorem X17_detect_after_enrichment ST_Distance
    (set_iter : gset string -> list string) i s :
  hands_over_a_set i = true ->
  pending s = [] -> healthy s ->
  (forall X : gset string, set_iter X ≡ₚ elements X) ->
  NoDup (map TimelineSegment.id (timeline_segments s)) ->
  (forall pid,
     pid ∈ extract_unique_place_ids set_iter (range_of i).1 (range_of i).2 s ->
     pid ∈ places s) ->
  exists n s',
    detect ST_Distance set_iter i s = Ok n s'
    /\ healthy s' /\ pending s' = []
    /\ (forall plan, plan_of ST_Distance set_iter i s = Some plan -> n = plan.2).
Proof.
  intros Hi Hp Hh Hperm Hnd Hcover.
  rewrite detect_plan by (by destruct i).
  destruct (plan_of ST_Distance set_iter i s) as [plan|] eqn:Eplan;
    cbn [run_plan_opt].
  - assert (Hst : Forall (fun r => storable s (req_destinations r) (req_segments r))
                    plan.1).
    { destruct i as [| sd ed mind mindur | |sd ed thr gap]; try done;
        cbn [plan_of range_of fst snd] in *.
      - by eapply home_plan_storable.
      - by eapply distance_plan_storable. }
    destruct (run_plan_storable plan s Hp Hh Hst) as (s' & E & Hh' & Hp').
    exists plan.2, s'. split; [done|]. split; [done|]. split; [done|].
    by intros plan' [= <-].
  - exists 0, s. split; [done|]. split; [done|]. split; [done|]. done.
Qed.

Lemma X17_detect_after_enrichment_witness :
  hands_over_a_set (HomeBased None None 50 4) = true
  /\ pending zoo_day = [] /\ healthy zoo_day
  /\ (forall X : gset string, alphabetical X ≡ₚ elements X)
  /\ NoDup (map TimelineSegment.id (timeline_segments zoo_day))
  /\ (forall pid,
        pid ∈ extract_unique_place_ids alphabetical None None zoo_day ->
        pid ∈ places zoo_day)
  /\ exists n s',
       detect grid_distance alphabetical (HomeBased None None 50 4) zoo_day = Ok n s'
       /\ healthy s' /\ pending s' = [].
Proof.
  assert (Hh : healthy zoo_day) by (repeat split; constructor).
  assert (Hnd : NoDup (map TimelineSegment.id (timeline_segments zoo_day))).
  { cbn. repeat (apply NoDup_cons; split;
                 [rewrite ?elem_of_cons, ?elem_of_nil; intuition discriminate|]).
    apply NoDup_nil_2. }
  assert (Hcover : forall pid,
            pid ∈ extract_unique_place_ids alphabetical None None zoo_day ->
            pid ∈ places zoo_day).
  { assert (E : extract_unique_place_ids alphabetical None None zoo_day
                = ["aquarium"; "home"; "zoo"]) by (vm_compute; reflexivity).
    intros pid Hpid. rewrite E in Hpid. clear E. cbn.
    rewrite !elem_of_cons in Hpid. rewrite !elem_of_cons.
    destruct Hpid as [-> | [-> | [-> | Hpid]]];
      [by right; right; left|by left|by right; left|].
    by apply elem_of_nil in Hpid. }
  split; [reflexivity|]. split; [reflexivity|]. split; [exact Hh|].
  split; [exact alphabetical_perm|]. split; [exact Hnd|]. split; [exact Hcover|].
  destruct (X17_detect_after_enrichment grid_distance alphabetical
              (HomeBased None None 50 4) zoo_day eq_refl eq_refl Hh
              alphabetical_perm Hnd Hcover) as (n & s' & E & Hh' & Hp' & _).
  exists n, s'. exact (conj E (conj Hh' Hp')).
Defined.

(** ** What a run that returned has stored *)

Lemma stored_all_fields created : forall s,
  trips (stored_all created s)
  = trips s ++ map (fun '(i, r) => req_row i r)
                   (enumerate_from (trips_id_seq s + 1) created)
  /\ trip_destinations (stored_all created s)
     = trip_destinations s
       ++ flat_map (fun '(i, r) => destination_links i (req_destinations r))
                   (enumerate_from (trips_id_seq s + 1) created)
  /\ trip_segments (stored_all created s)
     = trip_segments s
       ++ flat_map (fun '(i, r) => segment_links i (req_segments r))
                   (enumerate_from (trips_id_seq s + 1) created)
  /\ trips_id_seq (stored_all created s) = trips_id_seq s + Z.of_nat (length created)
  /\ pending (stored_all created s) = pending s
  /\ same_repo s (stored_all created s).
Proof.
  unfold stored_all.
  induction created as [|r created IH]; intros s; cbn [fold_left enumerate_from].
  - cbn. rewrite !app_nil_r, Z.add_0_r. repeat split.
  - set (t := req_row (trips_id_seq s + 1) r).
    destruct (committed_fields t (req_destinations r) (req_segments r) s)
      as (F1 & F2 & F3 & F4 & F5 & F6).
    destruct (IH (committed t (req_destinations r) (req_segments r) s))
      as (H1 & H2 & H3 & H4 & H5 & H6).
    rewrite F2 in H1, H2, H3, H4. cbn [TripModel.id t req_row trip_row] in H1, H2, H3, H4.
    rewrite H1, H2, H3, H4, H5, F1, F3, F4, F5.
    cbn [map flat_map length]. rewrite <- !app_assoc. cbn [app].
    split; [done|]. split; [done|]. split; [done|]. split; [lia|]. split; [done|].
    by eapply same_repo_trans.
Qed.

(** What the calls of a plan leave once flushed: the store flushed before
    them, with a trip and its links for every call that found a new key, in
    the order of the calls. *)
Lemma materialize_all_stored rs : forall s s1 s2,
  no_pending_trip s -> materialize_all rs s = Ok tt s1 -> settled s1 = Some s2 ->
  exists s0,
    settled s = Some s0
    /\ (healthy s0 ->
        exists created,
          s2 = stored_all created s0
          /\ sublist created rs
          /\ Forall (fun r => r ∈ rs
                              /\ storable s (req_destinations r) (req_segments r))
               created
          /\ healthy s2).
Proof.
  induction rs as [|r rs IH]; intros s s1 s2 Hp E Hs.
  - injection E as <-. exists s2. split; [done|]. intros Hh.
    exists []. split; [done|]. split; [constructor|]. split; [done|]. done.
  - unfold materialize_all in E. cbn [for_each] in E. unfold bind in E.
    destruct (materialize r s) as [[] s1'|] eqn:E1; [|done].
    pose proof E1 as E1'. apply materialize_ok in E1' as [G1 _]; [|done].
    destruct (IH s1' s1 s2 (grown_pending _ _ _ G1) E Hs) as (s0' & Hs' & Hrest).
    unfold materialize in E1.
    destruct (key_exists (req_start r) (req_end r) (req_algorithm r) s) eqn:Ek.
    + rewrite _create_trip_existing in E1 by done. injection E1 as <-.
      exists s0'. split; [done|]. intros Hh.
      destruct (Hrest Hh) as (created & -> & Hsub & Hc & Hh2).
      exists created. split; [done|]. split; [by apply sublist_cons|]. split; [|done].
      eapply Forall_impl; [exact Hc|]. intros r' [? ?]. split; [by right|done].
    + rewrite _create_trip_fresh in E1 by done. fold (settled s) in E1.
      destruct (settled s) as [s0|] eqn:Es0; [|done]. cbn zeta in E1.
      destruct (existsb _ (trips s)); [done|]. injection E1 as <-.
      exists s0. split; [done|]. intros Hh.
      destruct (settled_links s s0 Hp Es0) as (T0 & Q0 & P0 & R0).
      set (t := trip_row (trips_id_seq s + 1) (req_start r) (req_end r)
                  (req_segments r) (req_distance r) (req_algorithm r)) in *.
      unfold settled in Hs'. cbn [pending set_pending] in Hs'.
      rewrite insert_trip_pending in Hs' by done.
      change (trips_id_seq s + 1) with (TripModel.id t) in Hs'.
      apply insert_links_fresh in Hs' as [Hst ->]; [|done|by rewrite Q0].
      destruct Hrest as (created & -> & Hsub & Hc & Hh2);
        [apply committed_healthy; [done|by rewrite Q0]|].
      exists (r :: created). split.
      { unfold stored_all. cbn [fold_left]. rewrite Q0. done. }
      split; [by apply sublist_skip|].
      split; [|done]. apply Forall_cons. split.
      * split; [by left|]. eapply storable_same_repo; [|exact Hst].
        by apply same_repo_sym.
      * eapply Forall_impl; [exact Hc|]. intros r' [? Hst'].
        split; [by right|]. eapply storable_same_repo; [|exact Hst'].
        apply same_repo_sym. apply G1.
Qed.

Lemma run_plan_stored plan s n s' :
  pending s = [] -> healthy s -> run_plan plan s = Ok n s' ->
  exists created,
    s' = stored_all created s
    /\ sublist created plan.1
    /\ Forall (fun r => r ∈ plan.1
                        /\ storable s (req_destinations r) (req_segments r))
         created.
Proof.
  intros Hp Hh E. unfold run_plan, bind in E.
  destruct (materialize_all plan.1 s) as [[] s1|] eqn:E1; [|done].
  unfold commit, flush in E. fold (settled s1) in E.
  destruct (settled s1) as [s2|] eqn:Es; [|done]. injection E as _ <-.
  destruct (materialize_all_stored plan.1 s s1 s2) as (s0 & Hs0 & Hrest);
    [unfold no_pending_trip; by rewrite Hp|done|done|].
  rewrite settled_clean in Hs0 by done. injection Hs0 as <-.
  destruct (Hrest Hh) as (created & -> & Hsub & Hc & _). by exists created.
Qed.

(** X18. When the home-based, overnight or distance-based detector returns
    on a store whose key sequence is ahead of the keys in use, the store it
    leaves is the one it found with, for some of the calls of its plan in
    order (a sub-sequence of the plan: no call is stored twice, none out of
    turn, and nothing when there is no plan), a trip under the next key,
    one destination row per destination handed over, numbered from 0 in that
    order, and one segment link per segment, numbered likewise: no trip is
    stored without its links, and the destinations of a stored trip are
    distinct rows of the places table. *)
Theorem X18_detect_stored ST_Distance set_iter i s n s' :
  is_memory i = false -> pending s = [] -> healthy s ->
  detect ST_Distance set_iter i s = Ok n s' ->
  exists created,
    s' = stored_all created s
    /\ sublist created
         match plan_of ST_Distance set_iter i s with
         | Some plan => plan.1
         | None => []
         end
    /\ Forall (fun r =>
                 (exists plan, plan_of ST_Distance set_iter i s = Some plan
                               /\ r ∈ plan.1)
                 /\ NoDup (req_destinations r)
                 /\ Forall (fun p => p ∈ places s) (req_destinations r))
         created
    /\ trips s'
       = trips s ++ map (fun '(k, r) => req_row k r)
                        (enumerate_from (trips_id_seq s + 1) created)
    /\ trip_destinations s'
       = trip_destinations s
         ++ flat_map (fun '(k, r) => destination_links k (req_destinations r))
                     (enumerate_from (trips_id_seq s + 1) created)
    /\ trip_segments s'
       = trip_segments s
         ++ flat_map (fun '(k, r) => segment_links k (req_segments r))
                     (enumerate_from (trips_id_seq s + 1) created).
Proof.
  intros Hi Hp Hh E. rewrite detect_plan in E by done.
  destruct (plan_of ST_Distance set_iter i s) as [plan|] eqn:Eplan;
    cbn [run_plan_opt] in E.
  - apply run_plan_stored in E as (created & -> & Hsub & Hc); [|done|done].
    exists created. split; [done|]. split; [done|].
    destruct (stored_all_fields created s) as (F1 & F2 & F3 & _).
    split; [|by rewrite F1, F2, F3].
    eapply Forall_impl; [exact Hc|]. intros r (Hr & Hnd & Hpl & _).
    split; [by exists plan|]. split; [done|].
    eapply Forall_impl; [exact Hpl|]. intros p. apply place_known_elem.
  - injection E as _ <-. exists []. cbn. rewrite !app_nil_r.
    split; [done|]. split; [constructor|done].
Qed.

Lemma X18_detect_stored_witness :
  is_memory (HomeBased None None 50 4) = false
  /\ pending zoo_day = [] /\ healthy zoo_day
  /\ exists n s',
       detect grid_distance alphabetical (HomeBased None None 50 4) zoo_day = Ok n s'
       /\ exists created, s' = stored_all created zoo_day.
Proof.
  assert (Hh : healthy zoo_day) by (repeat split; constructor).
  split; [reflexivity|]. split; [reflexivity|]. split; [exact Hh|].
  eexists _, _. split; [vm_compute; reflexivity|].
  match goal with
  | |- exists created, ?s' = _ =>
      destruct (X18_detect_stored grid_distance alphabetical
                  (HomeBased None None 50 4) zoo_day 1 s' eq_refl eq_refl Hh)
        as (created & Hs & _); [vm_compute; reflexivity|]
  end.
  exists created. exact Hs.
Defined.

(** * Travel streaks *)

Lemma insert_trip_by_start_perm t l : insert_trip_by_start t l ≡ₚ t :: l.
Proof.
  induction l as [|h l IH]; cbn; [done|].
  destruct (TripModel.start_time h <=? TripModel.start_time t); [|done].
  rewrite IH. apply Permutation_swap.
Qed.

Lemma trips_by_start_time_perm l : trips_by_start_time l ≡ₚ l.
Proof.
  unfold trips_by_start_time.
  assert (H : forall acc, fold_left (fun acc t => insert_trip_by_start t acc) l acc
                          ≡ₚ acc ++ l).
  { induction l as [|t l IH]; intros acc; cbn [fold_left].
    - by rewrite app_nil_r.
    - rewrite IH, insert_trip_by_start_perm.
      change (t :: acc) with ([t] ++ acc).
      rewrite (Permutation_app_comm [t] acc), <- app_assoc. done. }
  apply H.
Qed.

Lemma elem_of_fold_dates (f : TripModel.t -> Z) (l : list TripModel.t) :
  forall (X : gset Z) d,
    d ∈ fold_left (fun travel_days trip => travel_days ∪ {[f trip]}) l X
    <-> d ∈ X \/ exists t, t ∈ l /\ f t = d.
Proof.
  induction l as [|y l IH]; intros X d; cbn [fold_left].
  - split; [by left|]. intros [H|(t & Ht & _)]; [done|]. by apply elem_of_nil in Ht.
  - rewrite IH, elem_of_union, elem_of_singleton. split.
    + intros [[H| ->]|(t & Ht & Hd)].
      * by left.
      * right. exists y. split; [by left|done].
      * right. exists t. split; [by right|done].
    + intros [H|(t & Ht & Hd)]; [by left; left|].
      apply elem_of_cons in Ht as [-> |Ht].
      * left. by right.
      * right. by exists t.
Qed.

Lemma sorted_dates_perm l : sorted_dates l ≡ₚ l.
Proof. apply merge_sort_Permutation. Qed.

Lemma sorted_dates_strict l :
  NoDup l -> StronglySorted Z.lt (sorted_dates l).
Proof.
  intros Hnd. rewrite <- sorted_dates_perm in Hnd.
  assert (Hs : StronglySorted Z.le (sorted_dates l)).
  { apply (StronglySorted_merge_sort Z.le). }
  induction Hs as [|a l' Hs IH Hf]; [constructor|].
  apply NoDup_cons in Hnd as [Ha Hnd]. constructor; [by apply IH|].
  apply Forall_forall. intros b Hb. rewrite Forall_forall in Hf.
  specialize (Hf b Hb). assert (a <> b) by (by intros ->). lia.
Qed.

(** The [for] loop keeps the longest run of consecutive days seen so far:
    [P] holds of the days up to [prev], the run that ends at [prev] has
    [current] days and no run has more than [longest]. *)
Lemma streak_loop_spec rest : forall prev current longest (P : Z -> Prop),
  StronglySorted Z.lt (prev :: rest) ->
  P prev -> (forall x, P x -> x <= prev) ->
  1 <= current <= longest ->
  (forall k, 0 <= k < current -> P (prev - k)) -> ~ P (prev - current) ->
  (exists d, forall k, 0 <= k < longest -> P (d + k)) ->
  (forall d n, (forall k, 0 <= k < n -> P (d + k)) -> n <= longest) ->
  1 <= streak_loop prev rest current longest
  /\ (exists d, forall k, 0 <= k < streak_loop prev rest current longest ->
                          P (d + k) \/ d + k ∈ rest)
  /\ (forall d n, (forall k, 0 <= k < n -> P (d + k) \/ d + k ∈ rest) ->
                  n <= streak_loop prev rest current longest).
Proof.
  induction rest as [|day rest IH];
    intros prev current longest P Hs Hprev Hmax Hc Hrun Hstop Hex Hall;
    cbn [streak_loop].
  - split; [lia|]. split.
    + destruct Hex as [d Hd]. exists d. intros k Hk. left. by apply Hd.
    + intros d n Hn. apply (Hall d). intros k Hk.
      destruct (Hn k Hk) as [H|H]; [done|]. by apply elem_of_nil in H.
  - apply StronglySorted_inv in Hs as [Hs Hlt].
    assert (Hday : prev < day) by (by apply Forall_cons in Hlt as [? _]).
    assert (Hs' : StronglySorted Z.lt (day :: rest)) by done.
    set (P1 := fun x => P x \/ x = day).
    assert (Hmax1 : forall x, P1 x -> x <= day).
    { intros x [Hx| ->]; [|lia]. specialize (Hmax x Hx). lia. }
    assert (Hconv : forall x, (P1 x \/ x ∈ rest) <-> (P x \/ x ∈ day :: rest)).
    { intros x. unfold P1. rewrite elem_of_cons. tauto. }
    assert (Hend : forall d n, 1 <= n -> (forall k, 0 <= k < n -> P1 (d + k)) ->
                               d + (n - 1) <> day ->
                               forall k, 0 <= k < n -> P (d + k)).
    { intros d n Hn Hrun1 Hne k Hk.
      destruct (Hrun1 k Hk) as [H|H]; [done|].
      destruct (Hrun1 (n - 1) ltac:(lia)) as [H'|H']; [|lia].
      specialize (Hmax _ H'). lia. }
    destruct (day - prev =? 1) eqn:E.
    + apply Z.eqb_eq in E.
      destruct (IH day (current + 1) (Z.max longest (current + 1)) P1 Hs')
        as (H1 & (d & Hd) & H3).
      * by right.
      * done.
      * lia.
      * intros k Hk. destruct (decide (k = 0)) as [-> |Hk0].
        -- right. lia.
        -- left. replace (day - k) with (prev - (k - 1)) by lia. apply Hrun. lia.
      * intros [H|H]; [|lia].
        replace (day - (current + 1)) with (prev - current) in H by lia. done.
      * destruct (Z.max_spec longest (current + 1)) as [[_ ->]|[_ ->]].
        -- exists (day - current). intros k Hk.
           destruct (decide (k = current)) as [-> |Hkc].
           ++ right. lia.
           ++ left. replace (day - current + k) with (prev - (current - 1 - k)) by lia.
              apply Hrun. lia.
        -- destruct Hex as [d Hd]. exists d. intros k Hk. left. by apply Hd.
      * intros d n Hn. destruct (decide (n <= 0)) as [|Hpos]; [lia|].
        destruct (decide (d + (n - 1) = day)) as [Hlast|Hlast].
        -- destruct (decide (n <= current + 1)) as [|Hbig]; [lia|]. exfalso.
           destruct (Hn (n - 1 - (current + 1)) ltac:(lia)) as [H|H].
           ++ apply Hstop. replace (prev - current) with (d + (n - 1 - (current + 1))) by lia.
              done.
           ++ lia.
        -- assert (n <= longest); [|lia].
           apply (Hall d). apply Hend; [lia|done|done].
      * split; [done|]. split.
        -- exists d. intros k Hk. apply Hconv. by apply Hd.
        -- intros d' n Hn. apply (H3 d'). intros k Hk. apply Hconv. by apply Hn.
    + apply Z.eqb_neq in E.
      destruct (IH day 1 longest P1 Hs') as (H1 & (d & Hd) & H3).
      * by right.
      * done.
      * lia.
      * intros k Hk. right. lia.
      * intros [H|H]; [|lia]. specialize (Hmax _ H). lia.
      * destruct Hex as [d Hd]. exists d. intros k Hk. left. by apply Hd.
      * intros d n Hn. destruct (decide (n <= 0)) as [|Hpos]; [lia|].
        destruct (decide (d + (n - 1) = day)) as [Hlast|Hlast].
        -- destruct (decide (n <= 1)) as [|Hbig]; [lia|]. exfalso.
           destruct (Hn (n - 2) ltac:(lia)) as [H|H]; [|lia].
           specialize (Hmax _ H). lia.
        -- apply (Hall d). apply Hend; [lia|done|done].
      * split; [done|]. split.
        -- exists d. intros k Hk. apply Hconv. by apply Hd.
        -- intros d' n Hn. apply (H3 d'). intros k Hk. apply Hconv. by apply Hn.
Qed.

(** On a strictly ascending list the loop returns the length of the longest
    run of consecutive days of the list. *)
Lemma streak_loop_longest first rest :
  StronglySorted Z.lt (first :: rest) ->
  1 <= streak_loop first rest 1 1
  /\ (exists d, forall k, 0 <= k < streak_loop first rest 1 1 ->
                          d + k ∈ first :: rest)
  /\ (forall d n, (forall k, 0 <= k < n -> d + k ∈ first :: rest) ->
                  n <= streak_loop first rest 1 1).
Proof.
  intros Hs.
  destruct (streak_loop_spec rest first 1 1 (fun x => x = first) Hs)
    as (H1 & (d & Hd) & H3).
  - done.
  - intros x ->. lia.
  - lia.
  - intros k Hk. lia.
  - lia.
  - exists first. intros k Hk. lia.
  - intros d n Hn. destruct (decide (n <= 1)) as [|Hbig]; [done|]. exfalso.
    pose proof (Hn 0 ltac:(lia)). pose proof (Hn 1 ltac:(lia)). lia.
  - split; [done|]. split.
    + exists d. intros k Hk. apply elem_of_cons. by apply Hd.
    + intros d' n Hn. apply (H3 d'). intros k Hk. apply elem_of_cons. by apply Hn.
Qed.

(** The [while] loop ends before it has used more fuel than there are travel
    days up to [check_date], and counts the travel days that end there. *)
Lemma count_back_spec (travel_days : gset Z) fuel : forall check_date streak : Z,
  (size (filter (fun d : Z => (d <= check_date)%Z) travel_days) < fuel)%nat ->
  exists c,
    count_back fuel travel_days check_date streak = Some (streak + c)
    /\ 0 <= c
    /\ (forall k, 0 <= k < c -> check_date - k ∈ travel_days)
    /\ check_date - c ∉ travel_days.
Proof.
  induction fuel as [|fuel IH]; intros check_date streak Hf; [lia|].
  cbn [count_back]. destruct (decide (check_date ∈ travel_days)) as [Hin|Hout].
  - destruct (IH (check_date - 1) (streak + 1)) as (c & E & Hc & Hrun & Hstop).
    { assert (filter (fun d => d <= check_date - 1) travel_days
              ⊂ filter (fun d => d <= check_date) travel_days) as Hsub.
      { split.
        - intros x. rewrite !elem_of_filter. intros [? ?]. split; [lia|done].
        - intros Hsub. specialize (Hsub check_date).
          rewrite !elem_of_filter in Hsub.
          destruct Hsub as [? _]; [split; [lia|done]|lia]. }
      apply subset_size in Hsub. lia. }
    exists (c + 1). split; [rewrite E; f_equal; lia|]. split; [lia|]. split.
    + intros k Hk. destruct (decide (k = 0)) as [-> |Hk0].
      * by rewrite Z.sub_0_r.
      * replace (check_date - k) with (check_date - 1 - (k - 1)) by lia.
        apply Hrun. lia.
    + by replace (check_date - (c + 1)) with (check_date - 1 - c) by lia.
  - exists 0. split; [by rewrite Z.add_0_r|]. split; [done|]. split; [lia|].
    by rewrite Z.sub_0_r.
Qed.

Lemma remove_dups_length_le {A} `{EqDecision A} (l : list A) :
  (length (remove_dups l) <= length l)%nat.
Proof.
  apply submseteq_length, NoDup_submseteq; [apply NoDup_remove_dups|].
  intros x. by rewrite elem_of_remove_dups.
Qed.

Lemma size_fold_dates (f : TripModel.t -> Z) (l : list TripModel.t) :
  size (fold_left (fun travel_days trip => travel_days ∪ {[f trip]}) l (∅ : gset Z))
  = length (remove_dups (map f l)).
Proof.
  assert (H : fold_left (fun travel_days trip => travel_days ∪ {[f trip]}) l (∅ : gset Z)
              ≡ list_to_set (remove_dups (map f l))).
  { intros d. rewrite elem_of_fold_dates, elem_of_list_to_set, elem_of_remove_dups.
    rewrite list_elem_of_fmap. split.
    - intros [H|(t & Ht & Hd)]; [by apply elem_of_empty in H|]. by exists t.
    - intros (t & Hd & Ht). right. by exists t. }
  rewrite H. apply size_list_to_set, NoDup_remove_dups.
Qed.

(** What [find_travel_streaks] computes on a trips table that is not empty. *)
Lemma find_travel_streaks_unfold set_iter today fuel s :
  trips s <> [] ->
  exists travel_days : gset Z,
    (forall d, d ∈ travel_days <-> travel_day s d)
    /\ size travel_days
       = length (remove_dups (map (fun t => date_of (TripModel.start_time t))
                                  (trips_by_start_time (trips s))))
    /\ find_travel_streaks set_iter today fuel s
       = match
           (if negb (bool_decide (sorted_dates (set_iter travel_days) = []))
               && bool_decide (today ∈ travel_days)
            then count_back fuel travel_days today 0
            else Some 0)
         with
         | Some current_active_streak =>
             Some {| TravelStreaks.longest_streak :=
                       match sorted_dates (set_iter travel_days) with
                       | [] => 1
                       | first :: rest => streak_loop first rest 1 1
                       end;
                     TravelStreaks.current_streak := current_active_streak;
                     TravelStreaks.total_travel_days := Z.of_nat (size travel_days) |}
         | None => None
         end.
Proof.
  intros Hne.
  exists (fold_left (fun travel_days trip =>
                       travel_days ∪ {[date_of (TripModel.start_time trip)]})
                    (trips_by_start_time (trips s)) ∅).
  split; [|split].
  - intros d. rewrite (elem_of_fold_dates (fun t => date_of (TripModel.start_time t))).
    unfold travel_day. split.
    + intros [H|(t & Ht & Hd)]; [by apply elem_of_empty in H|].
      exists t. split; [|done]. by rewrite trips_by_start_time_perm in Ht.
    + intros (t & Ht & Hd). right. exists t. split; [|done].
      by rewrite trips_by_start_time_perm.
  - apply (size_fold_dates (fun t => date_of (TripModel.start_time t))).
  - unfold find_travel_streaks.
    destruct (trips_by_start_time (trips s)) as [|t l] eqn:E; [|done].
    exfalso. apply Hne. apply Permutation_nil_r. rewrite <- E.
    symmetry. apply trips_by_start_time_perm.
Qed.

Lemma sorted_days_facts set_iter (travel_days : gset Z) :
  (forall X : gset Z, set_iter X ≡ₚ elements X) ->
  StronglySorted Z.lt (sorted_dates (set_iter travel_days))
  /\ (forall d, d ∈ sorted_dates (set_iter travel_days) <-> d ∈ travel_days)
  /\ length (sorted_dates (set_iter travel_days)) = size travel_days.
Proof.
  intros Hiter. split; [|split].
  - apply sorted_dates_strict. rewrite Hiter. apply NoDup_elements.
  - intros d. by rewrite sorted_dates_perm, Hiter, elem_of_elements.
  - by rewrite sorted_dates_perm, Hiter.
Qed.

Lemma strictly_ascending_span l :
  StronglySorted Z.lt l ->
  forall d n, (forall k, 0 <= k < n -> d + k ∈ l) -> n <= Z.of_nat (length l).
Proof.
  induction 1 as [|a l Hs IH Hf]; intros d n Hn.
  - destruct (decide (n <= 0)) as [|Hpos]; [cbn; lia|].
    specialize (Hn 0 ltac:(lia)). by apply elem_of_nil in Hn.
  - cbn [length]. destruct (decide (n <= 0)) as [|Hpos]; [lia|].
    rewrite Forall_forall in Hf.
    assert (Ha : forall x, x ∈ a :: l -> a <= x).
    { intros x Hx. apply elem_of_cons in Hx as [-> |Hx]; [lia|].
      specialize (Hf x Hx). lia. }
    assert (n - 1 <= Z.of_nat (length l)); [|lia].
    apply (IH (d + 1)). intros k Hk.
    specialize (Hn (k + 1) ltac:(lia)) as Hin.
    replace (d + 1 + k) with (d + (k + 1)) by lia.
    apply elem_of_cons in Hin as [Heq|Hin]; [|done].
    pose proof (Ha _ (Hn 0 ltac:(lia))). lia.
Qed.

(** The parts of the result on a trips table that is not empty: the set of
    travel days, its ascending list, and the count of the [while] loop. *)
Lemma find_travel_streaks_parts set_iter today fuel s :
  (forall X : gset Z, set_iter X ≡ₚ elements X) ->
  (length (trips s) < fuel)%nat ->
  trips s <> [] ->
  exists (D : gset Z) first rest c,
    (forall d, d ∈ D <-> travel_day s d)
    /\ StronglySorted Z.lt (first :: rest)
    /\ (forall d, d ∈ first :: rest <-> d ∈ D)
    /\ length (first :: rest) = size D
    /\ size D = length (remove_dups (map (fun t => date_of (TripModel.start_time t))
                                         (trips s)))
    /\ (size D <= length (trips s))%nat
    /\ find_travel_streaks set_iter today fuel s
       = Some {| TravelStreaks.longest_streak := streak_loop first rest 1 1;
                 TravelStreaks.current_streak := c;
                 TravelStreaks.total_travel_days := Z.of_nat (size D) |}
    /\ 0 <= c
    /\ (forall k, 0 <= k < c -> today - k ∈ D)
    /\ today - c ∉ D.
Proof.
  intros Hiter Hfuel Hne.
  destruct (find_travel_streaks_unfold set_iter today fuel s Hne) as (D & HD & Hsize & E).
  destruct (sorted_days_facts set_iter D Hiter) as (Hsorted & Hmem & Hlen).
  assert (Htotal : size D
                   = length (remove_dups (map (fun t => date_of (TripModel.start_time t))
                                              (trips s)))).
  { rewrite Hsize. apply Permutation_length.
    apply NoDup_Permutation; [apply NoDup_remove_dups..|].
    intros d. rewrite !elem_of_remove_dups, !list_elem_of_fmap.
    split; intros (t & -> & Ht); exists t; split; try done.
    - by rewrite trips_by_start_time_perm in Ht.
    - by rewrite trips_by_start_time_perm. }
  assert (Hcount : (size D <= length (trips s))%nat).
  { rewrite Htotal. etransitivity; [apply remove_dups_length_le|].
    by rewrite length_map. }
  destruct (sorted_dates (set_iter D)) as [|first rest] eqn:Esorted.
  { exfalso. destruct (trips s) as [|t0 l0] eqn:Etrips; [done|].
    assert (Hin : date_of (TripModel.start_time t0) ∈ D).
    { apply HD. exists t0. split; [|done]. rewrite Etrips. by left. }
    by apply Hmem, elem_of_nil in Hin. }
  exists D, first, rest.
  rewrite bool_decide_eq_false_2 in E by done. cbn [negb andb] in E.
  destruct (bool_decide (today ∈ D)) eqn:Etoday.
  - apply bool_decide_eq_true in Etoday.
    destruct (count_back_spec D fuel today 0) as (c & Ec & Hc & Hrun & Hstop).
    { assert (size (filter (fun d : Z => (d <= today)%Z) D) <= size D)%nat; [|lia].
      apply subseteq_size. intros x. rewrite elem_of_filter. tauto. }
    rewrite Ec, Z.add_0_l in E. exists c. repeat (split; [done|]). done.
  - apply bool_decide_eq_false in Etoday. exists 0.
    repeat (split; [done|]). split; [lia|]. by rewrite Z.sub_0_r.
Qed.

(** X19. [find_travel_streaks] returns once the fuel exceeds the number of
    trips.  Its longest streak is the length of the longest run of
    consecutive calendar days on each of which some trip starts: such a run
    exists and no run is longer; total_travel_days is the number of distinct
    start dates, and the longest streak cannot exceed it. *)
Theorem X19_longest_streak set_iter today fuel s :
  (forall X : gset Z, set_iter X ≡ₚ elements X) ->
  (length (trips s) < fuel)%nat ->
  exists r,
    find_travel_streaks set_iter today fuel s = Some r
    /\ (exists first, consecutive_days s first (TravelStreaks.longest_streak r))
    /\ (forall first n, consecutive_days s first n ->
                        n <= TravelStreaks.longest_streak r)
    /\ TravelStreaks.total_travel_days r
       = Z.of_nat (length (remove_dups
                             (map (fun t => date_of (TripModel.start_time t))
                                  (trips s))))
    /\ TravelStreaks.longest_streak r <= TravelStreaks.total_travel_days r
       <= Z.of_nat (length (trips s)).
Proof.
  intros Hiter Hfuel. destruct (decide (trips s = [])) as [Etrips|Hne].
  - exists {| TravelStreaks.longest_streak := 0; TravelStreaks.current_streak := 0;
              TravelStreaks.total_travel_days := 0 |}.
    split; [unfold find_travel_streaks; by rewrite Etrips|].
    rewrite Etrips. cbn. split; [exists 0; intros k Hk; lia|]. split; [|done].
    intros first n Hn. destruct (decide (n <= 0)) as [|Hpos]; [done|]. exfalso.
    destruct (Hn 0 ltac:(lia)) as (t & Ht & _). rewrite Etrips in Ht.
    by apply elem_of_nil in Ht.
  - destruct (find_travel_streaks_parts set_iter today fuel s Hiter Hfuel Hne)
      as (D & first & rest & c & HD & Hsorted & Hmem & Hlen & Htotal & Hcount & E & _).
    rewrite E. eexists. split; [done|].
    cbn [TravelStreaks.longest_streak TravelStreaks.total_travel_days].
    destruct (streak_loop_longest first rest Hsorted) as (H1 & (d & Hd) & H3).
    split; [|split; [|split; [|split]]].
    + exists d. intros k Hk. apply HD, Hmem. by apply Hd.
    + intros d' n Hn. apply (H3 d'). intros k Hk. apply Hmem, HD. by apply Hn.
    + by rewrite Htotal.
    + rewrite <- Hlen. by apply (strictly_ascending_span _ Hsorted d).
    + lia.
Qed.

Lemma X19_longest_streak_witness :
  exists r,
    find_travel_streaks elements 5 5 four_day_trips = Some r
    /\ TravelStreaks.longest_streak r = 3
    /\ consecutive_days four_day_trips 1 3.
Proof.
  destruct (X19_longest_streak elements 5 5 four_day_trips) as (r & E & _).
  - done.
  - vm_compute. lia.
  - assert (Hrun : consecutive_days four_day_trips 1 3).
    { intros k Hk.
      assert (Hcases : k = 0 \/ k = 1 \/ k = 2) by lia.
      destruct Hcases as [-> | [-> | ->]].
      - exists (day_trip 2 1 (Some "IN_PASSENGER_VEHICLE") 60000).
        split; [|reflexivity]. right. left.
      - exists (day_trip 3 2 None 12000).
        split; [|reflexivity]. right. right. left.
      - exists (day_trip 4 3 (Some "WALKING") 700000).
        split; [|reflexivity]. right. right. right. left. }
    exists r. split; [exact E|]. split; [|exact Hrun]. clear Hrun.
    vm_compute in E. injection E as <-. reflexivity.
Defined.

(** X20. The current streak of [find_travel_streaks] is the number of
    consecutive travel days that end today: every one of the last
    current_streak days up to today has a trip starting on it, the day before
    them has none, and the current streak never exceeds the longest one. *)
Theorem X20_current_streak set_iter today fuel s :
  (forall X : gset Z, set_iter X ≡ₚ elements X) ->
  (length (trips s) < fuel)%nat ->
  exists r,
    find_travel_streaks set_iter today fuel s = Some r
    /\ 0 <= TravelStreaks.current_streak r <= TravelStreaks.longest_streak r
    /\ (forall k, 0 <= k < TravelStreaks.current_streak r -> travel_day s (today - k))
    /\ ~ travel_day s (today - TravelStreaks.current_streak r).
Proof.
  intros Hiter Hfuel. destruct (decide (trips s = [])) as [Etrips|Hne].
  - exists {| TravelStreaks.longest_streak := 0; TravelStreaks.current_streak := 0;
              TravelStreaks.total_travel_days := 0 |}.
    split; [unfold find_travel_streaks; by rewrite Etrips|].
    cbn. split; [lia|]. split; [intros k Hk; lia|].
    intros (t & Ht & _). rewrite Etrips in Ht. by apply elem_of_nil in Ht.
  - destruct (find_travel_streaks_parts set_iter today fuel s Hiter Hfuel Hne)
      as (D & first & rest & c & HD & Hsorted & Hmem & _ & _ & _ & E & Hc & Hrun & Hstop).
    rewrite E. eexists. split; [done|].
    cbn [TravelStreaks.longest_streak TravelStreaks.current_streak].
    destruct (streak_loop_longest first rest Hsorted) as (_ & _ & H3).
    split; [|split].
    + split; [done|]. apply (H3 (today - c + 1)). intros k Hk. apply Hmem.
      replace (today - c + 1 + k) with (today - (c - 1 - k)) by lia.
      apply Hrun. lia.
    + intros k Hk. apply HD. by apply Hrun.
    + intros H. apply Hstop. by apply HD.
Qed.

Lemma X20_current_streak_witness :
  exists r,
    find_travel_streaks elements 3 5 four_day_trips = Some r
    /\ TravelStreaks.current_streak r = 3.
Proof.
  destruct (X20_current_streak elements 3 5 four_day_trips)
    as (r & E & _).
  - done.
  - vm_compute. lia.
  - exists r. split; [exact E|]. vm_compute in E. injection E as <-. reflexivity.
Defined.

(** * Transport modes *)

(** ** Counters and grouped rows *)

Lemma Counter_fold_default l : forall (c : gmap string Z) k,
  default 0 (fold_left (fun counts k => <[k := default 0 (counts !! k) + 1]> counts) l c
             !! k)
  = default 0 (c !! k) + sql_count (String.eqb k) l.
Proof.
  induction l as [|x l IH]; intros c k; cbn [fold_left].
  - unfold sql_count. cbn. lia.
  - rewrite IH, sql_count_cons. destruct (String.eqb_spec k x) as [-> |Hne].
    + rewrite lookup_insert_eq. cbn. lia.
    + rewrite lookup_insert_ne by done. lia.
Qed.

Lemma Counter_fold_is_Some l : forall (c : gmap string Z) k,
  is_Some (fold_left (fun counts k => <[k := default 0 (counts !! k) + 1]> counts) l c
           !! k)
  <-> is_Some (c !! k) \/ k ∈ l.
Proof.
  induction l as [|x l IH]; intros c k; cbn [fold_left].
  - rewrite elem_of_nil. tauto.
  - rewrite IH, lookup_insert_is_Some, elem_of_cons.
    destruct (decide (x = k)) as [-> |Hne]; [tauto|].
    split.
    + intros [[?|[_ ?]]|?]; [done|by left|by right; right].
    + intros [?|[?|?]]; [left; right; done|congruence|by right].
Qed.

(** A counter holds a key exactly when the key occurs, with the number of
    its occurrences. *)
Lemma Counter_lookup l k n :
  Counter l !! k = Some n <-> 0 < n /\ n = sql_count (String.eqb k) l.
Proof.
  pose proof (Counter_fold_default l ∅ k) as Hd.
  pose proof (Counter_fold_is_Some l ∅ k) as Hs.
  fold (Counter l) in Hd, Hs. rewrite lookup_empty in Hd, Hs. cbn in Hd.
  split.
  - intros E. rewrite E in Hd. cbn in Hd. split; [|done].
    rewrite Hd. apply sql_count_pos. exists k. split; [|apply String.eqb_refl].
    destruct Hs as [[Hs|Hs] _]; [by exists n| |done]. by destruct Hs.
  - intros [Hpos ->]. apply sql_count_pos in Hpos as (x & Hx & Heq).
    apply String.eqb_eq in Heq as <-.
    destruct Hs as [_ [m Hm]]; [by right|]. rewrite Hm in Hd. cbn in Hd.
    by rewrite Hm, Hd.
Qed.

Lemma Counter_default l k :
  default 0 (Counter l !! k) = sql_count (String.eqb k) l.
Proof.
  pose proof (Counter_fold_default l ∅ k) as Hd.
  fold (Counter l) in Hd. by rewrite lookup_empty in Hd.
Qed.

Lemma sql_count_filter {A} (f g : A -> bool) l :
  sql_count f (List.filter g l) = sql_count (fun x => g x && f x) l.
Proof.
  induction l as [|x l IH]; [done|]. cbn [List.filter].
  rewrite sql_count_cons. destruct (g x); cbn [andb]; [|done].
  by rewrite sql_count_cons, IH.
Qed.

Lemma sql_count_le {A} (f g : A -> bool) l :
  (forall x, f x = true -> g x = true) -> sql_count f l <= sql_count g l.
Proof.
  intros H. induction l as [|x l IH]; [done|]. rewrite !sql_count_cons.
  specialize (H x). destruct (f x), (g x); try lia; by specialize (H eq_refl).
Qed.

Lemma sql_count_modes mode l :
  sql_count (String.eqb mode) (omap TripModel.primary_transport_mode l)
  = sql_count (has_mode mode) l.
Proof.
  induction l as [|t l IH]; [done|]. cbn [omap list_omap].
  rewrite sql_count_cons. unfold has_mode at 1.
  destruct (TripModel.primary_transport_mode t) as [m|]; [|by rewrite Z.add_0_l].
  by rewrite sql_count_cons, IH, (String.eqb_sym m mode).
Qed.

Lemma has_mode_primary mode t : has_mode mode t = true -> has_primary_mode t = true.
Proof.
  unfold has_mode, has_primary_mode.
  by destruct (TripModel.primary_transport_mode t).
Qed.

(** ** The ranges *)

(** A distance falls in exactly one range when it is not negative, and in
    none otherwise. *)
Lemma range_indicator (d : Q) :
  sum_Z (map (fun '(_, min_km, max_km) =>
                if Qgeb d (min_km * 1000)
                   && match max_km : option Q with
                      | Some max_km => Qltb d (max_km * 1000)
                      | None => true
                      end
                then 1 else 0)
             distance_ranges)
  = if Qle_bool 0 d then 1 else 0.
Proof.
  unfold distance_ranges, Qgeb, Qltb. cbn [map].
  rewrite !sum_Z_cons. change (sum_Z []) with 0.
  assert (Hmono : forall a b : Q, (a <= b)%Q -> Qle_bool b d = true -> Qle_bool a d = true).
  { intros a b Hab Hb. apply Qle_bool_iff. apply Qle_bool_iff in Hb.
    by apply (Qle_trans _ b). }
  assert (E0 : Qle_bool (0 * 1000) d = Qle_bool 0 d) by done.
  rewrite E0.
  pose proof (Hmono 0%Q (10 * 1000)%Q ltac:(done)) as H1.
  pose proof (Hmono (10 * 1000)%Q (50 * 1000)%Q ltac:(done)) as H2.
  pose proof (Hmono (50 * 1000)%Q (100 * 1000)%Q ltac:(done)) as H3.
  pose proof (Hmono (100 * 1000)%Q (250 * 1000)%Q ltac:(done)) as H4.
  pose proof (Hmono (250 * 1000)%Q (500 * 1000)%Q ltac:(done)) as H5.
  destruct (Qle_bool 0 d), (Qle_bool (10 * 1000) d), (Qle_bool (50 * 1000) d),
    (Qle_bool (100 * 1000) d), (Qle_bool (250 * 1000) d), (Qle_bool (500 * 1000) d);
    cbn [negb andb]; try reflexivity;
    try (by specialize (H1 eq_refl)); try (by specialize (H2 eq_refl));
    try (by specialize (H3 eq_refl)); try (by specialize (H4 eq_refl));
    try (by specialize (H5 eq_refl)).
Qed.

Lemma preferences_count min_km max_km mode l :
  sql_count (String.eqb mode)
    (omap TripModel.primary_transport_mode
          (List.filter (in_distance_range min_km max_km) l))
  = sql_count (fun t => in_distance_range min_km max_km t && has_mode mode t) l.
Proof. by rewrite sql_count_modes, sql_count_filter. Qed.

(** Over the ranges, the trips of a mode are counted once when their
    distance is not negative. *)
Lemma range_counts_total mode l :
  sum_Z (map (fun '(_, min_km, max_km) =>
                sql_count (fun t => in_distance_range min_km max_km t && has_mode mode t) l)
             distance_ranges)
  = sql_count (fun t => Qle_bool 0 (TripModel.total_distance_meters t) && has_mode mode t)
      l.
Proof.
  induction l as [|a l IH]; [done|].
  set (ind := fun r : string * Q * option Q =>
                let '(_, min_km, max_km) := r in
                if in_distance_range min_km max_km a && has_mode mode a then 1 else 0).
  set (cnt := fun r : string * Q * option Q =>
                let '(_, min_km, max_km) := r in
                sql_count (fun t => in_distance_range min_km max_km t && has_mode mode t) l).
  rewrite (List.map_ext _ (fun r => ind r + cnt r))
    by (intros [[? ?] ?]; apply sql_count_cons).
  rewrite sum_Z_plus. unfold cnt. rewrite IH, sql_count_cons. f_equal.
  unfold ind. destruct (has_mode mode a) eqn:Em.
  - rewrite andb_true_r, <- range_indicator. f_equal.
    apply List.map_ext. intros [[? min_km] max_km].
    unfold in_distance_range. rewrite (has_mode_primary _ _ Em).
    by rewrite !andb_true_r.
  - rewrite andb_false_r. unfold distance_ranges. cbn [map].
    rewrite !andb_false_r. done.
Qed.

(** X21. find_transport_mode_preferences_by_distance lists its six ranges
    in order; under a range a mode appears exactly when some trip with that
    mode has its distance in the range, with the number of such trips.  Over
    the ranges every trip that has a mode and a distance that is not
    negative is counted exactly once, and a trip with a negative distance or
    without a mode is counted nowhere. *)
Theorem X21_mode_preferences_by_distance (s : Session) :
  let preferences := find_transport_mode_preferences_by_distance s in
  map fst preferences
  = ["< 10 km"; "10-50 km"; "50-100 km"; "100-250 km"; "250-500 km"; "500+ km"]
  /\ Forall2 (fun '(_, min_km, max_km) '(_, mode_counts) =>
                forall mode n,
                  (mode_counts : gmap string Z) !! mode = Some n
                  <-> 0 < n
                      /\ n = sql_count (fun t => in_distance_range min_km max_km t
                                                 && has_mode mode t) (trips s))
       distance_ranges preferences
  /\ forall mode,
       sum_Z (map (fun '(_, mode_counts) =>
                     default 0 ((mode_counts : gmap string Z) !! mode)) preferences)
       = sql_count (fun t => Qle_bool 0 (TripModel.total_distance_meters t)
                             && has_mode mode t) (trips s).
Proof.
  intros preferences. split; [done|]. split.
  - unfold preferences, find_transport_mode_preferences_by_distance.
    apply Forall2_fmap_r, Forall_Forall2_diag, Forall_forall.
    intros [[range_name min_km] max_km] _ mode n.
    by rewrite Counter_lookup, preferences_count.
  - intros mode. unfold preferences, find_transport_mode_preferences_by_distance.
    rewrite map_map, <- range_counts_total. f_equal.
    apply List.map_ext. intros [[range_name min_km] max_km].
    by rewrite Counter_default, preferences_count.
Qed.

(** ** The breakdown by mode *)

Lemma fold_left_fmap {A B C} (f : C -> B -> C) (g : A -> B) l : forall c,
  fold_left f (map g l) c = fold_left (fun c x => f c (g x)) l c.
Proof. induction l as [|x l IH]; intros c; [done|]. cbn. apply IH. Qed.

Lemma fold_insert_lookup {V} (val : string -> V) (keys : list string) :
  forall (m0 : gmap string V) k,
    fold_left (fun m key => <[key := val key]> m) keys m0 !! k
    = if decide (k ∈ keys) then Some (val k) else m0 !! k.
Proof.
  induction keys as [|x keys IH]; intros m0 k; cbn [fold_left].
  - by rewrite decide_False by apply not_elem_of_nil.
  - rewrite IH. destruct (decide (k ∈ keys)) as [Hin|Hout].
    + by rewrite decide_True by (by right).
    + destruct (decide (x = k)) as [-> |Hne].
      * rewrite lookup_insert_eq. by rewrite decide_True by (by left).
      * rewrite lookup_insert_ne by done.
        rewrite decide_False; [done|]. intros Hin.
        apply elem_of_cons in Hin as [?|?]; congruence.
Qed.

Lemma fold_insert_to_list {V} (val : string -> V) (keys : list string) :
  NoDup keys ->
  map_to_list (fold_left (fun m key => <[key := val key]> m) keys (∅ : gmap string V))
  ≡ₚ map (fun key => (key, val key)) keys.
Proof.
  intros Hnd.
  assert (E : fold_left (fun m key => <[key := val key]> m) keys (∅ : gmap string V)
              = list_to_map (map (fun key => (key, val key)) keys)).
  { apply map_eq. intros k. rewrite fold_insert_lookup, lookup_empty.
    destruct (decide (k ∈ keys)) as [Hin|Hout].
    - symmetry. apply elem_of_list_to_map.
      + rewrite <- list_fmap_compose. by rewrite list_fmap_id.
      + apply list_elem_of_fmap. by exists k.
    - symmetry. apply not_elem_of_list_to_map.
      rewrite <- list_fmap_compose. by rewrite list_fmap_id. }
  rewrite E. apply map_to_list_to_map.
  rewrite <- list_fmap_compose. by rewrite list_fmap_id.
Qed.


Lemma filter_filter_and {A} (f g : A -> bool) l :
  List.filter f (List.filter g l) = List.filter (fun x => g x && f x) l.
Proof.
  induction l as [|x l IH]; [done|]. cbn [List.filter].
  destruct (g x); cbn [andb List.filter]; [|done]. by rewrite IH.
Qed.

(** The group of a mode among the rows of the query. *)
Lemma group_trips_by_mode start_date end_date mode s :
  List.filter (has_mode mode)
    (List.filter (fun t => has_primary_mode t && trip_in_range start_date end_date t)
                 (trips s))
  = trips_by_mode start_date end_date mode s.
Proof.
  rewrite filter_filter_and. unfold trips_by_mode. apply List.filter_ext.
  intros t. destruct (has_mode mode t) eqn:Em.
  - rewrite (has_mode_primary _ _ Em). cbn. by rewrite andb_true_r.
  - by rewrite andb_false_r.
Qed.

Lemma elem_of_modes mode l :
  mode ∈ remove_dups (omap TripModel.primary_transport_mode l)
  <-> List.filter (has_mode mode) l <> [].
Proof.
  rewrite elem_of_remove_dups, list_elem_of_omap. split.
  - intros (t & Ht & Hm) E.
    assert (Hin : t ∈ List.filter (has_mode mode) l).
    { apply list_elem_of_In, filter_In. split; [by apply list_elem_of_In|].
      unfold has_mode. rewrite Hm. apply String.eqb_refl. }
    rewrite E in Hin. by apply elem_of_nil in Hin.
  - intros Hne. destruct (List.filter (has_mode mode) l) as [|t rest] eqn:E; [done|].
    assert (Hin : t ∈ List.filter (has_mode mode) l) by (rewrite E; by left).
    apply list_elem_of_In, filter_In in Hin as [Hin Hm]. exists t.
    split; [by apply list_elem_of_In|]. unfold has_mode in Hm.
    destruct (TripModel.primary_transport_mode t) as [m|]; [|done].
    by apply String.eqb_eq in Hm as ->.
Qed.

Lemma fold_left_pointwise {A B} (f g : B -> A -> B) l :
  (forall b a, f b a = g b a) -> forall b, fold_left f l b = fold_left g l b.
Proof.
  intros H. induction l as [|x l IH]; intros b; [done|]. cbn. by rewrite H, IH.
Qed.

(** The dictionary the loop builds from the rows of the query. *)
Lemma breakdown_rows start_date end_date s :
  get_transport_mode_breakdown start_date end_date s
  = fold_left
      (fun m mode => <[mode := mode_stats_of (trips_by_mode start_date end_date mode s)]> m)
      (remove_dups
         (omap TripModel.primary_transport_mode
               (List.filter (fun t => has_primary_mode t
                                      && trip_in_range start_date end_date t)
                            (trips s))))
      ∅.
Proof.
  unfold get_transport_mode_breakdown, mode_rows. rewrite fold_left_fmap.
  apply fold_left_pointwise. intros m mode. cbn beta iota.
  by rewrite group_trips_by_mode.
Qed.

Lemma breakdown_lookup start_date end_date s mode :
  get_transport_mode_breakdown start_date end_date s !! mode
  = match trips_by_mode start_date end_date mode s with
    | [] => None
    | group => Some (mode_stats_of group)
    end.
Proof.
  rewrite breakdown_rows,
    (fold_insert_lookup
       (fun mode => mode_stats_of (trips_by_mode start_date end_date mode s))).
  rewrite lookup_empty.
  pose proof (elem_of_modes mode
                (List.filter (fun t => has_primary_mode t
                                       && trip_in_range start_date end_date t)
                             (trips s))) as Hm.
  rewrite group_trips_by_mode in Hm.
  destruct (decide (mode ∈ _)) as [Hin|Hout].
  - apply Hm in Hin. by destruct (trips_by_mode start_date end_date mode s).
  - destruct (trips_by_mode start_date end_date mode s) as [|t rest]; [done|].
    exfalso. apply Hout, Hm. done.
Qed.

(** [AVG(...) or 0] divided by a number is the average of the column divided
    by it. *)
Lemma fdiv_or_0_sql_avg l d :
  l <> [] ->
  fdiv (or_0 (sql_avg l)) d
  = fdiv (fdiv (sum_floats l) (inject_Z (Z.of_nat (length l)))) d.
Proof.
  intros Hne. unfold fdiv at 1. rewrite round64_or_0. by destruct l.
Qed.

(** X22. get_transport_mode_breakdown has an entry for a mode exactly when
    some trip of the date range has that mode.  The entry counts the trips of
    the range with the mode; its total is their distances added up in double
    precision and divided by 1000, and its average is that sum divided by
    the count and then by 1000; neither is negative when no distance is.
    The counts of all entries add up to the number of trips of the range
    that have a mode, which is at most the total_trips of get_overview over
    the same range. *)
Theorem X22_transport_mode_breakdown (float_sum : list Q -> Q)
    (start_date end_date : option datetime) (s : Session) :
  let breakdown := get_transport_mode_breakdown start_date end_date s in
  (forall mode,
     breakdown !! mode = None <-> trips_by_mode start_date end_date mode s = [])
  /\ (forall mode r,
        breakdown !! mode = Some r ->
        let group := trips_by_mode start_date end_date mode s in
        ModeStats.count r = Z.of_nat (length group)
        /\ 0 < ModeStats.count r
        /\ ModeStats.total_distance_km r
           = fdiv (sum_floats (map TripModel.total_distance_meters group)) 1000
        /\ ModeStats.avg_distance_km r
           = fdiv (fdiv (sum_floats (map TripModel.total_distance_meters group))
                        (inject_Z (ModeStats.count r))) 1000
        /\ (Forall (fun t => (0 <= TripModel.total_distance_meters t)%Q) group ->
            (0 <= ModeStats.total_distance_km r)%Q
            /\ (0 <= ModeStats.avg_distance_km r)%Q))
  /\ sum_Z (map (fun '(_, r) => ModeStats.count r) (map_to_list breakdown))
     = sql_count (fun t => has_primary_mode t && trip_in_range start_date end_date t)
         (trips s)
  /\ sum_Z (map (fun '(_, r) => ModeStats.count r) (map_to_list breakdown))
     <= Overview.total_trips (get_overview float_sum start_date end_date s).
Proof.
  intros breakdown.
  assert (Hsum : sum_Z (map (fun '(_, r) => ModeStats.count r) (map_to_list breakdown))
                 = sql_count (fun t => has_primary_mode t
                                       && trip_in_range start_date end_date t)
                     (trips s)).
  { unfold breakdown. rewrite breakdown_rows.
    set (rows := List.filter (fun t => has_primary_mode t
                                       && trip_in_range start_date end_date t)
                             (trips s)).
    set (keys := omap TripModel.primary_transport_mode rows).
    rewrite (sum_Z_perm _ (map (fun '(_, r) => ModeStats.count r)
                               (map (fun mode =>
                                       (mode, mode_stats_of
                                                (trips_by_mode start_date end_date mode s)))
                                    (remove_dups keys)))).
    2:{ apply Permutation_map.
        apply (fold_insert_to_list
                 (fun mode => mode_stats_of (trips_by_mode start_date end_date mode s))).
        apply NoDup_remove_dups. }
    rewrite map_map.
    rewrite (List.map_ext _ (fun mode => snd (mode, sql_count (String.eqb mode) keys))).
    2:{ intros mode. cbn [snd mode_stats_of ModeStats.count].
        unfold keys. rewrite sql_count_modes. unfold rows.
        rewrite <- group_trips_by_mode. fold rows.
        rewrite sql_count_filter. apply sql_count_ext. intros t.
        by rewrite andb_true_r. }
    rewrite <- (map_map (fun mode => (mode, sql_count (String.eqb mode) keys)) snd).
    fold (group_count keys). rewrite group_count_total.
    assert (Hlen : forall l, Forall (fun t => has_primary_mode t = true) l ->
                             length (omap TripModel.primary_transport_mode l) = length l).
    { induction 1 as [|t l Ht _ IH]; [done|]. cbn [omap list_omap].
      unfold has_primary_mode in Ht.
      destruct (TripModel.primary_transport_mode t); [|done]. cbn [length]. by rewrite IH. }
    unfold keys. rewrite Hlen.
    - done.
    - apply Forall_forall. intros t Ht. unfold rows in Ht.
      apply list_elem_of_In, filter_In in Ht as [_ Ht].
      by apply andb_true_iff in Ht as [? _]. }
  split; [|split; [|split]].
  - intros mode. unfold breakdown. rewrite breakdown_lookup.
    by destruct (trips_by_mode start_date end_date mode s).
  - intros mode r E group. unfold breakdown in E. rewrite breakdown_lookup in E.
    fold group in E. destruct group as [|t rest] eqn:Eg; [done|].
    injection E as <-.
    cbn [mode_stats_of ModeStats.count ModeStats.total_distance_km
         ModeStats.avg_distance_km].
    rewrite sql_count_all, fdiv_or_0_sql_sum, fdiv_or_0_sql_avg by done.
    rewrite length_map.
    split; [done|]. split; [cbn [length]; lia|]. split; [done|]. split; [done|].
    intros Hpos.
    assert (Hs : (0 <= sum_floats (map TripModel.total_distance_meters (t :: rest)))%Q).
    { apply sum_floats_nonneg. by apply Forall_fmap. }
    split; [by apply fdiv_nonneg|].
    apply fdiv_nonneg; [|done]. apply fdiv_nonneg; [done|].
    unfold Qlt, inject_Z. cbn [Qnum Qden length]. lia.
  - exact Hsum.
  - rewrite Hsum.
    destruct (overview_figures float_sum start_date end_date s) as (H1 & _). rewrite H1.
    apply (sql_count_le
             (fun t => has_primary_mode t && trip_in_range start_date end_date t)
             (trip_in_range start_date end_date)).
    intros t Ht. by apply andb_true_iff in Ht as [_ ?].
Qed.

(** * Preferred travel modes *)

Lemma insert_by_affinity_perm x l : insert_by_affinity x l ≡ₚ x :: l.
Proof.
  induction l as [|h l IH]; cbn; [done|].
  destruct (Qle_bool _ _); [|done]. rewrite IH. apply Permutation_swap.
Qed.

Lemma sorted_by_affinity_perm l : sorted_by_affinity l ≡ₚ l.
Proof.
  unfold sorted_by_affinity.
  assert (H : forall acc, fold_left (fun acc x => insert_by_affinity x acc) l acc
                          ≡ₚ acc ++ l).
  { induction l as [|x l IH]; intros acc; cbn [fold_left].
    - by rewrite app_nil_r.
    - rewrite IH, insert_by_affinity_perm.
      change (x :: acc) with ([x] ++ acc).
      rewrite (Permutation_app_comm [x] acc), <- app_assoc. done. }
  apply H.
Qed.

(** Larger affinities first. *)
Lemma insert_by_affinity_sorted x l :
  StronglySorted (fun a b => (TravelModeAffinity.affinity b
                              <= TravelModeAffinity.affinity a)%Q) l ->
  StronglySorted (fun a b => (TravelModeAffinity.affinity b
                              <= TravelModeAffinity.affinity a)%Q)
    (insert_by_affinity x l).
Proof.
  induction 1 as [|h l Hs IH Hf]; cbn [insert_by_affinity].
  - repeat constructor.
  - destruct (Qle_bool _ _) eqn:E.
    + apply Qle_bool_iff in E. constructor; [done|].
      rewrite insert_by_affinity_perm. by constructor.
    + assert (Hlt : (TravelModeAffinity.affinity h < TravelModeAffinity.affinity x)%Q).
      { apply Qnot_le_lt. intros Hle. apply Qle_bool_iff in Hle. congruence. }
      constructor; [by constructor|]. constructor; [by apply Qlt_le_weak|].
      eapply Forall_impl; [exact Hf|]. intros b Hb. cbn in Hb.
      apply Qlt_le_weak. by eapply Qle_lt_trans.
Qed.

Lemma sorted_by_affinity_sorted l :
  StronglySorted (fun a b => (TravelModeAffinity.affinity b
                              <= TravelModeAffinity.affinity a)%Q)
    (sorted_by_affinity l).
Proof.
  unfold sorted_by_affinity.
  assert (H : forall acc,
            StronglySorted (fun a b => (TravelModeAffinity.affinity b
                                        <= TravelModeAffinity.affinity a)%Q) acc ->
            StronglySorted (fun a b => (TravelModeAffinity.affinity b
                                        <= TravelModeAffinity.affinity a)%Q)
              (fold_left (fun acc x => insert_by_affinity x acc) l acc)).
  { induction l as [|x l IH]; intros acc Hacc; cbn [fold_left]; [done|].
    by apply IH, insert_by_affinity_sorted. }
  apply H. constructor.
Qed.

(** An element goes in after those of its own affinity. *)
Lemma insert_by_affinity_stable q x l :
  StronglySorted (fun a b => (TravelModeAffinity.affinity b
                              <= TravelModeAffinity.affinity a)%Q) l ->
  List.filter (fun m => Qeq_bool (TravelModeAffinity.affinity m) q)
    (insert_by_affinity x l)
  = List.filter (fun m => Qeq_bool (TravelModeAffinity.affinity m) q) (l ++ [x]).
Proof.
  induction 1 as [|h l Hs IH Hf]; cbn [insert_by_affinity app]; [done|].
  destruct (Qle_bool _ _) eqn:E.
  - cbn [List.filter]. by rewrite IH.
  - assert (Hlt : (TravelModeAffinity.affinity h < TravelModeAffinity.affinity x)%Q).
    { apply Qnot_le_lt. intros Hle. apply Qle_bool_iff in Hle. congruence. }
    change (h :: l ++ [x]) with ((h :: l) ++ [x]). rewrite List.filter_app.
    cbn [List.filter app].
    destruct (Qeq_bool (TravelModeAffinity.affinity x) q) eqn:Ex; [|by rewrite app_nil_r].
    apply Qeq_bool_iff in Ex.
    assert (Hnone : forall m, m ∈ h :: l ->
              Qeq_bool (TravelModeAffinity.affinity m) q = false).
    { intros m Hm. destruct (Qeq_bool _ q) eqn:Em; [|done]. exfalso.
      apply Qeq_bool_iff in Em.
      assert (Hle : (TravelModeAffinity.affinity m <= TravelModeAffinity.affinity h)%Q).
      { apply elem_of_cons in Hm as [-> |Hm]; [apply Qle_refl|].
        rewrite Forall_forall in Hf. by apply Hf. }
      rewrite Em, <- Ex in Hle. by apply Qle_not_lt in Hle. }
    rewrite (Hnone h) by (by left).
    assert (Hl : List.filter (fun m => Qeq_bool (TravelModeAffinity.affinity m) q) l = []).
    { clear -Hnone. induction l as [|m l IHl]; [done|]. cbn [List.filter].
      rewrite (Hnone m) by (right; by left). apply IHl.
      intros m' Hm'. apply Hnone. apply elem_of_cons in Hm' as [-> |Hm'].
      - by left.
      - right. by right. }
    by rewrite Hl.
Qed.

Lemma sorted_by_affinity_stable q l :
  List.filter (fun m => Qeq_bool (TravelModeAffinity.affinity m) q) (sorted_by_affinity l)
  = List.filter (fun m => Qeq_bool (TravelModeAffinity.affinity m) q) l.
Proof.
  unfold sorted_by_affinity.
  assert (H : forall acc,
            StronglySorted (fun a b => (TravelModeAffinity.affinity b
                                        <= TravelModeAffinity.affinity a)%Q) acc ->
            List.filter (fun m => Qeq_bool (TravelModeAffinity.affinity m) q)
              (fold_left (fun acc x => insert_by_affinity x acc) l acc)
            = List.filter (fun m => Qeq_bool (TravelModeAffinity.affinity m) q)
                (acc ++ l)).
  { induction l as [|x l IH]; intros acc Hacc; cbn [fold_left].
    - by rewrite app_nil_r.
    - rewrite IH by (by apply insert_by_affinity_sorted).
      rewrite List.filter_app, insert_by_affinity_stable by done.
      rewrite <- List.filter_app, <- app_assoc. done. }
  apply (H []). constructor.
Qed.

Lemma slice_to_length {A} (n : Z) (l : list A) :
  Z.of_nat (length (slice_to n l))
  = if n <? 0 then Z.max 0 (Z.of_nat (length l) + n)
    else Z.min n (Z.of_nat (length l)).
Proof.
  unfold slice_to. destruct (n <? 0) eqn:E; rewrite length_take.
  - apply Z.ltb_lt in E. lia.
  - apply Z.ltb_ge in E. lia.
Qed.

Lemma slice_to_take {A} (n : Z) (l : list A) :
  slice_to n l = take (length (slice_to n l)) l.
Proof.
  unfold slice_to. destruct (n <? 0); rewrite length_take;
    set (k := Z.to_nat _); destruct (decide (k <= length l)%nat).
  - by rewrite Nat.min_l.
  - rewrite Nat.min_r by lia. rewrite !take_ge by lia. done.
  - by rewrite Nat.min_l.
  - rewrite Nat.min_r by lia. rewrite !take_ge by lia. done.
Qed.

Lemma sorted_pairs l :
  StronglySorted (fun a b => (TravelModeAffinity.affinity b
                              <= TravelModeAffinity.affinity a)%Q) l ->
  StronglySorted (fun a b : string * Q => (b.2 <= a.2)%Q)
    (map (fun m => (TravelModeAffinity.mode m, TravelModeAffinity.affinity m)) l).
Proof.
  induction 1 as [|m l Hs IH Hf]; [constructor|].
  cbn [map]. constructor; [exact IH|]. apply Forall_fmap.
  eapply Forall_impl; [exact Hf|]. by intros b Hb.
Qed.

(** X23. Persona.get_preferred_modes returns the modes with the largest
    affinities, largest first, and among equal affinities in the order of
    the persona's list: with the modes it leaves out it is a rearrangement of
    the list, no mode left out has a larger affinity than one returned, and
    it returns min(top_n, len) modes for top_n >= 0 and all but the last
    -top_n for a negative top_n. *)
Theorem X23_get_preferred_modes (top_n : Z) (self : Persona.t) :
  let pairs := map (fun m => (TravelModeAffinity.mode m, TravelModeAffinity.affinity m))
                   (Persona.travel_mode_affinities self) in
  let preferred := get_preferred_modes top_n self in
  let others := other_modes top_n self in
  preferred ++ others ≡ₚ pairs
  /\ StronglySorted (fun a b : string * Q => (b.2 <= a.2)%Q) (preferred ++ others)
  /\ (forall q, with_affinity q (preferred ++ others) = with_affinity q pairs)
  /\ Z.of_nat (length preferred)
     = if top_n <? 0 then Z.max 0 (Z.of_nat (length pairs) + top_n)
       else Z.min top_n (Z.of_nat (length pairs)).
Proof.
  intros pairs preferred others.
  set (pair := fun m => (TravelModeAffinity.mode m, TravelModeAffinity.affinity m)).
  set (sorted_modes := sorted_by_affinity (Persona.travel_mode_affinities self)).
  assert (E : preferred ++ others = map pair sorted_modes).
  { unfold preferred, others, get_preferred_modes, other_modes.
    fold pair sorted_modes. rewrite <- map_app. f_equal.
    rewrite (slice_to_take top_n sorted_modes) at 1. apply take_drop. }
  rewrite E. split; [|split; [|split]].
  - unfold pairs. fold pair. apply Permutation_map, sorted_by_affinity_perm.
  - apply sorted_pairs, sorted_by_affinity_sorted.
  - intros q. unfold with_affinity, pairs. fold pair.
    assert (Hmap : forall l,
              List.filter (fun p : string * Q => Qeq_bool p.2 q) (map pair l)
              = map pair (List.filter
                            (fun m => Qeq_bool (TravelModeAffinity.affinity m) q) l)).
    { induction l as [|m l IHl]; [done|]. cbn [map List.filter]. cbn [pair snd] in *.
      destruct (Qeq_bool _ q); cbn [map]; by rewrite IHl. }
    rewrite !Hmap. unfold sorted_modes. by rewrite sorted_by_affinity_stable.
  - unfold preferred, get_preferred_modes. fold sorted_modes.
    rewrite length_map, slice_to_length. unfold pairs.
    rewrite length_map. unfold sorted_modes.
    by rewrite (Permutation_length (sorted_by_affinity_perm _)).
Qed.
